(* ===== verification/_CoqProject ===== *)
-Q . S2P
Prelude.v
Bits.v
Pci.v
Memory.v
Capability.v
Text.v
Vga.v
VgaSpec.v
E1000.v
E1000Ring.v
E1000Spec.v
FileSystem.v
RamFs.v
RamFsSpec.v
Queue.v
Mutex.v
Semaphore.v
Registry.v
Executor.v
Host.v
Wasm.v
Sdk.v
Device.v
Net.v
NetSpec.v
DhcpSpec.v
Keyboard.v
Idle.v
Platform.v
Cpu.v
Shell.v
ShellSpec.v
Boot.v
Traps.v
TrapsSpec.v
Sockets.v
SocketsSpec.v
Commands.v
CommandsSpec.v
SelfTest.v
TestUtil.v
KernelMain.v
KernelSpec.v
KernelCpu.v
HostSpec.v
HostSecurity.v
HostBehaviour.v
SdkSpec.v
