(* ===== verification/Prelude.v ===== *)
(** * SovelmaOS verification library

    A model of the SovelmaOS microkernel (Rust, [src/src]) and proofs about it.
    The kernel runs WASM processes under a capability discipline on top of a
    cooperative executor, an in-memory filesystem, asynchronous synchronization
    objects and a small network stack, with drivers for PCI, the e1000 network
    card and the VGA text console.  Paths below are relative to [src/src].

    ** How the parts interact

    [kernel_main] ([kernel/src/main.rs]) loads the descriptor tables and enables
    interrupts ([kernel/src/arch/x86_64]), maps the heap, prints the boot log, runs the
    self tests, probes the PCI bus for a network card, creates the network stack
    and leaves three tasks to the executor ([kernel/src/task]): they drive the
    network ([kernel/src/net]), the DHCP client, and the terminal
    ([kernel/src/terminal]), which reads scancodes queued by the keyboard
    interrupt, edits a line and executes commands.

    A WASM process calls host functions ([kernel/src/wasm/host.rs]).  Each one
    pays host fuel, checks a capability of the process ([common/src/capability.rs])
    and then acts on the global filesystem ([kernel/src/fs]) or on the registry
    of mutexes and semaphores ([kernel/src/sync]).  The process itself is a task
    ([kernel/src/wasm/mod.rs]) polled by the executor; applications call the host
    functions through the SDK ([userspace/sdk]).

    Timer, keyboard and exceptions interrupt all of this between any two accesses.
    Kernel code prints and shares its structures under spin locks with interrupts
    enabled.

    ** Files

    - [Prelude]: results, polls and panics; machine integers as [Z] with explicit
      wrap-around ([wrap], [swrap]; [usize] is 64 bits); loops that may panic;
      step-relation induction; the hint databases [rust] and [rust_rw] and the
      tactics used everywhere.
    - [Bits]: bit fields and the tactic [bitwise] for equalities of masks and shifts.
    - [Pci]: [arch/x86_64/pci.rs] over configuration ports.
    - [Memory]: [memory.rs] and [allocator.rs]: the address of the page table, the
      frame allocator over the boot loader's map and the mapping of the heap.
    - [Capability]: [capability.rs] of the common crate (ids, rights, records) and
      the kernel's capability table.
    - [Text]: the operations of [core::str] and [core::num] the kernel uses:
      splitting, UTF-8 validation, decimal and little-endian numbers.
    - [Vga], [VgaSpec]: [arch/x86_64/vga.rs] and the console trait of the HAL;
      [ConsoleOp] is what the rest of the kernel does to the console, and a
      scrollback is the reference the writer refines.
    - [E1000], [E1000Ring], [E1000Spec]: [net/e1000.rs]; the rings interleaved with
      the controller.
    - [FileSystem]: the [FileSystem] trait as a class, and abstract trees with
      the abstract effect of [add_file] and [mkdir].
    - [RamFs], [RamFsSpec]: [fs/ramfs.rs].  [Arc] pointers are locations in a
      store of nodes, so handles and directory entries alias; the specification
      file relates the store to abstract trees.
    - [Queue]: the bounded queue of the [crossbeam] crate as a class with laws.
    - [Mutex], [Semaphore], [Registry]: [sync/mutex.rs], [sync/semaphore.rs],
      [sync/registry.rs]; operations as state-passing functions, and a step
      relation that interleaves the atomic accesses of any number of tasks.
    - [Executor]: [task/mod.rs] and [task/executor.rs].
    - [Host], [HostSpec], [HostSecurity], [HostBehaviour]: [wasm/host.rs].  The
      host functions are programs of a state monad with early exit over the
      process and the kernel globals.
    - [Wasm]: [wasm/mod.rs]; [Sdk], [SdkSpec]: the userspace wrappers, their imports
      and the example application.
    - [Device]: [net/device.rs] and [net/mod.rs], the device trait of [smoltcp].
    - [Net], [NetSpec], [DhcpSpec]: configuration of [net/stack.rs], [net/dhcp.rs], [net/dns.rs]
      and the ports of [net/socket.rs].
    - [Keyboard]: [task/keyboard.rs]; [Idle]: the executor's loop and the keyboard
      stream composed, with interrupts at every access.
    - [Platform]: the HAL wrapper of [arch/x86_64/serial.rs], [arch/x86_64/pic.rs],
      the hardware interrupt handlers and the remaining HAL traits.
    - [Cpu]: one processor that executes code, a list of accesses to locks and
      devices, with a stack of interrupted frames; the lock discipline under which
      interrupts do not matter.
    - [Traps], [TrapsSpec]: [arch/x86_64/interrupts.rs] and [gdt.rs], the output
      functions of [serial.rs] and [vga.rs], the panic handler of [main.rs] and
      [init] of [lib.rs], as such code.
    - [Shell], [ShellSpec]: [terminal/shell.rs] and the command parser of
      [terminal/commands.rs], with all console output.
    - [Boot]: [boot/mod.rs] and [boot/banner.rs].
    - [Sockets], [SocketsSpec]: the sockets of [net/stack.rs] and [net/socket.rs].
    - [Commands], [CommandsSpec]: the execution of commands,
      [terminal/commands.rs].
    - [SelfTest]: [tests.rs]; [TestUtil]: [testutil/mod.rs], the test binary
      [kernel/tests/basic_boot.rs] and the unit tests of [sync].
    - [KernelMain], [KernelSpec]: [main.rs]: boot, the three tasks as futures of the
      executor, and the decoder of [terminal/mod.rs]; [KernelCpu]: the same on the
      interrupted processor.

    ** What the theorems show

    Authority ([HostSecurity], [Capability]): over any history of host calls
    a process only holds capabilities it was granted or derived ones with fewer
    rights; handles stay below the granted directories; without a writable
    directory the file tree does not change, and without any filesystem
    capability the filesystem does not change at all.  Granted table entries stay
    accessible to their owner until revoked, and never after.

    Filesystem ([RamFsSpec]): the store stays a forest; [add_file] and [mkdir_at]
    refine their abstract operations on every branch; reads return exactly the
    requested part of a file and never panic; a stored file reads back; an open
    handle keeps naming the same content.  The same through the SDK ([SdkSpec]):
    open, read and close deliver the bytes and leave nothing behind.

    Synchronization ([Mutex], [Semaphore], [Registry], [Keyboard]): mutual
    exclusion and sequential updates under every interleaving, conservation of
    permits, life cycle of registered objects, and no lost wake-up in the
    keyboard stream.

    Scheduling ([Executor], [Wasm], [HostBehaviour], [KernelSpec]): queued tasks sit
    at their own priority, levels are first in, first out and round robin, [run]
    halts the CPU when the wakes are bounded, a slice makes a bounded number of
    host calls, and the booted kernel serves its three tasks in turn for ever.

    Interrupts ([Idle], [TrapsSpec], [KernelCpu]): the processor halts only with empty queues and,
    as long as no wake is dropped, with every key delivered; kernel output under
    interrupts is the sequential output, no lock is ever waited for and no interrupt
    nests; so the screen of the booted kernel shows the boot log and prompts in every
    history and under all interrupts; every fatal exception is reported and stops the machine, on a stack of its
    own for the double fault.

    Devices ([Pci], [VgaSpec], [E1000Spec], [Platform]): a scan reports exactly the
    functions of the machine; the screen shows the end of all that was printed and
    stays well typed; the descriptor rings are queues under every interleaving with
    the controller.

    Network and terminal ([NetSpec], [SocketsSpec], [ShellSpec], [CommandsSpec],
    [KernelSpec], [DhcpSpec]): the stack follows the DHCP lease, a started client has
    an address at the first poll after the timeout, socket handles are typed, the
    resolver's loop is one pass; every command returns and touches only what it is
    about; no sequence of scancodes panics the terminal task.

    Data ([HostBehaviour], [NetSpec], [Memory], [SdkSpec]): the encodings of
    capabilities and addresses round trip, the heap is mapped to distinct usable
    frames, and the SDK's imports have the types the host registers, all but one.

    Tests ([SelfTest], [TestUtil]): the self tests pass, and the exit status of a test
    binary tells whether its tests do.

    Some theorems show behaviour the code should not have: the lock future can
    miss its wake-up, [sp_mutex_lock] holds nothing, a bad path length panics the
    kernel, a yielded WASM task is never polled again, the two handle counters
    collide, [renew] drops the lease, the booted kernel polls a DHCP client that was
    never started and reads no key, a full transmit ring stalls, the network card
    is given addresses outside memory, redrawing a line appends it, ping replies
    and every second serial byte are lost, [_start] is always refused; a dropped wake
    is final, an exception or panic inside [print!] hangs without a report, a lost
    lease stays on the interface, and a unit test of the semaphore fails.

    ** Parameters

    Third-party code and hardware are classes with their documented behaviour as
    laws, and each class has an instance that the witnesses use: [ArrayQueue]
    ([ListQueue]), [Bitflags] ([Z_Bitflags]), [WasmMemory] ([ByteMemory]),
    [AtomicWaker], [Mapper], [Wasmi], [Smoltcp] and [SocketSet] (the protocol
    engine; the methods called on sockets are the signature [SockOp]),
    [PcKeyboard], [PciHost] ([ConfigSpace]), [Nic] (a register file), [Uart],
    [Pics], [KeyboardPort], [Idt] and [Gdt] (the tables of the [x86_64] crate).
    Futures are a parameter of the executor, instantiated in [KernelMain].  The heap
    answers allocation requests through an oracle that is an argument of each call.

    ** Bounds and fuel

    The drain loops and [run] of [Executor] take fuel and return [None] while they
    still run; [executor_run_halts] gives the amount that suffices,
    [executor_yield_monopoly] and [kernel_tasks_forever] show where none does.  The
    echo task of [Keyboard] needs more fuel than scancodes are queued, at most 100.  The
    resolver's loop gets one more unit than it has queries and [dns_poll_is_pass]
    shows that this is enough.  Retry loops around weak compare-and-exchange take
    the number of spurious failures.  Printed numbers have at most 21 digits, more
    than a [u64] needs.  Everything else is structural recursion.

    ** Not modelled

    The page tables of the [x86_64] crate below the class [Mapper], and the linked-list
    allocator, whose failures are the oracle above.  The serial lines of the network
    driver, of the DHCP client's timeout and of the self tests: the kernel state keeps
    no serial log, and [Traps] takes what a task prints there as arbitrary.  In [KernelMain] an iteration of a task is one step;
    its locks and the interrupts within it are the subject of [Traps].  Nested faults
    (an exception inside a handler) and stack overflow.  Accessors, [Default] and
    marker implementations without behaviour.  Memory orderings are taken as
    sequentially consistent, and the spin locks of the kernel's globals as free
    between polls: no task yields holding one.

    ** Plan

    Next: the content of the serial log; the scancode queue as state shared between
    the tasks of [KernelMain] and the interrupt handlers of [Cpu]. *)

From Stdlib Require Export ZArith Lia Strings.Byte.
From stdpp Require Export prelude gmap strings list fin_maps sorting relations.

Open Scope Z_scope.

Declare Scope rust_scope.
Delimit Scope rust_scope with rust.
Open Scope rust_scope.

(** ** Results, polls and panics *)

(** Rust's [Result<A, E>]. *)
Inductive Result (A E : Type) : Type :=
| Ok (a : A)
| Err (e : E).
Arguments Ok {A E} _.
Arguments Err {A E} _.

(** Rust's [core::task::Poll<A>]. *)
Inductive Poll (A : Type) : Type :=
| Ready (a : A)
| Pending.
Arguments Ready {A} _.
Arguments Pending {A}.

(** The outcome of code that may panic. *)
Inductive Outcome (A : Type) : Type :=
| Return (a : A)
| Panic.
Arguments Return {A} _.
Arguments Panic {A}.

Definition result_bind {A B E} (r : Result A E) (k : A -> Result B E) : Result B E :=
  match r with Ok a => k a | Err e => Err e end.

Definition ok_or {A E} (o : option A) (e : E) : Result A E :=
  match o with Some a => Ok a | None => Err e end.

(** The [?] operator on [Result]. *)
Notation "'let?' x := r 'in' k" := (result_bind r (fun x => k))
  (at level 10, x pattern, r at level 100, k at level 200) : rust_scope.

Definition outcome_bind {A B} (o : Outcome A) (k : A -> Outcome B) : Outcome B :=
  match o with Return a => k a | Panic => Panic end.

(** Sequencing of code that may panic. *)
Notation "'let!' x := o 'in' k" := (outcome_bind o (fun x => k))
  (at level 10, x pattern, o at level 100, k at level 200) : rust_scope.

(** [Option::unwrap], indexing and [expect]: a missing value panics. *)
Definition or_panic {A} (o : option A) : Outcome A :=
  match o with Some a => Return a | None => Panic end.

(** [for x in xs { body }] over a state, stopping at a panic. *)
Fixpoint for_each {A St} (xs : list A) (body : A -> St -> Outcome St) (s : St) : Outcome St :=
  match xs with
  | [] => Return s
  | x :: xs => let! s := body x s in for_each xs body s
  end.

(** ** Machine integers

    A [w]-bit unsigned value is a [Z] in [[0, 2^w)]; [wrap] is the truncating
    cast to it and [swrap] the cast to the two's complement signed type.  The
    target is x86_64, so [usize] is 64 bits wide. *)

Definition wrap (w z : Z) : Z := z mod 2 ^ w.
Definition swrap (w z : Z) : Z := (z + 2 ^ (w - 1)) mod 2 ^ w - 2 ^ (w - 1).
Definition fits (w z : Z) : Prop := 0 <= z < 2 ^ w.

Abbreviation as_u8 := (wrap 8).
Abbreviation as_u16 := (wrap 16).
Abbreviation as_u32 := (wrap 32).
Abbreviation as_u64 := (wrap 64).
Abbreviation as_usize := (wrap 64).
Abbreviation as_i32 := (swrap 32).
Abbreviation as_i64 := (swrap 64).

(** [AtomicU32/AtomicU64::fetch_add(1, _)]: the old value and the wrapped new one. *)
Definition fetch_add (w c : Z) : Z * Z := (c, wrap w (c + 1)).

Definition saturating_sub (a b : Z) : Z := Z.max 0 (a - b).

(** [isize::MAX], the largest size of a Rust allocation. *)
Definition isize_max : Z := 2 ^ 63 - 1.

Create HintDb rust.
Create Rewrite HintDb rust_rw.

Section ints.
Implicit Types w z : Z.

Lemma wrap_range w z : 0 <= w -> fits w (wrap w z).
Proof. intros. apply Z.mod_pos_bound. lia. Qed.

Lemma wrap_small w z : fits w z -> wrap w z = z.
Proof. apply Z.mod_small. Qed.

Lemma wrap_wrap w z : wrap w (wrap w z) = wrap w z.
Proof. apply Zmod_mod. Qed.

Lemma swrap_small w z :
  0 < w -> - 2 ^ (w - 1) <= z < 2 ^ (w - 1) -> swrap w z = z.
Proof.
  intros Hw Hz. unfold swrap.
  assert (2 ^ w = 2 * 2 ^ (w - 1)).
  { rewrite <- Z.pow_succ_r by lia. f_equal. lia. }
  rewrite Z.mod_small; lia.
Qed.

Lemma wrap_swrap w z : wrap w (swrap w z) = wrap w z.
Proof.
  unfold wrap, swrap. rewrite Zminus_mod_idemp_l. f_equal. lia.
Qed.

Lemma swrap_wrap w z : swrap w (wrap w z) = swrap w z.
Proof. unfold wrap, swrap. by rewrite Zplus_mod_idemp_l. Qed.

Lemma fits_mono w w' z : w <= w' -> fits w z -> fits w' z.
Proof.
  intros Hw [? ?]. split; [done|].
  destruct (decide (0 <= w)).
  - eapply Z.lt_le_trans; [done|]. apply Z.pow_le_mono_r; lia.
  - rewrite Z.pow_neg_r in * by lia. lia.
Qed.

Lemma testbit_above w z n : fits w z -> 0 <= w <= n -> Z.testbit z n = false.
Proof.
  intros [? Hz] Hn. destruct (decide (z = 0)) as [->|]; [apply Z.bits_0|].
  apply Z.bits_above_log2; [lia|].
  apply Z.log2_lt_pow2; [lia|].
  eapply Z.lt_le_trans; [done|]. apply Z.pow_le_mono_r; lia.
Qed.

(** Disjoint bit fields: [|] is [+]. *)
Lemma lor_add w a b : 0 <= w -> fits w b -> Z.lor (a * 2 ^ w) b = a * 2 ^ w + b.
Proof.
  intros Hw Hb. symmetry. apply Z.add_nocarry_lor.
  apply Z.bits_inj'. intros n Hn. rewrite Z.land_spec, Z.bits_0.
  destruct (decide (n < w)).
  - by rewrite Z.mul_pow2_bits_low by lia.
  - rewrite (testbit_above w b) by (auto; lia). apply andb_false_r.
Qed.
End ints.
#[export] Hint Resolve wrap_range : rust.
#[export] Hint Rewrite wrap_wrap wrap_swrap swrap_wrap : rust_rw.

(** ** Lists *)

Lemma tail_drop {A} (k : nat) (l : list A) : tail (drop k l) = drop (S k) l.
Proof. revert k. induction l as [|x l IH]; intros [|k]; try done. simpl. by rewrite IH. Qed.

Lemma length_concat_replicate {A} (k : nat) (l : list A) :
  length (concat (replicate k l)) = (k * length l)%nat.
Proof. induction k as [|k IH]; simpl; [done|]. by rewrite length_app, IH. Qed.

Lemma omap_ext_elem {A B} (f g : A -> option B) (l : list A) :
  (forall x, x ∈ l -> f x = g x) -> omap f l = omap g l.
Proof.
  induction l as [|x l IH]; intros H; [done|]. cbn [omap list_omap].
  rewrite (H x), IH; [done| |by left]. intros. apply H. by right.
Qed.

Lemma omap_bind {A B C} (f : B -> option C) (g : A -> list B) (l : list A) :
  omap f (l ≫= g) = l ≫= (fun x => omap f (g x)).
Proof. induction l as [|x l IH]; [done|]. by rewrite !bind_cons, omap_app, IH. Qed.

Lemma bind_option_list {A B} (f : A -> option B) (l : list A) : l ≫= (fun x => option_list (f x)) = omap f l.
Proof.
  induction l as [|x l IH]; [done|]. rewrite bind_cons, IH. cbn [omap list_omap]. by destruct (f x).
Qed.

Lemma submseteq_NoDup {A} (l k : list A) : l ⊆+ k -> NoDup k -> NoDup l.
Proof. intros [k' ->]%submseteq_Permutation Hn. by apply NoDup_app in Hn as [? _]. Qed.

Lemma submseteq_Forall {A} (P : A -> Prop) (l k : list A) : l ⊆+ k -> Forall P k -> Forall P l.
Proof. intros [k' ->]%submseteq_Permutation Hf. by apply Forall_app in Hf as [? _]. Qed.

(** ** Loops *)

Lemma for_each_app {A St} (xs ys : list A) (body : A -> St -> Outcome St) s :
  for_each (xs ++ ys) body s = let! s := for_each xs body s in for_each ys body s.
Proof. revert s. induction xs as [|x xs IH]; intros s; simpl; [done|]. destruct (body x s); simpl; auto. Qed.

(** A loop whose [i]-th iteration takes the [i]-th state of a sequence to the next
    one ends in the last state. *)
Lemma for_each_seq {St} (a n : nat) (body : nat -> St -> Outcome St) (state : nat -> St) :
  (forall i, (i < n)%nat -> body (a + i)%nat (state i) = Return (state (S i))) ->
  for_each (seq a n) body (state 0%nat) = Return (state n).
Proof.
  revert a state. induction n as [|n IH]; intros a state H; simpl; [done|].
  pose proof (H 0%nat ltac:(lia)) as H0. rewrite Nat.add_0_r in H0. rewrite H0. simpl.
  apply (IH (S a) (fun i => state (S i))). intros i Hi. rewrite Nat.add_succ_l, <- Nat.add_succ_r. apply H. lia.
Qed.

(** ** Step relations *)

(** A property each step preserves holds in every state reachable from one where
    it holds. *)
Lemma rtc_invariant {S : Type} (R : relation S) (P : S -> Prop) (s s' : S) :
  (forall a b, P a -> R a b -> P b) -> P s -> rtc R s s' -> P s'.
Proof. intros Hstep Hs H. induction H; eauto. Qed.

(** ** Proof automation *)

(** Splits every [match]/[if] the goal or a hypothesis is stuck on. *)
Ltac break_match :=
  match goal with
  | |- context [match ?x with _ => _ end] => destruct x eqn:?
  | H : context [match ?x with _ => _ end] |- _ => destruct x eqn:?
  end; simplify_eq/=.

Ltac crush := repeat (break_match; try done); simplify_eq/=; eauto with rust.

(** Proves a closed decidable proposition by evaluating its decision procedure. *)
Ltac by_compute := refine (bool_decide_unpack _ _); vm_compute; exact I.
