(* ===== verification/Bits.v ===== *)
(** * Bit fields

    Registers and descriptors are words whose fields are read and written with
    masks and shifts.  This file relates the bit operations to arithmetic: a
    masked shift is a slice of the number, clearing and setting a field leaves
    the other fields alone. *)

From S2P Require Import Prelude.
From Stdlib Require Import Btauto.
Open Scope Z_scope.

(** Rust's [!x] on a [w]-bit unsigned integer. *)
Definition not_w (w z : Z) : Z := Z.lxor (Z.ones w) z.

(** Bits [lo, lo + n) of [z]. *)
Definition bits_of (z lo n : Z) : Z := z / 2 ^ lo mod 2 ^ n.

Create Rewrite HintDb bits_rw.
#[export] Hint Rewrite Z.land_spec Z.lor_spec Z.lxor_spec Z.testbit_0_l : bits_rw.
#[export] Hint Rewrite Z.shiftl_spec Z.shiftr_spec Z.testbit_ones using lia : bits_rw.
#[export] Hint Rewrite orb_false_r orb_false_l andb_false_r andb_false_l andb_true_r andb_true_l
  xorb_false_r xorb_false_l : bits_rw.

(** Replaces the comparisons of bit positions that arithmetic decides. *)
Ltac decide_pos :=
  repeat match goal with
  | |- context [?a <? ?b] => first [ rewrite (proj2 (Z.ltb_lt a b)) by lia | rewrite (proj2 (Z.ltb_ge a b)) by lia ]
  | |- context [?a <=? ?b] => first [ rewrite (proj2 (Z.leb_le a b)) by lia | rewrite (proj2 (Z.leb_gt a b)) by lia ]
  end.

(** Two numbers are equal when they have the same bits; [n] is the position. *)
Ltac bitwise n := apply Z.bits_inj'; intros n ?; autorewrite with bits_rw.

Section bits.
Implicit Types z w lo n : Z.

Lemma bits_of_fits z lo n : 0 <= n -> fits n (bits_of z lo n).
Proof. intros. apply Z.mod_pos_bound. lia. Qed.

(** [(z >> lo) & (2^n - 1)]. *)
Lemma land_shiftr_ones z lo n :
  0 <= lo -> 0 <= n -> Z.land (Z.shiftr z lo) (Z.ones n) = bits_of z lo n.
Proof. intros. by rewrite Z.land_ones, Z.shiftr_div_pow2. Qed.

Lemma bits_of_testbit z lo n i :
  0 <= lo -> 0 <= n -> 0 <= i -> Z.testbit (bits_of z lo n) i = (i <? n) && Z.testbit z (i + lo).
Proof.
  intros. unfold bits_of. rewrite Z.testbit_mod_pow2 by done.
  f_equal. rewrite <- Z.shiftr_div_pow2, Z.shiftr_spec by done. done.
Qed.

Lemma land_bit_nonzero z k : 0 <= k -> negb (Z.land z (2 ^ k) =? 0) = Z.testbit z k.
Proof.
  intros Hk. destruct (Z.testbit z k) eqn:E.
  - apply negb_true_iff, Z.eqb_neq. intros H0.
    assert (H1 : Z.testbit (Z.land z (2 ^ k)) k = false) by (by rewrite H0, Z.bits_0).
    by rewrite Z.land_spec, E, Z.pow2_bits_true in H1.
  - apply negb_false_iff, Z.eqb_eq. bitwise i.
    destruct (decide (k = i)) as [->|]; [by rewrite E|]. by rewrite Z.pow2_bits_false, andb_false_r.
Qed.

(** A value of [w] bits is the concatenation of its fields. *)
Lemma bits_of_split z lo n m :
  0 <= lo -> 0 <= n -> 0 <= m ->
  bits_of z lo (n + m) = bits_of z lo n + 2 ^ n * bits_of z (lo + n) m.
Proof.
  intros. unfold bits_of. rewrite (Z.pow_add_r 2 n m), (Z.pow_add_r 2 lo n) by done.
  rewrite Z.rem_mul_r, Z.div_div by lia. done.
Qed.

Lemma bits_of_full z w : fits w z -> bits_of z 0 w = z.
Proof. intros. unfold bits_of. rewrite Z.pow_0_r, Z.div_1_r. by apply Z.mod_small. Qed.

Lemma testbit_fits w z i : fits w z -> 0 <= w -> 0 <= i -> Z.testbit z i = (i <? w) && Z.testbit z i.
Proof.
  intros Hz Hw Hi. destruct (Z.ltb_spec i w); [done|]. simpl. by apply (testbit_above w).
Qed.

(** Writing a field: clear it with an inverted mask, then or the new value in. *)
Definition set_field (w z lo n v : Z) : Z :=
  Z.lor (Z.land z (not_w w (Z.shiftl (Z.ones n) lo))) (Z.shiftl v lo).

Section set_field.
Context (w z lo n v : Z).
Hypothesis Hz : fits w z.
Hypothesis Hlo : 0 <= lo.
Hypothesis Hn : 0 <= n.
Hypothesis Hw : lo + n <= w.
Hypothesis Hv : fits n v.

Lemma set_field_testbit i : 0 <= i ->
  Z.testbit (set_field w z lo n v) i =
  if (lo <=? i) && (i <? lo + n) then Z.testbit v (i - lo) else Z.testbit z i.
Proof.
  intros Hi. unfold set_field, not_w. autorewrite with bits_rw.
  destruct (Z.leb_spec lo i); simpl.
  - autorewrite with bits_rw. destruct (Z.ltb_spec i (lo + n)); simpl.
    + decide_pos. simpl. by rewrite andb_false_r.
    + decide_pos. simpl. rewrite (testbit_above n v (i - lo)) by (auto; lia). rewrite orb_false_r.
      rewrite (testbit_fits w z i) at 2 by (auto; lia). decide_pos. simpl. by rewrite xorb_false_r, andb_comm.
  - rewrite !(Z.testbit_neg_r _ (i - lo)) by lia. decide_pos. simpl.
    by rewrite andb_true_r, orb_false_r.
Qed.

(** The field holds the new value ... *)
Lemma set_field_same : bits_of (set_field w z lo n v) lo n = v.
Proof.
  bitwise i. rewrite bits_of_testbit, set_field_testbit by lia. decide_pos. simpl.
  replace (i + lo - lo) with i by lia. destruct (Z.ltb_spec (i + lo) (lo + n)); decide_pos; [done|].
  simpl. symmetry. by apply (testbit_above n); [|lia].
Qed.

(** ... every field apart from it is as before ... *)
Lemma set_field_other lo' m :
  0 <= lo' -> 0 <= m -> lo' + m <= lo \/ lo + n <= lo' ->
  bits_of (set_field w z lo n v) lo' m = bits_of z lo' m.
Proof.
  intros ?? Hd. bitwise i. rewrite !bits_of_testbit, set_field_testbit by lia.
  destruct (Z.ltb_spec i m); [|done]. simpl.
  destruct Hd; [rewrite (proj2 (Z.leb_gt lo _)) by lia|rewrite (proj2 (Z.ltb_ge _ (lo + n))), andb_false_r by lia]; done.
Qed.

(** ... and the word keeps its width. *)
Lemma set_field_fits : fits w (set_field w z lo n v).
Proof.
  enough (set_field w z lo n v = set_field w z lo n v mod 2 ^ w) as -> by (apply wrap_range; lia).
  apply Z.bits_inj'. intros i Hi. rewrite Z.testbit_mod_pow2, !set_field_testbit by lia.
  destruct (Z.ltb_spec i w); [done|]. rewrite (proj2 (Z.ltb_ge i (lo + n))), andb_false_r by lia.
  apply (testbit_above w); [done|lia].
Qed.
End set_field.
End bits.

#[export] Hint Resolve bits_of_fits set_field_fits : rust.
