(* ===== verification/Pci.v ===== *)
(** * PCI configuration space

    Models [src/kernel/src/arch/x86_64/pci.rs].  The host bridge behind the two
    I/O ports is hardware: it is a class whose laws are configuration mechanism
    #1 (select a register through one port, then access it through the other).
    Every function threads the state of the bridge, because each access writes
    the address port. *)

From S2P Require Import Prelude Bits.
Open Scope Z_scope.

Definition PCI_CONFIG_ADDRESS : Z := 0x0CF8.
Definition PCI_CONFIG_DATA : Z := 0x0CFC.
Definition PCI_VENDOR_ID_NONE : Z := 0xFFFF.
Definition PCI_VENDOR_INTEL : Z := 0x8086.
Definition PCI_DEVICE_E1000_82540EM : Z := 0x100E.
Definition PCI_DEVICE_E1000_82545EM : Z := 0x100F.
Definition PCI_DEVICE_E1000E_82574L : Z := 0x10D3.

(** The registers of [mod reg] and the bits of [mod cmd] the driver uses. *)
Definition REG_VENDOR_ID : Z := 0x00.
Definition REG_DEVICE_ID : Z := 0x02.
Definition REG_COMMAND : Z := 0x04.
Definition REG_CLASS_CODE : Z := 0x09.
Definition REG_HEADER_TYPE : Z := 0x0E.
Definition REG_BAR0 : Z := 0x10.
Definition REG_BAR1 : Z := 0x14.
Definition REG_INTERRUPT_LINE : Z := 0x3C.
Definition CMD_MEM_SPACE : Z := Z.shiftl 1 1.
Definition CMD_BUS_MASTER : Z := Z.shiftl 1 2.

Record PciAddress : Type := PciAddress_new { bus : Z; device : Z; function : Z }.

Definition config_address (a : PciAddress) (offset : Z) : Z :=
  let off32 := Z.land offset 0xFC in
  Z.lor (Z.lor (Z.lor (Z.lor 0x80000000 (Z.shiftl (bus a) 16)) (Z.shiftl (device a) 11))
    (Z.shiftl (function a) 8)) off32.

(** The ports of the host bridge.  [pci_dword d w] is the doubleword a read of the
    address word [w] returns, [pci_store d w v] the state after [v] was written to
    it. *)
Class PciHost (D : Type) : Type := {
  outl : D -> Z -> Z -> D;
  inl : D -> Z -> Z * D;
  pci_dword : D -> Z -> Z;
  pci_store : D -> Z -> Z -> D;
  pci_dword_fits : forall d w, fits 32 (pci_dword d w);
  pci_select : forall d w w', pci_dword (outl d PCI_CONFIG_ADDRESS w) w' = pci_dword d w';
  pci_read : forall d w, Z.testbit w 31 = true -> w mod 4 = 0 ->
    inl (outl d PCI_CONFIG_ADDRESS w) PCI_CONFIG_DATA = (pci_dword d w, outl d PCI_CONFIG_ADDRESS w);
  pci_write : forall d w v, Z.testbit w 31 = true -> w mod 4 = 0 ->
    outl (outl d PCI_CONFIG_ADDRESS w) PCI_CONFIG_DATA v = pci_store d w v;
}.

Record PciDevice : Type := PciDevice_mk {
  addr : PciAddress;
  vendor_id : Z;
  device_id : Z;
  class_code : Z;
  bar0 : Z;
  bar1 : Z;
  irq : Z;
}.

Definition is_e1000 (p : PciDevice) : bool :=
  (vendor_id p =? PCI_VENDOR_INTEL) &&
  ((device_id p =? PCI_DEVICE_E1000_82540EM) || (device_id p =? PCI_DEVICE_E1000_82545EM) ||
   (device_id p =? PCI_DEVICE_E1000E_82574L)).

Definition mmio_base (p : PciDevice) : option Z :=
  if negb (Z.land (bar0 p) 1 =? 0) then None
  else
    let bar_type := Z.land (Z.shiftr (bar0 p) 1) 0x3 in
    let base := Z.land (bar0 p) 0xFFFFFFF0 in
    if bar_type =? 0 then Some base
    else if bar_type =? 2 then Some (Z.lor (Z.shiftl (bar1 p) 32) base)
    else None.

Section pci.
Context {D : Type} `{PH : PciHost D}.
Implicit Types (d : D) (a : PciAddress) (offset value : Z).

Definition read_config_u32 d a offset : Z * D :=
  let config_addr := config_address a offset in
  inl (outl d PCI_CONFIG_ADDRESS config_addr) PCI_CONFIG_DATA.

Definition write_config_u32 d a offset value : D :=
  let config_addr := config_address a offset in
  outl (outl d PCI_CONFIG_ADDRESS config_addr) PCI_CONFIG_DATA value.

Definition read_config_u16 d a offset : Z * D :=
  let '(dword, d) := read_config_u32 d a (Z.land offset 0xFC) in
  let shift := Z.land offset 2 * 8 in
  (Z.land (Z.shiftr dword shift) 0xFFFF, d).

Definition write_config_u16 d a offset value : D :=
  let aligned_offset := Z.land offset 0xFC in
  let shift := Z.land offset 2 * 8 in
  let '(dword, d) := read_config_u32 d a aligned_offset in
  let dword := Z.land dword (not_w 32 (Z.shiftl 0xFFFF shift)) in
  let dword := Z.lor dword (Z.shiftl value shift) in
  write_config_u32 d a aligned_offset dword.

Definition read_config_u8 d a offset : Z * D :=
  let '(dword, d) := read_config_u32 d a (Z.land offset 0xFC) in
  let shift := Z.land offset 3 * 8 in
  (Z.land (Z.shiftr dword shift) 0xFF, d).

Definition PciDevice_read d a : option PciDevice * D :=
  let '(vendor, d) := read_config_u16 d a REG_VENDOR_ID in
  if vendor =? PCI_VENDOR_ID_NONE then (None, d)
  else
    let '(device, d) := read_config_u16 d a REG_DEVICE_ID in
    let '(class, d) := read_config_u32 d a REG_CLASS_CODE in
    let '(b0, d) := read_config_u32 d a REG_BAR0 in
    let '(b1, d) := read_config_u32 d a REG_BAR1 in
    let '(irq, d) := read_config_u8 d a REG_INTERRUPT_LINE in
    (Some (PciDevice_mk a vendor device (Z.shiftr class 8) b0 b1 irq), d).

Definition PciDevice_enable (p : PciDevice) d : D :=
  let '(current, d) := read_config_u16 d (addr p) REG_COMMAND in
  let new_cmd := Z.lor (Z.lor current CMD_MEM_SPACE) CMD_BUS_MASTER in
  write_config_u16 d (addr p) REG_COMMAND new_cmd.

(** [scan]: the callback changes the variables its closure captures. *)
Section scan.
Context {C : Type} (callback : PciDevice -> C -> C).

Definition scan_function (st : C * D) a : C * D :=
  let '(c, d) := st in
  match PciDevice_read d a with
  | (Some dev, d) => (callback dev c, d)
  | (None, d) => (c, d)
  end.

Definition scan_device (b : Z) (st : C * D) (dev : Z) : C * D :=
  let '(c, d) := st in
  let a := PciAddress_new b dev 0 in
  match PciDevice_read d a with
  | (None, d) => (c, d)
  | (Some found, d) =>
      let c := callback found c in
      let '(header_type, d) := read_config_u8 d a REG_HEADER_TYPE in
      if negb (Z.land header_type 0x80 =? 0)
      then foldl scan_function (c, d) (PciAddress_new b dev <$> seqZ 1 7)
      else (c, d)
  end.

Definition scan (c : C) d : C * D :=
  foldl (fun st b => foldl (scan_device b) st (seqZ 0 32)) (c, d) (seqZ 0 256).
End scan.

Definition find_e1000 d : option PciDevice * D :=
  scan (fun dev result =>
          match result with
          | None => if is_e1000 dev then Some dev else None
          | Some _ => result
          end) None d.

(** ** Reference: the configuration space as bytes *)

Definition cfg_byte d a (i : Z) : Z :=
  bits_of (pci_dword d (config_address a i)) (8 * (i mod 4)) 8.

(** The little-endian number in bytes [i .. i + n). *)
Fixpoint cfg_field d a (i : Z) (n : nat) : Z :=
  match n with
  | O => 0
  | S n => cfg_byte d a i + 256 * cfg_field d a (i + 1) n
  end.

(** The function at an address, read off its configuration header. *)
Definition pci_function d a : option PciDevice :=
  if cfg_field d a 0x00 2 =? 0xFFFF then None
  else Some (PciDevice_mk a (cfg_field d a 0x00 2) (cfg_field d a 0x02 2) (cfg_field d a 0x09 3)
               (cfg_field d a 0x10 4) (cfg_field d a 0x14 4) (cfg_byte d a 0x3C)).

(** Functions 1 to 7 exist only on a multi-function device. *)
Definition pci_visible d a : bool :=
  (function a =? 0) ||
  (let f0 := PciAddress_new (bus a) (device a) 0 in
   match pci_function d f0 with Some _ => true | None => false end && Z.testbit (cfg_byte d f0 0x0E) 7).

Definition pci_addresses : list PciAddress :=
  b ← seqZ 0 256; dev ← seqZ 0 32; f ← seqZ 0 8; [PciAddress_new b dev f].

(** Every function of the machine, by bus, device and function number. *)
Definition pci_inventory d : list PciDevice :=
  omap (fun a => if pci_visible d a then pci_function d a else None) pci_addresses.

(** ** Accesses *)

(** A device address as the bus has them. *)
Definition addr_ok a : Prop := fits 8 (bus a) /\ fits 5 (device a) /\ fits 3 (function a).

Lemma land_u8 (m o : Z) (P : Z -> Z -> bool) :
  forallb (fun o => P o (Z.land o m)) (seqZ 0 256) = true -> fits 8 o -> P o (Z.land o m) = true.
Proof.
  intros H Ho. rewrite forallb_forall in H. apply H. apply list_elem_of_In, elem_of_seqZ.
  unfold fits in Ho. lia.
Qed.

Lemma land_FC o : fits 8 o -> Z.land o 0xFC = o - o mod 4.
Proof. intros Ho. apply Z.eqb_eq. by apply (land_u8 0xFC o (fun o v => v =? o - o mod 4)). Qed.

Lemma align_range o : fits 8 o -> fits 8 (o - o mod 4).
Proof. unfold fits. intros. pose proof (Z.mod_pos_bound o 4 ltac:(lia)). pose proof (Z.mod_le o 4). lia. Qed.

Lemma config_address_value a offset :
  addr_ok a -> fits 8 offset ->
  config_address a offset =
    2 ^ 31 + bus a * 2 ^ 16 + device a * 2 ^ 11 + function a * 2 ^ 8 + (offset - offset mod 4).
Proof.
  intros (Hb & Hd & Hf) Ho. unfold config_address. rewrite land_FC by done.
  pose proof (align_range offset Ho) as Hm. unfold fits in *.
  rewrite !Z.shiftl_mul_pow2 by lia. change 0x80000000 with (1 * 2 ^ 31). rewrite <- !Z.lor_assoc.
  rewrite (lor_add 8) by (unfold fits; lia). rewrite (lor_add 11) by (unfold fits; lia).
  rewrite (lor_add 16) by (unfold fits; lia). rewrite (lor_add 31) by (unfold fits; lia). lia.
Qed.

Lemma config_address_enabled a offset :
  addr_ok a -> fits 8 offset ->
  Z.testbit (config_address a offset) 31 = true /\ config_address a offset mod 4 = 0.
Proof.
  intros Ha Ho. rewrite config_address_value by done. destruct Ha as (Hb & Hd & Hf). unfold fits in *. split.
  - rewrite Z.testbit_true by lia.
    replace (2 ^ 31 + _ + _ + _ + _) with
      (1 * 2 ^ 31 + (bus a * 2 ^ 16 + device a * 2 ^ 11 + function a * 2 ^ 8 + (offset - offset mod 4))) by lia.
    pose proof (align_range offset Ho) as Hr. unfold fits in Hr.
    rewrite Z.div_add_l, Z.div_small by lia. done.
  - rewrite (Z.div_mod offset 4) at 1 by lia.
    replace (2 ^ 31 + _ + _ + _ + _) with
      ((2 ^ 29 + bus a * 2 ^ 14 + device a * 2 ^ 9 + function a * 2 ^ 6 + offset / 4) * 4) by lia.
    apply Z_mod_mult.
Qed.

(** Registers of one doubleword have one address. *)
Lemma config_address_align a i j : i - i mod 4 = j - j mod 4 -> fits 8 i -> fits 8 j ->
  config_address a i = config_address a j.
Proof. intros H Hi Hj. unfold config_address. by rewrite !land_FC, H by done. Qed.

(** Two states show the same configuration space. *)
Record same_cfg d1 d2 : Prop := { same_dword : forall w, pci_dword d1 w = pci_dword d2 w }.

#[global] Instance same_cfg_equiv : Equivalence same_cfg.
Proof.
  split; [done|by intros d1 d2 [H]|]. intros d1 d2 d3 [H1] [H2]. split. intros w. by rewrite H1.
Qed.

#[global] Instance cfg_byte_proper : Proper (same_cfg ==> eq ==> eq ==> eq) cfg_byte.
Proof. intros d1 d2 Hd a ? <- i ? <-. unfold cfg_byte. by rewrite (same_dword _ _ Hd). Qed.

#[global] Instance cfg_field_proper : Proper (same_cfg ==> eq ==> eq ==> eq ==> eq) cfg_field.
Proof.
  intros d1 d2 Hd a ? <- i ? <- n ? <-. revert i. induction n as [|n IH]; intros i; simpl; [done|].
  by rewrite IH, Hd.
Qed.

#[global] Instance pci_function_proper : Proper (same_cfg ==> eq ==> eq) pci_function.
Proof. intros d1 d2 Hd a ? <-. unfold pci_function. by rewrite !Hd. Qed.

#[global] Instance pci_visible_proper : Proper (same_cfg ==> eq ==> eq) pci_visible.
Proof. intros d1 d2 Hd a ? <-. unfold pci_visible. by rewrite !Hd. Qed.

(** A field inside one doubleword is a slice of it. *)
Lemma cfg_field_slice d a i n :
  0 <= i -> i mod 4 + Z.of_nat n <= 4 -> i + Z.of_nat n <= 256 -> (0 < n)%nat ->
  cfg_field d a i n = bits_of (pci_dword d (config_address a i)) (8 * (i mod 4)) (8 * Z.of_nat n).
Proof.
  revert i. induction n as [|[|n] IH]; intros i Hi Hf H256 Hn; [lia|unfold cfg_field, cfg_byte; change (8 * Z.of_nat 1) with 8; lia|].
  pose proof (Z.mod_pos_bound i 4 ltac:(lia)) as Hm.
  assert (Hs : (i + 1) mod 4 = i mod 4 + 1).
  { rewrite <- Z.add_mod_idemp_l by lia. apply Z.mod_small. lia. }
  change (cfg_field d a i (S (S n))) with (cfg_byte d a i + 256 * cfg_field d a (i + 1) (S n)).
  rewrite IH, Hs by lia. unfold cfg_byte.
  rewrite (config_address_align a (i + 1) i) by (rewrite ?Hs; unfold fits; lia).
  replace (8 * Z.of_nat (S (S n))) with (8 + 8 * Z.of_nat (S n)) by lia.
  rewrite bits_of_split by lia. repeat f_equal; lia.
Qed.

Lemma read_config_u32_spec d a offset :
  addr_ok a -> fits 8 offset ->
  exists d', read_config_u32 d a offset = (pci_dword d (config_address a offset), d') /\ same_cfg d' d.
Proof.
  intros Ha Ho. unfold read_config_u32. destruct (config_address_enabled a offset Ha Ho) as [H1 H2].
  rewrite pci_read by done. eexists. split; [done|]. split. intros w. apply pci_select.
Qed.

Lemma read_aligned_spec d a offset :
  addr_ok a -> fits 8 offset ->
  exists d', read_config_u32 d a (Z.land offset 0xFC) = (pci_dword d (config_address a offset), d') /\
    same_cfg d' d.
Proof.
  intros Ha Ho. rewrite land_FC by done. pose proof (align_range _ Ho) as Hr.
  destruct (read_config_u32_spec d a (offset - offset mod 4) Ha Hr) as (d' & -> & Hd).
  exists d'. split; [|done]. do 2 f_equal. apply config_address_align; [|done..].
  rewrite Zminus_mod, Z.mod_mod, Z.sub_diag, Z.mod_0_l by lia. lia.
Qed.

Lemma read_config_u8_spec d a offset :
  addr_ok a -> fits 8 offset ->
  exists d', read_config_u8 d a offset = (cfg_byte d a offset, d') /\ same_cfg d' d.
Proof.
  intros Ha Ho. unfold read_config_u8. destruct (read_aligned_spec d a offset Ha Ho) as (d' & -> & Hd).
  exists d'. split; [|done]. f_equal. change 0xFF with (Z.ones 8). change 3 with (Z.ones 2).
  pose proof (Z.mod_pos_bound offset 4 ltac:(lia)).
  rewrite (Z.land_ones offset 2) by lia. change (2 ^ 2) with 4. rewrite land_shiftr_ones by lia.
  unfold cfg_byte. f_equal. lia.
Qed.

Lemma land_2_even o : fits 8 o -> o mod 2 = 0 -> Z.land o 2 = o mod 4.
Proof.
  intros Ho He. pose proof (land_u8 2 o (fun o v => (v =? o mod 4) || negb (o mod 2 =? 0)) eq_refl Ho) as H.
  cbv beta in H. rewrite He in H. lia.
Qed.

Lemma even_mod4 o : o mod 2 = 0 -> o mod 4 = 0 \/ o mod 4 = 2.
Proof. intros. Z.to_euclidean_division_equations. lia. Qed.

Lemma read_config_u16_spec d a offset :
  addr_ok a -> fits 8 offset -> offset mod 2 = 0 ->
  exists d', read_config_u16 d a offset = (cfg_field d a offset 2, d') /\ same_cfg d' d.
Proof.
  intros Ha Ho He. unfold read_config_u16. destruct (read_aligned_spec d a offset Ha Ho) as (d' & -> & Hd).
  exists d'. split; [|done]. f_equal. rewrite land_2_even by done. change 0xFFFF with (Z.ones 16).
  pose proof (even_mod4 offset He). unfold fits in Ho.
  assert (offset <= 254) by (Z.to_euclidean_division_equations; lia).
  rewrite land_shiftr_ones by lia. rewrite cfg_field_slice by lia. f_equal; lia.
Qed.

(** A read of a whole doubleword, and of the three bytes behind the revision id. *)
Lemma read_config_field4_spec d a offset :
  addr_ok a -> fits 8 offset -> offset mod 4 = 0 ->
  exists d', read_config_u32 d a offset = (cfg_field d a offset 4, d') /\ same_cfg d' d.
Proof.
  intros Ha Ho He. destruct (read_config_u32_spec d a offset Ha Ho) as (d' & -> & Hd). exists d'.
  split; [|done]. unfold fits in Ho. assert (offset <= 252) by (Z.to_euclidean_division_equations; lia).
  f_equal. rewrite cfg_field_slice, He by lia. symmetry. apply (bits_of_full _ 32), pci_dword_fits.
Qed.

Lemma read_class_code_spec d a :
  addr_ok a ->
  exists c d', read_config_u32 d a REG_CLASS_CODE = (c, d') /\ Z.shiftr c 8 = cfg_field d a 0x09 3 /\
    same_cfg d' d.
Proof.
  intros Ha. change REG_CLASS_CODE with 9. destruct (read_config_u32_spec d a 9 Ha) as (d' & -> & Hd); [done|].
  eexists _, d'. split_and!; [done| |done]. rewrite cfg_field_slice by (change (9 mod 4) with 1; lia).
  rewrite Z.shiftr_div_pow2 by lia. unfold bits_of. symmetry. apply Z.mod_small.
  pose proof (pci_dword_fits d (config_address a 9)) as [H0 H1]. change (8 * (9 mod 4)) with 8. split.
  - apply Z.div_pos; lia.
  - apply Z.div_lt_upper_bound; [lia|]. done.
Qed.

(** Runs the next access of a sequence: its value is read off the space, which
    stays the same. *)
Ltac access lem :=
  let d' := fresh "d" in let E := fresh "E" in let H := fresh "Hs" in
  destruct lem as (d' & E & H); [try done; try (unfold fits; simpl; lia)..|]; rewrite E; clear E.

Lemma PciDevice_read_spec d a :
  addr_ok a -> exists d', PciDevice_read d a = (pci_function d a, d') /\ same_cfg d' d.
Proof.
  intros Ha. unfold PciDevice_read, pci_function.
  access (read_config_u16_spec d a REG_VENDOR_ID Ha).
  change REG_VENDOR_ID with 0. change PCI_VENDOR_ID_NONE with 0xFFFF.
  destruct (_ =? _); [eauto|].
  access (read_config_u16_spec d0 a REG_DEVICE_ID Ha).
  destruct (read_class_code_spec d1 a Ha) as (c & d2 & -> & -> & Hs1).
  access (read_config_field4_spec d2 a REG_BAR0 Ha).
  access (read_config_field4_spec d3 a REG_BAR1 Ha).
  access (read_config_u8_spec d4 a REG_INTERRUPT_LINE Ha).
  exists d5. split; [f_equal; by rewrite Hs3, !Hs2, !Hs1, !Hs0, !Hs|by rewrite Hs4, Hs3, Hs2, Hs1, Hs0].
Qed.

(** ** The scan *)

Section scan_spec.
Context {C : Type} (callback : PciDevice -> C -> C).
Abbreviation feed := (foldl (fun c p => callback p c)).

(** Functions of device [dev] of bus [b] the scan reports. *)
Definition device_functions d (b dev : Z) : list PciDevice :=
  omap (fun a => if pci_visible d a then pci_function d a else None) (PciAddress_new b dev <$> seqZ 0 8).

#[local] Instance device_functions_proper : Proper (same_cfg ==> eq ==> eq ==> eq) device_functions.
Proof.
  intros d1 d2 Hd b ? <- dev ? <-. unfold device_functions.
  apply omap_ext_elem. intros a _. by rewrite !Hd.
Qed.

(** A loop whose body reports the list [l d x] for the element [x]. *)
Lemma foldl_reports {X : Type} (step : C * D -> X -> C * D) (l : D -> X -> list PciDevice) (xs : list X) :
  (forall d1 d2 x, same_cfg d1 d2 -> l d1 x = l d2 x) ->
  (forall c d x, x ∈ xs -> exists d', step (c, d) x = (feed c (l d x), d') /\ same_cfg d' d) ->
  forall c d, exists d', foldl step (c, d) xs = (feed c (xs ≫= l d), d') /\ same_cfg d' d.
Proof.
  intros Hl. induction xs as [|x xs IH]; intros Hstep c d; [eexists; split; [done|reflexivity]|].
  destruct (Hstep c d x) as (d1 & E & H1); [by left|]. cbn [foldl]. rewrite E.
  destruct (IH (fun c d y Hy => Hstep c d y (list_elem_of_further _ _ _ Hy)) (feed c (l d x)) d1) as (d2 & -> & H2).
  exists d2. split; [|by rewrite H2]. rewrite bind_cons, foldl_app. do 2 f_equal.
  clear -Hl H1. induction xs as [|y xs IH]; [done|]. rewrite !bind_cons, IH. f_equal. by apply Hl.
Qed.

Lemma scan_function_spec c d a :
  addr_ok a -> exists d', scan_function callback (c, d) a = (feed c (option_list (pci_function d a)), d') /\
    same_cfg d' d.
Proof.
  intros Ha. unfold scan_function. access (PciDevice_read_spec d a Ha).
  destruct (pci_function d a); eauto.
Qed.

Lemma scan_device_spec b c d dev :
  fits 8 b -> fits 5 dev ->
  exists d', scan_device callback b (c, d) dev = (feed c (device_functions d b dev), d') /\ same_cfg d' d.
Proof.
  intros Hb Hdev. set (a := PciAddress_new b dev 0).
  assert (Ha : addr_ok a) by done. unfold scan_device. fold a.
  assert (Hdf : device_functions d b dev =
    match pci_function d a with
    | None => []
    | Some p => p :: if Z.testbit (cfg_byte d a 0x0E) 7
                     then omap (pci_function d) (PciAddress_new b dev <$> seqZ 1 7) else []
    end).
  { unfold device_functions. change (seqZ 0 8) with (0 :: seqZ 1 7). rewrite fmap_cons.
    cbn [omap list_omap]. fold a. unfold pci_visible at 1. cbn [function orb].
    assert (Hv : forall f, f ∈ seqZ 1 7 -> pci_visible d (PciAddress_new b dev f) =
      match pci_function d a with Some _ => Z.testbit (cfg_byte d a 0x0E) 7 | None => false end).
    { intros f [Hf _]%elem_of_seqZ. unfold pci_visible. cbn [function bus device].
      rewrite (proj2 (Z.eqb_neq f 0)) by lia. fold a. by destruct (pci_function d a). }
    rewrite (omap_ext_elem _ (fun x => if match pci_function d a with
      | Some _ => Z.testbit (cfg_byte d a 0x0E) 7 | None => false end then pci_function d x else None))
      by (intros ? (f & -> & Hf)%list_elem_of_fmap; by rewrite Hv).
    destruct (pci_function d a) as [p|]; [f_equal; destruct (Z.testbit _ _); [done|]|];
      by induction (PciAddress_new b dev <$> seqZ 1 7). }
  rewrite Hdf. access (PciDevice_read_spec d a Ha). destruct (pci_function d a) as [p|]; [|eauto].
  access (read_config_u8_spec d0 a REG_HEADER_TYPE Ha).
  assert (Hh : cfg_byte d0 a REG_HEADER_TYPE = cfg_byte d a 0x0E) by (by rewrite Hs). rewrite Hh.
  change 0x80 with (2 ^ 7). rewrite land_bit_nonzero by lia.
  destruct (Z.testbit (cfg_byte d a 14) 7); [|exists d1; split; [done|by rewrite Hs0]].
  destruct (foldl_reports (scan_function callback) (fun d a => option_list (pci_function d a))
    (PciAddress_new b dev <$> seqZ 1 7)) with (c := callback p c) (d := d1) as (d2 & -> & H2).
  - intros d3 d4 x E. by rewrite E.
  - intros c' d' x (f & -> & [Hf1 Hf2]%elem_of_seqZ)%list_elem_of_fmap. apply scan_function_spec.
    split_and!; [done..|]. unfold fits. cbn [function]. lia.
  - exists d2. split; [|by rewrite H2, Hs0]. f_equal. rewrite bind_option_list. cbn [foldl]. f_equal.
    apply omap_ext_elem. intros x _. by rewrite Hs0, Hs.
Qed.

Lemma scan_inventory c d :
  exists d', scan callback c d = (feed c (pci_inventory d), d') /\ same_cfg d' d.
Proof.
  unfold scan. destruct (foldl_reports (fun st b => foldl (scan_device callback b) st (seqZ 0 32))
    (fun d b => seqZ 0 32 ≫= device_functions d b) (seqZ 0 256)) with (c := c) (d := d) as (d' & -> & H').
  - intros d1 d2 b Hd. induction (seqZ 0 32) as [|x l IH]; [done|]. by rewrite !bind_cons, IH, Hd.
  - intros c' d' b [Hb1 Hb2]%elem_of_seqZ.
    apply (foldl_reports (scan_device callback b) (fun d dev => device_functions d b dev)).
    + intros d1 d2 x Hd. by rewrite Hd.
    + intros c2 d2 dev [Hd1 Hd2]%elem_of_seqZ. apply scan_device_spec; unfold fits; lia.
  - exists d'. split; [|done]. do 2 f_equal. unfold pci_inventory, pci_addresses. rewrite omap_bind.
    apply list_bind_ext; [|done]. intros b. rewrite omap_bind. by apply list_bind_ext.
Qed.
End scan_spec.

Lemma find_e1000_inventory d :
  exists d', find_e1000 d = (head (List.filter is_e1000 (pci_inventory d)), d') /\ same_cfg d' d.
Proof.
  unfold find_e1000. destruct (scan_inventory (fun dev result =>
    match result with None => if is_e1000 dev then Some dev else None | Some _ => result end) None d)
    as (d' & -> & H). exists d'. split; [|done]. f_equal.
  assert (Hsome : forall l p, foldl (fun c p => match c with None => if is_e1000 p then Some p else None
    | Some _ => c end) (Some p) l = Some p) by (by induction l).
  induction (pci_inventory d) as [|p l IH]; [done|]. simpl. destruct (is_e1000 p); [apply Hsome|apply IH].
Qed.

(** ** Writes *)

Lemma write_config_u16_spec d a offset value :
  addr_ok a -> fits 8 offset -> offset mod 2 = 0 -> fits 16 value ->
  exists d', same_cfg d' d /\
    write_config_u16 d a offset value =
      pci_store d' (config_address a offset)
        (set_field 32 (pci_dword d (config_address a offset)) (8 * (offset mod 4)) 16 value).
Proof.
  intros Ha Ho He Hv. unfold write_config_u16. rewrite land_2_even by done.
  access (read_aligned_spec d a offset Ha Ho). exists d0. split; [done|]. unfold write_config_u32.
  rewrite land_FC by done.
  rewrite (config_address_align a (offset - offset mod 4) offset);
    [|rewrite Zminus_mod, Z.mod_mod, Z.sub_diag, Z.mod_0_l by lia; lia|by apply align_range|done].
  destruct (config_address_enabled a offset Ha Ho). rewrite pci_write by done.
  unfold set_field. by rewrite (Z.mul_comm 8).
Qed.
End pci.

(** ** A bridge whose registers keep what is written to them *)

Record ConfigSpace : Type := ConfigSpace_mk { cs_latch : Z; cs_words : gmap Z Z }.

(** Absent registers read as all ones. *)
Definition cs_dword (d : ConfigSpace) (w : Z) : Z := as_u32 (default 0xFFFFFFFF (cs_words d !! w)).

Definition cs_outl (d : ConfigSpace) (port v : Z) : ConfigSpace :=
  if port =? PCI_CONFIG_ADDRESS then ConfigSpace_mk v (cs_words d)
  else if port =? PCI_CONFIG_DATA then ConfigSpace_mk (cs_latch d) (<[cs_latch d := v]> (cs_words d))
  else d.

#[export] Instance ConfigSpace_PciHost : PciHost ConfigSpace.
Proof.
  by refine {| outl := cs_outl; inl := fun d _ => (cs_dword d (cs_latch d), d); pci_dword := cs_dword;
    pci_store := fun d w v => ConfigSpace_mk w (<[w := v]> (cs_words d));
    pci_dword_fits := fun d w => wrap_range 32 _ ltac:(lia) |}.
Defined.

(** Bus 0: a multi-function device 2 whose function 3 is an 82540EM, and the same
    controller again as device 5. *)
Definition demo_space : ConfigSpace :=
  let word b dev f o := config_address (PciAddress_new b dev f) o in
  ConfigSpace_mk 0 (list_to_map [
    (word 0 2 0 0x00, 0x12345678); (word 0 2 0 0x0C, 0x00800000);
    (word 0 2 3 0x00, 0x100E8086); (word 0 2 3 0x04, 0x82900001); (word 0 2 3 0x08, 0x02000003);
    (word 0 2 3 0x10, 0xFEBC0000); (word 0 2 3 0x14, 0x0000C001); (word 0 2 3 0x3C, 0x0000010B);
    (word 0 5 0 0x00, 0x100E8086); (word 0 5 0 0x0C, 0)]).

Example demo_find :
  (find_e1000 demo_space).1 =
    Some (PciDevice_mk (PciAddress_new 0 2 3) 0x8086 0x100E 0x020000 0xFEBC0000 0xC001 0x0B).
Proof. vm_compute. reflexivity. Qed.

(** ** Properties *)

(** C29: a scan reports exactly the functions of the machine, in order of bus, device
    and function number, each with the ids, class, base addresses and interrupt line
    of its configuration header, and leaves the configuration as it was; the driver
    is given the first e1000 controller of that list, or none if there is none. *)
Theorem pci_scan_complete {D : Type} `{PH : PciHost D} {C : Type} (callback : PciDevice -> C -> C)
    (c : C) (d : D) :
  (scan callback c d).1 = foldl (fun c p => callback p c) c (pci_inventory d) /\
  same_cfg (scan callback c d).2 d /\
  (find_e1000 d).1 = head (List.filter is_e1000 (pci_inventory d)).
Proof.
  destruct (scan_inventory callback c d) as (d1 & -> & H1).
  by destruct (find_e1000_inventory d) as (d2 & -> & _).
Qed.

(** [enable] writes the command register with memory access and bus mastering
    switched on and its other bits as they were; the write covers the whole
    doubleword, so the status register is written with the bits just read from it. *)
Theorem pci_enable_effect {D : Type} `{PH : PciHost D} (p : PciDevice) (d : D) :
  addr_ok (addr p) ->
  let w := config_address (addr p) REG_COMMAND in
  exists s v, same_cfg s d /\ PciDevice_enable p d = pci_store s w v /\ fits 32 v /\
    bits_of v 0 16 = Z.lor (bits_of (pci_dword d w) 0 16) 6 /\
    bits_of v 16 16 = bits_of (pci_dword d w) 16 16.
Proof.
  intros Ha w. unfold PciDevice_enable.
  destruct (read_config_u16_spec d (addr p) REG_COMMAND Ha) as (d1 & -> & H1); [done..|].
  rewrite <- Z.lor_assoc. change (Z.lor CMD_MEM_SPACE CMD_BUS_MASTER) with 6.
  rewrite cfg_field_slice by (change (REG_COMMAND mod 4) with 0; unfold REG_COMMAND; lia).
  change (8 * (REG_COMMAND mod 4)) with 0. change (8 * Z.of_nat 2) with 16. fold w.
  assert (Hv : fits 16 (Z.lor (bits_of (pci_dword d w) 0 16) 6)).
  { pose proof (bits_of_fits (pci_dword d w) 0 16 ltac:(lia)) as Hb.
    enough (Z.lor (bits_of (pci_dword d w) 0 16) 6 = wrap 16 (Z.lor (bits_of (pci_dword d w) 0 16) 6)) as ->
      by (apply wrap_range; lia).
    unfold wrap. bitwise i. rewrite Z.testbit_mod_pow2 by lia. autorewrite with bits_rw.
    destruct (Z.ltb_spec i 16); [done|].
    by rewrite (testbit_above 16 _ i Hb), (testbit_above 16 6 i) by (split; lia) || lia. }
  destruct (write_config_u16_spec d1 (addr p) REG_COMMAND _ Ha ltac:(done) ltac:(done) Hv) as (d2 & H2 & E).
  fold w in E. change (8 * (REG_COMMAND mod 4)) with 0 in E. rewrite (same_dword _ _ H1) in E.
  pose proof (pci_dword_fits d w) as Hd. eexists d2, _. split_and!; [by rewrite H2|exact E|..].
  - apply set_field_fits; auto; lia.
  - apply set_field_same; auto; lia.
  - apply set_field_other; auto; lia.
Qed.

Lemma pci_enable_effect_witness :
  exists s v, same_cfg s demo_space /\ fits 32 v /\ bits_of v 0 16 = 7 /\ bits_of v 16 16 = 0x8290.
Proof.
  destruct (pci_enable_effect (PciDevice_mk (PciAddress_new 0 2 3) 0x8086 0x100E 0x020000 0xFEBC0000 0xC001 0x0B)
    demo_space ltac:(done)) as (s & v & H1 & _ & H2 & H3 & H4).
  exists s, v. split_and!; [exact H1|exact H2|rewrite H3; reflexivity|rewrite H4; reflexivity].
Defined.
