(* ===== verification/Memory.v ===== *)
(** * Physical frames and the kernel heap

    Models [src/kernel/src/memory.rs] (the frame allocator over the boot
    loader's memory map) and [src/kernel/src/allocator.rs] (mapping the heap).
    The page mapper is code of the [x86_64] crate: it is a class, with the
    documented behaviour of [map_to] as laws. *)

From S2P Require Import Prelude.
Open Scope Z_scope.

Definition PAGE_SIZE : Z := 4096.

(** [VirtAddr::new] and [VirtAddr + u64]: an address must be canonical, bits 47 to 63
    all equal. *)
Definition canonical (a : Z) : bool :=
  ((0 <=? a) && (a <? 2 ^ 47)) || ((2 ^ 64 - 2 ^ 47 <=? a) && (a <? 2 ^ 64)).
Definition virt_new (a : Z) : Outcome Z := if canonical a then Return a else Panic.
Definition virt_add (a b : Z) : Outcome Z := virt_new (a + b).

(** [active_level_4_table]: the address of the table whose frame is in [Cr3], seen
    through the window that shows physical memory at an offset. *)
Definition active_level_4_table (cr3 physical_memory_offset : Z) : Outcome Z :=
  virt_add physical_memory_offset cr3.

(** [init_mapper]; [offset_page_table] is [OffsetPageTable::new]. *)
Definition init_mapper {MP} (offset_page_table : Z -> Z -> MP) (cr3 physical_memory_offset : Z) : Outcome MP :=
  let! level_4_table := active_level_4_table cr3 physical_memory_offset in
  Return (offset_page_table level_4_table physical_memory_offset).

(** An entry of the boot loader's memory map: [range.start_addr()],
    [range.end_addr()] and whether [region_type] is [Usable]. *)
Record MemoryRegion : Type := MemoryRegion_mk {
  mr_start : Z;
  mr_end : Z;
  mr_usable : bool;
}.

(** [(start..end).step_by(4096)]. *)
Definition step_by_page (r : MemoryRegion) : list Z :=
  (fun i => mr_start r + PAGE_SIZE * Z.of_nat i) <$>
    seq 0 (Z.to_nat ((mr_end r - mr_start r + PAGE_SIZE - 1) / PAGE_SIZE)).

(** [PhysFrame::containing_address]: a frame is its start address. *)
Definition containing_address (addr : Z) : Z := addr - addr mod PAGE_SIZE.

Record BootInfoFrameAllocator : Type := BootInfoFrameAllocator_mk {
  memory_map : list MemoryRegion;
  fa_next : nat;
}.

Definition BootInfoFrameAllocator_init (map : list MemoryRegion) : BootInfoFrameAllocator :=
  BootInfoFrameAllocator_mk map 0.

Definition usable_frames (map : list MemoryRegion) : list Z :=
  containing_address <$> concat (step_by_page <$> List.filter mr_usable map).

Definition allocate_frame (fa : BootInfoFrameAllocator) : option Z * BootInfoFrameAllocator :=
  (usable_frames (memory_map fa) !! fa_next fa,
   BootInfoFrameAllocator_mk (memory_map fa) (S (fa_next fa))).

(** ** The heap *)

Definition HEAP_START : Z := 0x444444440000.
Definition HEAP_SIZE : Z := 1024 * 1024.

Inductive MapToError : Type := FrameAllocationFailed | MapToOther.

(** The [Mapper] trait: [map_to] may take frames for page tables from the
    allocator it is given; [translate] is the mapping of pages. *)
Class Mapper (MP : Type) : Type := {
  map_to : MP -> Z -> Z -> BootInfoFrameAllocator -> Result MP MapToError * BootInfoFrameAllocator;
  translate : MP -> Z -> option Z;
  map_to_ok : forall mp page frame fa mp' fa', map_to mp page frame fa = (Ok mp', fa') ->
    forall p, translate mp' p = if decide (p = page) then Some frame else translate mp p;
  map_to_alloc : forall mp page frame fa,
    memory_map (map_to mp page frame fa).2 = memory_map fa /\
    (fa_next fa <= fa_next (map_to mp page frame fa).2)%nat;
}.

(** [Page::range_inclusive] of the heap. *)
Definition heap_pages : list Z :=
  let heap_end := HEAP_START + HEAP_SIZE - 1 in
  let first := containing_address HEAP_START in
  let last := containing_address heap_end in
  (fun i => first + PAGE_SIZE * Z.of_nat i) <$> seq 0 (S (Z.to_nat ((last - first) / PAGE_SIZE))).

Section heap.
Context {MP : Type} `{MI : Mapper MP}.

Fixpoint map_pages (pages : list Z) (mp : MP) (fa : BootInfoFrameAllocator)
    : Result MP MapToError * BootInfoFrameAllocator :=
  match pages with
  | [] => (Ok mp, fa)
  | page :: pages =>
      match allocate_frame fa with
      | (None, fa) => (Err FrameAllocationFailed, fa)
      | (Some frame, fa) =>
          match map_to mp page frame fa with
          | (Err e, fa) => (Err e, fa)
          | (Ok mp, fa) => map_pages pages mp fa
          end
      end
  end.

Definition init_heap (mp : MP) (fa : BootInfoFrameAllocator)
    : Result MP MapToError * BootInfoFrameAllocator := map_pages heap_pages mp fa.
End heap.

(** ** Frames *)

(** What the boot loader guarantees of its map: page-aligned, disjoint regions. *)
Definition region_ok (r : MemoryRegion) : Prop :=
  0 <= mr_start r <= mr_end r /\ mr_start r mod PAGE_SIZE = 0 /\ mr_end r mod PAGE_SIZE = 0.

Definition regions_disjoint (r1 r2 : MemoryRegion) : Prop :=
  mr_end r1 <= mr_start r2 \/ mr_end r2 <= mr_start r1.

Fixpoint map_ok (map : list MemoryRegion) : Prop :=
  match map with
  | [] => True
  | r :: map => region_ok r /\ Forall (regions_disjoint r) map /\ map_ok map
  end.

(** The frame lies inside a usable region. *)
Definition in_usable (map : list MemoryRegion) (f : Z) : Prop :=
  exists r, r ∈ map /\ mr_usable r = true /\ mr_start r <= f /\ f + PAGE_SIZE <= mr_end r.

Lemma map_ok_region map r : map_ok map -> r ∈ map -> region_ok r.
Proof.
  induction map as [|x map IH]; [by intros _ ?%elem_of_nil|]. intros (Hx & _ & Hm) [->|Hr]%elem_of_cons; auto.
Qed.

Lemma containing_aligned a i : a mod PAGE_SIZE = 0 -> containing_address (a + PAGE_SIZE * i) = a + PAGE_SIZE * i.
Proof. intros H. unfold containing_address. rewrite Z.mul_comm, Z_mod_plus_full. lia. Qed.

Lemma usable_frames_cons r map :
  usable_frames (r :: map) =
    (if mr_usable r then containing_address <$> step_by_page r else []) ++ usable_frames map.
Proof. unfold usable_frames. simpl. destruct (mr_usable r); [|done]. simpl. by rewrite fmap_app. Qed.

Lemma step_by_page_elem r f :
  region_ok r -> f ∈ containing_address <$> step_by_page r ->
  mr_start r <= f /\ f + PAGE_SIZE <= mr_end r.
Proof.
  intros ([H0 Hle] & Hs & He) Hf. unfold step_by_page in Hf. rewrite <- list_fmap_compose in Hf.
  apply list_elem_of_fmap in Hf as (i & -> & Hi). simpl. rewrite containing_aligned by done.
  apply elem_of_seq in Hi as [_ Hi]. simpl in Hi. unfold PAGE_SIZE in *.
  apply Z.mod_divide in Hs as [x Hx], He as [y Hy]; try done. rewrite Hx, Hy in *.
  replace (y * 4096 - x * 4096 + 4096 - 1) with (4095 + (y - x) * 4096) in Hi by lia.
  rewrite Z.div_add in Hi by lia. change (4095 / 4096) with 0 in Hi. lia.
Qed.

Lemma step_by_page_NoDup r : region_ok r -> NoDup (containing_address <$> step_by_page r).
Proof.
  intros (_ & Hs & _). unfold step_by_page. rewrite <- list_fmap_compose.
  apply NoDup_fmap_2_strong; [|apply NoDup_seq]. intros i j _ _. simpl.
  rewrite !containing_aligned by done. unfold PAGE_SIZE. lia.
Qed.

Lemma usable_frames_elem map f : map_ok map -> f ∈ usable_frames map -> in_usable map f.
Proof.
  induction map as [|r map IH]; intros Hm Hf; [by apply elem_of_nil in Hf|].
  destruct Hm as (Hr & _ & Hm). rewrite usable_frames_cons in Hf. apply elem_of_app in Hf as [Hf|Hf].
  - destruct (mr_usable r) eqn:Eu; [|by apply elem_of_nil in Hf].
    apply (step_by_page_elem _ _ Hr) in Hf. exists r. split; [left|tauto].
  - destruct (IH Hm Hf) as (r' & ? & ?). exists r'. split; [by right|done].
Qed.

Lemma usable_frames_NoDup map : map_ok map -> NoDup (usable_frames map).
Proof.
  induction map as [|r map IH]; intros Hm; [apply NoDup_nil_2|]. destruct Hm as (Hr & Hd & Hm).
  rewrite usable_frames_cons. apply NoDup_app. split_and!; [|intros f Hf Hf'|by apply IH].
  - destruct (mr_usable r); [by apply step_by_page_NoDup|apply NoDup_nil_2].
  - destruct (mr_usable r); [|by apply elem_of_nil in Hf]. apply (step_by_page_elem _ _ Hr) in Hf.
    destruct (usable_frames_elem _ _ Hm Hf') as (r' & Hin & _ & ?).
    rewrite Forall_forall in Hd. destruct (Hd _ Hin); unfold PAGE_SIZE in *; lia.
Qed.

(** ** Mapping *)

Section mapping.
Context {MP : Type} `{MI : Mapper MP}.
Implicit Types (mp : MP) (fa : BootInfoFrameAllocator).

(** Page [p] is mapped to the frame allocated as number [i]. *)
Definition mapped mp fa (p : Z) (i : nat) : Prop :=
  is_Some (usable_frames (memory_map fa) !! i) /\
  translate mp p = usable_frames (memory_map fa) !! i.

Lemma map_pages_ok pages mp fa mp' fa' :
  NoDup pages -> map_pages pages mp fa = (Ok mp', fa') ->
  (forall p, p ∉ pages -> translate mp' p = translate mp p) /\
  exists ixs, Forall2 (mapped mp' fa) pages ixs /\ NoDup ixs /\ Forall (fun i => fa_next fa <= i)%nat ixs.
Proof.
  revert mp fa. induction pages as [|page pages IH]; intros mp fa Hnd; simpl.
  { intros [= <- <-]. split; [done|]. exists []. split_and!; constructor. }
  apply NoDup_cons in Hnd as [Hni Hnd].
  destruct (usable_frames (memory_map fa) !! fa_next fa) as [frame|] eqn:Ef; [|done].
  pose proof (map_to_alloc mp page frame (BootInfoFrameAllocator_mk (memory_map fa) (S (fa_next fa)))) as [Hmm Hn].
  destruct (map_to _ _ _ _) as [[mp1|e] fa1] eqn:Em; [|done]. intros H. simpl in Hmm, Hn.
  pose proof (map_to_ok _ _ _ _ _ _ Em) as Ht.
  destruct (IH _ _ Hnd H) as (Hout & ixs & Hf & Hdup & Hge).
  assert (Hpage : translate mp' page = Some frame) by (rewrite Hout, Ht, decide_True by done; done).
  split.
  - intros p Hp. apply not_elem_of_cons in Hp as [? ?]. rewrite Hout, Ht, decide_False by done. done.
  - exists (fa_next fa :: ixs). split_and!.
    + constructor; [split; [by eexists|congruence]|].
      eapply Forall2_impl; [exact Hf|]. intros p i [??]. unfold mapped. by rewrite <- Hmm.
    + apply NoDup_cons. split; [|done]. intros Hin. rewrite Forall_forall in Hge. apply Hge in Hin. lia.
    + constructor; [lia|]. eapply Forall_impl; [exact Hge|]. simpl. lia.
Qed.
End mapping.

Lemma heap_pages_NoDup : NoDup heap_pages.
Proof.
  unfold heap_pages. apply NoDup_fmap_2_strong; [|apply NoDup_seq]. intros i j _ _. unfold PAGE_SIZE. lia.
Qed.

Lemma heap_page_count :
  (containing_address (HEAP_START + HEAP_SIZE - 1) - containing_address HEAP_START) / PAGE_SIZE = 255.
Proof. reflexivity. Qed.

Lemma heap_pages_cover a :
  HEAP_START <= a < HEAP_START + HEAP_SIZE -> containing_address a ∈ heap_pages.
Proof.
  intros Ha. unfold heap_pages. rewrite heap_page_count.
  apply list_elem_of_fmap. exists (Z.to_nat ((a - HEAP_START) / PAGE_SIZE)).
  unfold containing_address, PAGE_SIZE, HEAP_START, HEAP_SIZE in *. split.
  - Z.to_euclidean_division_equations. lia.
  - apply elem_of_seq. Z.to_euclidean_division_equations. lia.
Qed.

Section heap_mapped.
Context {MP : Type} `{MI : Mapper MP} (mp mp' : MP) (map : list MemoryRegion) (fa' : BootInfoFrameAllocator).
Hypothesis Hm : map_ok map.
Hypothesis Hinit : init_heap mp (BootInfoFrameAllocator_init map) = (Ok mp', fa').

(** The heap pages and the positions of their frames in the list of usable ones. *)
Lemma heap_page_frames :
  exists ixs, NoDup ixs /\ (forall p, p ∈ heap_pages -> exists n i, heap_pages !! n = Some p /\ ixs !! n = Some i /\
    mapped mp' (BootInfoFrameAllocator_init map) p i).
Proof.
  destruct (map_pages_ok _ _ _ _ _ heap_pages_NoDup Hinit) as (_ & ixs & Hf & Hnd & _). exists ixs. split; [done|].
  intros p [n Hn]%list_elem_of_lookup. destruct (Forall2_lookup_l _ _ _ _ _ Hf Hn) as (i & Hi & Hp). eauto.
Qed.

Lemma heap_address_mapped a :
  HEAP_START <= a < HEAP_START + HEAP_SIZE ->
  exists f, translate mp' (containing_address a) = Some f /\ in_usable map f.
Proof.
  intros Ha. destruct heap_page_frames as (ixs & _ & Hidx).
  destruct (Hidx _ (heap_pages_cover a Ha)) as (n & i & _ & _ & [f Hfr] & ->).
  exists f. split; [done|]. apply usable_frames_elem; [done|]. by eapply list_elem_of_lookup_2.
Qed.
End heap_mapped.

(** C36: when [init_heap] succeeds on a well-formed memory map, every address of the
    heap lies on a page mapped to a whole frame of a usable region, no two heap
    pages share a frame, and no mapping outside the heap has changed. *)
Theorem heap_maps_fresh_frames {MP} `{MI : Mapper MP} (mp mp' : MP) map fa' :
  map_ok map -> init_heap mp (BootInfoFrameAllocator_init map) = (Ok mp', fa') ->
  (forall a, HEAP_START <= a < HEAP_START + HEAP_SIZE ->
     exists f, translate mp' (containing_address a) = Some f /\ in_usable map f) /\
  (forall p1 p2 f, p1 ∈ heap_pages -> p2 ∈ heap_pages ->
     translate mp' p1 = Some f -> translate mp' p2 = Some f -> p1 = p2) /\
  (forall p, p ∉ heap_pages -> translate mp' p = translate mp p).
Proof.
  intros Hm H. destruct (map_pages_ok _ _ _ _ _ heap_pages_NoDup H) as (Hout & _).
  split_and!; [intros a Ha; by eapply heap_address_mapped| |done].
  destruct (heap_page_frames mp mp' map fa' H) as (ixs & Hnd & Hidx).
  intros p1 p2 f H1 H2 T1 T2.
  destruct (Hidx _ H1) as (n1 & i1 & N1 & I1 & _ & M1), (Hidx _ H2) as (n2 & i2 & N2 & I2 & _ & M2).
  rewrite T1 in M1. rewrite T2 in M2. simpl in M1, M2.
  assert (i1 = i2) as <- by (eapply NoDup_lookup; [apply (usable_frames_NoDup map Hm)|done..]).
  assert (n1 = n2) as <- by (eapply NoDup_lookup; [exact Hnd|done..]). congruence.
Qed.

(** ** Witness: a mapper that is a table, and one usable region of 300 frames. *)

Definition table_map_to (mp : gmap Z Z) (page frame : Z) (fa : BootInfoFrameAllocator)
    : Result (gmap Z Z) MapToError * BootInfoFrameAllocator :=
  match mp !! page with
  | Some _ => (Err MapToOther, fa)
  | None => (Ok (<[page := frame]> mp), fa)
  end.

#[export] Instance table_Mapper : Mapper (gmap Z Z).
Proof.
  refine {| map_to := table_map_to; translate := fun mp p => mp !! p |}.
  - intros mp page frame fa mp' fa'. unfold table_map_to. destruct (mp !! page); [done|].
    intros [= <- <-] p. rewrite lookup_insert. by repeat case_decide; subst.
  - intros mp page frame fa. unfold table_map_to. by destruct (mp !! page).
Defined.

Definition demo_map : list MemoryRegion :=
  [MemoryRegion_mk 0 0x1000 false; MemoryRegion_mk 0x100000 0x22C000 true].

Lemma demo_map_ok : map_ok demo_map.
Proof. repeat constructor; vm_compute; congruence. Qed.

Definition is_ok {A E} (r : Result A E) : bool := match r with Ok _ => true | Err _ => false end.

Lemma demo_heap_ok : is_ok (init_heap (∅ : gmap Z Z) (BootInfoFrameAllocator_init demo_map)).1 = true.
Proof. vm_compute. reflexivity. Qed.

Lemma heap_maps_fresh_frames_witness :
  exists mp' fa', init_heap (∅ : gmap Z Z) (BootInfoFrameAllocator_init demo_map) = (Ok mp', fa') /\
    exists f, mp' !! HEAP_START = Some f /\ in_usable demo_map f.
Proof.
  pose proof demo_heap_ok as Hok.
  destruct (init_heap (∅ : gmap Z Z) (BootInfoFrameAllocator_init demo_map)) as [[mp'|e] fa'] eqn:E.
  - exists mp', fa'. split; [reflexivity|].
    apply (proj1 (heap_maps_fresh_frames ∅ mp' demo_map fa' demo_map_ok E) HEAP_START).
    unfold HEAP_SIZE. lia.
  - discriminate Hok.
Defined.
