(* ===== verification/Capability.v ===== *)
(** * Capabilities

    Models [src/common/src/capability.rs] (the ABI type [CapId], the rights and
    the capability record shared with userspace) and the kernel-side table of
    [src/kernel/src/capability/mod.rs].  The two function-local statics
    [NEXT_INDEX] (one in [CapId::next], one in [Capability::new]) are [u32]
    counters threaded through the operations that advance them. *)

From S2P Require Import Prelude.

(** ** Identifiers *)

(** [CapId]: an index and a generation, both [u32]. *)
Record CapId : Type := CapId_mk { capid_index : Z; capid_generation : Z }.

#[export] Instance CapId_eq_dec : EqDecision CapId.
Proof. solve_decision. Defined.

#[export] Instance CapId_countable : Countable CapId :=
  inj_countable' (fun i => (capid_index i, capid_generation i))
    (fun p => CapId_mk p.1 p.2) (fun i => match i with CapId_mk _ _ => eq_refl end).

Definition CapId_wf (id : CapId) : Prop :=
  fits 32 (capid_index id) /\ fits 32 (capid_generation id).

Definition CapId_new (index generation : Z) : CapId := CapId_mk index generation.

Definition CapId_from_u64 (val : Z) : CapId :=
  CapId_mk (as_u32 (Z.land val 0xFFFFFFFF)) (as_u32 (Z.shiftr val 32)).

Definition CapId_as_u64 (id : CapId) : Z :=
  Z.lor (as_u64 (Z.shiftl (capid_generation id) 32)) (capid_index id).

(** [CapId::next]: [next_index] is the static [NEXT_INDEX], initially 100. *)
Definition CapId_next (next_index : Z) : CapId * Z :=
  let '(i, next_index) := fetch_add 32 next_index in (CapId_new i 0, next_index).

Definition CapId_next_init : Z := 100.

(** The derived [Ord]: lexicographic on (index, generation). *)
Definition CapId_le (a b : CapId) : Prop :=
  capid_index a < capid_index b \/
  (capid_index a = capid_index b /\ capid_generation a <= capid_generation b).

#[export] Instance CapId_le_dec : RelDecision CapId_le.
Proof. intros a b. unfold CapId_le. apply _. Defined.

(** ** Rights

    The [bitflags!] macro generates the operations on [CapabilityRights]; they
    are a parameter, with the documented meaning of [|], [&] and [contains] on
    the underlying [bits()] as laws. *)
Class Bitflags : Type := {
  rights_or : Z -> Z -> Z;
  rights_and : Z -> Z -> Z;
  rights_contains : Z -> Z -> bool;
  rights_or_bits : forall a b, rights_or a b = Z.lor a b;
  rights_and_bits : forall a b, rights_and a b = Z.land a b;
  rights_contains_bits : forall a b, rights_contains a b = true <-> Z.land a b = b;
}.

(** The operations as plain bit operations on [bits()]. *)
Definition Z_Bitflags : Bitflags.
Proof.
  refine {| rights_or := Z.lor; rights_and := Z.land;
            rights_contains := fun a b => Z.land a b =? b |}; [done..|].
  intros a b. apply Z.eqb_eq.
Defined.

Definition RIGHT_READ : Z := Z.shiftl 1 0.
Definition RIGHT_WRITE : Z := Z.shiftl 1 1.
Definition RIGHT_EXECUTE : Z := Z.shiftl 1 2.
Definition RIGHT_GRANT : Z := Z.shiftl 1 3.
Definition RIGHT_CALL : Z := Z.shiftl 1 4.

(** ** Capabilities *)

Inductive CapabilityType : Type :=
| CtMemory (start size : Z)
| CtSerial (port : Z)
| CtTimer
| CtInterrupt (irq : Z)
| CtNetwork (socket : Z)
| CtDirectory (handle : Z)
| CtFile (handle : Z)
| CtMutex (handle : Z)
| CtSemaphore (handle : Z).

#[export] Instance CapabilityType_eq_dec : EqDecision CapabilityType.
Proof. solve_decision. Defined.

(** [sovelma_common::capability::Capability]. *)
Record Capability : Type := Capability_mk {
  cap_id : CapId;
  cap_rights : Z;
  cap_object : CapabilityType;
  cap_generation : Z;
}.

(** [Capability::new]: [next_index] is its own static, initially 1. *)
Definition Capability_new (object : CapabilityType) (rights next_index : Z) : Capability * Z :=
  let '(i, next_index) := fetch_add 32 next_index in
  (Capability_mk (CapId_new i 0) rights object 0, next_index).

Definition Capability_new_init : Z := 1.

(** ** The kernel capability table *)

(** [kernel::capability::Capability]. *)
Record KCapability : Type := KCapability_mk {
  kcap_id : CapId;
  kcap_resource : CapabilityType;
  kcap_owner_task_id : option Z;
}.

Inductive CapError : Type := CapNotFound | CapPermissionDenied.

(** [CapabilityTable], with the static counter of [CapId::next] beside it. *)
Record CapabilityTable : Type := CapabilityTable_mk {
  caps : gmap CapId KCapability;
  next_cap_index : Z;
}.

Definition CapabilityTable_new (next_index : Z) : CapabilityTable :=
  CapabilityTable_mk ∅ next_index.

Definition CapabilityTable_grant (t : CapabilityTable) (resource : CapabilityType)
    (owner : option Z) : CapId * CapabilityTable :=
  let '(id, next_index) := CapId_next (next_cap_index t) in
  let cap := KCapability_mk id resource owner in
  (id, CapabilityTable_mk (<[id := cap]> (caps t)) next_index).

Definition CapabilityTable_revoke (t : CapabilityTable) (id : CapId)
    : Result unit CapError * CapabilityTable :=
  match caps t !! id with
  | Some _ => (Ok tt, CapabilityTable_mk (delete id (caps t)) (next_cap_index t))
  | None => (Err CapNotFound, t)
  end.

Definition CapabilityTable_has_access (t : CapabilityTable) (task_id : Z) (id : CapId) : bool :=
  match caps t !! id with
  | Some cap => bool_decide (kcap_owner_task_id cap = Some task_id)
  | None => false
  end.

(** Histories of table operations. *)
Inductive TableOp : Type :=
| OpGrant (resource : CapabilityType) (owner : option Z)
| OpRevoke (id : CapId).

#[export] Instance TableOp_eq_dec : EqDecision TableOp.
Proof. solve_decision. Defined.

Definition table_step (t : CapabilityTable) (op : TableOp) : CapabilityTable :=
  match op with
  | OpGrant r o => (CapabilityTable_grant t r o).2
  | OpRevoke id => (CapabilityTable_revoke t id).2
  end.

Definition table_run (t : CapabilityTable) (ops : list TableOp) : CapabilityTable :=
  foldl table_step t ops.

Definition grants (ops : list TableOp) : Z :=
  Z.of_nat (length (List.filter (fun op => match op with OpGrant _ _ => true | _ => false end) ops)).

(** ** Identifier codec *)

Lemma CapId_as_u64_value id :
  CapId_wf id -> CapId_as_u64 id = capid_generation id * 2 ^ 32 + capid_index id.
Proof.
  intros [Hi Hg]. unfold CapId_as_u64.
  rewrite Z.shiftl_mul_pow2 by lia.
  rewrite wrap_small by (unfold fits in *; lia).
  by apply lor_add.
Qed.

Lemma CapId_from_u64_value v :
  CapId_from_u64 v = CapId_mk (v mod 2 ^ 32) ((v / 2 ^ 32) mod 2 ^ 32).
Proof.
  unfold CapId_from_u64. change 0xFFFFFFFF with (Z.ones 32).
  rewrite Z.land_ones, Z.shiftr_div_pow2 by lia.
  by rewrite (wrap_wrap 32 v : as_u32 (v mod 2 ^ 32) = _).
Qed.

Lemma CapId_from_u64_wf v : CapId_wf (CapId_from_u64 v).
Proof.
  rewrite CapId_from_u64_value. split; apply wrap_range; lia.
Qed.
#[export] Hint Resolve CapId_from_u64_wf : rust.

Lemma CapId_from_as_u64 id : CapId_wf id -> CapId_from_u64 (CapId_as_u64 id) = id.
Proof.
  intros Hwf. rewrite CapId_from_u64_value, CapId_as_u64_value by done.
  destruct id as [i g], Hwf as [Hi Hg]; unfold fits in *; simpl in *.
  f_equal; Z.to_euclidean_division_equations; lia.
Qed.

Lemma CapId_as_from_u64 v : fits 64 v -> CapId_as_u64 (CapId_from_u64 v) = v.
Proof.
  intros Hv. rewrite CapId_as_u64_value by auto with rust.
  rewrite CapId_from_u64_value. unfold fits in *; simpl.
  Z.to_euclidean_division_equations; lia.
Qed.

(** The value a host function returns for a capability of generation 0 is its
    index, so it survives the cast to [i64] and back. *)
Lemma CapId_as_i64_gen0 i :
  fits 32 i -> as_i64 (CapId_as_u64 (CapId_new i 0)) = i.
Proof.
  intros Hi. rewrite CapId_as_u64_value by (split; simpl; [done|unfold fits; lia]).
  simpl. apply swrap_small; unfold fits in *; lia.
Qed.

(** ** Histories *)

Lemma grants_cons op ops :
  grants (op :: ops) = (match op with OpGrant _ _ => 1 | _ => 0 end) + grants ops.
Proof. unfold grants. destruct op; simpl; lia. Qed.

Lemma grants_nonneg ops : 0 <= grants ops.
Proof. unfold grants. lia. Qed.

(** The indices issued by a history are consecutive from the counter. *)
Definition issues (t : CapabilityTable) (n : Z) (id : CapId) : Prop :=
  exists k, 0 <= k < n /\ capid_index id = as_u32 (next_cap_index t + k).

Lemma issues_grant t r o n id :
  0 <= n -> issues (CapabilityTable_grant t r o).2 n id -> issues t (1 + n) id.
Proof.
  intros Hn (k & Hk & Heq). exists (1 + k). split; [lia|]. rewrite Heq. simpl.
  unfold wrap. rewrite Zplus_mod_idemp_l. f_equal. lia.
Qed.

Lemma table_run_lookup t ops id :
  OpRevoke id ∉ ops -> ~ issues t (grants ops) id -> fits 32 (next_cap_index t) ->
  caps (table_run t ops) !! id = caps t !! id.
Proof.
  revert t. induction ops as [|op ops IH]; intros t Hrev Hiss Hfit; [done|].
  rewrite grants_cons in Hiss. pose proof (grants_nonneg ops).
  apply not_elem_of_cons in Hrev as [Hop Hrev].
  change (table_run t (op :: ops)) with (table_run (table_step t op) ops).
  destruct op as [r o|id']; simpl.
  - rewrite IH; [|done| |apply wrap_range; lia].
    + simpl. apply lookup_insert_ne. intros <-. apply Hiss. exists 0.
      simpl. rewrite Z.add_0_r, wrap_small by done. split; [lia|done].
    + intros Hi. apply Hiss. eapply issues_grant; [lia|apply Hi].
  - unfold CapabilityTable_revoke. destruct (caps t !! id') eqn:E; simpl.
    + rewrite IH; [|done|done|done]. simpl. apply lookup_delete_ne. congruence.
    + by rewrite IH.
Qed.

(** An absent id stays absent until it is issued, whatever is revoked. *)
Lemma table_run_absent t ops id :
  caps t !! id = None -> ~ issues t (grants ops) id -> fits 32 (next_cap_index t) ->
  caps (table_run t ops) !! id = None.
Proof.
  revert t. induction ops as [|op ops IH]; intros t Hnone Hiss Hfit; [done|].
  rewrite grants_cons in Hiss. pose proof (grants_nonneg ops).
  change (table_run t (op :: ops)) with (table_run (table_step t op) ops).
  destruct op as [r o|id']; simpl.
  - apply IH; [| |apply wrap_range; lia].
    + simpl. rewrite lookup_insert_ne; [done|]. intros <-. apply Hiss. exists 0.
      simpl. rewrite Z.add_0_r, wrap_small by done. split; [lia|done].
    + intros Hi. apply Hiss. eapply issues_grant; [lia|apply Hi].
  - unfold CapabilityTable_revoke. destruct (caps t !! id') eqn:E; simpl; apply IH; auto.
    simpl. by apply lookup_delete_None; right.
Qed.

Lemma table_run_app t ops1 ops2 :
  table_run t (ops1 ++ ops2) = table_run (table_run t ops1) ops2.
Proof. apply foldl_app. Qed.

Lemma grants_app ops1 ops2 : grants (ops1 ++ ops2) = grants ops1 + grants ops2.
Proof. unfold grants. rewrite List.filter_app, length_app. lia. Qed.

Lemma table_run_next t ops :
  fits 32 (next_cap_index t) ->
  next_cap_index (table_run t ops) = as_u32 (next_cap_index t + grants ops).
Proof.
  revert t. induction ops as [|op ops IH]; intros t Hfit.
  - simpl. by rewrite Z.add_0_r, wrap_small.
  - change (table_run t (op :: ops)) with (table_run (table_step t op) ops).
    rewrite grants_cons. destruct op as [r o|id']; simpl.
    + rewrite IH by (apply wrap_range; lia). simpl.
      unfold wrap. rewrite Zplus_mod_idemp_l. f_equal. lia.
    + unfold CapabilityTable_revoke. destruct (caps t !! id'); simpl; by rewrite IH.
Qed.

(** A fresh grant's index is not issued again by fewer than [2^32] grants. *)
Lemma grant_not_reissued t r o n :
  fits 32 (next_cap_index t) -> n < 2 ^ 32 ->
  let '(id, t') := CapabilityTable_grant t r o in ~ issues t' n id.
Proof.
  intros Hfit Hn. simpl. intros (k & Hk & Heq). simpl in Heq.
  unfold wrap, fits in *. rewrite Zplus_mod_idemp_l in Heq.
  Z.to_euclidean_division_equations; lia.
Qed.

(** Revoking an id that is not issued again leaves it absent for good. *)
Lemma revoked_no_access t1 id ops1 ops2 task :
  fits 32 (next_cap_index t1) -> ~ issues t1 (grants (ops1 ++ ops2)) id ->
  CapabilityTable_has_access (table_run t1 (ops1 ++ OpRevoke id :: ops2)) task id = false.
Proof.
  intros Hfit Hiss. rewrite table_run_app.
  set (t2 := table_run t1 ops1).
  change (table_run t2 (OpRevoke id :: ops2)) with
    (table_run (table_step t2 (OpRevoke id)) ops2).
  set (t3 := table_step t2 (OpRevoke id)).
  assert (Hnone : caps t3 !! id = None).
  { unfold t3; simpl. unfold CapabilityTable_revoke.
    destruct (caps t2 !! id) eqn:E; simpl; [apply lookup_delete_eq|done]. }
  assert (Hnext : next_cap_index t3 = as_u32 (next_cap_index t1 + grants ops1)).
  { unfold t3; simpl. unfold CapabilityTable_revoke.
    destruct (caps t2 !! id); simpl; by apply table_run_next. }
  unfold CapabilityTable_has_access. rewrite table_run_absent; [done|done| |].
  - intros (k & Hk & Heq). apply Hiss. exists (grants ops1 + k).
    rewrite grants_app. pose proof (grants_nonneg ops1). split; [lia|].
    rewrite Heq, Hnext. unfold wrap. rewrite Zplus_mod_idemp_l. f_equal. lia.
  - rewrite Hnext. apply wrap_range. lia.
Qed.

(** ** Properties *)

(** The [u64] encoding of capability ids is a bijection between ids with
    [u32] fields and [u64] values: decoding inverts encoding and encoding
    inverts decoding. *)
Theorem capid_u64_roundtrip (id : CapId) (v : Z) :
  CapId_wf id -> fits 64 v ->
  CapId_from_u64 (CapId_as_u64 id) = id /\ fits 64 (CapId_as_u64 id) /\
  CapId_as_u64 (CapId_from_u64 v) = v.
Proof.
  intros Hwf Hv. split_and!.
  - by apply CapId_from_as_u64.
  - rewrite CapId_as_u64_value by done. destruct Hwf. unfold fits in *. lia.
  - by apply CapId_as_from_u64.
Qed.

Lemma capid_u64_roundtrip_witness :
  CapId_from_u64 (CapId_as_u64 (CapId_new 7 3)) = CapId_new 7 3 /\
  fits 64 (CapId_as_u64 (CapId_new 7 3)) /\
  CapId_as_u64 (CapId_from_u64 0x500000009) = 0x500000009.
Proof. apply capid_u64_roundtrip; unfold CapId_wf, fits; simpl; lia. Defined.

(** A granted capability is accessible to exactly the task it was granted
    to, through every later history of grants and revocations of other ids
    (fewer than [2^32] grants, the range of the index counter). *)
Theorem grant_access_stable (t : CapabilityTable) (r : CapabilityType) (o : option Z)
    (ops : list TableOp) (task : Z) :
  fits 32 (next_cap_index t) -> grants ops < 2 ^ 32 ->
  OpRevoke (CapabilityTable_grant t r o).1 ∉ ops ->
  CapabilityTable_has_access (table_run (CapabilityTable_grant t r o).2 ops) task
    (CapabilityTable_grant t r o).1 = bool_decide (o = Some task).
Proof.
  intros Hfit Hn Hrev. unfold CapabilityTable_has_access.
  rewrite table_run_lookup; [|done| |apply wrap_range; lia].
  - simpl. by rewrite lookup_insert_eq.
  - exact (grant_not_reissued t r o (grants ops) Hfit Hn).
Qed.

Lemma grant_access_stable_witness :
  let g := CapabilityTable_grant (CapabilityTable_new CapId_next_init) (CtSerial 0x3F8) (Some 101) in
  let t := table_run g.2 [OpGrant CtTimer None; OpRevoke (CapId_new 101 0)] in
  CapabilityTable_has_access t 101 g.1 = true /\ CapabilityTable_has_access t 102 g.1 = false.
Proof.
  split.
  - refine (eq_trans (grant_access_stable (CapabilityTable_new CapId_next_init) (CtSerial 0x3F8)
      (Some 101) _ 101 _ _ _) eq_refl); [split; vm_compute; done|vm_compute; done|].
    by_compute.
  - refine (eq_trans (grant_access_stable (CapabilityTable_new CapId_next_init) (CtSerial 0x3F8)
      (Some 101) _ 102 _ _ _) eq_refl); [split; vm_compute; done|vm_compute; done|].
    by_compute.
Defined.



Lemma grants_replicate n r o : grants (replicate n (OpGrant r o)) = Z.of_nat n.
Proof. unfold grants. f_equal. induction n as [|n IH]; simpl; [done|by rewrite IH]. Qed.

(** The bound is exact: [2^32] grants after the revocation the id is in use again. *)
Theorem revoked_id_reissued (t : CapabilityTable) (r : CapabilityType) (o : option Z) (task : Z) :
  fits 32 (next_cap_index t) ->
  let '(id, t1) := CapabilityTable_grant t r o in
  exists ops, grants ops = 2 ^ 32 /\ CapabilityTable_has_access (table_run t1 (OpRevoke id :: ops)) task id = true.
Proof.
  intros Hfit. destruct (CapabilityTable_grant t r o) as [id t1] eqn:E. injection E as <- <-.
  set (t1 := CapabilityTable_mk _ _). set (id := CapId_new _ _).
  assert (Hn : exists n, Z.of_nat n = 2 ^ 32 - 1) by (exists (Z.to_nat (2 ^ 32 - 1)); lia). destruct Hn as [n Hn].
  pose proof (grants_replicate n r (Some task)) as Hg. rewrite Hn in Hg. clear Hn.
  assert (Hone : grants [OpGrant r (Some task)] = 1) by done.
  exists (replicate n (OpGrant r (Some task)) ++ [OpGrant r (Some task)]). split; [rewrite grants_app, Hg, Hone; lia|].
  change (OpRevoke id :: replicate n (OpGrant r (Some task)) ++ [OpGrant r (Some task)]) with
    ((OpRevoke id :: replicate n (OpGrant r (Some task))) ++ [OpGrant r (Some task)]). rewrite table_run_app.
  set (t2 := table_run t1 _).
  assert (Hn : next_cap_index t2 = next_cap_index t).
  { unfold t2. rewrite table_run_next by (apply wrap_range; lia).
    change (grants (OpRevoke id :: replicate n (OpGrant r (Some task)))) with (grants (replicate n (OpGrant r (Some task)))).
    rewrite Hg. unfold t1, next_cap_index at 1. unfold wrap. rewrite Zplus_mod_idemp_l.
    replace (next_cap_index t + 1 + (2 ^ 32 - 1)) with (next_cap_index t + 1 * 2 ^ 32) by lia. rewrite Z.mod_add by lia.
    by apply Z.mod_small. }
  unfold CapabilityTable_has_access. simpl. rewrite Hn. unfold id. rewrite lookup_insert_eq. simpl. by rewrite bool_decide_true.
Qed.
