(* ===== verification/Text.v ===== *)
(** * Rust string and byte operations

    The part of [core::str] and [core::num] the kernel uses, on [string] (a
    Rust [str] is its UTF-8 byte sequence, one [ascii] per byte) and on
    [list byte]: [split(char)] on an ASCII separator, path splitting,
    [to_le_bytes]/[from_le_bytes]. *)

From S2P Require Import Prelude.
From Stdlib Require Import Ascii.

(** ** Splitting *)

(** [s.split(sep)] for an ASCII separator: always at least one piece. *)
Fixpoint split_on (sep : ascii) (s : string) : list string :=
  match s with
  | EmptyString => [EmptyString]
  | String c s' =>
      if decide (c = sep) then EmptyString :: split_on sep s'
      else match split_on sep s' with
           | [] => [String c EmptyString]
           | h :: t => String c h :: t
           end
  end.

Definition is_empty_str (s : string) : bool :=
  match s with EmptyString => true | _ => false end.

(** [path.split('/').filter(|s| !s.is_empty()).collect()]. *)
Definition path_parts (path : string) : list string :=
  List.filter (fun s => negb (is_empty_str s)) (split_on "/" path).

(** [slice.join(sep)]. *)
Fixpoint join (sep : string) (l : list string) : string :=
  match l with
  | [] => EmptyString
  | [x] => x
  | x :: l' => (x ++ sep ++ join sep l')%string
  end.

Fixpoint has_char (c : ascii) (s : string) : bool :=
  match s with
  | EmptyString => false
  | String c' s' => bool_decide (c' = c) || has_char c s'
  end.

(** A path component: non-empty and without a separator. *)
Definition component (s : string) : Prop := is_empty_str s = false /\ has_char "/" s = false.

Lemma split_on_cons sep s : exists h t, split_on sep s = h :: t.
Proof.
  destruct s as [|c s]; simpl; [eauto|].
  case_decide; [eauto|]. destruct (split_on sep s); eauto.
Qed.

Lemma split_on_no_sep sep s : has_char sep s = false -> split_on sep s = [s].
Proof.
  induction s as [|c s IH]; simpl; [done|].
  intros [Hc Hs]%orb_false_iff. rewrite IH by done.
  case_decide; [|done]. subst. by rewrite bool_decide_true in Hc.
Qed.

Lemma split_on_app sep a b :
  has_char sep a = false -> split_on sep (a ++ String sep b) = a :: split_on sep b.
Proof.
  induction a as [|c a IH]; simpl.
  - intros _. by rewrite decide_True.
  - intros [Hc Ha]%orb_false_iff. rewrite IH by done.
    case_decide; [|done]. subst. by rewrite bool_decide_true in Hc.
Qed.

Lemma split_on_pieces sep s : Forall (fun x => has_char sep x = false) (split_on sep s).
Proof.
  induction s as [|c s IH]; simpl; [by repeat constructor|].
  case_decide; [by constructor|].
  destruct (split_on sep s) as [|h t]; inversion IH; subst.
  - repeat constructor. simpl. by rewrite bool_decide_false.
  - constructor; [|done]. simpl. by rewrite bool_decide_false.
Qed.

Lemma split_on_join sep l :
  Forall (fun x => has_char sep x = false) l -> l <> [] ->
  split_on sep (join (String sep EmptyString) l) = l.
Proof.
  induction 1 as [|x l Hx Hl IH]; intros Hne; [done|].
  destruct l as [|y l].
  - by apply split_on_no_sep.
  - change (join (String sep EmptyString) (x :: y :: l)) with
      (x +:+ String sep (join (String sep EmptyString) (y :: l))).
    rewrite split_on_app by done. f_equal. by apply IH.
Qed.

Lemma path_parts_component path : Forall component (path_parts path).
Proof.
  apply Forall_forall. intros x Hx. unfold path_parts in Hx.
  rewrite list_elem_of_In in Hx. apply List.filter_In in Hx as [Hin Hne].
  split; [by destruct x|].
  pose proof (split_on_pieces "/" path) as Hall. rewrite Forall_forall in Hall.
  apply Hall. by apply list_elem_of_In.
Qed.

Lemma path_parts_join l : Forall component l -> path_parts (join "/" l) = l.
Proof.
  intros Hl. unfold path_parts. destruct (decide (l = [])) as [->|Hne]; [done|].
  rewrite split_on_join; [|eapply Forall_impl; [done|]; by intros x []|done].
  clear Hne. induction Hl as [|x l [Hx _] Hl IH]; simpl; [done|].
  rewrite Hx. simpl. by f_equal.
Qed.
#[export] Hint Resolve path_parts_component : rust.

(** ** Bytes *)

Definition byte_to_Z (b : byte) : Z := Z.of_N (Byte.to_N b).
Definition byte_of_Z (z : Z) : byte :=
  match Byte.of_N (Z.to_N (z mod 256)) with Some b => b | None => x00 end.

#[export] Instance byte_eq_dec : EqDecision byte := Byte.byte_eq_dec.

Lemma byte_to_Z_range b : 0 <= byte_to_Z b < 256.
Proof. unfold byte_to_Z. pose proof (Byte.to_N_bounded b). lia. Qed.

Lemma byte_to_of_Z z : byte_to_Z (byte_of_Z z) = z mod 256.
Proof.
  unfold byte_of_Z, byte_to_Z.
  assert (Hz : 0 <= z mod 256 < 256) by (apply Z.mod_pos_bound; lia).
  destruct (Byte.of_N (Z.to_N (z mod 256))) as [b|] eqn:E.
  - apply Byte.to_of_N in E. rewrite E. lia.
  - apply Byte.of_N_None_iff in E. lia.
Qed.

(** [to_le_bytes] of an [n]-byte integer, and [from_le_bytes]. *)
Fixpoint le_bytes (n : nat) (z : Z) : list byte :=
  match n with
  | O => []
  | S n => byte_of_Z z :: le_bytes n (z / 256)
  end.

Fixpoint le_value (bs : list byte) : Z :=
  match bs with
  | [] => 0
  | b :: bs => byte_to_Z b + 256 * le_value bs
  end.

Lemma length_le_bytes n z : length (le_bytes n z) = n.
Proof. revert z. induction n; intros; simpl; auto. Qed.

Lemma le_value_bytes n z : fits (8 * Z.of_nat n) z -> le_value (le_bytes n z) = z.
Proof.
  revert z. induction n as [|n IH]; intros z Hz; simpl.
  - unfold fits in Hz. simpl in Hz. lia.
  - assert (2 ^ (8 * Z.of_nat (S n)) = 256 * 2 ^ (8 * Z.of_nat n)) as Hp.
    { change 256 with (2 ^ 8). rewrite <- Z.pow_add_r by lia. f_equal. lia. }
    unfold fits in Hz. rewrite Hp in Hz.
    rewrite IH, byte_to_of_Z.
    + Z.to_euclidean_division_equations; lia.
    + split; [apply Z.div_pos; lia|apply Z.div_lt_upper_bound; lia].
Qed.

(** ** UTF-8

    [core::str::from_utf8]: the validity test of [str], by the leading byte's
    class (overlong forms, surrogates and values past U+10FFFF are refused). *)

Definition in_range (lo hi : Z) (b : byte) : bool := (lo <=? byte_to_Z b) && (byte_to_Z b <=? hi).
Definition is_cont (b : byte) : bool := in_range 0x80 0xBF b.

(** The second byte of a three-byte sequence that starts with [b]. *)
Definition second_of_3 (b c : byte) : bool :=
  in_range 0xE0 0xE0 b && in_range 0xA0 0xBF c ||
  in_range 0xE1 0xEC b && in_range 0x80 0xBF c ||
  in_range 0xED 0xED b && in_range 0x80 0x9F c ||
  in_range 0xEE 0xEF b && in_range 0x80 0xBF c.

(** The second byte of a four-byte sequence that starts with [b]. *)
Definition second_of_4 (b c : byte) : bool :=
  in_range 0xF0 0xF0 b && in_range 0x90 0xBF c ||
  in_range 0xF1 0xF3 b && in_range 0x80 0xBF c ||
  in_range 0xF4 0xF4 b && in_range 0x80 0x8F c.

Fixpoint utf8_valid (bs : list byte) : bool :=
  match bs with
  | [] => true
  | b1 :: bs1 =>
      if in_range 0x00 0x7F b1 then utf8_valid bs1
      else match bs1 with
           | [] => false
           | b2 :: bs2 =>
               if in_range 0xC2 0xDF b1 then is_cont b2 && utf8_valid bs2
               else match bs2 with
                    | [] => false
                    | b3 :: bs3 =>
                        if second_of_3 b1 b2 then is_cont b3 && utf8_valid bs3
                        else match bs3 with
                             | [] => false
                             | b4 :: bs4 =>
                                 second_of_4 b1 b2 && is_cont b3 && is_cont b4 && utf8_valid bs4
                             end
                    end
           end
  end.

Definition from_utf8 (bs : list byte) : option string :=
  if utf8_valid bs then Some (String.string_of_list_byte bs) else None.

Lemma utf8_ascii bs : Forall (fun b => byte_to_Z b < 128) bs -> utf8_valid bs = true.
Proof.
  induction 1 as [|b bs Hb _ IH]; [done|]. simpl.
  assert (in_range 0x00 0x7F b = true) as ->; [|done].
  unfold in_range. pose proof (byte_to_Z_range b). lia.
Qed.

(** ** Decimal numbers

    [str::parse] of an unsigned type of [w] bits (optional ['+'], at least one
    digit, no overflow) and the decimal [Display] of a number. *)

Definition digit_of (c : ascii) : option Z :=
  let n := Z.of_nat (nat_of_ascii c) in
  if (48 <=? n) && (n <=? 57) then Some (n - 48) else None.

Definition ascii_of_digit (d : Z) : ascii := ascii_of_nat (Z.to_nat (48 + d)).

(** The digit loop: multiply and add, failing on a non-digit or on overflow. *)
Fixpoint parse_digits (w : Z) (s : string) (acc : Z) : option Z :=
  match s with
  | EmptyString => Some acc
  | String c s =>
      match digit_of c with
      | None => None
      | Some d =>
          let acc := acc * 10 + d in
          if acc <? 2 ^ w then parse_digits w s acc else None
      end
  end.

Definition parse_uint (w : Z) (s : string) : option Z :=
  match s with
  | EmptyString => None
  | String c s' =>
      let digits := if decide (c = "+"%char) then s' else s in
      match digits with EmptyString => None | _ => parse_digits w digits 0 end
  end.

(** The decimal digits of [n], most significant first; [fuel] bounds their number. *)
Fixpoint show_digits (fuel : nat) (n : Z) (acc : string) : string :=
  let acc := String (ascii_of_digit (n mod 10)) acc in
  match fuel with
  | O => acc
  | S fuel => if n <? 10 then acc else show_digits fuel (n / 10) acc
  end.

Definition show_u8 (n : Z) : string := show_digits 2 n EmptyString.

(** All 256 octets print and parse back. *)
Lemma show_u8_all :
  forallb (fun n => bool_decide (parse_uint 8 (show_u8 (Z.of_nat n)) = Some (Z.of_nat n)) &&
                    negb (has_char "." (show_u8 (Z.of_nat n)))) (seq 0 256) = true.
Proof. vm_compute. reflexivity. Qed.

Lemma show_u8_spec n :
  fits 8 n -> parse_uint 8 (show_u8 n) = Some n /\ has_char "." (show_u8 n) = false.
Proof.
  intros [H0 H1]. pose proof show_u8_all as H. rewrite forallb_forall in H.
  specialize (H (Z.to_nat n)). rewrite Z2Nat.id in H by done.
  assert (Hin : In (Z.to_nat n) (seq 0 256)) by (apply in_seq; lia).
  apply H in Hin. apply andb_true_iff in Hin as [E1%bool_decide_eq_true E2%negb_true_iff]. done.
Qed.

(** The [Display] of an unsigned integer of at most 64 bits. *)
Definition show_uint (n : Z) : string := show_digits 20 n EmptyString.
