(* ===== verification/Vga.v ===== *)
(** * The VGA text console

    Models [src/kernel/src/arch/x86_64/vga.rs] and the [Console] trait of
    [src/hal/src/lib.rs].  The text buffer is an array of rows of cells; indexing
    outside an array panics.  The reference model below it is a scrollback: the
    list of all lines ever started, of which the screen shows the last
    twenty-five. *)

From S2P Require Import Prelude Text.
Open Scope Z_scope.

Definition BUFFER_HEIGHT : nat := 25.
Definition BUFFER_WIDTH : nat := 80.

Inductive Color : Type :=
| Black | Blue | Green | Cyan | Red | Magenta | Brown | LightGray | DarkGray | LightBlue
| LightGreen | LightCyan | LightRed | Pink | Yellow | White.

(** [color as u8]: the discriminants. *)
Definition color_u8 (c : Color) : Z :=
  match c with
  | Black => 0 | Blue => 1 | Green => 2 | Cyan => 3 | Red => 4 | Magenta => 5 | Brown => 6
  | LightGray => 7 | DarkGray => 8 | LightBlue => 9 | LightGreen => 10 | LightCyan => 11
  | LightRed => 12 | Pink => 13 | Yellow => 14 | White => 15
  end.

Definition ColorCode_new (foreground background : Color) : Z :=
  Z.lor (as_u8 (Z.shiftl (color_u8 background) 4)) (color_u8 foreground).

Record ScreenChar : Type := ScreenChar_mk { ascii_character : Z; sc_color_code : Z }.

Abbreviation Buffer := (list (list ScreenChar)).

(** Volatile accesses to [chars[row][col]]. *)
Definition buffer_read (b : Buffer) (row col : nat) : Outcome ScreenChar :=
  or_panic (b !! row ≫= fun r => r !! col).

Definition buffer_write (b : Buffer) (row col : nat) (c : ScreenChar) : Outcome Buffer :=
  let! r := or_panic (b !! row) in
  let! _ := or_panic (r !! col) in
  Return (<[row := <[col := c]> r]> b).

Record Writer : Type := Writer_mk {
  column_position : nat;
  color_code : Z;
  buffer : Buffer;
}.

(** [Writer::new], over what the screen memory holds. *)
Definition Writer_new (screen : Buffer) : Writer := Writer_mk 0 (ColorCode_new White Black) screen.

Definition Writer_set_color (w : Writer) (foreground background : Color) : Writer :=
  Writer_mk (column_position w) (ColorCode_new foreground background) (buffer w).

Definition blank (color : Z) : ScreenChar := ScreenChar_mk 0x20 color.

Definition clear_row (row : nat) (w : Writer) : Outcome Writer :=
  let! b := for_each (seq 0 BUFFER_WIDTH)
              (fun col b => buffer_write b row col (blank (color_code w))) (buffer w) in
  Return (Writer_mk (column_position w) (color_code w) b).

(** The inner loop of [new_line]: copies [row] to the row above. *)
Definition copy_row_up (row : nat) (b : Buffer) : Outcome Buffer :=
  for_each (seq 0 BUFFER_WIDTH)
    (fun col b => let! c := buffer_read b row col in buffer_write b (row - 1) col c) b.

Definition new_line (w : Writer) : Outcome Writer :=
  let! b := for_each (seq 1 (BUFFER_HEIGHT - 1)) copy_row_up (buffer w) in
  let! w := clear_row (BUFFER_HEIGHT - 1) (Writer_mk (column_position w) (color_code w) b) in
  Return (Writer_mk 0 (color_code w) (buffer w)).

Definition write_byte (b : Z) (w : Writer) : Outcome Writer :=
  if b =? 10 then new_line w
  else
    let! w := if decide (BUFFER_WIDTH <= column_position w)%nat then new_line w else Return w in
    let row := (BUFFER_HEIGHT - 1)%nat in
    let col := column_position w in
    let! buf := buffer_write (buffer w) row col (ScreenChar_mk b (color_code w)) in
    Return (Writer_mk (S col) (color_code w) buf).

Definition clear_screen (w : Writer) : Outcome Writer :=
  let! w := for_each (seq 0 BUFFER_HEIGHT) clear_row w in
  Return (Writer_mk 0 (color_code w) (buffer w)).

(** [fmt::Write::write_str] on the bytes of the string. *)
Definition shown_byte (b : Z) : Z :=
  if ((0x20 <=? b) && (b <=? 0x7e)) || (b =? 10) then b else 0xfe.

Definition write_bytes (bs : list Z) (w : Writer) : Outcome Writer :=
  for_each bs (fun b w => write_byte (shown_byte b) w) w.

Definition str_bytes (s : string) : list Z :=
  (fun c => Z.of_nat (Ascii.nat_of_ascii c)) <$> String.list_ascii_of_string s.

Definition Writer_write_str (s : string) (w : Writer) : Outcome Writer := write_bytes (str_bytes s) w.

(** The [Console] trait of the HAL. *)
Class Console (T : Type) : Type := {
  console_write_str : string -> T -> Outcome T;
  console_clear : T -> Outcome T;
}.

#[export] Instance Writer_Console : Console Writer :=
  {| console_write_str := Writer_write_str; console_clear := clear_screen |}.

(** What the rest of the kernel does to the console: [print!], [set_color] and
    [clear_screen] on the global writer. *)
Inductive ConsoleOp : Type :=
| Print (s : string)
| SetColor (foreground background : Color)
| ClearScreen.

Definition console_op (op : ConsoleOp) (w : Writer) : Outcome Writer :=
  match op with
  | Print s => console_write_str s w
  | SetColor fg bg => Return (Writer_set_color w fg bg)
  | ClearScreen => console_clear w
  end.

Definition console_run (ops : list ConsoleOp) (w : Writer) : Outcome Writer := for_each ops console_op w.

(** [println!]: [print!("{}\n", ..)]. *)
Definition NL : string := String (Ascii.ascii_of_nat 10) EmptyString.
Definition Println (s : string) : ConsoleOp := Print (s ++ NL).

(** ** Reference: a scrollback *)

(** A line: its cells, and the colour it was blanked with when it was started. *)
Record Line : Type := Line_mk { ln_cells : list ScreenChar; ln_fill : Z }.

Record Scrollback : Type := Scrollback_mk {
  sb_above : list Line;    (** the finished lines, oldest first *)
  sb_current : Line;       (** the line being written *)
  sb_color : Z;
}.

Definition sb_start_line (s : Scrollback) : Scrollback :=
  Scrollback_mk (sb_above s ++ [sb_current s]) (Line_mk [] (sb_color s)) (sb_color s).

Definition sb_put (s : Scrollback) (b : Z) : Scrollback :=
  let cell := ScreenChar_mk b (sb_color s) in
  Scrollback_mk (sb_above s) (Line_mk (ln_cells (sb_current s) ++ [cell]) (ln_fill (sb_current s))) (sb_color s).

(** A byte: a line break, or a character on the current line, breaking a full one. *)
Definition sb_byte (s : Scrollback) (b : Z) : Scrollback :=
  if b =? 10 then sb_start_line s
  else sb_put (if decide (BUFFER_WIDTH <= length (ln_cells (sb_current s)))%nat
               then sb_start_line s else s) (shown_byte b).

Definition sb_empty (color : Z) : Scrollback :=
  Scrollback_mk (replicate (BUFFER_HEIGHT - 1) (Line_mk [] color)) (Line_mk [] color) color.

Definition sb_op (s : Scrollback) (op : ConsoleOp) : Scrollback :=
  match op with
  | Print str => foldl sb_byte s (str_bytes str)
  | SetColor fg bg => Scrollback_mk (sb_above s) (sb_current s) (ColorCode_new fg bg)
  | ClearScreen => sb_empty (sb_color s)
  end.

(** How a line looks, and the screen: the last lines, top to bottom. *)
Definition render_line (l : Line) : list ScreenChar :=
  ln_cells l ++ replicate (BUFFER_WIDTH - length (ln_cells l)) (blank (ln_fill l)).

Definition sb_lines (s : Scrollback) : list Line := sb_above s ++ [sb_current s].

Definition render (s : Scrollback) : Buffer :=
  render_line <$> drop (length (sb_lines s) - BUFFER_HEIGHT) (sb_lines s).
