(* ===== verification/VgaSpec.v ===== *)
(** * Correctness of the VGA text console

    The cell-by-cell loops of the driver shift rows and blank them; the screen is
    always the last twenty-five lines of the scrollback, and nothing ever indexes
    outside the buffer. *)

From S2P Require Import Prelude Text Vga.
Open Scope Z_scope.

(** The buffer has its 25 rows of 80 cells. *)
Definition buffer_ok (b : Buffer) : Prop :=
  length b = BUFFER_HEIGHT /\ Forall (fun r => length r = BUFFER_WIDTH) b.

(** Arithmetic on the dimensions. *)
Ltac dims := unfold BUFFER_HEIGHT, BUFFER_WIDTH in *; simpl in *; lia.

Section loops.
Implicit Types (b : Buffer) (r : list ScreenChar).

Lemma buffer_ok_row b row : buffer_ok b -> (row < BUFFER_HEIGHT)%nat ->
  exists r, b !! row = Some r /\ length r = BUFFER_WIDTH.
Proof.
  intros [Hl Hf] Hr. destruct (lookup_lt_is_Some_2 b row) as [r E]; [by rewrite Hl|].
  exists r. split; [done|]. by apply (Forall_lookup_1 _ _ _ _ Hf E).
Qed.

Lemma buffer_ok_insert b row r : buffer_ok b -> length r = BUFFER_WIDTH -> buffer_ok (<[row := r]> b).
Proof. intros [Hl Hf] Hr. split; [by rewrite length_insert|]. by apply Forall_insert. Qed.

Lemma buffer_write_ok b row col c r :
  b !! row = Some r -> (col < length r)%nat ->
  buffer_write b row col c = Return (<[row := <[col := c]> r]> b).
Proof.
  intros Hr Hc. unfold buffer_write. rewrite Hr. simpl.
  destruct (lookup_lt_is_Some_2 r col Hc) as [x ->]. done.
Qed.

(** A loop that writes the cells [c i] of row [row] from left to right. *)
Lemma write_row_loop b row r (body : nat -> Buffer -> Outcome Buffer) (cells : list ScreenChar) :
  b !! row = Some r -> length r = length cells ->
  (forall i b' c, cells !! i = Some c -> (forall row', row' <> row -> b' !! row' = b !! row') ->
     body i b' = buffer_write b' row i c) ->
  for_each (seq 0 (length cells)) body b = Return (<[row := cells]> b).
Proof.
  intros Hr Hlen Hbody. pose (state := fun i => <[row := take i cells ++ drop i r]> b).
  assert (H0 : state 0%nat = b) by (unfold state; simpl; by apply list_insert_id).
  assert (Hn : state (length cells) = <[row := cells]> b).
  { unfold state. by rewrite firstn_all, drop_ge, app_nil_r by lia. }
  rewrite <- H0 at 1. rewrite <- Hn. apply (for_each_seq 0). intros i Hi. simpl.
  destruct (lookup_lt_is_Some_2 cells i Hi) as [c Hc]. destruct (lookup_lt_is_Some_2 r i) as [x Hx]; [lia|].
  rewrite (Hbody i _ c Hc) by (intros row' ?; unfold state; by rewrite list_lookup_insert_ne).
  unfold state. pose proof (lookup_lt_Some _ _ _ Hr).
  rewrite (buffer_write_ok _ _ _ _ (take i cells ++ drop i r));
    [|by apply list_lookup_insert_eq|rewrite length_app, length_take, length_drop; lia].
  rewrite list_insert_insert_eq. do 2 f_equal.
  assert (Hti : length (take i cells) = i) by (rewrite length_take; lia).
  rewrite (drop_S r x i Hx), (take_S_r cells i c Hc), <- app_assoc.
  rewrite insert_app_r_alt by lia. by rewrite Hti, Nat.sub_diag.
Qed.

Lemma clear_row_spec w row r :
  buffer w !! row = Some r -> length r = BUFFER_WIDTH ->
  clear_row row w = Return (Writer_mk (column_position w) (color_code w)
    (<[row := replicate BUFFER_WIDTH (blank (color_code w))]> (buffer w))).
Proof.
  intros Hr Hl. unfold clear_row.
  pose proof (write_row_loop (buffer w) row r (fun col b => buffer_write b row col (blank (color_code w)))
    (replicate BUFFER_WIDTH (blank (color_code w))) Hr) as H.
  rewrite length_replicate in H. rewrite H; [done|done|].
  intros i b' c [-> _]%lookup_replicate _. done.
Qed.

Lemma copy_row_up_spec b row r r' :
  b !! S row = Some r -> b !! row = Some r' -> length r = BUFFER_WIDTH -> length r' = BUFFER_WIDTH ->
  copy_row_up (S row) b = Return (<[row := r]> b).
Proof.
  intros Hr Hr' Hl Hl'. unfold copy_row_up. rewrite <- Hl.
  apply (write_row_loop b row r'); [done|lia|]. intros i b' c Hc Hsame. simpl. rewrite Nat.sub_0_r.
  unfold buffer_read. rewrite Hsame by lia. by rewrite Hr; simpl; rewrite Hc.
Qed.

Lemma shift_rows_spec b :
  buffer_ok b ->
  for_each (seq 1 (BUFFER_HEIGHT - 1)) copy_row_up b =
    Return (take (BUFFER_HEIGHT - 1) (tail b) ++ drop (BUFFER_HEIGHT - 1) b).
Proof.
  intros Hok. pose (state := fun j => take j (tail b) ++ drop j b).
  change b with (state 0%nat) at 1. apply (for_each_seq 1 _ copy_row_up state). intros j Hj. simpl.
  destruct (buffer_ok_row b j Hok) as (r' & Er' & Hl'); [lia|].
  destruct (buffer_ok_row b (S j) Hok) as (r & Er & Hl); [lia|].
  assert (Et : tail b !! j = Some r) by (by rewrite <- Er; destruct b).
  assert (Hlen : length (take j (tail b)) = j).
  { rewrite length_take. apply lookup_lt_Some in Et. lia. }
  rewrite (copy_row_up_spec _ j r r'); unfold state; [| | |done..].
  - f_equal. rewrite insert_app_r_alt, Hlen, Nat.sub_diag by lia.
    rewrite (drop_S b r' j Er'), (take_S_r (tail b) j r Et), <- app_assoc. done.
  - rewrite lookup_app_r, Hlen, lookup_drop by lia. by replace (j + (S j - j))%nat with (S j) by lia.
  - rewrite lookup_app_r, Hlen, lookup_drop by lia. by replace (j + (j - j))%nat with j by lia.
Qed.

(** [new_line] drops the top row and starts a blank one. *)
Lemma new_line_spec w :
  buffer_ok (buffer w) ->
  new_line w = Return (Writer_mk 0 (color_code w)
    (tail (buffer w) ++ [replicate BUFFER_WIDTH (blank (color_code w))])).
Proof.
  intros Hok. unfold new_line. rewrite shift_rows_spec by done. cbn [outcome_bind].
  destruct (buffer_ok_row _ (BUFFER_HEIGHT - 1) Hok) as (r & Er & Hl); [dims|].
  destruct Hok as [Hlen _].
  assert (Hd : drop (BUFFER_HEIGHT - 1) (buffer w) = [r]).
  { rewrite (drop_S _ r) by done. rewrite drop_ge; [done|]. rewrite Hlen. dims. }
  assert (Ht : length (tail (buffer w)) = (BUFFER_HEIGHT - 1)%nat) by (destruct (buffer w); dims).
  rewrite Hd, take_ge by lia.
  rewrite (clear_row_spec _ _ r); cbn [outcome_bind buffer color_code];
    [|rewrite lookup_app_r, Ht by lia; by rewrite Nat.sub_diag|done].
  do 2 f_equal. rewrite insert_app_r_alt, Ht by lia. by rewrite Nat.sub_diag.
Qed.

Lemma clear_screen_spec w :
  buffer_ok (buffer w) ->
  clear_screen w = Return (Writer_mk 0 (color_code w)
    (replicate BUFFER_HEIGHT (replicate BUFFER_WIDTH (blank (color_code w))))).
Proof.
  intros Hok. unfold clear_screen. set (row := replicate BUFFER_WIDTH (blank (color_code w))).
  pose (state := fun i => Writer_mk (column_position w) (color_code w) (replicate i row ++ drop i (buffer w))).
  assert (H0 : state 0%nat = w) by (by destruct w).
  rewrite <- H0 at 1. rewrite (for_each_seq 0 BUFFER_HEIGHT clear_row state).
  - cbn [outcome_bind state buffer color_code]. destruct Hok as [Hl _]. by rewrite drop_ge, app_nil_r by lia.
  - intros i Hi. destruct (buffer_ok_row _ i Hok Hi) as (r & Er & Hr). simpl.
    rewrite (clear_row_spec _ _ r); simpl; [|rewrite lookup_app_r, length_replicate, lookup_drop by (rewrite length_replicate; lia)|done].
    + unfold state. do 2 f_equal. rewrite (drop_S _ r i Er), insert_app_r_alt by (rewrite length_replicate; lia).
      rewrite length_replicate, Nat.sub_diag, replicate_S_end, <- app_assoc. done.
    + by replace (i + (i - i))%nat with i by lia.
Qed.
End loops.

(** ** The screen and the scrollback *)

Record sb_ok (s : Scrollback) : Prop := {
  so_lines : (BUFFER_HEIGHT - 1 <= length (sb_above s))%nat;
  so_above : Forall (fun l => (length (ln_cells l) <= BUFFER_WIDTH)%nat) (sb_above s);
  so_current : (length (ln_cells (sb_current s)) <= BUFFER_WIDTH)%nat;
}.

(** The writer's screen is the rendered scrollback, its cursor the end of the
    current line. *)
Record shows (w : Writer) (s : Scrollback) : Prop := {
  sh_ok : sb_ok s;
  sh_color : color_code w = sb_color s;
  sh_column : column_position w = length (ln_cells (sb_current s));
  sh_screen : buffer w = render s;
}.

Section refinement.
Implicit Types (s : Scrollback) (w : Writer).

Lemma length_render_line l :
  (length (ln_cells l) <= BUFFER_WIDTH)%nat -> length (render_line l) = BUFFER_WIDTH.
Proof. intros. unfold render_line. rewrite length_app, length_replicate. lia. Qed.

(** The screen: the rows above, then the current line. *)
Lemma render_rows s : sb_ok s ->
  exists rows, render s = (render_line <$> rows) ++ [render_line (sb_current s)] /\
    rows = drop (length (sb_above s) - (BUFFER_HEIGHT - 1)) (sb_above s) /\
    length rows = (BUFFER_HEIGHT - 1)%nat.
Proof.
  intros [Hl _ _]. eexists. split_and!; [|done|].
  - unfold render, sb_lines. rewrite length_app. cbn [length].
    replace (length (sb_above s) + 1 - BUFFER_HEIGHT)%nat with (length (sb_above s) - (BUFFER_HEIGHT - 1))%nat
      by dims.
    rewrite drop_app_le by lia. by rewrite fmap_app.
  - rewrite length_drop. lia.
Qed.

Lemma render_ok s : sb_ok s -> buffer_ok (render s).
Proof.
  intros Hs. destruct (render_rows s Hs) as (rows & -> & Hrows & Hl). destruct Hs as [_ Ha Hc]. split.
  - rewrite length_app, length_fmap, Hl. dims.
  - apply Forall_app. split; [|repeat constructor; by apply length_render_line].
    apply Forall_fmap. subst rows. apply Forall_drop. eapply Forall_impl; [done|]. apply length_render_line.
Qed.

Lemma sb_start_line_ok s : sb_ok s -> sb_ok (sb_start_line s).
Proof.
  intros [Hl Ha Hc]. split; cbn [sb_start_line sb_above sb_current ln_cells length]; [rewrite length_app; lia| |lia].
  apply Forall_app. split; [done|]. by apply list.Forall_singleton.
Qed.

Lemma render_start_line s : sb_ok s ->
  render (sb_start_line s) = tail (render s) ++ [replicate BUFFER_WIDTH (blank (sb_color s))].
Proof.
  intros Hs. destruct (render_rows _ (sb_start_line_ok s Hs)) as (rows' & -> & -> & _).
  destruct (render_rows s Hs) as (rows & -> & -> & Hl). destruct Hs as [Hs _ _].
  cbn [sb_start_line sb_above sb_current]. rewrite length_app. cbn [length]. f_equal.
  replace (length (sb_above s) + 1 - (BUFFER_HEIGHT - 1))%nat
    with (S (length (sb_above s) - (BUFFER_HEIGHT - 1))) by dims.
  set (k := (length (sb_above s) - (BUFFER_HEIGHT - 1))%nat) in *.
  rewrite drop_app_le by dims. rewrite fmap_app, <- tail_drop.
  destruct (drop k (sb_above s)) as [|x l]; [dims|done].
Qed.

Lemma sb_put_ok s b :
  sb_ok s -> (length (ln_cells (sb_current s)) < BUFFER_WIDTH)%nat -> sb_ok (sb_put s b).
Proof. intros [Hl Ha Hc] Hlt. split; cbn; [done|done|]. rewrite length_app. cbn [length]. lia. Qed.

Lemma render_line_put l c :
  (length (ln_cells l) < BUFFER_WIDTH)%nat ->
  render_line (Line_mk (ln_cells l ++ [c]) (ln_fill l)) = <[length (ln_cells l) := c]> (render_line l).
Proof.
  intros Hl. unfold render_line. cbn [ln_cells ln_fill]. rewrite length_app. cbn [length].
  replace (BUFFER_WIDTH - length (ln_cells l))%nat with (S (BUFFER_WIDTH - (length (ln_cells l) + 1))) by lia.
  rewrite insert_app_r_alt, Nat.sub_diag by lia. by rewrite <- app_assoc.
Qed.

Lemma new_line_shows w s :
  shows w s -> exists w', new_line w = Return w' /\ shows w' (sb_start_line s).
Proof.
  intros [Hok Hc Hcol Hscr]. pose proof (render_ok s Hok) as Hb. rewrite <- Hscr in Hb.
  rewrite new_line_spec by done. eexists. split; [done|].
  split; [by apply sb_start_line_ok|done|done|]. cbn [buffer]. by rewrite render_start_line, Hscr, Hc.
Qed.

Lemma put_shows w s b :
  shows w s -> (column_position w < BUFFER_WIDTH)%nat ->
  exists buf, buffer_write (buffer w) (BUFFER_HEIGHT - 1) (column_position w) (ScreenChar_mk b (color_code w)) =
      Return buf /\
    shows (Writer_mk (S (column_position w)) (color_code w) buf) (sb_put s b).
Proof.
  intros [Hok Hc Hcol Hscr] Hlt. rewrite Hcol in *.
  destruct (render_rows s Hok) as (rows & Er & Hrows & Hl).
  destruct (render_rows _ (sb_put_ok s b Hok Hlt)) as (rows' & Er' & Hrows' & _).
  assert (Hlast : buffer w !! (BUFFER_HEIGHT - 1)%nat = Some (render_line (sb_current s))).
  { rewrite Hscr, Er, lookup_app_r, length_fmap, Hl by (rewrite length_fmap; lia). by rewrite Nat.sub_diag. }
  rewrite (buffer_write_ok _ _ _ _ _ Hlast)
    by (rewrite length_render_line by apply Hok; done).
  eexists. split; [done|]. split; cbn [color_code column_position buffer]; [by apply sb_put_ok|done| |].
  - simpl. rewrite length_app. simpl. lia.
  - rewrite Er'. subst rows'. cbn [sb_put sb_above sb_current] in *. rewrite <- Hrows.
    rewrite render_line_put by done. rewrite Hscr, Er, insert_app_r_alt by (rewrite length_fmap; lia).
    by rewrite length_fmap, Hl, Nat.sub_diag, Hc.
Qed.

Lemma shown_byte_nl b : (shown_byte b =? 10) = (b =? 10).
Proof. unfold shown_byte. destruct (b =? 10) eqn:E; [by rewrite orb_true_r|]. by destruct (_ && _). Qed.

Lemma write_byte_shows w s b :
  shows w s -> exists w', write_byte (shown_byte b) w = Return w' /\ shows w' (sb_byte s b).
Proof.
  intros Hs. unfold write_byte, sb_byte. rewrite shown_byte_nl.
  destruct (b =? 10); [by apply new_line_shows|]. rewrite (sh_column _ _ Hs).
  case_decide as Hd; cbn [outcome_bind].
  - destruct (new_line_shows w s Hs) as (w1 & -> & H1). cbn [outcome_bind].
    destruct (put_shows w1 _ (shown_byte b) H1) as (buf & -> & H2); [rewrite (sh_column _ _ H1); dims|]. eauto.
  - destruct (put_shows w _ (shown_byte b) Hs) as (buf & E & H2); [rewrite (sh_column _ _ Hs); lia|].
    rewrite (sh_column _ _ Hs) in *. rewrite E. eauto.
Qed.

Lemma write_bytes_shows bs w s :
  shows w s -> exists w', write_bytes bs w = Return w' /\ shows w' (foldl sb_byte s bs).
Proof.
  revert w s. unfold write_bytes. induction bs as [|b bs IH]; intros w s Hs; simpl; [eauto|].
  destruct (write_byte_shows w s b Hs) as (w1 & -> & H1). by apply IH.
Qed.

Lemma render_empty color : render (sb_empty color) = replicate BUFFER_HEIGHT (replicate BUFFER_WIDTH (blank color)).
Proof. reflexivity. Qed.

Lemma sb_empty_ok color : sb_ok (sb_empty color).
Proof. split; simpl; [lia| |lia]. repeat constructor; simpl; lia. Qed.

Lemma clear_shows w : buffer_ok (buffer w) ->
  exists w', clear_screen w = Return w' /\ shows w' (sb_empty (color_code w)).
Proof.
  intros Hb. rewrite clear_screen_spec by done. eexists. split; [done|].
  split; [apply sb_empty_ok|done|done|]. by rewrite render_empty.
Qed.

Lemma console_op_shows op w s :
  shows w s -> exists w', console_op op w = Return w' /\ shows w' (sb_op s op).
Proof.
  intros Hs. destruct op as [str|fg bg|]; cbn [console_op sb_op].
  - by apply write_bytes_shows.
  - eexists. split; [done|]. destruct Hs as [[] ???]. by repeat split.
  - rewrite <- (sh_color _ _ Hs). apply clear_shows. rewrite (sh_screen _ _ Hs). apply render_ok, Hs.
Qed.

Lemma console_run_shows ops w s :
  shows w s -> exists w', console_run ops w = Return w' /\ shows w' (foldl sb_op s ops).
Proof.
  revert w s. unfold console_run. induction ops as [|op ops IH]; intros w s Hs; [by exists w|].
  destruct (console_op_shows op w s Hs) as (w1 & E & H1). cbn [for_each foldl]. rewrite E. by apply IH.
Qed.
End refinement.

(** ** What can be on the screen *)

(** A printable character or the placeholder, in a colour of the palette. *)
Definition cell_ok (c : ScreenChar) : Prop :=
  (0x20 <= ascii_character c <= 0x7e \/ ascii_character c = 0xfe) /\ fits 8 (sc_color_code c).

Definition line_cells_ok (l : Line) : Prop := Forall cell_ok (ln_cells l) /\ fits 8 (ln_fill l).

Definition sb_cells_ok (s : Scrollback) : Prop :=
  Forall line_cells_ok (sb_above s) /\ line_cells_ok (sb_current s) /\ fits 8 (sb_color s).

Lemma ColorCode_fits fg bg : fits 8 (ColorCode_new fg bg).
Proof. unfold fits. destruct fg, bg; by vm_compute. Qed.

Lemma shown_byte_ok b : b <> 10 -> 0x20 <= shown_byte b <= 0x7e \/ shown_byte b = 0xfe.
Proof.
  intros Hb. unfold shown_byte. rewrite (proj2 (Z.eqb_neq b 10) Hb), orb_false_r.
  destruct (_ && _) eqn:E; [|auto]. lia.
Qed.

Lemma sb_byte_cells s b : sb_cells_ok s -> sb_cells_ok (sb_byte s b).
Proof.
  assert (Hnew : forall s, sb_cells_ok s -> sb_cells_ok (sb_start_line s)).
  { intros [above cur col] (Ha & Hc & Hf). split_and!; [|by split; [constructor|]|done].
    apply Forall_app. split; [done|by apply list.Forall_singleton]. }
  intros Hs. unfold sb_byte. destruct (Z.eqb_spec b 10) as [->|Hb]; [by apply Hnew|].
  assert (Hs' : sb_cells_ok (if decide (BUFFER_WIDTH <= length (ln_cells (sb_current s)))%nat
    then sb_start_line s else s)) by (case_decide; auto).
  destruct Hs' as (Ha & [Hc Hfill] & Hf). split_and!; [done| |done]. split; [|done].
  apply Forall_app. split; [done|]. constructor; [|done]. split; [by apply shown_byte_ok|done].
Qed.

Lemma sb_op_cells s op : sb_cells_ok s -> sb_cells_ok (sb_op s op).
Proof.
  intros Hs. destruct op as [str|fg bg|]; simpl.
  - revert s Hs. induction (str_bytes str) as [|b bs IH]; intros s Hs; simpl; [done|].
    by apply IH, sb_byte_cells.
  - destruct Hs as (Ha & Hc & _). split_and!; [done|done|apply ColorCode_fits].
  - destruct Hs as (_ & _ & Hf). split_and!; [|by split|done]. apply Forall_replicate. by split.
Qed.

Lemma render_cells s : sb_cells_ok s -> Forall (Forall cell_ok) (render s).
Proof.
  intros (Ha & Hc & _). apply Forall_fmap, Forall_drop. unfold sb_lines. apply Forall_app. split; [|repeat constructor].
  - eapply Forall_impl; [exact Ha|]. intros l [Hl Hf]. simpl. unfold render_line.
    apply Forall_app. split; [done|]. apply Forall_replicate. split; simpl; [left; lia|done].
  - destruct Hc as [Hl Hf]. apply Forall_app. split; [done|]. apply Forall_replicate. split; simpl; [left; lia|done].
Qed.

(** ** Properties *)

(** C28: whatever the kernel prints, the screen shows the last twenty-five lines of
    all it printed since the screen was cleared: text breaks at line feeds and after
    eighty characters, each character in the colour set when it was printed, and no
    access ever leaves the buffer. *)
Theorem vga_shows_scrollback (screen : Buffer) (ops : list ConsoleOp) :
  buffer_ok screen ->
  exists w, console_run (ClearScreen :: ops) (Writer_new screen) = Return w /\
    buffer w = render (foldl sb_op (sb_empty (ColorCode_new White Black)) ops).
Proof.
  intros Hb. destruct (clear_shows (Writer_new screen) Hb) as (w1 & E & H1).
  destruct (console_run_shows ops w1 _ H1) as (w & Ew & Hw). exists w.
  unfold console_run. cbn [for_each console_op console_clear Writer_Console]. rewrite E. split; [exact Ew|apply Hw].
Qed.

Definition demo_screen : Buffer := replicate BUFFER_HEIGHT (replicate BUFFER_WIDTH (ScreenChar_mk 0 0)).

Lemma vga_shows_scrollback_witness :
  exists w, console_run [ClearScreen; Print "ab"; SetColor Red Black; Println "c"] (Writer_new demo_screen) = Return w /\
    (buffer w !! 23%nat) ≫= (fun r => r !! 2%nat) = Some (ScreenChar_mk 99 4).
Proof.
  assert (Hb : buffer_ok demo_screen) by (split; [reflexivity|repeat constructor]).
  destruct (vga_shows_scrollback demo_screen [Print "ab"; SetColor Red Black; Println "c"] Hb) as (w & E & H).
  exists w. split; [exact E|]. rewrite H. vm_compute. reflexivity.
Defined.

(** The screen memory stays well typed: after any output it still has twenty-five
    rows of eighty cells, the cursor is inside its row or just behind it, and every
    cell holds a printable ASCII character or the placeholder 0xFE in a colour of
    the palette; no control character or byte of a multi-byte character is ever
    stored. *)
Theorem vga_screen_typed (screen : Buffer) (ops : list ConsoleOp) :
  buffer_ok screen ->
  exists w, console_run (ClearScreen :: ops) (Writer_new screen) = Return w /\
    buffer_ok (buffer w) /\ (column_position w <= BUFFER_WIDTH)%nat /\ Forall (Forall cell_ok) (buffer w).
Proof.
  intros Hb. destruct (clear_shows (Writer_new screen) Hb) as (w1 & E & H1).
  destruct (console_run_shows ops w1 _ H1) as (w & Ew & [Hok Hc Hcol Hscr]). exists w.
  unfold console_run. cbn [for_each console_op console_clear Writer_Console]. rewrite E. split; [exact Ew|].
  rewrite Hscr, Hcol. split_and!; [by apply render_ok|apply Hok|]. apply render_cells.
  assert (H0 : sb_cells_ok (sb_empty (color_code (Writer_new screen)))).
  { split_and!; [|by split|done]. apply Forall_replicate. by split. }
  revert H0. generalize (sb_empty (color_code (Writer_new screen))). clear.
  induction ops as [|op ops IH]; intros s Hs; [done|]. by apply IH, sb_op_cells.
Qed.

Lemma vga_screen_typed_witness :
  exists w, console_run [ClearScreen; Print "a"] (Writer_new demo_screen) = Return w /\
    buffer_ok (buffer w) /\ Forall (Forall cell_ok) (buffer w).
Proof.
  assert (Hb : buffer_ok demo_screen) by (split; [reflexivity|repeat constructor]).
  destruct (vga_screen_typed demo_screen [Print "a"] Hb) as (w & E & H1 & _ & H2).
  exists w. split; [exact E|split; [exact H1|exact H2]].
Defined.
