(* ===== verification/E1000.v ===== *)
(** * The e1000 driver

    Models [src/kernel/src/net/e1000.rs].  The controller's registers are behind
    the class [Nic]: reads and writes of memory-mapped registers, and the four
    queue pointers (head and tail of the receive and of the transmit ring) and two
    ring addresses the driver programs.  The descriptor rings and packet buffers are
    memory the controller shares with the driver; where the allocator put the four
    boxes is an argument of [E1000_new].  [transmit_raw] and [receive_raw] are
    sequences of accesses to this memory and to the registers, in program order, so
    that [E1000Ring] can let the controller work between any two of them. *)

From S2P Require Import Prelude Bits Pci Text.
Open Scope Z_scope.

Definition E1000_MTU : Z := 1500.
Definition PACKET_BUFFER_SIZE : nat := 2048.
Definition TX_DESC_COUNT : nat := 64.
Definition RX_DESC_COUNT : nat := 64.

Definition REG_CTRL : Z := 0x0000.
Definition REG_STATUS : Z := 0x0008.
Definition REG_IMC : Z := 0x00D8.
Definition REG_RCTL : Z := 0x0100.
Definition REG_RDBAL : Z := 0x2800.
Definition REG_RDBAH : Z := 0x2804.
Definition REG_RDLEN : Z := 0x2808.
Definition REG_RDH : Z := 0x2810.
Definition REG_RDT : Z := 0x2818.
Definition REG_TCTL : Z := 0x0400.
Definition REG_TIPG : Z := 0x0410.
Definition REG_TDBAL : Z := 0x3800.
Definition REG_TDBAH : Z := 0x3804.
Definition REG_TDLEN : Z := 0x3808.
Definition REG_TDH : Z := 0x3810.
Definition REG_TDT : Z := 0x3818.
Definition REG_RAL0 : Z := 0x5400.
Definition REG_RAH0 : Z := 0x5404.

Definition CTRL_RST : Z := Z.shiftl 1 26.
Definition CTRL_SLU : Z := Z.shiftl 1 6.
Definition RCTL_EN : Z := Z.shiftl 1 1.
Definition RCTL_BAM : Z := Z.shiftl 1 15.
Definition TCTL_EN : Z := Z.shiftl 1 1.
Definition TCTL_PSP : Z := Z.shiftl 1 3.

Definition TX_DD : Z := Z.shiftl 1 0.
Definition RX_DD : Z := Z.shiftl 1 0.

Record TxDesc : Type := TxDesc_mk {
  td_addr : Z; td_length : Z; td_cso : Z; td_cmd : Z; td_status : Z; td_css : Z; td_special : Z;
}.
Definition TxDesc_default : TxDesc := TxDesc_mk 0 0 0 0 0 0 0.

Record RxDesc : Type := RxDesc_mk {
  rd_addr : Z; rd_length : Z; rd_checksum : Z; rd_status : Z; rd_errors : Z; rd_special : Z;
}.
Definition RxDesc_default : RxDesc := RxDesc_mk 0 0 0 0 0 0.

(** The controller: its registers, and among them the queue pointers and the bus
    addresses of the two rings, which are multiples of sixteen.  A write to one of
    them sets it; other writes, the device reset excepted, and reads leave them
    alone. *)
Class Nic (M : Type) : Type := {
  mmio_read : M -> Z -> Z * M;
  mmio_write : M -> Z -> Z -> M;
  rdh : M -> nat;
  rdt : M -> nat;
  tdh : M -> nat;
  tdt : M -> nat;
  tdba : M -> Z;
  rdba : M -> Z;
  mmio_read_fits : forall m r, fits 32 (mmio_read m r).1;
  (** The reset bit clears itself. *)
  mmio_read_ctrl : forall m, Z.testbit (mmio_read m REG_CTRL).1 26 = false;
  mmio_read_ptrs : forall m r, let m' := (mmio_read m r).2 in
    (rdh m', rdt m', tdh m', tdt m') = (rdh m, rdt m, tdh m, tdt m);
  mmio_write_rdh : forall m v, fits 16 v -> let m' := mmio_write m REG_RDH v in
    (rdh m', rdt m', tdh m', tdt m') = (Z.to_nat v, rdt m, tdh m, tdt m);
  mmio_write_rdt : forall m v, fits 16 v -> let m' := mmio_write m REG_RDT v in
    (rdh m', rdt m', tdh m', tdt m') = (rdh m, Z.to_nat v, tdh m, tdt m);
  mmio_write_tdh : forall m v, fits 16 v -> let m' := mmio_write m REG_TDH v in
    (rdh m', rdt m', tdh m', tdt m') = (rdh m, rdt m, Z.to_nat v, tdt m);
  mmio_write_tdt : forall m v, fits 16 v -> let m' := mmio_write m REG_TDT v in
    (rdh m', rdt m', tdh m', tdt m') = (rdh m, rdt m, tdh m, Z.to_nat v);
  mmio_write_other : forall m r v,
    r ∉ [REG_RDH; REG_RDT; REG_TDH; REG_TDT] -> (r = REG_CTRL -> Z.testbit v 26 = false) ->
    let m' := mmio_write m r v in
    (rdh m', rdt m', tdh m', tdt m') = (rdh m, rdt m, tdh m, tdt m);
  mmio_read_bases : forall m r, let m' := (mmio_read m r).2 in (tdba m', rdba m') = (tdba m, rdba m);
  mmio_write_tdbal : forall m v, fits 32 v -> let m' := mmio_write m REG_TDBAL v in
    (tdba m', rdba m') = (tdba m / 2 ^ 32 * 2 ^ 32 + v / 16 * 16, rdba m);
  mmio_write_tdbah : forall m v, fits 32 v -> let m' := mmio_write m REG_TDBAH v in
    (tdba m', rdba m') = (v * 2 ^ 32 + tdba m mod 2 ^ 32, rdba m);
  mmio_write_rdbal : forall m v, fits 32 v -> let m' := mmio_write m REG_RDBAL v in
    (tdba m', rdba m') = (tdba m, rdba m / 2 ^ 32 * 2 ^ 32 + v / 16 * 16);
  mmio_write_rdbah : forall m v, fits 32 v -> let m' := mmio_write m REG_RDBAH v in
    (tdba m', rdba m') = (tdba m, v * 2 ^ 32 + rdba m mod 2 ^ 32);
  mmio_write_bases : forall m r v,
    r ∉ [REG_TDBAL; REG_TDBAH; REG_RDBAL; REG_RDBAH] -> (r = REG_CTRL -> Z.testbit v 26 = false) ->
    let m' := mmio_write m r v in (tdba m', rdba m') = (tdba m, rdba m);
}.

(** Addresses of the boxes of the driver. *)
Record Boxes : Type := Boxes_mk {
  tx_descs_ptr : Z;
  tx_buffers_ptr : Z;
  rx_descs_ptr : Z;
  rx_buffers_ptr : Z;
}.

Record E1000 (M : Type) : Type := E1000_mk {
  regs : M;                    (** the registers behind [mmio_base] *)
  e_mmio_base : Z;
  phys_mem_offset : Z;
  mac_address : list Z;
  boxes : Boxes;
  tx_descs : list TxDesc;
  tx_buffers : list (list byte);
  tx_cur : nat;
  rx_descs : list RxDesc;
  rx_buffers : list (list byte);
  rx_cur : nat;
}.
Arguments E1000_mk {M}.
Arguments regs {M}.
Arguments e_mmio_base {M}.
Arguments phys_mem_offset {M}.
Arguments mac_address {M}.
Arguments boxes {M}.
Arguments tx_descs {M}.
Arguments tx_buffers {M}.
Arguments tx_cur {M}.
Arguments rx_descs {M}.
Arguments rx_buffers {M}.
Arguments rx_cur {M}.

Section driver.
Context {M : Type} `{NI : Nic M}.
Implicit Types (e : E1000 M).

Definition with_regs e (m : M) : E1000 M :=
  E1000_mk m (e_mmio_base e) (phys_mem_offset e) (mac_address e) (boxes e)
    (tx_descs e) (tx_buffers e) (tx_cur e) (rx_descs e) (rx_buffers e) (rx_cur e).
Definition with_mac e (mac : list Z) : E1000 M :=
  E1000_mk (regs e) (e_mmio_base e) (phys_mem_offset e) mac (boxes e)
    (tx_descs e) (tx_buffers e) (tx_cur e) (rx_descs e) (rx_buffers e) (rx_cur e).
Definition with_tx e (ds : list TxDesc) (bs : list (list byte)) (cur : nat) : E1000 M :=
  E1000_mk (regs e) (e_mmio_base e) (phys_mem_offset e) (mac_address e) (boxes e)
    ds bs cur (rx_descs e) (rx_buffers e) (rx_cur e).
Definition with_rx e (ds : list RxDesc) (bs : list (list byte)) (cur : nat) : E1000 M :=
  E1000_mk (regs e) (e_mmio_base e) (phys_mem_offset e) (mac_address e) (boxes e)
    (tx_descs e) (tx_buffers e) (tx_cur e) ds bs cur.

Definition read_reg e (offset : Z) : Z * E1000 M :=
  let '(v, m) := mmio_read (regs e) offset in (v, with_regs e m).
Definition write_reg e (offset value : Z) : E1000 M := with_regs e (mmio_write (regs e) offset value).

Definition virt_to_phys e (virt_addr : Z) : Z := as_u64 (virt_addr - phys_mem_offset e).

(** [reset]; the delay loop has no effect on the state. *)
Definition reset e : E1000 M :=
  let e := write_reg e REG_IMC 0xFFFFFFFF in
  write_reg e REG_CTRL CTRL_RST.

Definition read_mac_address e : E1000 M :=
  let '(ral, e) := read_reg e REG_RAL0 in
  let '(rah, e) := read_reg e REG_RAH0 in
  if negb (Z.land rah (Z.shiftl 1 31) =? 0) || negb (ral =? 0) then
    with_mac e [as_u8 ral; as_u8 (Z.shiftr ral 8); as_u8 (Z.shiftr ral 16); as_u8 (Z.shiftr ral 24);
                as_u8 rah; as_u8 (Z.shiftr rah 8)]
  else with_mac e [0x02; 0x00; 0x00; 0x00; 0x00; 0x01].

(** [u32::from_le_bytes] of four bytes of the address. *)
Definition from_le_bytes4 (a b c d : Z) : Z := a + 256 * (b + 256 * (c + 256 * d)).

Definition write_mac_address e : E1000 M :=
  let m i := nth i (mac_address e) 0 in
  let ral := from_le_bytes4 (m 0%nat) (m 1%nat) (m 2%nat) (m 3%nat) in
  let rah := Z.lor (from_le_bytes4 (m 4%nat) (m 5%nat) 0 0) (Z.shiftl 1 31) in
  write_reg (write_reg e REG_RAL0 ral) REG_RAH0 rah.

Definition init_tx e : E1000 M :=
  let init i d := TxDesc_mk (virt_to_phys e (tx_buffers_ptr (boxes e) + Z.of_nat (i * PACKET_BUFFER_SIZE)))
                    (td_length d) (td_cso d) (td_cmd d) TX_DD (td_css d) (td_special d) in
  let e := with_tx e (imap init (tx_descs e)) (tx_buffers e) (tx_cur e) in
  let phys := virt_to_phys e (tx_descs_ptr (boxes e)) in
  let e := write_reg e REG_TDBAL (as_u32 phys) in
  let e := write_reg e REG_TDBAH (as_u32 (Z.shiftr phys 32)) in
  let e := write_reg e REG_TDLEN (Z.of_nat (TX_DESC_COUNT * 16)) in
  let e := write_reg e REG_TDH 0 in
  let e := write_reg e REG_TDT 0 in
  let e := write_reg e REG_TIPG 0x0060200A in
  write_reg e REG_TCTL (Z.lor (Z.lor (Z.lor TCTL_EN TCTL_PSP) (Z.shiftl 0x10 4)) (Z.shiftl 0x40 12)).

Definition init_rx e : E1000 M :=
  let init i d := RxDesc_mk (virt_to_phys e (rx_buffers_ptr (boxes e) + Z.of_nat (i * PACKET_BUFFER_SIZE)))
                    (rd_length d) (rd_checksum d) 0 (rd_errors d) (rd_special d) in
  let e := with_rx e (imap init (rx_descs e)) (rx_buffers e) (rx_cur e) in
  let phys := virt_to_phys e (rx_descs_ptr (boxes e)) in
  let e := write_reg e REG_RDBAL (as_u32 phys) in
  let e := write_reg e REG_RDBAH (as_u32 (Z.shiftr phys 32)) in
  let e := write_reg e REG_RDLEN (Z.of_nat (RX_DESC_COUNT * 16)) in
  let e := write_reg e REG_RDH 0 in
  let e := write_reg e REG_RDT (Z.of_nat (RX_DESC_COUNT - 1)) in
  let e := write_reg e REG_RCTL (Z.lor (Z.lor (Z.lor RCTL_EN RCTL_BAM) (Z.shiftl 1 3)) (Z.shiftl 1 4)) in
  let '(ctrl, e) := read_reg e REG_CTRL in
  write_reg e REG_CTRL (Z.lor ctrl CTRL_SLU).

(** [E1000::new]: [map_mmio base] is the register file behind the mapped base
    address. *)
Definition E1000_new {D} `{PH : PciHost D} (map_mmio : Z -> M) (bx : Boxes) (pci_dev : PciDevice)
    (offset : Z) (d : D) : option (E1000 M) * D :=
  let d := PciDevice_enable pci_dev d in
  match mmio_base pci_dev with
  | None => (None, d)
  | Some mmio_phys =>
      let base := as_u64 (mmio_phys + offset) in
      let e := E1000_mk (map_mmio base) base offset (replicate 6 0) bx
                 (replicate TX_DESC_COUNT TxDesc_default)
                 (replicate TX_DESC_COUNT (replicate PACKET_BUFFER_SIZE x00)) 0
                 (replicate RX_DESC_COUNT RxDesc_default)
                 (replicate RX_DESC_COUNT (replicate PACKET_BUFFER_SIZE x00)) 0 in
      let e := reset e in
      let e := read_mac_address e in
      let e := write_mac_address e in
      let e := init_tx e in
      let e := init_rx e in
      let '(status, e) := read_reg e REG_STATUS in
      (Some e, d)
  end.

Definition E1000_probe {D} `{PH : PciHost D} (map_mmio : Z -> M) (bx : Boxes) (offset : Z) (d : D)
    : option (E1000 M) * D :=
  match find_e1000 d with
  | (None, d) => (None, d)
  | (Some pci, d) => E1000_new map_mmio bx pci offset d
  end.

(** ** Accesses *)

(** Code as the sequence of its accesses to what it shares with the controller; an
    access reads or changes the device, or panics, and the rest depends on what it
    read. *)
Inductive Accesses (A : Type) : Type :=
| Finish (a : A)
| Access {B : Type} (f : E1000 M -> Outcome (B * E1000 M)) (k : B -> Accesses A).
Arguments Finish {A}.
Arguments Access {A B}.

(** All accesses, with nothing in between. *)
Fixpoint run_accesses {A} (c : Accesses A) e : Outcome (A * E1000 M) :=
  match c with
  | Finish a => Return (a, e)
  | Access f k => let! (b, e) := f e in run_accesses (k b) e
  end.

(** The next access: what is left, and the device. *)
Definition next_access {A} (c : Accesses A) e : option (Outcome (Accesses A * E1000 M)) :=
  match c with
  | Finish _ => None
  | Access f k => Some (let! (b, e) := f e in Return (k b, e))
  end.

Definition reading {A B} (f : E1000 M -> Outcome B) (k : B -> Accesses A) : Accesses A :=
  Access (fun e => let! b := f e in Return (b, e)) k.
Definition writing {A} (f : E1000 M -> Outcome (E1000 M)) (c : Accesses A) : Accesses A :=
  Access (fun e => let! e := f e in Return (tt, e)) (fun _ => c).

(** Writes, and a result. *)
Definition all_writes {A} (ws : list (E1000 M -> Outcome (E1000 M))) (a : A) : Accesses A :=
  foldr writing (Finish a) ws.

(** ** Packets *)

(** [buf[..data.len()].copy_from_slice(data)]. *)
Definition copy_prefix (data buf : list byte) : list byte := data ++ drop (length data) buf.

(** Writes to a field of a descriptor, to a buffer, to the driver's position, to a
    register. *)
Definition write_tx_desc (idx : nat) (f : TxDesc -> TxDesc) e : Outcome (E1000 M) :=
  let! desc := or_panic (tx_descs e !! idx) in
  Return (with_tx e (<[idx := f desc]> (tx_descs e)) (tx_buffers e) (tx_cur e)).
Definition write_tx_buffer (idx : nat) (data : list byte) e : Outcome (E1000 M) :=
  let! buf := or_panic (tx_buffers e !! idx) in
  Return (with_tx e (tx_descs e) (<[idx := copy_prefix data buf]> (tx_buffers e)) (tx_cur e)).
Definition write_rx_desc (idx : nat) (f : RxDesc -> RxDesc) e : Outcome (E1000 M) :=
  let! desc := or_panic (rx_descs e !! idx) in
  Return (with_rx e (<[idx := f desc]> (rx_descs e)) (rx_buffers e) (rx_cur e)).
Definition write_tx_cur (cur : nat) e : Outcome (E1000 M) := Return (with_tx e (tx_descs e) (tx_buffers e) cur).
Definition write_rx_cur (cur : nat) e : Outcome (E1000 M) := Return (with_rx e (rx_descs e) (rx_buffers e) cur).
Definition write_tail (reg : Z) (v : nat) e : Outcome (E1000 M) := Return (write_reg e reg (Z.of_nat v)).

Definition tx_set_length (len : Z) (d : TxDesc) : TxDesc :=
  TxDesc_mk (td_addr d) len (td_cso d) (td_cmd d) (td_status d) (td_css d) (td_special d).
Definition tx_set_cmd (cmd : Z) (d : TxDesc) : TxDesc :=
  TxDesc_mk (td_addr d) (td_length d) (td_cso d) cmd (td_status d) (td_css d) (td_special d).
Definition tx_set_status (status : Z) (d : TxDesc) : TxDesc :=
  TxDesc_mk (td_addr d) (td_length d) (td_cso d) (td_cmd d) status (td_css d) (td_special d).
Definition rx_set_status (status : Z) (d : RxDesc) : RxDesc :=
  RxDesc_mk (rd_addr d) (rd_length d) (rd_checksum d) status (rd_errors d) (rd_special d).

(** What [transmit_raw] writes once it has found the descriptor [idx] done. *)
Definition transmit_writes (idx : nat) (data : list byte) : list (E1000 M -> Outcome (E1000 M)) :=
  let cur := ((idx + 1) mod TX_DESC_COUNT)%nat in
  [ write_tx_buffer idx data;
    write_tx_desc idx (tx_set_length (as_u16 (Z.of_nat (length data))));
    write_tx_desc idx (tx_set_cmd (Z.lor (Z.lor (Z.shiftl 1 0) (Z.shiftl 1 1)) (Z.shiftl 1 3)));
    write_tx_desc idx (tx_set_status 0);
    write_tx_cur cur;
    write_tail REG_TDT cur ].

Definition transmit_accesses (idx : nat) (data : list byte) : Accesses bool :=
  if decide (PACKET_BUFFER_SIZE < length data)%nat then Finish false
  else
    reading (fun e => or_panic (tx_descs e !! idx)) (fun desc =>
    if Z.land (td_status desc) TX_DD =? 0 then Finish false
    else all_writes (transmit_writes idx data) true).

Definition transmit_raw e (data : list byte) : Outcome (bool * E1000 M) :=
  run_accesses (transmit_accesses (tx_cur e) data) e.

(** What [receive_raw] writes once it has copied the packet of the descriptor [idx]. *)
Definition receive_writes (idx : nat) : list (E1000 M -> Outcome (E1000 M)) :=
  [ write_rx_desc idx (rx_set_status 0);
    write_rx_cur ((idx + 1) mod RX_DESC_COUNT)%nat;
    write_tail REG_RDT idx ].

(** [rx_buffers[idx][..len].to_vec()]. *)
Definition read_rx_buffer (idx len : nat) e : Outcome (list byte) :=
  let! buf := or_panic (rx_buffers e !! idx) in
  if decide (len <= length buf)%nat then Return (take len buf) else Panic.

(** [receive_raw] from its last access back to its first: the packet is copied, its
    length is read, nothing was received, the status is read. *)
Definition receive_copy (idx len : nat) : Accesses (option (list byte)) :=
  reading (read_rx_buffer idx len) (fun data => all_writes (receive_writes idx) (Some data)).
Definition receive_packet (idx : nat) : Accesses (option (list byte)) :=
  reading (fun e => or_panic (rx_descs e !! idx)) (fun desc => receive_copy idx (Z.to_nat (rd_length desc))).
Definition receive_none : Accesses (option (list byte)) :=
  Access (fun e => Return (read_reg e REG_RDH)) (fun rdh => Finish None).
Definition receive_accesses (idx : nat) : Accesses (option (list byte)) :=
  reading (fun e => or_panic (rx_descs e !! idx)) (fun desc =>
  if Z.land (rd_status desc) RX_DD =? 0 then receive_none else receive_packet idx).

Definition receive_raw e : Outcome (option (list byte) * E1000 M) := run_accesses (receive_accesses (rx_cur e)) e.

(** [transmit] of the [Device] trait: whether a token is given out. *)
Definition E1000_transmit e : Outcome bool :=
  let! desc := or_panic (tx_descs e !! tx_cur e) in
  Return (negb (Z.land (td_status desc) TX_DD =? 0)).

(** [E1000TxToken::consume]: the outcome of [transmit_raw] is dropped. *)
Definition E1000_consume {R} e (len : nat) (f : list byte -> R * list byte) : Outcome (R * E1000 M) :=
  let '(r, b) := f (replicate len x00) in
  let! res := transmit_raw e b in
  Return (r, res.2).
End driver.
Arguments Accesses M A : clear implicits.
Arguments Finish {M A}.
Arguments Access {M A B}.
