(* ===== verification/E1000Ring.v ===== *)
(** * The descriptor rings of the e1000

    The driver and the controller share two rings of sixty-four descriptors.  The
    step relation below interleaves the accesses of the driver's [transmit_raw] and
    [receive_raw], one by one, with what the controller may do on its own, as its
    manual describes it: it owns the descriptors from the head up to, but not
    including, the tail; it fills the receive descriptor at the head, or sends the
    packet of the transmit descriptor at the head, sets the done bit and advances the
    head.  It finds descriptors and buffers through the bus addresses the driver
    programmed; [bus] says what memory a bus address reaches.  When that is not the
    driver's memory, anything may happen ([HwStray]).  Accesses take effect in
    program order. *)

From S2P Require Import Prelude Bits Pci Text E1000.
Open Scope Z_scope.

(** ** Segments of a ring *)

Definition RING : nat := 64.
Definition slot (start k : nat) : nat := ((start + k) mod RING)%nat.

Section ring.
Open Scope nat_scope.

Lemma slot_lt c k : slot c k < RING.
Proof. apply Nat.mod_upper_bound. done. Qed.

Lemma slot_cases c k : c < RING -> k <= RING ->
  slot c k = c + k /\ c + k < RING \/ slot c k + RING = c + k.
Proof.
  unfold slot. intros. destruct (decide (c + k < RING)); [left; by rewrite Nat.mod_small|right].
  rewrite <- (Nat.mod_unique (c + k) RING 1 (c + k - RING)); unfold RING in *; lia.
Qed.

Lemma slot_0 c : c < RING -> slot c 0 = c.
Proof. intros. unfold slot. rewrite Nat.add_0_r. by apply Nat.mod_small. Qed.

Lemma slot_slot c j k : slot (slot c j) k = slot c (j + k).
Proof. unfold slot. rewrite Nat.Div0.add_mod_idemp_l. f_equal. lia. Qed.

Lemma slot_inj c j k : c < RING -> j < RING -> k < RING -> slot c j = slot c k -> j = k.
Proof. intros. pose proof (slot_cases c j). pose proof (slot_cases c k). lia. Qed.

Lemma slot_full c : c < RING -> slot c RING = c.
Proof. intros. destruct (slot_cases c RING); unfold RING in *; lia. Qed.

Context {A : Type}.

(** The items of the segment that starts at [start] satisfy [P] at their slots, the
    slots outside the segment satisfy [Q]. *)
Definition segment (P : nat -> A -> Prop) (Q : nat -> Prop) (start : nat) (items : list A) : Prop :=
  (forall k x, items !! k = Some x -> P (slot start k) x) /\
  (forall k, length items <= k < RING -> Q (slot start k)).

Context (P P' : nat -> A -> Prop) (Q Q' : nat -> Prop) (start : nat).
Hypothesis Hstart : start < RING.

(** The slot after the segment is filled. *)
Lemma segment_push items x :
  segment P Q start items -> length items < RING ->
  P' (slot start (length items)) x ->
  (forall i y, i < RING -> i <> slot start (length items) -> P i y -> P' i y) ->
  (forall i, i < RING -> i <> slot start (length items) -> Q i -> Q' i) ->
  segment P' Q' start (items ++ [x]).
Proof.
  intros [HP HQ] Hlen Hx HPk HQk. split.
  - intros k y. destruct (decide (k < length items)) as [Hk|Hk].
    + rewrite lookup_app_l by done. intros Hy. apply HPk; [apply slot_lt| |by apply HP].
      intros E%slot_inj; lia.
    + rewrite lookup_app_r by lia. intros [H0 <-]%list_lookup_singleton_Some. by replace k with (length items) by lia.
  - intros k. rewrite length_app. simpl. intros Hk.
    apply HQk; [apply slot_lt| |apply HQ; lia]. intros E%slot_inj; lia.
Qed.

(** The first slot of the segment is given back. *)
Lemma segment_pop items x :
  segment P Q start (x :: items) -> length items < RING ->
  Q' start ->
  (forall i y, i < RING -> i <> start -> P i y -> P' i y) ->
  (forall i, i < RING -> i <> start -> Q i -> Q' i) ->
  segment P' Q' (slot start 1) items.
Proof.
  intros [HP HQ] Hlen Hx HPk HQk. split.
  - intros k y Hy. rewrite slot_slot. apply HPk; [apply slot_lt| |by apply (HP (S k))].
    rewrite <- (slot_0 start) at 2 by done. apply lookup_lt_Some in Hy. intros E%slot_inj; unfold RING in *; lia.
  - intros k Hk. rewrite slot_slot. destruct (decide (1 + k = RING)) as [->|Hne].
    + by rewrite slot_full.
    + apply HQk; [apply slot_lt| |apply HQ; simpl; lia].
      rewrite <- (slot_0 start) at 2 by done. intros E%slot_inj; unfold RING in *; lia.
Qed.

Lemma segment_same items :
  segment P Q start items -> (forall i y, P i y -> P' i y) -> (forall i, Q i -> Q' i) ->
  segment P' Q' start items.
Proof. intros [HP HQ] H1 H2. split; auto. Qed.

Lemma segment_head items x : segment P Q start (x :: items) -> P start x.
Proof. intros [HP _]. rewrite <- (slot_0 start) by done. by apply HP. Qed.

Lemma segment_next items : segment P Q start items -> length items < RING -> Q (slot start (length items)).
Proof. intros [_ HQ] Hl. apply HQ. lia. Qed.
End ring.

(** ** The driver and the controller *)

(** What the driver is doing: nothing, or a call with some of its accesses left. *)
Inductive Driver (M : Type) : Type :=
| DriverIdle
| Sending (data : list byte) (c : Accesses M bool)
| Receiving (c : Accesses M (option (list byte))).
Arguments DriverIdle {M}.
Arguments Sending {M}.
Arguments Receiving {M}.

(** A packet the driver has put into the ring or taken from it, in a call that has not
    returned yet. *)
Definition given {M} (d : Driver M) : list (list byte) :=
  match d with Sending data (Finish true) => [data] | _ => [] end.
Definition taken {M} (d : Driver M) : list (list byte) :=
  match d with Receiving (Finish (Some pkt)) => [pkt] | _ => [] end.

Record RingState (M : Type) : Type := RingState_mk {
  rs_dev : E1000 M;
  rs_driver : Driver M;
  rs_received : list (list byte);    (** packets the controller put into the ring *)
  rs_delivered : list (list byte);   (** packets [receive_raw] returned *)
  rs_accepted : list (list byte);    (** packets for which [transmit_raw] returned [true] *)
  rs_wire : list (list byte);        (** packets the controller sent *)
}.
Arguments RingState_mk {M}.
Arguments rs_dev {M}.
Arguments rs_driver {M}.
Arguments rs_received {M}.
Arguments rs_delivered {M}.
Arguments rs_accepted {M}.
Arguments rs_wire {M}.

Section steps.
Context {M : Type} `{NI : Nic M} (bus : Z -> option Z).
Implicit Types (e : E1000 M) (s : RingState M).

(** The queue pointers: receive head and tail, transmit head and tail; the addresses of
    the rings. *)
Definition ptrs (m : M) : nat * nat * nat * nat := (rdh m, rdt m, tdh m, tdt m).
Definition bases (m : M) : Z * Z := (tdba m, rdba m).

(** The controller's access to the descriptor at its head and to the buffer of this
    descriptor reaches the descriptor [i] and the buffer [j] of the driver. *)
Definition tx_fetch e (i : nat) (desc : TxDesc) (j : nat) (buf : list byte) : Prop :=
  bus (tdba (regs e) + 16 * Z.of_nat (tdh (regs e))) = Some (tx_descs_ptr (boxes e) + 16 * Z.of_nat i) /\
  tx_descs e !! i = Some desc /\
  bus (td_addr desc) = Some (tx_buffers_ptr (boxes e) + Z.of_nat (j * PACKET_BUFFER_SIZE)) /\ tx_buffers e !! j = Some buf.
Definition rx_fetch e (i : nat) (desc : RxDesc) (j : nat) (buf : list byte) : Prop :=
  bus (rdba (regs e) + 16 * Z.of_nat (rdh (regs e))) = Some (rx_descs_ptr (boxes e) + 16 * Z.of_nat i) /\
  rx_descs e !! i = Some desc /\
  bus (rd_addr desc) = Some (rx_buffers_ptr (boxes e) + Z.of_nat (j * PACKET_BUFFER_SIZE)) /\ rx_buffers e !! j = Some buf.

(** The controller has work whose addresses are not the driver's memory. *)
Definition stray e : Prop :=
  tdh (regs e) <> tdt (regs e) /\ (forall i desc j buf, tx_fetch e i desc j buf -> False) \/
  rdh (regs e) <> rdt (regs e) /\ (forall i desc j buf, rx_fetch e i desc j buf -> False).

(** The controller puts a packet into a receive buffer; it is done with a transmit
    descriptor. *)
Definition rx_filled e (i : nat) (desc : RxDesc) (j : nat) (buf pkt : list byte) (checksum status errors : Z) : E1000 M :=
  with_rx e
    (<[i := RxDesc_mk (rd_addr desc) (Z.of_nat (length pkt)) checksum status errors (rd_special desc)]> (rx_descs e))
    (<[j := copy_prefix pkt buf]> (rx_buffers e)) (rx_cur e).
Definition tx_sent e (i : nat) (desc : TxDesc) (status : Z) : E1000 M :=
  with_tx e (<[i := tx_set_status status desc]> (tx_descs e)) (tx_buffers e) (tx_cur e).

(** The controller's steps. *)
Inductive hw_step (s : RingState M) : RingState M -> Prop :=
| HwReceive i desc j buf pkt checksum status errors m' :
    rdh (regs (rs_dev s)) <> rdt (regs (rs_dev s)) -> rx_fetch (rs_dev s) i desc j buf ->
    (length pkt <= PACKET_BUFFER_SIZE)%nat -> Z.testbit status 0 = true ->
    ptrs m' = (((rdh (regs (rs_dev s)) + 1) mod RX_DESC_COUNT)%nat, rdt (regs (rs_dev s)),
               tdh (regs (rs_dev s)), tdt (regs (rs_dev s))) ->
    bases m' = bases (regs (rs_dev s)) ->
    hw_step s (RingState_mk (with_regs (rx_filled (rs_dev s) i desc j buf pkt checksum status errors) m') (rs_driver s)
      (rs_received s ++ [pkt]) (rs_delivered s) (rs_accepted s) (rs_wire s))
| HwTransmit i desc j buf status m' :
    tdh (regs (rs_dev s)) <> tdt (regs (rs_dev s)) -> tx_fetch (rs_dev s) i desc j buf ->
    Z.testbit status 0 = true ->
    ptrs m' = (rdh (regs (rs_dev s)), rdt (regs (rs_dev s)),
               ((tdh (regs (rs_dev s)) + 1) mod TX_DESC_COUNT)%nat, tdt (regs (rs_dev s))) ->
    bases m' = bases (regs (rs_dev s)) ->
    hw_step s (RingState_mk (with_regs (tx_sent (rs_dev s) i desc status) m') (rs_driver s)
      (rs_received s) (rs_delivered s) (rs_accepted s) (rs_wire s ++ [take (Z.to_nat (td_length desc)) buf]))
| HwStray s' : stray (rs_dev s) -> hw_step s s'
| HwOther m' :
    ptrs m' = ptrs (regs (rs_dev s)) -> bases m' = bases (regs (rs_dev s)) ->
    hw_step s (RingState_mk (with_regs (rs_dev s) m') (rs_driver s)
      (rs_received s) (rs_delivered s) (rs_accepted s) (rs_wire s)).

(** The driver's steps: a call, one of its accesses, its return. *)
Inductive driver_step (s : RingState M) : RingState M -> Prop :=
| SendCall data :
    rs_driver s = DriverIdle ->
    driver_step s (RingState_mk (rs_dev s) (Sending data (transmit_accesses (tx_cur (rs_dev s)) data))
      (rs_received s) (rs_delivered s) (rs_accepted s) (rs_wire s))
| SendAccess data c c' e' :
    rs_driver s = Sending data c -> next_access c (rs_dev s) = Some (Return (c', e')) ->
    driver_step s (RingState_mk e' (Sending data c') (rs_received s) (rs_delivered s) (rs_accepted s) (rs_wire s))
| SendReturn data r :
    rs_driver s = Sending data (Finish r) ->
    driver_step s (RingState_mk (rs_dev s) DriverIdle (rs_received s) (rs_delivered s)
      (if r then rs_accepted s ++ [data] else rs_accepted s) (rs_wire s))
| ReceiveCall :
    rs_driver s = DriverIdle ->
    driver_step s (RingState_mk (rs_dev s) (Receiving (receive_accesses (rx_cur (rs_dev s))))
      (rs_received s) (rs_delivered s) (rs_accepted s) (rs_wire s))
| ReceiveAccess c c' e' :
    rs_driver s = Receiving c -> next_access c (rs_dev s) = Some (Return (c', e')) ->
    driver_step s (RingState_mk e' (Receiving c') (rs_received s) (rs_delivered s) (rs_accepted s) (rs_wire s))
| ReceiveReturn r :
    rs_driver s = Receiving (Finish r) ->
    driver_step s (RingState_mk (rs_dev s) DriverIdle (rs_received s) (rs_delivered s ++ option_list r)
      (rs_accepted s) (rs_wire s)).

Definition ring_step s s' : Prop := hw_step s s' \/ driver_step s s'.

(** A device as [E1000_new] leaves it: the rings initialised, nothing received or
    sent yet. *)
Definition ring_fresh e : Prop :=
  ptrs (regs e) = (0%nat, (RX_DESC_COUNT - 1)%nat, 0%nat, 0%nat) /\ tx_cur e = 0%nat /\ rx_cur e = 0%nat /\
  length (tx_descs e) = RING /\ length (rx_descs e) = RING /\
  Forall (fun d => Z.testbit (td_status d) 0 = true) (tx_descs e) /\
  Forall (fun d => Z.testbit (rd_status d) 0 = false) (rx_descs e) /\
  length (tx_buffers e) = RING /\ length (rx_buffers e) = RING /\
  Forall (fun b => length b = PACKET_BUFFER_SIZE) (tx_buffers e) /\
  Forall (fun b => length b = PACKET_BUFFER_SIZE) (rx_buffers e).

Definition ring_start e : RingState M := RingState_mk e DriverIdle [] [] [] [].

(** ** Invariants *)

(** Slot [i] of the receive ring holds a packet the driver has not taken yet; it is
    empty. *)
Definition rx_full e (i : nat) (pkt : list byte) : Prop :=
  exists desc buf, rx_descs e !! i = Some desc /\ rx_buffers e !! i = Some buf /\
    Z.testbit (rd_status desc) 0 = true /\ rd_length desc = Z.of_nat (length pkt) /\
    (length pkt <= length buf)%nat /\ take (length pkt) buf = pkt.
Definition rx_free e (i : nat) : Prop :=
  exists desc, rx_descs e !! i = Some desc /\ Z.testbit (rd_status desc) 0 = false.

(** Slot [i] of the transmit ring holds a packet the controller has not sent yet; it
    can be used. *)
Definition tx_full e (i : nat) (pkt : list byte) : Prop :=
  exists desc buf, tx_descs e !! i = Some desc /\ tx_buffers e !! i = Some buf /\
    Z.testbit (td_status desc) 0 = false /\ td_length desc = Z.of_nat (length pkt) /\
    take (length pkt) buf = pkt.
Definition tx_free e (i : nat) : Prop :=
  exists desc, tx_descs e !! i = Some desc /\ Z.testbit (td_status desc) 0 = true.

Definition buffers_ok (bs : list (list byte)) : Prop :=
  length bs = RING /\ Forall (fun b => length b = PACKET_BUFFER_SIZE) bs.

(** The rings as queues, from the driver's position [cur]; [b] is the slot the driver
    is working on.  The receive tail stays one slot behind the driver, so the ring
    never looks empty to the controller when it is full. *)
Record rx_ring (b : option nat) e (cur : nat) (pend : list (list byte)) : Prop := {
  ri_cur : (cur < RING)%nat;
  ri_len : (length pend < RING)%nat;
  ri_head : rdh (regs e) = slot cur (length pend);
  ri_tail : rdt (regs e) = slot cur (RING - 1);
  ri_descs : length (rx_descs e) = RING;
  ri_bufs : buffers_ok (rx_buffers e);
  ri_seg : segment (fun i pkt => Some i = b \/ rx_full e i pkt) (rx_free e) cur pend;
}.
Definition rx_inv e (pend : list (list byte)) : Prop := rx_ring None e (rx_cur e) pend.

Record tx_ring (b : option nat) e (cur : nat) (out : list (list byte)) : Prop := {
  ti_head : (tdh (regs e) < RING)%nat;
  ti_len : (length out <= RING)%nat;
  ti_cur : cur = slot (tdh (regs e)) (length out);
  ti_tail : tdt (regs e) = cur;
  ti_descs : length (tx_descs e) = RING;
  ti_bufs : buffers_ok (tx_buffers e);
  ti_seg : segment (tx_full e) (fun i => Some i = b \/ tx_free e i) (tdh (regs e)) out;
}.
Definition tx_inv e (out : list (list byte)) : Prop := tx_ring None e (tx_cur e) out.

(** [transmit_raw] has done [k] of its writes. *)
Record tx_filling e (out : list (list byte)) (idx : nat) (data : list byte) (k : nat) : Prop := {
  tf_ring : tx_ring (Some idx) e idx out;
  tf_room : (length out < RING)%nat;
  tf_data : (length data <= PACKET_BUFFER_SIZE)%nat;
  tf_cur : tx_cur e = if decide (k <= 4)%nat then idx else slot idx 1;
  tf_slot : exists desc buf, tx_descs e !! idx = Some desc /\ tx_buffers e !! idx = Some buf /\
    (1 <= k -> take (length data) buf = data)%nat /\ ((2 <= k)%nat -> td_length desc = Z.of_nat (length data)) /\
    ((4 <= k)%nat -> td_status desc = 0);
}.

(** The transmit ring while [transmit_raw] has the accesses [c] left. *)
Definition sending e (out : list (list byte)) (data : list byte) (c : Accesses M bool) : Prop :=
  c = transmit_accesses (tx_cur e) data /\ tx_inv e out \/
  (exists k idx, (k < 6)%nat /\ c = all_writes (drop k (transmit_writes idx data)) true /\ tx_filling e out idx data k) \/
  exists r, c = Finish r /\ tx_inv e out.

(** [receive_raw] has done [k] of its writes. *)
Record rx_taking e (pend : list (list byte)) (idx k : nat) : Prop := {
  rt_ring : rx_ring (Some idx) e idx pend;
  rt_cur : rx_cur e = if decide (k <= 1)%nat then idx else slot idx 1;
  rt_slot : (1 <= k)%nat -> rx_free e idx;
}.

(** The receive ring while [receive_raw] has the accesses [c] left. *)
Definition receiving e (pend : list (list byte)) (c : Accesses M (option (list byte))) : Prop :=
  (c = receive_accesses (rx_cur e) \/ c = receive_none \/ exists r, c = Finish r) /\ rx_inv e pend \/
  exists pkt rest, pend = pkt :: rest /\
    ((c = receive_packet (rx_cur e) \/ c = receive_copy (rx_cur e) (length pkt)) /\ rx_inv e pend \/
     exists k idx, (k < 3)%nat /\ c = all_writes (drop k (receive_writes idx)) (Some pkt) /\ rx_taking e pend idx k).

(** What a step on the other ring keeps. *)
Definition same_rx e e' : Prop :=
  rx_descs e' = rx_descs e /\ rx_buffers e' = rx_buffers e /\ rx_cur e' = rx_cur e /\
  rdh (regs e') = rdh (regs e) /\ rdt (regs e') = rdt (regs e).
Definition same_tx e e' : Prop :=
  tx_descs e' = tx_descs e /\ tx_buffers e' = tx_buffers e /\ tx_cur e' = tx_cur e /\
  tdh (regs e') = tdh (regs e) /\ tdt (regs e') = tdt (regs e).

Lemma rx_ring_frame b e e' cur pend : same_rx e e' -> rx_ring b e cur pend -> rx_ring b e' cur pend.
Proof.
  intros (Ed & Eb & Ec & Eh & Et) [? ? ? ? ? ? Hseg]. split; rewrite ?Ed, ?Eb, ?Eh, ?Et; try done.
  eapply segment_same; [exact Hseg|..]; unfold rx_full, rx_free; intros *; by rewrite ?Ed, ?Eb.
Qed.

Lemma rx_inv_frame e e' pend : same_rx e e' -> rx_inv e pend -> rx_inv e' pend.
Proof. intros Hs Hi. unfold rx_inv. destruct Hs as (? & ? & Ec & ? & ?). rewrite Ec. by apply (rx_ring_frame _ e). Qed.

Lemma receiving_frame e e' pend c : same_rx e e' -> receiving e pend c -> receiving e' pend c.
Proof.
  intros Hs Hr. pose proof Hs as (Ed & Eb & Ec & Eh & Et). unfold receiving. rewrite Ec.
  destruct Hr as [[Hc Hi]|(pkt & rest & -> & [[Hc Hi]|(k & idx & Hk & -> & [H1 H2 H3])])].
  - left. split; [done|by apply (rx_inv_frame e)].
  - right. exists pkt, rest. split; [done|]. left. split; [done|by apply (rx_inv_frame e)].
  - right. exists pkt, rest. split; [done|]. right. exists k, idx. split_and!; [done..|].
    split; [by apply (rx_ring_frame _ e)|by rewrite Ec|]. unfold rx_free. by rewrite Ed.
Qed.

Lemma tx_ring_frame b e e' cur out : same_tx e e' -> tx_ring b e cur out -> tx_ring b e' cur out.
Proof.
  intros (Ed & Eb & Ec & Eh & Et) [? ? ? ? ? ? Hseg]. split; rewrite ?Ed, ?Eb, ?Eh, ?Et; try done.
  eapply segment_same; [exact Hseg|..]; unfold tx_full, tx_free; intros *; by rewrite ?Ed, ?Eb.
Qed.

Lemma tx_inv_frame e e' out : same_tx e e' -> tx_inv e out -> tx_inv e' out.
Proof. intros Hs Hi. unfold tx_inv. destruct Hs as (? & ? & Ec & ? & ?). rewrite Ec. by apply (tx_ring_frame _ e). Qed.

Lemma sending_frame e e' out data c : same_tx e e' -> sending e out data c -> sending e' out data c.
Proof.
  intros Hs Hr. pose proof Hs as (Ed & Eb & Ec & Eh & Et). unfold sending. rewrite Ec.
  destruct Hr as [[-> Hi]|[(k & idx & Hk & -> & [H1 H2 H3 H4 H5])|(r & -> & Hi)]].
  - left. split; [done|by apply (tx_inv_frame e)].
  - right. left. exists k, idx. split_and!; [done..|]. split; [by apply (tx_ring_frame _ e)|done|done|by rewrite Ec|].
    by rewrite Ed, Eb.
  - right. right. exists r. split; [done|by apply (tx_inv_frame e)].
Qed.

(** ** What the controller reaches *)

(** The addresses the controller was given, and through them what it reaches. *)
Record dma_ok e : Prop := {
  dm_tx_ring : forall i, (i < RING)%nat ->
    bus (tdba (regs e) + 16 * Z.of_nat i) = Some (tx_descs_ptr (boxes e) + 16 * Z.of_nat i);
  dm_rx_ring : forall i, (i < RING)%nat ->
    bus (rdba (regs e) + 16 * Z.of_nat i) = Some (rx_descs_ptr (boxes e) + 16 * Z.of_nat i);
  dm_tx_bufs : forall i desc, tx_descs e !! i = Some desc ->
    bus (td_addr desc) = Some (tx_buffers_ptr (boxes e) + Z.of_nat (i * PACKET_BUFFER_SIZE));
  dm_rx_bufs : forall i desc, rx_descs e !! i = Some desc ->
    bus (rd_addr desc) = Some (rx_buffers_ptr (boxes e) + Z.of_nat (i * PACKET_BUFFER_SIZE));
}.

(** What keeps these addresses. *)
Definition same_dma e e' : Prop :=
  boxes e' = boxes e /\ bases (regs e') = bases (regs e) /\
  td_addr <$> tx_descs e' = td_addr <$> tx_descs e /\ rd_addr <$> rx_descs e' = rd_addr <$> rx_descs e.

Lemma dma_ok_frame e e' : same_dma e e' -> dma_ok e -> dma_ok e'.
Proof.
  intros (Hb & Hr & Ht & Hx) [H1 H2 H3 H4]. injection Hr as Ht' Hr'. split; rewrite ?Hb, ?Ht', ?Hr'; [done..| |].
  - intros i desc Hi. assert (Ha : (td_addr <$> tx_descs e) !! i = Some (td_addr desc)).
    { rewrite <- Ht, list_lookup_fmap, Hi. done. }
    rewrite list_lookup_fmap in Ha. apply fmap_Some in Ha as (d0 & Hd & ->). by apply H3.
  - intros i desc Hi. assert (Ha : (rd_addr <$> rx_descs e) !! i = Some (rd_addr desc)).
    { rewrite <- Hx, list_lookup_fmap, Hi. done. }
    rewrite list_lookup_fmap in Ha. apply fmap_Some in Ha as (d0 & Hd & ->). by apply H4.
Qed.

Lemma same_dma_trans e e1 e2 : same_dma e e1 -> same_dma e1 e2 -> same_dma e e2.
Proof. intros (H1 & H2 & H3 & H4) (G1 & G2 & G3 & G4). split_and!; congruence. Qed.

(** A descriptor is written without changing its address. *)
Lemma insert_same_addr {D} (f : D -> Z) (ds : list D) i d d' :
  ds !! i = Some d -> f d' = f d -> f <$> <[i := d']> ds = f <$> ds.
Proof. intros Hi Hf. rewrite list_fmap_insert, Hf. apply list_insert_id. by rewrite list_lookup_fmap, Hi. Qed.

Lemma tx_fetch_head e i desc j buf :
  dma_ok e -> (tdh (regs e) < RING)%nat -> tx_fetch e i desc j buf -> i = tdh (regs e) /\ j = tdh (regs e).
Proof.
  intros Hd Hh (E1 & E2 & E3 & _). rewrite (dm_tx_ring _ Hd) in E1 by done. rewrite (dm_tx_bufs _ Hd _ _ E2) in E3.
  injection E1 as E1. injection E3 as E3. unfold PACKET_BUFFER_SIZE in E3. lia.
Qed.

Lemma rx_fetch_head e i desc j buf :
  dma_ok e -> (rdh (regs e) < RING)%nat -> rx_fetch e i desc j buf -> i = rdh (regs e) /\ j = rdh (regs e).
Proof.
  intros Hd Hh (E1 & E2 & E3 & _). rewrite (dm_rx_ring _ Hd) in E1 by done. rewrite (dm_rx_bufs _ Hd _ _ E2) in E3.
  injection E1 as E1. injection E3 as E3. unfold PACKET_BUFFER_SIZE in E3. lia.
Qed.

Lemma buffers_lookup bs i : buffers_ok bs -> (i < RING)%nat ->
  exists buf, bs !! i = Some buf /\ length buf = PACKET_BUFFER_SIZE.
Proof.
  intros [Hl Hf] Hi. destruct (lookup_lt_is_Some_2 bs i) as [b E]; [by rewrite Hl|]. exists b.
  split; [done|]. by apply (Forall_lookup_1 _ _ _ _ Hf E).
Qed.

(** The controller never strays from such addresses. *)
Lemma never_stray b b' e cur cur' pend out :
  dma_ok e -> rx_ring b e cur pend -> tx_ring b' e cur' out -> stray e -> False.
Proof.
  intros Hd Hr Ht [[_ Hs]|[_ Hs]].
  - pose proof (ti_head _ _ _ _ Ht) as Hh. destruct (lookup_lt_is_Some_2 (tx_descs e) (tdh (regs e))) as [desc E].
    { by rewrite (ti_descs _ _ _ _ Ht). }
    destruct (buffers_lookup _ _ (ti_bufs _ _ _ _ Ht) Hh) as (buf & Eb & _).
    apply (Hs (tdh (regs e)) desc (tdh (regs e)) buf). split_and!; [by apply (dm_tx_ring _ Hd)|done|by apply (dm_tx_bufs _ Hd)|done].
  - assert (Hh : (rdh (regs e) < RING)%nat) by (rewrite (ri_head _ _ _ _ Hr); apply slot_lt).
    destruct (lookup_lt_is_Some_2 (rx_descs e) (rdh (regs e))) as [desc E]; [by rewrite (ri_descs _ _ _ _ Hr)|].
    destruct (buffers_lookup _ _ (ri_bufs _ _ _ _ Hr) Hh) as (buf & Eb & _).
    apply (Hs (rdh (regs e)) desc (rdh (regs e)) buf). split_and!; [by apply (dm_rx_ring _ Hd)|done|by apply (dm_rx_bufs _ Hd)|done].
Qed.

Lemma land_DD v : (Z.land v RX_DD =? 0) = negb (Z.testbit v 0).
Proof. change RX_DD with (2 ^ 0). by rewrite <- land_bit_nonzero, negb_involutive by lia. Qed.

Lemma length_copy_prefix data buf : (length data <= length buf)%nat ->
  length (copy_prefix data buf) = length buf.
Proof. intros. unfold copy_prefix. rewrite length_app, length_drop. lia. Qed.

Lemma buffers_ok_insert bs i data buf :
  buffers_ok bs -> bs !! i = Some buf -> (length data <= PACKET_BUFFER_SIZE)%nat ->
  buffers_ok (<[i := copy_prefix data buf]> bs).
Proof.
  intros [Hl Hf] E Hd. pose proof (Forall_lookup_1 _ _ _ _ Hf E) as Hb. simpl in Hb.
  split; [by rewrite length_insert|]. apply Forall_insert; [done|]. rewrite length_copy_prefix; lia.
Qed.

Lemma fits16_slot i : (i < RING)%nat -> fits 16 (Z.of_nat i).
Proof. unfold fits, RING. lia. Qed.

(** ** The driver's accesses *)

(** Runs of code whose every access returns and keeps [J]. *)
Lemma run_accesses_inv {A} (J : Accesses M A -> E1000 M -> Prop) c e :
  (forall c e o, J c e -> next_access c e = Some o -> exists c' e', o = Return (c', e') /\ J c' e') ->
  J c e -> exists r e', run_accesses c e = Return (r, e') /\ J (Finish r) e'.
Proof.
  intros Hstep. revert e. induction c as [a|B f k IH]; intros e HJ; [by exists a, e|].
  destruct (Hstep _ _ _ HJ eq_refl) as (c' & e' & E & HJ'). simpl. destruct (f e) as [[b e1]|]; [|done]. cbn [outcome_bind] in *.
  injection E as <- <-. by apply IH.
Qed.

Lemma run_all_writes {A} ws (a r : A) e e' : run_accesses (all_writes ws a) e = Return (r, e') -> r = a.
Proof.
  revert e. induction ws as [|w ws IH]; intros e; simpl; [by intros [= <- _]|].
  destruct (w e) as [e1|]; simpl; [apply IH|done].
Qed.

Lemma next_write {A} ws k w (a : A) e e' :
  ws !! k = Some w -> w e = Return e' ->
  next_access (all_writes (drop k ws) a) e = Some (Return (all_writes (drop (S k) ws) a, e')).
Proof. intros Hk Hw. rewrite (drop_S ws w k Hk). simpl. by rewrite Hw. Qed.

(** A write to the slot [transmit_raw] is filling. *)
Lemma tx_fill_poke e e' out idx data k desc buf :
  tx_filling e out idx data k ->
  (forall i, i <> idx -> tx_descs e' !! i = tx_descs e !! i /\ tx_buffers e' !! i = tx_buffers e !! i) ->
  length (tx_descs e') = length (tx_descs e) -> buffers_ok (tx_buffers e') ->
  tdh (regs e') = tdh (regs e) -> tdt (regs e') = tdt (regs e) ->
  tx_cur e' = (if decide (S k <= 4)%nat then idx else slot idx 1) ->
  tx_descs e' !! idx = Some desc -> tx_buffers e' !! idx = Some buf -> take (length data) buf = data ->
  ((2 <= S k)%nat -> td_length desc = Z.of_nat (length data)) -> ((4 <= S k)%nat -> td_status desc = 0) ->
  tx_filling e' out idx data (S k).
Proof.
  intros [[Hh Hlen Hcur Ht Hd Hb [HP HQ]] Hroom Hdata _ _] Hne Hl Hb' Hh' Ht' Hc' Ed Eb Htake Hlength Hstatus.
  split; [|done|done|done|exists desc, buf; split_and!; done].
  split; rewrite ?Hh', ?Ht', ?Hl; try done. split.
  - intros j x Hx. destruct (HP j x Hx) as (d & bf & ? & ? & ?). apply lookup_lt_Some in Hx.
    destruct (Hne (slot (tdh (regs e)) j)) as [E1 E2]; [rewrite Hcur; intros E%slot_inj; lia|].
    exists d, bf. by rewrite E1, E2.
  - intros j Hj. destruct (HQ j Hj) as [E|(d & ? & ?)]; [by left|].
    destruct (decide (slot (tdh (regs e)) j = idx)) as [->|Hn]; [by left|]. right. exists d. by rewrite (proj1 (Hne _ Hn)).
Qed.

(** The last write hands the packet over. *)
Lemma tx_fill_tail e out idx data :
  tx_filling e out idx data 5 -> tx_inv (write_reg e REG_TDT (Z.of_nat (slot idx 1))) (out ++ [data]).
Proof.
  intros [[Hh Hlen Hcur Ht Hd Hb Hseg] Hroom Hdata Hc (desc & buf & Ed & Eb & H1 & H2 & H4)].
  pose proof (slot_lt idx 1) as Hs. pose proof (mmio_write_tdt (regs e) (Z.of_nat (slot idx 1)) (fits16_slot _ Hs)) as Hp.
  cbv zeta in Hp. injection Hp as _ _ P3 P4. unfold tx_inv.
  change (tx_cur (write_reg e REG_TDT (Z.of_nat (slot idx 1)))) with (tx_cur e). simpl in Hc. rewrite Hc.
  split; cbn [regs write_reg with_regs tx_descs tx_buffers]; rewrite ?P3, ?P4, ?length_app; simpl length; try done; [lia| |apply Nat2Z.id|].
  - by rewrite Hcur, slot_slot.
  - eapply (segment_push (tx_full e) (tx_full e)); [done|exact Hseg|done| |done|].
    + rewrite <- Hcur. exists desc, buf. rewrite H4, H2 by lia. split_and!; [done..|apply H1; lia].
    + intros i _ Hi [[= ->]|Hf]; [by rewrite <- Hcur in Hi|by right].
Qed.

(** Its writes to the descriptor. *)
Lemma tx_fill_desc e out idx data k f :
  tx_filling e out idx data k -> (1 <= k <= 3)%nat -> (forall d, td_addr (f d) = td_addr d) ->
  (forall d, ((2 <= k)%nat -> td_length d = Z.of_nat (length data)) -> td_length (f d) = Z.of_nat (length data)) ->
  (forall d, (4 <= S k)%nat -> td_status (f d) = 0) ->
  exists e', write_tx_desc idx f e = Return e' /\ same_rx e e' /\ same_dma e e' /\ tx_filling e' out idx data (S k).
Proof.
  intros Hf Hk Ha Hl Hs. pose proof Hf as [Hr Hroom Hdata Hc (desc & buf & Ed & Eb & H1 & H2 & H4)].
  pose proof (lookup_lt_Some _ _ _ Ed) as Hi. unfold write_tx_desc. rewrite Ed. cbn [or_panic outcome_bind].
  eexists. split; [done|]. split; [done|]. split; [split_and!; [done..|by eapply insert_same_addr|done]|].
  eapply tx_fill_poke; [exact Hf|..]; cbn [with_tx tx_descs tx_buffers tx_cur regs]; try done.
  - intros i Hn. by rewrite list_lookup_insert_ne.
  - apply length_insert.
  - apply (ti_bufs _ _ _ _ Hr).
  - rewrite Hc. by rewrite !decide_True by lia.
  - apply list_lookup_insert_eq. lia.
  - apply H1. lia.
  - intros _. by apply Hl.
  - apply Hs.
Qed.

Lemma tx_fill_step e out idx data k w :
  tx_filling e out idx data k -> transmit_writes idx data !! k = Some w ->
  exists e', w e = Return e' /\ same_rx e e' /\ same_dma e e' /\
    ((k < 5)%nat -> tx_filling e' out idx data (S k)) /\ (k = 5%nat -> tx_inv e' (out ++ [data])).
Proof.
  intros Hf Hw. pose proof Hf as [Hr Hroom Hdata Hc (desc & buf & Ed & Eb & H1 & H2 & H4)].
  pose proof (lookup_lt_Some _ _ _ Eb) as Hi.
  assert (Hdesc : forall f, (1 <= k <= 3)%nat -> w = write_tx_desc idx f -> (forall d, td_addr (f d) = td_addr d) ->
    (forall d, ((2 <= k)%nat -> td_length d = Z.of_nat (length data)) -> td_length (f d) = Z.of_nat (length data)) ->
    (forall d, (4 <= S k)%nat -> td_status (f d) = 0) ->
    exists e', w e = Return e' /\ same_rx e e' /\ same_dma e e' /\
      ((k < 5)%nat -> tx_filling e' out idx data (S k)) /\ (k = 5%nat -> tx_inv e' (out ++ [data]))).
  { intros f Hk -> Ha Hl Hs. destruct (tx_fill_desc _ _ _ _ _ f Hf Hk Ha Hl Hs) as (e' & ? & ? & ? & ?). exists e'.
    split_and!; [done..|lia]. }
  destruct k as [|[|[|[|[|[|k]]]]]]; [injection Hw as <-..|done]; simpl in Hc.
  - unfold write_tx_buffer. rewrite Eb. cbn [or_panic outcome_bind]. eexists. split; [done|]. split_and!; [done..| |done]. intros _.
    eapply tx_fill_poke; [exact Hf|..]; cbn [with_tx tx_descs tx_buffers tx_cur regs]; try done; try lia.
    + intros i Hn. by rewrite list_lookup_insert_ne.
    + apply buffers_ok_insert; [apply (ti_bufs _ _ _ _ Hr)|done|done].
    + apply list_lookup_insert_eq. lia.
    + unfold copy_prefix. by rewrite take_app_length.
  - eapply Hdesc; [lia|done|done| |lia]. intros d _. apply wrap_small. unfold fits, PACKET_BUFFER_SIZE in *. lia.
  - eapply Hdesc; [lia|done|done| |lia]. intros d Hd. apply Hd. lia.
  - eapply Hdesc; [lia|done|done| |done]. intros d Hd. apply Hd. lia.
  - eexists. split; [done|]. split_and!; [done..| |done]. intros _.
    eapply tx_fill_poke; [exact Hf|..]; cbn [with_tx tx_descs tx_buffers tx_cur regs]; try done.
    + apply (ti_bufs _ _ _ _ Hr).
    + apply H1. lia.
    + intros _. apply H2. lia.
    + intros _. apply H4. lia.
  - pose proof (slot_lt idx 1) as Hs. pose proof (mmio_write_tdt (regs e) (Z.of_nat (slot idx 1)) (fits16_slot _ Hs)) as Hp.
    cbv zeta in Hp. injection Hp as P1 P2 _ _.
    pose proof (mmio_write_bases (regs e) REG_TDT (Z.of_nat (slot idx 1))) as Hbs. cbv zeta in Hbs.
    eexists. split; [done|]. split; [done|]. split; [|split; [lia|intros _; by apply tx_fill_tail]].
    split_and!; [done| |done|done]. apply Hbs; [|done]. rewrite list_elem_of_In. compute. intuition congruence.
Qed.

(** The accesses of [transmit_raw]. *)
Lemma sending_access e out data c o :
  sending e out data c -> next_access c e = Some o ->
  exists c' e' out', o = Return (c', e') /\ sending e' out' data c' /\ same_rx e e' /\ same_dma e e' /\
    out' = out ++ given (Sending data c') /\ (length out = RING -> out' = out).
Proof.
  intros [[-> Hi]|[(k & idx & Hk & -> & Hf)|(r & -> & _)]] Ho; [| |done].
  - unfold transmit_accesses in Ho. destruct (decide _) as [|Hsmall]; [done|]. injection Ho as <-.
    assert (Hc : (tx_cur e < RING)%nat) by (rewrite (ti_cur _ _ _ _ Hi); apply slot_lt).
    destruct (lookup_lt_is_Some_2 (tx_descs e) (tx_cur e)) as [desc Ed]; [by rewrite (ti_descs _ _ _ _ Hi)|].
    rewrite Ed. cbn [or_panic outcome_bind]. change TX_DD with RX_DD. rewrite land_DD.
    destruct (Z.testbit (td_status desc) 0) eqn:Hst; cbn [negb].
    2:{ eexists _, _, out. split; [done|]. split; [right; right; by exists false|]. split; [done|]; split; [done|]; split; [by rewrite app_nil_r|done]. }
    pose proof Hi as [Hh Hlen Hcur Ht Hd Hb Hseg].
    assert (Hroom : (length out < RING)%nat).
    { destruct (decide (length out < RING)%nat); [done|]. exfalso. destruct out as [|pkt out]; [unfold RING in *; simpl in *; lia|].
      rewrite (Nat.le_antisymm _ _ Hlen) in Hcur by lia. rewrite slot_full in Hcur by done.
      destruct (segment_head _ _ _ Hh _ _ Hseg) as (d & b & Ed' & _ & Hst' & _). rewrite <- Hcur, Ed in Ed'. congruence. }
    eexists _, _, out. split; [done|]. split; [|split; [done|]; split; [done|]; split; [by rewrite app_nil_r|done]].
    right. left. exists 0%nat, (tx_cur e). split; [lia|]. split; [done|]. split; try done; [|lia|].
    + split; try done. eapply segment_same; [exact Hseg|done|]. intros i [?|?]; [done|by right].
    + destruct (buffers_lookup _ _ Hb Hc) as (buf & Eb & _). exists desc, buf. split_and!; [done..|lia|lia|lia].
  - destruct (lookup_lt_is_Some_2 (transmit_writes idx data) k) as [w Hw]; [simpl; lia|].
    destruct (tx_fill_step _ _ _ _ _ _ Hf Hw) as (e' & Ew & Hrx & Hdm & Hnext & Hlast).
    rewrite (next_write _ _ _ _ _ _ Hw Ew) in Ho. injection Ho as <-. pose proof (tf_room _ _ _ _ _ Hf) as Hroom.
    destruct (decide (k = 5)%nat) as [->|Hne].
    + exists (Finish true), e', (out ++ [data]). split; [done|]. split; [right; right; exists true; auto|].
      split_and!; [done..|lia].
    + exists (all_writes (drop (S k) (transmit_writes idx data)) true), e', out. split; [done|].
      split; [right; left; exists (S k), idx; split_and!; [lia|done|apply Hnext; lia]|]. split_and!; [done..| |done].
      destruct k as [|[|[|[|[|k]]]]]; [by rewrite app_nil_r..|lia].
Qed.

Lemma sending_finished e out data r : sending e out data (Finish r) -> tx_inv e out.
Proof.
  intros [[_ Hi]|[(k & idx & Hk & E & _)|(r' & _ & Hi)]]; [done| |done]. exfalso.
  by destruct k as [|[|[|[|[|[|k]]]]]]; [..|lia].
Qed.

(** Without interruption. *)
Lemma sending_runs e out data c :
  sending e out data c ->
  exists r e', run_accesses c e = Return (r, e') /\ (c = Finish r /\ e' = e \/ tx_inv e' (out ++ given (M:=M) (Sending data (Finish r)))) /\
    same_rx e e'.
Proof.
  intros Hs.
  destruct (run_accesses_inv (fun c' e' => c' = c /\ e' = e \/
    exists out', sending e' out' data c' /\ out' = out ++ given (Sending data c') /\ same_rx e e') c e) as (r & e' & E & HJ).
  - intros c1 e1 o HJ Ho. assert (Hs1 : exists out1, sending e1 out1 data c1 /\ out1 = out /\ same_rx e e1).
    { destruct HJ as [[-> ->]|(out1 & H1 & H2 & H3)]; [by exists out|]. exists out1. split_and!; [done| |done].
      destruct c1; [done|]. by rewrite app_nil_r in H2. }
    destruct Hs1 as (out1 & Hs1 & -> & Hr1). destruct (sending_access _ _ _ _ _ Hs1 Ho) as (c' & e' & out' & -> & H1 & H2 & _ & H3 & _).
    exists c', e'. split; [done|]. right. exists out'. split_and!; [done..|].
    destruct Hr1 as (? & ? & ? & ? & ?), H2 as (? & ? & ? & ? & ?). split_and!; congruence.
  - by left.
  - exists r, e'. split; [done|]. destruct HJ as [[<- ->]|(out' & H1 & -> & H2)].
    + split; [by left|done].
    + split; [right; by eapply sending_finished|done].
Qed.

Lemma transmit_raw_spec e out data :
  tx_inv e out ->
  exists e', transmit_raw e data =
    Return (bool_decide (length data <= PACKET_BUFFER_SIZE /\ length out < RING)%nat, e').
Proof.
  intros Hi. pose proof Hi as [Hh Hlen Hcur Ht Hd Hb Hseg].
  assert (Hs : sending e out data (transmit_accesses (tx_cur e) data)) by (by left).
  destruct (sending_runs _ _ _ _ Hs) as (r & e' & E & _). exists e'. unfold transmit_raw. rewrite E. do 2 f_equal.
  revert E. unfold transmit_accesses. destruct (decide _) as [Hbig|Hsmall].
  { intros [= <- _]. by rewrite bool_decide_false by lia. }
  destruct (lookup_lt_is_Some_2 (tx_descs e) (tx_cur e)) as [desc Ed]; [rewrite Hd, Hcur; apply slot_lt|].
  cbn [run_accesses reading]. rewrite Ed. cbn [or_panic outcome_bind]. change TX_DD with RX_DD. rewrite land_DD.
  destruct (decide (length out < RING)%nat) as [Hroom|Hfull].
  - destruct (segment_next _ _ _ Hh _ Hseg Hroom) as [?|(d & Ed' & Hst)]; [done|]. rewrite <- Hcur, Ed in Ed'. injection Ed' as <-.
    rewrite Hst. cbn [negb]. intros ->%run_all_writes. by rewrite bool_decide_true by lia.
  - assert (Hfl : length out = RING) by lia. rewrite Hfl, slot_full in Hcur by done. destruct out as [|pkt out]; [done|].
    destruct (segment_head _ _ _ Hh _ _ Hseg) as (d & buf & Ed' & _ & Hst & _). rewrite <- Hcur, Ed in Ed'. injection Ed' as <-.
    rewrite Hst. cbn [negb]. intros [= <- _]. by rewrite bool_decide_false by lia.
Qed.

(** The slot [receive_raw] is emptying, of a ring that is not empty. *)
Lemma rx_take_poke e e' pkt rest idx :
  rx_ring (Some idx) e idx (pkt :: rest) ->
  (forall i, i <> idx -> rx_descs e' !! i = rx_descs e !! i) -> rx_free e' idx ->
  rx_buffers e' = rx_buffers e -> length (rx_descs e') = length (rx_descs e) -> regs e' = regs e ->
  rx_ring (Some idx) e' idx (pkt :: rest).
Proof.
  intros [Hc Hlen Hh Ht Hd Hb [HP HQ]] Hne Hf Eb El Er. split; rewrite ?Er, ?Eb, ?El; try done. split.
  - intros j x Hx. destruct (decide (slot idx j = idx)) as [Hj|Hj]; [left; by rewrite Hj|].
    destruct (HP j x Hx) as [[= E]|(d & bf & ? & ? & ?)]; [done|]. right. exists d, bf. by rewrite Eb, Hne.
  - intros j Hj. destruct (decide (slot idx j = idx)) as [Hj'|Hj']; [by rewrite Hj'|].
    destruct (HQ j Hj) as (d & ? & ?). exists d. by rewrite Hne.
Qed.

(** The last write gives the slot back. *)
Lemma rx_take_tail e pkt rest idx :
  rx_taking e (pkt :: rest) idx 2 -> rx_inv (write_reg e REG_RDT (Z.of_nat idx)) rest.
Proof.
  intros [[Hc Hlen Hh Ht Hd Hb Hseg] Hcur Hf]. specialize (Hf ltac:(lia)). simpl in Hcur, Hlen.
  pose proof (mmio_write_rdt (regs e) (Z.of_nat idx) (fits16_slot _ Hc)) as Hp. cbv zeta in Hp. injection Hp as P1 P2 _ _.
  unfold rx_inv. change (rx_cur (write_reg e REG_RDT (Z.of_nat idx))) with (rx_cur e). rewrite Hcur.
  split; cbn [regs write_reg with_regs rx_descs rx_buffers]; rewrite ?P1, ?P2; try done.
  - apply slot_lt.
  - lia.
  - rewrite Hh, slot_slot. done.
  - rewrite Nat2Z.id, slot_slot. symmetry. by apply slot_full.
  - eapply (segment_pop _ _ _ _ _ Hc _ _ Hseg); [lia|done| |done]. intros i y _ Hi [[= E]|?]; [done|by right].
Qed.

Lemma rx_take_step e pkt rest idx k w :
  rx_taking e (pkt :: rest) idx k -> receive_writes idx !! k = Some w ->
  exists e', w e = Return e' /\ same_tx e e' /\ same_dma e e' /\
    ((k < 2)%nat -> rx_taking e' (pkt :: rest) idx (S k)) /\ (k = 2%nat -> rx_inv e' rest).
Proof.
  intros Hk Hw. pose proof Hk as [Hr Hcur Hf]. pose proof (ri_cur _ _ _ _ Hr) as Hc.
  destruct (lookup_lt_is_Some_2 (rx_descs e) idx) as [desc Ed]; [by rewrite (ri_descs _ _ _ _ Hr)|].
  pose proof (lookup_lt_Some _ _ _ Ed) as Hi.
  destruct k as [|[|[|k]]]; [injection Hw as <-..|done]; simpl in Hcur.
  - unfold write_rx_desc. rewrite Ed. cbn [or_panic outcome_bind]. eexists. split; [done|]. split; [done|].
    split; [split_and!; [done..|by eapply insert_same_addr]|]. split; [intros _|done].
    assert (Hfree : rx_free (with_rx e (<[idx:=rx_set_status 0 desc]> (rx_descs e)) (rx_buffers e) (rx_cur e)) idx).
    { eexists. split; [apply list_lookup_insert_eq; lia|done]. }
    split; [|done|done]. eapply rx_take_poke; [exact Hr| |done|done|simpl; by rewrite length_insert|done].
    intros i Hn. simpl. by rewrite list_lookup_insert_ne.
  - eexists. split; [done|]. split; [done|]. split; [done|]. split; [intros _|done]. specialize (Hf ltac:(lia)).
    split; [by eapply rx_take_poke|done|by intros _].
  - pose proof (mmio_write_rdt (regs e) (Z.of_nat idx) (fits16_slot _ Hc)) as Hp. cbv zeta in Hp. injection Hp as _ _ P3 P4.
    pose proof (mmio_write_bases (regs e) REG_RDT (Z.of_nat idx)) as Hbs. cbv zeta in Hbs.
    eexists. split; [done|]. split; [done|]. split; [|split; [lia|intros _; by eapply rx_take_tail]].
    split_and!; [done| |done|done]. apply Hbs; [|done]. rewrite list_elem_of_In. compute. intuition congruence.
Qed.

(** The accesses of [receive_raw]. *)
Lemma receiving_access e pend c o :
  receiving e pend c -> next_access c e = Some o ->
  exists c' e' pend', o = Return (c', e') /\ receiving e' pend' c' /\ same_tx e e' /\ same_dma e e' /\
    taken (Receiving c') ++ pend' = pend.
Proof.
  intros [[[->|[->|[r ->]]] Hi]|(pkt & rest & -> & [[[->| ->] Hi]|(k & idx & Hk & -> & Ht)])] Ho; simpl in Ho.
  - pose proof Hi as [Hc Hlen Hh Htl Hd Hb Hseg].
    destruct (lookup_lt_is_Some_2 (rx_descs e) (rx_cur e)) as [desc Ed]; [by rewrite Hd|]. rewrite Ed in Ho.
    cbn [or_panic outcome_bind] in Ho. rewrite land_DD in Ho.
    destruct (Z.testbit (rd_status desc) 0) eqn:Hst; cbn [negb] in Ho; injection Ho as <-; eexists _, _, pend; (split; [done|]); (split; [|by split_and!]).
    + destruct pend as [|pkt rest].
      * exfalso. destruct (segment_next _ _ _ Hc _ Hseg ltac:(done)) as (d & Ed' & Hst'). simpl in Ed'.
        rewrite slot_0, Ed in Ed' by done. congruence.
      * right. exists pkt, rest. split; [done|]. left. split; [by left|done].
    + left. split; [right; by left|done].
  - unfold read_reg in Ho. pose proof (mmio_read_ptrs (regs e) REG_RDH) as Hp. pose proof (mmio_read_bases (regs e) REG_RDH) as Hb.
    destruct (mmio_read (regs e) REG_RDH) as [v m]. cbn [outcome_bind] in Ho. injection Ho as <-. cbv zeta in Hp, Hb. cbn [snd] in Hp, Hb.
    injection Hp as P1 P2 P3 P4. eexists _, _, pend. split; [done|]. split; [|by split_and!].
    left. split; [right; right; by exists None|]. by apply (rx_inv_frame e).
  - done.
  - pose proof Hi as [Hc Hlen Hh Htl Hd Hb Hseg].
    destruct (segment_head _ _ _ Hc _ _ Hseg) as [?|(desc & buf & Ed & Eb & Hst & Hl & Hle & Htk)]; [done|].
    rewrite Ed in Ho. cbn [or_panic outcome_bind] in Ho. rewrite Hl, Nat2Z.id in Ho. injection Ho as <-.
    eexists _, _, (pkt :: rest). split; [done|]. split; [|by split_and!].
    right. exists pkt, rest. split; [done|]. left. split; [by right|done].
  - pose proof Hi as [Hc Hlen Hh Htl Hd Hb Hseg].
    destruct (segment_head _ _ _ Hc _ _ Hseg) as [?|(desc & buf & Ed & Eb & Hst & Hl & Hle & Htk)]; [done|].
    unfold read_rx_buffer in Ho. rewrite Eb in Ho. cbn [or_panic outcome_bind] in Ho. rewrite decide_True, Htk in Ho by done.
    cbn [outcome_bind] in Ho. injection Ho as <-. eexists _, _, (pkt :: rest). split; [done|]. split; [|by split_and!].
    right. exists pkt, rest. split; [done|]. right. exists 0%nat, (rx_cur e). split; [lia|]. split; [done|].
    split; [|done|lia]. split; try done. eapply segment_same; [exact Hseg| |done]. intros i x [?|?]; [done|by right].
  - destruct (lookup_lt_is_Some_2 (receive_writes idx) k) as [w Hw]; [simpl; lia|].
    destruct (rx_take_step _ _ _ _ _ _ Ht Hw) as (e' & Ew & Htx & Hdm & Hnext & Hlast).
    rewrite (next_write _ _ _ _ _ _ Hw Ew) in Ho. injection Ho as <-. destruct (decide (k = 2)%nat) as [->|Hne].
    + exists (Finish (Some pkt)), e', rest. split; [done|]. split; [|done]. left. split; [right; right; by eexists|auto].
    + exists (all_writes (drop (S k) (receive_writes idx)) (Some pkt)), e', (pkt :: rest). split; [done|]. split.
      * right. exists pkt, rest. split; [done|]. right. exists (S k), idx. split_and!; [lia|done|apply Hnext; lia].
      * split; [done|]. split; [done|]. by destruct k as [|[|k]]; [..|lia].
Qed.

Lemma receiving_finished e pend r : receiving e pend (Finish r) -> rx_inv e pend.
Proof.
  intros [[_ Hi]|(pkt & rest & -> & [[_ Hi]|(k & idx & Hk & E & _)])]; [done..|]. exfalso. by destruct k as [|[|[|k]]]; [..|lia].
Qed.

Lemma receiving_runs e pend c : receiving e pend c -> exists r e', run_accesses c e = Return (r, e').
Proof.
  intros Hr. destruct (run_accesses_inv (fun c e => exists pend, receiving e pend c) c e) as (r & e' & E & _); [|eauto..].
  intros c1 e1 o [pend1 H1] Ho. destruct (receiving_access _ _ _ _ H1 Ho) as (c' & e' & pend' & -> & H2 & _). eauto 10.
Qed.

Lemma receive_raw_spec e pend : rx_inv e pend -> exists e', receive_raw e = Return (head pend, e').
Proof.
  intros Hi. pose proof Hi as [Hc Hlen Hh Ht Hd Hb Hseg].
  assert (Hr : receiving e pend (receive_accesses (rx_cur e))) by (left; split; [by left|done]).
  destruct (receiving_runs _ _ _ Hr) as (r & e' & E). exists e'. unfold receive_raw. rewrite E. do 2 f_equal. revert E.
  unfold receive_accesses. cbn [run_accesses reading]. destruct pend as [|pkt rest].
  - destruct (segment_next _ _ _ Hc _ Hseg Hlen) as (desc & Ed & Hst). simpl in Ed. rewrite slot_0 in Ed by done. rewrite Ed.
    cbn [or_panic outcome_bind]. rewrite land_DD, Hst. cbn [negb receive_none run_accesses outcome_bind]. unfold read_reg.
    destruct (mmio_read _ _) as [v m]. by intros [= <- _].
  - destruct (segment_head _ _ _ Hc _ _ Hseg) as [?|(desc & buf & Ed & Eb & Hst & Hl & Hle & Htk)]; [done|]. rewrite Ed.
    cbn [or_panic outcome_bind]. rewrite land_DD, Hst. cbn [negb receive_packet run_accesses reading]. rewrite Ed.
    cbn [or_panic outcome_bind receive_copy run_accesses reading]. unfold read_rx_buffer. rewrite Hl, Nat2Z.id, Eb. cbn [or_panic outcome_bind].
    rewrite decide_True, Htk by done. cbn [outcome_bind]. by intros ->%run_all_writes.
Qed.

(** ** The controller's steps *)

(** The rings, whatever the driver is doing. *)
Definition rx_state e (pend : list (list byte)) (d : Driver M) : Prop :=
  match d with Receiving c => receiving e pend c | _ => rx_inv e pend end.
Definition tx_state e (out : list (list byte)) (d : Driver M) : Prop :=
  match d with Sending data c => sending e out data c | _ => tx_inv e out end.

Lemma rx_state_ring e pend d : rx_state e pend d -> exists b cur, rx_ring b e cur pend.
Proof.
  destruct d as [| |c]; [eexists _, _; done..|].
  intros [[_ Hi]|(pkt & rest & -> & [[_ Hi]|(k & idx & _ & _ & Ht)])]; [by eexists _, _..|]. eexists _, _. apply (rt_ring _ _ _ _ Ht).
Qed.

Lemma tx_state_ring e out d : tx_state e out d -> exists b cur, tx_ring b e cur out.
Proof.
  destruct d as [|data c|]; [eexists _, _; done| |eexists _, _; done].
  intros [[_ Hi]|[(k & idx & _ & _ & Ht)|(r & _ & Hi)]]; [by eexists _, _| |by eexists _, _]. eexists _, _. apply (tf_ring _ _ _ _ _ Ht).
Qed.

Lemma rx_state_frame e e' pend d : same_rx e e' -> rx_state e pend d -> rx_state e' pend d.
Proof. intros Hs. destruct d; [by apply rx_inv_frame..|by apply receiving_frame]. Qed.

Lemma tx_state_frame e e' out d : same_tx e e' -> tx_state e out d -> tx_state e' out d.
Proof. intros Hs. destruct d; [by apply tx_inv_frame|by apply sending_frame|by apply tx_inv_frame]. Qed.

(** The controller fills the slot after the pending packets. *)
Lemma hw_receive_ring b e m' cur pkt pend desc buf checksum status errors :
  rx_ring b e cur pend -> rdh (regs e) <> rdt (regs e) -> (length pkt <= PACKET_BUFFER_SIZE)%nat ->
  Z.testbit status 0 = true -> b <> Some (rdh (regs e)) ->
  rx_descs e !! rdh (regs e) = Some desc -> rx_buffers e !! rdh (regs e) = Some buf ->
  rdh m' = slot (rdh (regs e)) 1 -> rdt m' = rdt (regs e) ->
  rx_ring b (with_regs (rx_filled e (rdh (regs e)) desc (rdh (regs e)) buf pkt checksum status errors) m') cur (pend ++ [pkt]).
Proof.
  intros [Hcur Hlen Hh Ht Hd Hb Hseg] Hne Hpl Hst Hbusy Ed Eb Hh' Ht'.
  assert (Hroom : (length pend < RING - 1)%nat).
  { destruct (decide (length pend = RING - 1)%nat) as [E|]; [|lia]. rewrite E in Hh. congruence. }
  pose proof (proj1 Hb) as Hbl.
  assert (Hi : (rdh (regs e) < RING)%nat) by (rewrite Hh; apply slot_lt).
  split; cbn [regs with_regs rx_filled with_rx rx_cur rx_descs rx_buffers]; rewrite ?Hh', ?Ht', ?length_insert, ?length_app;
    cbn [length]; try done; [lia| |by apply buffers_ok_insert|].
  - by rewrite Hh, slot_slot.
  - apply (segment_push (fun i pkt => Some i = b \/ rx_full e i pkt) _ (rx_free e) _ _ Hcur); [done|lia|..]; rewrite <- Hh.
    + right. eexists _, _. split; [apply list_lookup_insert_eq; lia|]. split; [apply list_lookup_insert_eq; lia|].
      cbn [rd_status rd_length]. split_and!; [done|done| |].
      * unfold copy_prefix. rewrite length_app. lia.
      * unfold copy_prefix. by rewrite take_app_length.
    + intros i y _ Hi' [?|(d & bf & ? & ? & ?)]; [by left|right]. exists d, bf. simpl. rewrite !list_lookup_insert_ne by done. done.
    + intros i _ Hi' (d & ? & ?). exists d. simpl. by rewrite list_lookup_insert_ne by done.
Qed.

Lemma hw_receive_state e m' pkt pend d desc buf checksum status errors :
  rx_state e pend d -> rdh (regs e) <> rdt (regs e) -> (length pkt <= PACKET_BUFFER_SIZE)%nat ->
  Z.testbit status 0 = true ->
  rx_descs e !! rdh (regs e) = Some desc -> rx_buffers e !! rdh (regs e) = Some buf ->
  rdh m' = slot (rdh (regs e)) 1 -> rdt m' = rdt (regs e) ->
  rx_state (with_regs (rx_filled e (rdh (regs e)) desc (rdh (regs e)) buf pkt checksum status errors) m') (pend ++ [pkt]) d.
Proof.
  intros Hr Hne Hpl Hst Ed Eb Hh Ht. set (e' := with_regs _ m').
  assert (Hinv : rx_inv e pend -> rx_inv e' (pend ++ [pkt])) by (intros; by apply hw_receive_ring).
  destruct d as [|data c|c]; [by apply Hinv..|].
  destruct Hr as [[Hc Hi]|(p & rest & -> & [[Hc Hi]|(k & idx & Hk & -> & [H1 H2 H3])])].
  - left. split; [exact Hc|auto].
  - right. exists p, (rest ++ [pkt]). split; [done|]. left. split; [exact Hc|auto].
  - right. exists p, (rest ++ [pkt]). split; [done|]. right. exists k, idx. split; [done|]. split; [done|].
    assert (Hidx : rdh (regs e) <> idx).
    { pose proof H1 as [Hc Hlen Hh' _ _ _ _]. rewrite Hh'. rewrite <- (slot_0 idx) at 2 by done. simpl length in *.
      intros E%slot_inj; [lia|done|done|unfold RING; lia]. }
    split; [apply hw_receive_ring; try done; congruence|exact H2|].
    intros Hk1. destruct (H3 Hk1) as (d & Hd & Hb). exists d. split; [|done]. simpl. by rewrite list_lookup_insert_ne.
Qed.

(** The controller sends the oldest packet. *)
Lemma hw_transmit_ring b e m' cur out desc buf status :
  tx_ring b e cur out -> tdh (regs e) <> tdt (regs e) -> Z.testbit status 0 = true ->
  tx_descs e !! tdh (regs e) = Some desc -> tx_buffers e !! tdh (regs e) = Some buf ->
  tdh m' = slot (tdh (regs e)) 1 -> tdt m' = tdt (regs e) ->
  exists pkt out', out = pkt :: out' /\ (length out < RING)%nat /\ take (Z.to_nat (td_length desc)) buf = pkt /\
    tx_ring b (with_regs (tx_sent e (tdh (regs e)) desc status) m') cur out'.
Proof.
  intros [Hh Hlen Hcur Ht Hd Hb Hseg] Hne Hst Ed Eb Hh' Ht'.
  rewrite Ht, Hcur in Hne. destruct out as [|pkt out']; [by rewrite slot_0 in Hne|].
  assert (Hlt : (length (pkt :: out') < RING)%nat).
  { destruct (decide (length (pkt :: out') = RING)) as [E|]; [|lia]. by rewrite E, slot_full in Hne. }
  destruct (segment_head _ _ _ Hh _ _ Hseg) as (d & b' & Ed' & Eb' & _ & Hl & Htk). simplify_eq.
  exists pkt, out'. split_and!; [done|done|by rewrite Hl, Nat2Z.id|]. simpl in Hlt.
  split; cbn [regs with_regs tx_sent with_tx tx_cur tx_descs tx_buffers]; rewrite ?Hh', ?Ht', ?length_insert; try done.
  - apply slot_lt.
  - lia.
  - by rewrite slot_slot.
  - apply (segment_pop (tx_full e) _ (fun i => Some i = b \/ tx_free e i) _ _ Hh _ pkt); [done|lia|..].
    + right. eexists. split; [apply list_lookup_insert_eq; lia|done].
    + intros i y _ Hi' (d' & bf & ? & ? & ?). exists d', bf. simpl. rewrite !list_lookup_insert_ne by done. done.
    + intros i _ Hi' [?|(d' & ? & ?)]; [by left|right]. exists d'. simpl. by rewrite list_lookup_insert_ne by done.
Qed.

Lemma hw_transmit_state e m' out d desc buf status :
  tx_state e out d -> tdh (regs e) <> tdt (regs e) -> Z.testbit status 0 = true ->
  tx_descs e !! tdh (regs e) = Some desc -> tx_buffers e !! tdh (regs e) = Some buf ->
  tdh m' = slot (tdh (regs e)) 1 -> tdt m' = tdt (regs e) ->
  exists pkt out', out = pkt :: out' /\ (length out < RING)%nat /\ take (Z.to_nat (td_length desc)) buf = pkt /\
    tx_state (with_regs (tx_sent e (tdh (regs e)) desc status) m') out' d.
Proof.
  intros Hr Hne Hst Ed Eb Hh Ht. set (e' := with_regs _ m').
  assert (Hinv : forall b cur, tx_ring b e cur out -> exists pkt out', out = pkt :: out' /\ (length out < RING)%nat /\
    take (Z.to_nat (td_length desc)) buf = pkt /\ tx_ring b e' cur out') by (intros; by apply hw_transmit_ring).
  destruct d as [|data c|c]; [by apply Hinv| |by apply Hinv].
  destruct Hr as [[-> Hi]|[(k & idx & Hk & -> & [H1 H2 H3 H4 (d & bf & E1 & E2 & E3)])|(r & -> & Hi)]].
  - destruct (Hinv _ _ Hi) as (pkt & out' & ? & ? & ? & ?). exists pkt, out'. split_and!; [done..|]. by left.
  - destruct (Hinv _ _ H1) as (pkt & out' & -> & ? & ? & ?). exists pkt, out'. split_and!; [done..|].
    right. left. exists k, idx. split; [done|]. split; [done|]. simpl length in *. split; [done|lia|done|exact H4|]. exists d, bf.
    split; [|done]. simpl. rewrite list_lookup_insert_ne; [done|]. by rewrite <- (ti_tail _ _ _ _ H1).
  - destruct (Hinv _ _ Hi) as (pkt & out' & ? & ? & ? & ?). exists pkt, out'. split_and!; [done..|]. right. right. by exists r.
Qed.

(** ** The invariant of the shared rings *)

Record ring_inv s (pend out : list (list byte)) : Prop := {
  rv_dma : dma_ok (rs_dev s);
  rv_rx : rx_state (rs_dev s) pend (rs_driver s);
  rv_tx : tx_state (rs_dev s) out (rs_driver s);
  rv_received : rs_delivered s ++ taken (rs_driver s) ++ pend = rs_received s;
  rv_wire : rs_wire s ++ out = rs_accepted s ++ given (rs_driver s);
}.

Lemma ring_fresh_inv e : dma_ok e -> ring_fresh e -> ring_inv (ring_start e) [] [].
Proof.
  intros Hdma (Hp & Ht & Hr & Htd & Hrd & Hts & Hrs & Htb & Hrb & Htbl & Hrbl).
  injection Hp as H1 H2 H3 H4. split; [done| | |done..].
  - split; simpl; rewrite ?H1, ?H2, ?Hr; try done; [by unfold RING; lia|by unfold RING; lia|].
    split; [done|]. intros k Hk. destruct (lookup_lt_is_Some_2 (rx_descs e) (slot 0 k)) as [d E].
    { rewrite Hrd. apply slot_lt. }
    exists d. split; [done|]. by apply (Forall_lookup_1 _ _ _ _ Hrs E).
  - split; simpl; rewrite ?H3, ?H4, ?Ht; try done; [by unfold RING; lia|by unfold RING; lia|].
    split; [done|]. intros k Hk. right. destruct (lookup_lt_is_Some_2 (tx_descs e) (slot 0 k)) as [d E].
    { rewrite Htd. apply slot_lt. }
    exists d. split; [done|]. by apply (Forall_lookup_1 _ _ _ _ Hts E).
Qed.

Lemma hw_step_inv s s' pend out :
  ring_inv s pend out -> hw_step s s' ->
  exists pend' out', ring_inv s' pend' out' /\ (length out = RING -> out' = out /\ rs_wire s' = rs_wire s).
Proof.
  intros [Hd Hr Ht Hrec Hw] Hstep. destruct (rx_state_ring _ _ _ Hr) as (br & cr & Rr). destruct (tx_state_ring _ _ _ Ht) as (bt & ct & Rt).
  assert (Hrh : (rdh (regs (rs_dev s)) < RING)%nat) by (rewrite (ri_head _ _ _ _ Rr); apply slot_lt).
  pose proof (ti_head _ _ _ _ Rt) as Hth.
  destruct Hstep as [i desc j buf pkt ck st er m' Hne Hf Hl Hst Hp Hb|i desc j buf st m' Hne Hf Hst Hp Hb|s' Hs|m' Hp Hb];
    [| |exfalso; by eapply never_stray|]; injection Hp as P1 P2 P3 P4.
  - destruct (rx_fetch_head _ _ _ _ _ Hd Hrh Hf) as [-> ->]. destruct Hf as (_ & Ed & _ & Eb).
    exists (pend ++ [pkt]), out. split; [|done]. split; cbn [rs_dev rs_driver rs_received rs_delivered rs_wire rs_accepted].
    + apply (dma_ok_frame (rs_dev s)); [|done]. split_and!; [done|exact Hb|done|by eapply insert_same_addr].
    + by apply hw_receive_state.
    + by apply (tx_state_frame (rs_dev s)).
    + by rewrite <- Hrec, !app_assoc.
    + done.
  - destruct (tx_fetch_head _ _ _ _ _ Hd Hth Hf) as [-> ->]. destruct Hf as (_ & Ed & _ & Eb).
    destruct (hw_transmit_state (rs_dev s) m' out (rs_driver s) desc buf st) as (pkt & out' & -> & Hlt & Hpk & Hi); [done..|].
    exists pend, out'. split; [|lia]. split; cbn [rs_dev rs_driver rs_received rs_delivered rs_wire rs_accepted]; try done.
    + apply (dma_ok_frame (rs_dev s)); [|done]. split_and!; [done|exact Hb|by eapply insert_same_addr|done].
    + by apply (rx_state_frame (rs_dev s)).
    + by rewrite <- Hw, Hpk, <- app_assoc.
  - exists pend, out. split; [|done]. split; cbn [rs_dev rs_driver rs_received rs_delivered rs_wire rs_accepted]; try done.
    + apply (dma_ok_frame (rs_dev s)); [|done]. split_and!; [done|exact Hb|done..].
    + by apply (rx_state_frame (rs_dev s)).
    + by apply (tx_state_frame (rs_dev s)).
Qed.

Lemma driver_step_inv s s' pend out :
  ring_inv s pend out -> driver_step s s' ->
  exists pend' out', ring_inv s' pend' out' /\ (length out = RING -> out' = out) /\ rs_wire s' = rs_wire s.
Proof.
  intros [Hd Hr Ht Hrec Hw] Hstep.
  destruct Hstep as [data E|data c c' e' E Ho|data r E|E|c c' e' E Ho|r E]; rewrite E in Hr, Ht, Hrec, Hw; simpl in Hr, Ht.
  - exists pend, out. split; [|done]. split; cbn [rs_dev rs_driver rs_received rs_delivered rs_wire rs_accepted]; try done; [by left|].
    unfold transmit_accesses. by case_decide.
  - destruct (sending_access _ _ _ _ _ Ht Ho) as (c1 & e1 & out' & [= <- <-] & Hs & Hrx & Hdm & Hout & Hfull).
    exists pend, out'. split; [|done]. split; cbn [rs_dev rs_driver rs_received rs_delivered rs_wire rs_accepted]; try done.
    + by apply (dma_ok_frame (rs_dev s)).
    + by apply (rx_inv_frame (rs_dev s)).
    + destruct c; [done|]. rewrite app_nil_r in Hw. by rewrite Hout, app_assoc, Hw.
  - exists pend, out. split; [|done]. split; cbn [rs_dev rs_driver rs_received rs_delivered rs_wire rs_accepted]; try done.
    + by eapply sending_finished.
    + rewrite Hw, app_nil_r. destruct r; [done|apply app_nil_r].
  - exists pend, out. split; [|done]. split; cbn [rs_dev rs_driver rs_received rs_delivered rs_wire rs_accepted]; try done.
    left. split; [by left|done].
  - destruct (receiving_access _ _ _ _ Hr Ho) as (c1 & e1 & pend' & [= <- <-] & Hs & Htx & Hdm & Hpend).
    exists pend', out. split; [|done]. split; cbn [rs_dev rs_driver rs_received rs_delivered rs_wire rs_accepted]; try done.
    + by apply (dma_ok_frame (rs_dev s)).
    + by apply (tx_inv_frame (rs_dev s)).
    + destruct c; [done|]. by rewrite Hpend, <- Hrec.
  - exists pend, out. split; [|done]. split; cbn [rs_dev rs_driver rs_received rs_delivered rs_wire rs_accepted]; try done.
    + by eapply receiving_finished.
    + rewrite <- Hrec, app_nil_l, app_assoc. by destruct r.
Qed.

Lemma ring_step_inv s s' pend out :
  ring_inv s pend out -> ring_step s s' ->
  exists pend' out', ring_inv s' pend' out' /\ (length out = RING -> out' = out /\ rs_wire s' = rs_wire s).
Proof.
  intros Hi [Hs|Hs]; [by eapply hw_step_inv|].
  destruct (driver_step_inv _ _ _ _ Hi Hs) as (pend' & out' & H1 & H2 & H3). exists pend', out'. auto.
Qed.

Lemma ring_reachable_inv s s' pend out :
  ring_inv s pend out -> rtc ring_step s s' ->
  exists pend' out', ring_inv s' pend' out' /\ (length out = RING -> out' = out /\ rs_wire s' = rs_wire s).
Proof.
  intros Hi Hr. revert pend out Hi. induction Hr as [s|s s1 s2 Hs Hr IH]; intros pend out Hi; [eauto|].
  destruct (ring_step_inv _ _ _ _ Hi Hs) as (p1 & o1 & H1 & F1). destruct (IH _ _ H1) as (p2 & o2 & H2 & F2).
  exists p2, o2. split; [done|]. intros Hf. destruct (F1 Hf) as [-> W1]. destruct (F2 Hf) as [-> W2]. by rewrite W2.
Qed.

(** ** Calls without interruption *)

Lemma send_run c data s r e' :
  rs_driver s = Sending data c -> run_accesses c (rs_dev s) = Return (r, e') ->
  rtc ring_step s (RingState_mk e' DriverIdle (rs_received s) (rs_delivered s)
    (if r then rs_accepted s ++ [data] else rs_accepted s) (rs_wire s)).
Proof.
  revert s. induction c as [a|B f k IH]; intros s Hc Hr.
  - injection Hr as <- <-. apply rtc_once. right. by apply SendReturn.
  - simpl in Hr. destruct (f (rs_dev s)) as [[b e1]|] eqn:Ef; [|done]. cbn [outcome_bind] in Hr.
    eapply rtc_l; [right; eapply SendAccess; [exact Hc|simpl; by rewrite Ef]|].
    apply (IH b (RingState_mk e1 (Sending data (k b)) (rs_received s) (rs_delivered s) (rs_accepted s) (rs_wire s)) eq_refl Hr).
Qed.

(** [transmit_raw] from call to return. *)
Lemma transmit_raw_steps s data r e' :
  rs_driver s = DriverIdle -> transmit_raw (rs_dev s) data = Return (r, e') ->
  rtc ring_step s (RingState_mk e' DriverIdle (rs_received s) (rs_delivered s)
    (if r then rs_accepted s ++ [data] else rs_accepted s) (rs_wire s)).
Proof.
  intros Hd Ht. eapply rtc_l; [right; by apply SendCall|]. apply (send_run (transmit_accesses (tx_cur (rs_dev s)) data) data
    (RingState_mk (rs_dev s) _ (rs_received s) (rs_delivered s) (rs_accepted s) (rs_wire s)) r e' eq_refl Ht).
Qed.

(** Sending a list of packets without any progress of the controller. *)
Lemma send_all pkts s pend out :
  ring_inv s pend out -> rs_driver s = DriverIdle -> Forall (fun p => (length p <= PACKET_BUFFER_SIZE)%nat) pkts ->
  (length out + length pkts <= RING)%nat ->
  exists s', rtc ring_step s s' /\ ring_inv s' pend (out ++ pkts) /\ rs_driver s' = DriverIdle /\ rs_wire s' = rs_wire s /\
    rs_accepted s' = rs_accepted s ++ pkts /\ rs_received s' = rs_received s /\ rs_delivered s' = rs_delivered s.
Proof.
  intros Hi Hd Hp. revert s out Hi Hd. induction Hp as [|p pkts Hp Hps IH]; intros s out Hi Hd Hlen; simpl in Hlen.
  { exists s. rewrite !app_nil_r. done. }
  pose proof Hi as [Hdm Hr Ht Hrec Hw]. rewrite Hd in Hr, Ht, Hrec, Hw. simpl in Hr, Ht.
  destruct (transmit_raw_spec (rs_dev s) out p Ht) as (e1 & E1). rewrite bool_decide_true in E1 by lia.
  pose proof (transmit_raw_steps s p true e1 Hd E1) as Hst. simpl in Hst. set (s1 := RingState_mk _ _ _ _ _ _) in Hst.
  destruct (ring_reachable_inv _ _ _ _ Hi Hst) as (pend1 & out1 & Hi1 & _). pose proof Hi1 as [_ _ _ Hrec1 Hw1]. subst s1. simpl in Hrec1, Hw1.
  rewrite app_nil_r in Hw, Hw1. rewrite <- Hrec in Hrec1. apply app_inv_head in Hrec1 as ->.
  rewrite <- Hw, <- app_assoc in Hw1. apply app_inv_head in Hw1 as ->.
  destruct (IH _ (out ++ [p]) Hi1 eq_refl) as (s' & Hrt & Hi' & Hd' & Hw' & Ha' & Hrs & Hds); [rewrite length_app; simpl; lia|].
  exists s'. simpl in Ha', Hw'. rewrite <- app_assoc in Hi'. split_and!; [by etrans|done|done|done|by rewrite Ha', <- app_assoc|done|done].
Qed.

(** ** The controller makes progress *)

(** A packet that waits can be sent, unless the ring is full to its last descriptor. *)
Lemma hw_can_send s pend out pkt :
  ring_inv s pend (pkt :: out) -> (length (pkt :: out) < RING)%nat ->
  exists s', hw_step s s' /\ rs_wire s' = rs_wire s ++ [pkt] /\ rs_driver s' = rs_driver s /\
    rs_received s' = rs_received s /\ rs_delivered s' = rs_delivered s /\ rs_accepted s' = rs_accepted s.
Proof.
  intros [Hd _ Ht _ _] Hl. destruct (tx_state_ring _ _ _ Ht) as (b & cur & [Hh Hlen Hcur Htl Hds Hb Hseg]).
  destruct (segment_head _ _ _ Hh _ _ Hseg) as (desc & buf & Ed & Eb & _ & Hln & Htk).
  pose proof (slot_lt (tdh (regs (rs_dev s))) 1) as Hs.
  pose proof (mmio_write_tdh (regs (rs_dev s)) (Z.of_nat (slot (tdh (regs (rs_dev s))) 1)) (fits16_slot _ Hs)) as Hp.
  pose proof (mmio_write_bases (regs (rs_dev s)) REG_TDH (Z.of_nat (slot (tdh (regs (rs_dev s))) 1))) as Hbs.
  eexists. split; [eapply (HwTransmit s (tdh (regs (rs_dev s))) desc (tdh (regs (rs_dev s))) buf 1
    (mmio_write (regs (rs_dev s)) REG_TDH (Z.of_nat (slot (tdh (regs (rs_dev s))) 1)))); try done|].
  - rewrite Htl, Hcur. rewrite <- (slot_0 (tdh (regs (rs_dev s)))) at 1 by done. intros E%slot_inj; simpl in *; unfold RING in *; lia.
  - split_and!; [by apply (dm_tx_ring _ Hd)|done|by apply (dm_tx_bufs _ Hd)|done].
  - unfold ptrs. cbv zeta in Hp. rewrite Hp, Nat2Z.id. done.
  - apply Hbs; [|done]. rewrite list_elem_of_In. compute. intuition congruence.
  - simpl. by rewrite Hln, Nat2Z.id, Htk.
Qed.

(** A packet can be received, unless sixty-three wait. *)
Lemma hw_can_receive s pend out pkt :
  ring_inv s pend out -> (length pend < RING - 1)%nat -> (length pkt <= PACKET_BUFFER_SIZE)%nat ->
  exists s', hw_step s s' /\ rs_received s' = rs_received s ++ [pkt] /\ rs_driver s' = rs_driver s /\
    rs_wire s' = rs_wire s /\ rs_delivered s' = rs_delivered s /\ rs_accepted s' = rs_accepted s.
Proof.
  intros [Hd Hr _ _ _] Hl Hpl. destruct (rx_state_ring _ _ _ Hr) as (b & cur & [Hc Hlen Hh Htl Hds Hb Hseg]).
  assert (Hi : (rdh (regs (rs_dev s)) < RING)%nat) by (rewrite Hh; apply slot_lt).
  destruct (lookup_lt_is_Some_2 (rx_descs (rs_dev s)) (rdh (regs (rs_dev s)))) as [desc Ed]; [by rewrite Hds|].
  destruct (buffers_lookup _ _ Hb Hi) as (buf & Eb & _). pose proof (slot_lt (rdh (regs (rs_dev s))) 1) as Hs.
  pose proof (mmio_write_rdh (regs (rs_dev s)) (Z.of_nat (slot (rdh (regs (rs_dev s))) 1)) (fits16_slot _ Hs)) as Hp.
  pose proof (mmio_write_bases (regs (rs_dev s)) REG_RDH (Z.of_nat (slot (rdh (regs (rs_dev s))) 1))) as Hbs.
  eexists. split; [eapply (HwReceive s (rdh (regs (rs_dev s))) desc (rdh (regs (rs_dev s))) buf pkt 0 1 0
    (mmio_write (regs (rs_dev s)) REG_RDH (Z.of_nat (slot (rdh (regs (rs_dev s))) 1)))); try done|done].
  - rewrite Htl, Hh. intros E%slot_inj; unfold RING in *; lia.
  - split_and!; [by apply (dm_rx_ring _ Hd)|done|by apply (dm_rx_bufs _ Hd)|done].
  - unfold ptrs. cbv zeta in Hp. rewrite Hp, Nat2Z.id. done.
  - apply Hbs; [|done]. rewrite list_elem_of_In. compute. intuition congruence.
Qed.
End steps.
