(* ===== verification/E1000Spec.v ===== *)
(** * Correctness of the e1000 driver

    Initialisation leaves both rings ready; from there the rings are queues that
    neither lose, duplicate nor reorder packets, except that a transmit ring filled
    to the last descriptor looks empty to the controller and stalls for good.  The
    station address is written back as it was read.  The bus addresses the driver
    computes for its heap buffers are not those of the frames the heap is mapped
    to. *)

From S2P Require Import Prelude Bits Pci Memory Text E1000 E1000Ring.
Open Scope Z_scope.

(** The controller's accesses, through the addresses [virt_to_phys] computes, reach the
    boxes [bx]: [bus] maps a bus address to the virtual address of what is there. *)
Record dma_reaches (bus : Z -> option Z) (bx : Boxes) (offset : Z) : Prop := {
  dr_tx_ring : forall i, (i < TX_DESC_COUNT)%nat ->
    bus (as_u64 (tx_descs_ptr bx - offset) / 16 * 16 + 16 * Z.of_nat i) = Some (tx_descs_ptr bx + 16 * Z.of_nat i);
  dr_rx_ring : forall i, (i < RX_DESC_COUNT)%nat ->
    bus (as_u64 (rx_descs_ptr bx - offset) / 16 * 16 + 16 * Z.of_nat i) = Some (rx_descs_ptr bx + 16 * Z.of_nat i);
  dr_tx_bufs : forall i, (i < TX_DESC_COUNT)%nat ->
    bus (as_u64 (tx_buffers_ptr bx + Z.of_nat (i * PACKET_BUFFER_SIZE) - offset)) =
      Some (tx_buffers_ptr bx + Z.of_nat (i * PACKET_BUFFER_SIZE));
  dr_rx_bufs : forall i, (i < RX_DESC_COUNT)%nat ->
    bus (as_u64 (rx_buffers_ptr bx + Z.of_nat (i * PACKET_BUFFER_SIZE) - offset)) =
      Some (rx_buffers_ptr bx + Z.of_nat (i * PACKET_BUFFER_SIZE));
}.

Section init.
Context {M : Type} `{NI : Nic M}.
Implicit Types (e : E1000 M) (m : M).

Lemma ptrs_read m r : ptrs (mmio_read m r).2 = ptrs m.
Proof. apply mmio_read_ptrs. Qed.

Lemma ptrs_other m r v :
  r ∉ [REG_RDH; REG_RDT; REG_TDH; REG_TDT] -> r <> REG_CTRL -> ptrs (mmio_write m r v) = ptrs m.
Proof. intros Hr Hc. by apply mmio_write_other. Qed.

Lemma ptrs_tdh m v : fits 16 v ->
  ptrs (mmio_write m REG_TDH v) = ((ptrs m).1.1.1, (ptrs m).1.1.2, Z.to_nat v, (ptrs m).2).
Proof. apply mmio_write_tdh. Qed.
Lemma ptrs_tdt m v : fits 16 v ->
  ptrs (mmio_write m REG_TDT v) = ((ptrs m).1.1.1, (ptrs m).1.1.2, (ptrs m).1.2, Z.to_nat v).
Proof. apply mmio_write_tdt. Qed.
Lemma ptrs_rdh m v : fits 16 v ->
  ptrs (mmio_write m REG_RDH v) = (Z.to_nat v, (ptrs m).1.1.2, (ptrs m).1.2, (ptrs m).2).
Proof. apply mmio_write_rdh. Qed.
Lemma ptrs_rdt m v : fits 16 v ->
  ptrs (mmio_write m REG_RDT v) = ((ptrs m).1.1.1, Z.to_nat v, (ptrs m).1.2, (ptrs m).2).
Proof. apply mmio_write_rdt. Qed.

(** Follows the pointers through a sequence of register writes. *)
Ltac follow_ptrs :=
  repeat first
    [ rewrite ptrs_tdh by done | rewrite ptrs_tdt by done | rewrite ptrs_rdh by done | rewrite ptrs_rdt by done
    | rewrite ptrs_other by (first [ by compute | by rewrite !list_elem_of_In; compute; intuition congruence ]) ];
  cbn [fst snd].

Lemma init_tx_ptrs e :
  ptrs (regs (init_tx e)) = ((ptrs (regs e)).1.1.1, (ptrs (regs e)).1.1.2, 0%nat, 0%nat).
Proof. unfold init_tx, write_reg. cbn [regs with_regs with_tx]. follow_ptrs. done. Qed.

Lemma init_rx_ptrs e :
  ptrs (regs (init_rx e)) = (0%nat, (RX_DESC_COUNT - 1)%nat, (ptrs (regs e)).1.2, (ptrs (regs e)).2).
Proof.
  unfold init_rx, write_reg, read_reg. cbn [regs with_regs with_rx].
  match goal with |- context [mmio_read ?m REG_CTRL] => pose proof (mmio_read_ctrl m) as Hc;
    pose proof (ptrs_read m REG_CTRL) as Hp; destruct (mmio_read m REG_CTRL) as [ctrl m1] end.
  cbn [regs with_regs fst snd] in *.
  assert (Hw : ptrs (mmio_write m1 REG_CTRL (Z.lor ctrl CTRL_SLU)) = ptrs m1).
  { apply mmio_write_other; [rewrite list_elem_of_In; compute; intuition congruence|]. intros _.
    by rewrite Z.lor_spec, Hc. }
  rewrite Hw, Hp. follow_ptrs. done.
Qed.

(** The addresses of the rings. *)

Lemma bases_read m r : bases (mmio_read m r).2 = bases m.
Proof. apply mmio_read_bases. Qed.

Lemma bases_other m r v :
  r ∉ [REG_TDBAL; REG_TDBAH; REG_RDBAL; REG_RDBAH] -> r <> REG_CTRL -> bases (mmio_write m r v) = bases m.
Proof. intros Hr Hc. by apply mmio_write_bases. Qed.

Lemma aligned_range l : fits 32 l -> 0 <= l / 16 * 16 < 2 ^ 32.
Proof. unfold fits. pose proof (Z.div_mod l 16). pose proof (Z.mod_pos_bound l 16). lia. Qed.

(** An address written in two halves. *)
Lemma base_halves x p : fits 64 p ->
  as_u32 (Z.shiftr p 32) * 2 ^ 32 + (x / 2 ^ 32 * 2 ^ 32 + as_u32 p / 16 * 16) mod 2 ^ 32 = p / 16 * 16.
Proof.
  unfold fits, wrap. intros Hp. rewrite Z.shiftr_div_pow2 by lia.
  assert (Hh : 0 <= p / 2 ^ 32 < 2 ^ 32) by (split; [apply Z.div_pos; lia|apply Z.div_lt_upper_bound; lia]).
  rewrite (Z.mod_small (p / 2 ^ 32)) by done. pose proof (Z.mod_pos_bound p (2 ^ 32) ltac:(lia)) as Hl.
  pose proof (Z.div_mod p (2 ^ 32) ltac:(lia)) as Hp'. set (h := p / 2 ^ 32) in *. set (l := p mod 2 ^ 32) in *. clearbody h l.
  pose proof (aligned_range l Hl). rewrite (Z.add_comm (x / 2 ^ 32 * 2 ^ 32)), Z.mod_add by lia. rewrite Z.mod_small by lia.
  subst p. replace (2 ^ 32 * h + l) with (l + 2 ^ 28 * h * 16) by lia. rewrite Z.div_add by lia. lia.
Qed.

Lemma tdba_written m p : fits 64 p ->
  bases (mmio_write (mmio_write m REG_TDBAL (as_u32 p)) REG_TDBAH (as_u32 (Z.shiftr p 32))) = (p / 16 * 16, (bases m).2).
Proof.
  intros Hp. unfold bases. rewrite mmio_write_tdbah by (apply wrap_range; lia).
  pose proof (mmio_write_tdbal m (as_u32 p) ltac:(apply wrap_range; lia)) as Hl. cbv zeta in Hl. injection Hl as -> ->.
  by rewrite base_halves.
Qed.

Lemma rdba_written m p : fits 64 p ->
  bases (mmio_write (mmio_write m REG_RDBAL (as_u32 p)) REG_RDBAH (as_u32 (Z.shiftr p 32))) = ((bases m).1, p / 16 * 16).
Proof.
  intros Hp. unfold bases. rewrite mmio_write_rdbah by (apply wrap_range; lia).
  pose proof (mmio_write_rdbal m (as_u32 p) ltac:(apply wrap_range; lia)) as Hl. cbv zeta in Hl. injection Hl as -> ->.
  by rewrite base_halves.
Qed.

(** Follows the addresses through a sequence of register writes. *)
Ltac follow_bases :=
  repeat first
    [ rewrite tdba_written by (apply wrap_range; lia) | rewrite rdba_written by (apply wrap_range; lia)
    | rewrite bases_other by (first [ by compute | by rewrite !list_elem_of_In; compute; intuition congruence ]) ];
  cbn [fst snd].

Lemma init_tx_bases e :
  bases (regs (init_tx e)) = (virt_to_phys e (tx_descs_ptr (boxes e)) / 16 * 16, (bases (regs e)).2).
Proof. unfold init_tx, write_reg, virt_to_phys. cbn [regs with_regs with_tx boxes phys_mem_offset]. by follow_bases. Qed.

Lemma init_rx_bases e :
  bases (regs (init_rx e)) = ((bases (regs e)).1, virt_to_phys e (rx_descs_ptr (boxes e)) / 16 * 16).
Proof.
  unfold init_rx, write_reg, read_reg, virt_to_phys. cbn [regs with_regs with_rx boxes phys_mem_offset].
  match goal with |- context [mmio_read ?m REG_CTRL] => pose proof (mmio_read_ctrl m) as Hc;
    pose proof (bases_read m REG_CTRL) as Hp; destruct (mmio_read m REG_CTRL) as [ctrl m1] end.
  cbn [regs with_regs fst snd] in *.
  assert (Hw : bases (mmio_write m1 REG_CTRL (Z.lor ctrl CTRL_SLU)) = bases m1).
  { apply mmio_write_bases; [rewrite list_elem_of_In; compute; intuition congruence|]. intros _.
    by rewrite Z.lor_spec, Hc. }
  rewrite Hw, Hp. by follow_bases.
Qed.

Lemma read_reg_form e r : read_reg e r = ((mmio_read (regs e) r).1, with_regs e (mmio_read (regs e) r).2).
Proof. unfold read_reg. by destruct (mmio_read (regs e) r). Qed.

(** The initialisers change their descriptors and the registers, nothing else. *)
Lemma init_tx_form e :
  init_tx e = with_regs (with_tx e
    (imap (fun i d => TxDesc_mk (virt_to_phys e (tx_buffers_ptr (boxes e) + Z.of_nat (i * PACKET_BUFFER_SIZE)))
             (td_length d) (td_cso d) (td_cmd d) TX_DD (td_css d) (td_special d)) (tx_descs e))
    (tx_buffers e) (tx_cur e)) (regs (init_tx e)).
Proof. reflexivity. Qed.

Lemma init_rx_form e :
  init_rx e = with_regs (with_rx e
    (imap (fun i d => RxDesc_mk (virt_to_phys e (rx_buffers_ptr (boxes e) + Z.of_nat (i * PACKET_BUFFER_SIZE)))
             (rd_length d) (rd_checksum d) 0 (rd_errors d) (rd_special d)) (rx_descs e))
    (rx_buffers e) (rx_cur e)) (regs (init_rx e)).
Proof. unfold init_rx. rewrite read_reg_form. reflexivity. Qed.

(** What initialisation does not touch. *)
Lemma read_mac_keeps e :
  let e' := read_mac_address e in
  tx_descs e' = tx_descs e /\ rx_descs e' = rx_descs e /\ tx_buffers e' = tx_buffers e /\
  rx_buffers e' = rx_buffers e /\ tx_cur e' = tx_cur e /\ rx_cur e' = rx_cur e /\ boxes e' = boxes e /\
  phys_mem_offset e' = phys_mem_offset e.
Proof.
  unfold read_mac_address, read_reg. destruct (mmio_read (regs e) REG_RAL0) as [ral m1].
  destruct (mmio_read (regs (with_regs e m1)) REG_RAH0) as [rah m2].
  by destruct (_ || _).
Qed.

Section new.
Context {D : Type} `{PH : PciHost D} (map_mmio : Z -> M) (bx : Boxes) (p : PciDevice) (offset : Z) (d d' : D).
Context (e : E1000 M).
Hypothesis Hnew : E1000_new map_mmio bx p offset d = (Some e, d').

(** The device is the result of the two initialisers on an idle one. *)
Lemma E1000_new_inv :
  exists e0 m, e = with_regs (init_rx (init_tx e0)) m /\ ptrs m = ptrs (regs (init_rx (init_tx e0))) /\
    bases m = bases (regs (init_rx (init_tx e0))) /\
    tx_descs e0 = replicate TX_DESC_COUNT TxDesc_default /\
    rx_descs e0 = replicate RX_DESC_COUNT RxDesc_default /\
    tx_buffers e0 = replicate TX_DESC_COUNT (replicate PACKET_BUFFER_SIZE x00) /\
    rx_buffers e0 = replicate RX_DESC_COUNT (replicate PACKET_BUFFER_SIZE x00) /\
    tx_cur e0 = 0%nat /\ rx_cur e0 = 0%nat /\ boxes e0 = bx /\ phys_mem_offset e0 = offset.
Proof.
  unfold E1000_new in Hnew. destruct (mmio_base p) as [base|]; [|discriminate].
  match type of Hnew with context [init_tx ?x] => set (e0 := x) in Hnew end.
  unfold read_reg in Hnew. pose proof (ptrs_read (regs (init_rx (init_tx e0))) REG_STATUS) as Hp.
  pose proof (bases_read (regs (init_rx (init_tx e0))) REG_STATUS) as Hb.
  destruct (mmio_read (regs (init_rx (init_tx e0))) REG_STATUS) as [st m]. injection Hnew as <- _.
  exists e0, m. split; [done|]. split; [done|]. split; [done|].
  subst e0. unfold write_mac_address, write_reg. cbn [tx_descs rx_descs tx_buffers rx_buffers tx_cur rx_cur boxes
    phys_mem_offset with_regs].
  match goal with |- context [read_mac_address ?x] => destruct (read_mac_keeps x) as (-> & -> & -> & -> & -> & -> & -> & ->) end.
  done.
Qed.

Lemma new_ring_fresh : ring_fresh e.
Proof.
  destruct E1000_new_inv as (e0 & m & -> & Hp & _ & Htd & Hrd & Htb & Hrb & Htc & Hrc & _).
  unfold ring_fresh. cbn [regs with_regs tx_cur rx_cur tx_descs rx_descs tx_buffers rx_buffers].
  rewrite Hp, init_rx_ptrs, init_tx_ptrs, init_rx_form, init_tx_form.
  cbn [with_regs with_tx with_rx tx_cur rx_cur tx_descs rx_descs tx_buffers rx_buffers].
  rewrite Htd, Hrd, Htb, Hrb, Htc, Hrc, !length_imap, !length_replicate.
  split_and!; try done; try (by apply Forall_replicate).
  - apply Forall_lookup. intros i x Hx. rewrite list_lookup_imap in Hx.
    apply fmap_Some in Hx as (y & _ & ->). done.
  - apply Forall_lookup. intros i x Hx. rewrite list_lookup_imap in Hx.
    apply fmap_Some in Hx as (y & _ & ->). done.
Qed.

(** The bus addresses given to the controller. *)
Lemma new_descriptor_addresses :
  (forall i desc, tx_descs e !! i = Some desc ->
     td_addr desc = as_u64 (tx_buffers_ptr bx + Z.of_nat (i * PACKET_BUFFER_SIZE) - offset)) /\
  (forall i desc, rx_descs e !! i = Some desc ->
     rd_addr desc = as_u64 (rx_buffers_ptr bx + Z.of_nat (i * PACKET_BUFFER_SIZE) - offset)).
Proof.
  destruct E1000_new_inv as (e0 & m & -> & _ & _ & _ & _ & _ & _ & _ & _ & Hb & Ho).
  rewrite init_rx_form, init_tx_form.
  cbn [with_regs with_tx with_rx tx_descs rx_descs boxes phys_mem_offset].
  split; intros i desc Hx; rewrite list_lookup_imap in Hx; apply fmap_Some in Hx as (y & _ & ->);
    cbn [td_addr rd_addr]; unfold virt_to_phys; cbn [with_regs with_tx with_rx phys_mem_offset];
    by rewrite ?Hb, ?Ho.
Qed.

(** The bus addresses of the rings. *)
Lemma new_ring_addresses :
  bases (regs e) = (as_u64 (tx_descs_ptr bx - offset) / 16 * 16, as_u64 (rx_descs_ptr bx - offset) / 16 * 16) /\ boxes e = bx.
Proof.
  destruct E1000_new_inv as (e0 & m & -> & _ & Hm & _ & _ & _ & _ & _ & _ & Hb & Ho). cbn [with_regs regs boxes].
  rewrite Hm, init_rx_bases, init_tx_bases. unfold virt_to_phys. rewrite init_rx_form, init_tx_form.
  cbn [with_regs with_tx with_rx boxes phys_mem_offset fst snd]. by rewrite Hb, Ho.
Qed.

(** The controller reaches the driver's memory through the addresses it is given. *)
Lemma new_dma_ok (bus : Z -> option Z) : dma_reaches bus bx offset -> dma_ok bus e.
Proof.
  intros [H1 H2 H3 H4]. destruct new_ring_addresses as [[= Ht Hr] Hb]. destruct new_descriptor_addresses as [Htx Hrx].
  destruct new_ring_fresh as (_ & _ & _ & Htd & Hrd & _).
  split; rewrite Hb; [intros i Hi; rewrite Ht; by apply H1|intros i Hi; rewrite Hr; by apply H2|..];
    intros i desc Hd; pose proof (lookup_lt_Some _ _ _ Hd) as Hi.
  - rewrite (Htx i desc Hd). apply H3. unfold TX_DESC_COUNT, RING in *. lia.
  - rewrite (Hrx i desc Hd). apply H4. unfold RX_DESC_COUNT, RING in *. lia.
Qed.
End new.

(** ** The station address *)

Lemma byte_slices v : fits 32 v ->
  from_le_bytes4 (as_u8 v) (as_u8 (Z.shiftr v 8)) (as_u8 (Z.shiftr v 16)) (as_u8 (Z.shiftr v 24)) = v.
Proof.
  intros Hv. rewrite !Z.shiftr_div_pow2 by lia. unfold from_le_bytes4, wrap.
  rewrite <- (bits_of_full v 32) at 5 by done. unfold fits in Hv. unfold bits_of.
  change (2 ^ 8) with 256. change (2 ^ 16) with (256 * 256). change (2 ^ 24) with (256 * 256 * 256).
  change (2 ^ 32) with (256 * (256 * (256 * 256))). rewrite Z.pow_0_r, Z.div_1_r.
  rewrite !Z.rem_mul_r, !Z.div_div by lia. rewrite <- ?Z.mul_assoc. ring.
Qed.

Lemma two_byte_slices v : fits 32 v -> from_le_bytes4 (as_u8 v) (as_u8 (Z.shiftr v 8)) 0 0 = v mod 2 ^ 16.
Proof.
  intros Hv. rewrite Z.shiftr_div_pow2 by lia. unfold from_le_bytes4, wrap.
  change (2 ^ 16) with (256 * 256). change (2 ^ 8) with 256. rewrite Z.rem_mul_r by lia. ring.
Qed.
End init.

(** ** A controller that is a table of registers *)

Abbreviation RegFile := (gmap Z Z).

Definition regfile_read (m : RegFile) (r : Z) : Z * RegFile :=
  (wrap (if r =? REG_CTRL then 26 else 32) (default 0 (m !! r)), m).

Definition regfile_ptr (r : Z) (m : RegFile) : nat := Z.to_nat (default 0 (m !! r)).
Definition regfile_base (lo hi : Z) (m : RegFile) : Z :=
  wrap 32 (default 0 (m !! hi)) * 2 ^ 32 + wrap 32 (default 0 (m !! lo)) / 16 * 16.

Lemma regfile_base_lo lo hi m v : lo <> hi -> fits 32 v ->
  regfile_base lo hi (<[lo := v]> m) = regfile_base lo hi m / 2 ^ 32 * 2 ^ 32 + v / 16 * 16.
Proof.
  intros Hne Hv. unfold regfile_base. rewrite lookup_insert_eq, lookup_insert_ne by done. simpl default. rewrite (wrap_small _ v) by done.
  pose proof (aligned_range _ (wrap_range 32 (default 0 (m !! lo)) ltac:(lia))) as Hl.
  rewrite Z.div_add_l by lia. rewrite (Z.div_small (_ / 16 * 16)) by lia. lia.
Qed.

Lemma regfile_base_hi lo hi m v : lo <> hi -> fits 32 v ->
  regfile_base lo hi (<[hi := v]> m) = v * 2 ^ 32 + regfile_base lo hi m mod 2 ^ 32.
Proof.
  intros Hne Hv. unfold regfile_base. rewrite lookup_insert_eq, lookup_insert_ne by done. simpl default. rewrite (wrap_small _ v) by done.
  pose proof (aligned_range _ (wrap_range 32 (default 0 (m !! lo)) ltac:(lia))) as Hl.
  rewrite (Z.add_comm (wrap 32 (default 0 (m !! hi)) * 2 ^ 32)), Z.mod_add by lia. rewrite Z.mod_small by lia. lia.
Qed.

Lemma regfile_base_other lo hi r m v : r <> lo -> r <> hi -> regfile_base lo hi (<[r := v]> m) = regfile_base lo hi m.
Proof. intros H1 H2. unfold regfile_base. by rewrite !lookup_insert_ne. Qed.

#[export] Instance RegFile_Nic : Nic RegFile.
Proof.
  refine {| mmio_read := regfile_read; mmio_write := fun m r v => <[r := v]> m : RegFile;
            rdh := regfile_ptr REG_RDH; rdt := regfile_ptr REG_RDT;
            tdh := regfile_ptr REG_TDH; tdt := regfile_ptr REG_TDT;
            tdba := regfile_base REG_TDBAL REG_TDBAH; rdba := regfile_base REG_RDBAL REG_RDBAH |}; unfold regfile_read, regfile_ptr; simpl.
  - intros m r. destruct (r =? REG_CTRL); [apply (fits_mono 26); [lia|]|]; apply wrap_range; lia.
  - intros m. change (Z.testbit (wrap 26 (default 0 (m !! REG_CTRL))) 26 = false).
    apply (testbit_above 26); [apply wrap_range; lia|lia].
  - done.
  - intros m v _. by rewrite lookup_insert_eq, !lookup_insert_ne.
  - intros m v _. by rewrite lookup_insert_eq, !lookup_insert_ne.
  - intros m v _. by rewrite lookup_insert_eq, !lookup_insert_ne.
  - intros m v _. by rewrite lookup_insert_eq, !lookup_insert_ne.
  - intros m r v Hr _. rewrite !lookup_insert_ne by set_solver. done.
  - done.
  - intros m v Hv. by rewrite regfile_base_lo, regfile_base_other.
  - intros m v Hv. by rewrite regfile_base_hi, regfile_base_other.
  - intros m v Hv. by rewrite regfile_base_lo, regfile_base_other.
  - intros m v Hv. by rewrite regfile_base_hi, regfile_base_other.
  - intros m r v Hr _. rewrite !regfile_base_other by set_solver. done.
Defined.

Definition demo_pci : PciDevice :=
  PciDevice_mk (PciAddress_new 0 2 3) 0x8086 0x100E 0x020000 0xFEBC0000 0xC001 0x0B.
Definition demo_boxes : Boxes :=
  Boxes_mk HEAP_START (HEAP_START + 0x1000) (HEAP_START + 0x400) (HEAP_START + 0x30000).

Lemma demo_new : exists e d',
  E1000_new (fun _ => ∅ : RegFile) demo_boxes demo_pci 0x18000000000 demo_space = (Some e, d').
Proof.
  unfold E1000_new. change (mmio_base demo_pci) with (Some 0xFEBC0000). cbv beta iota.
  destruct (read_reg _ REG_STATUS) as [st e]. eauto.
Qed.

(** ** Properties *)

Section properties.
Context {M : Type} `{NI : Nic M} {D : Type} `{PH : PciHost D}.


(** What [virt_to_phys] makes of an address on the heap, when the window onto physical
    memory does not overlap the heap. *)
Lemma heap_window_address {MP : Type} `{MI : Mapper MP} (mp mp' : MP) (map : list MemoryRegion)
    (fa' : BootInfoFrameAllocator) (offset v : Z) :
  map_ok map -> init_heap mp (BootInfoFrameAllocator_init map) = (Ok mp', fa') ->
  (forall r, r ∈ map -> mr_usable r = true ->
     offset + mr_end r <= 2 ^ 64 /\ (offset + mr_end r <= HEAP_START \/ HEAP_START + HEAP_SIZE <= offset)) ->
  0 <= offset -> HEAP_START <= v < HEAP_START + HEAP_SIZE ->
  (forall r, r ∈ map -> mr_usable r = true -> mr_end r <= as_u64 (v - offset)) /\
  exists f, translate mp' (containing_address v) = Some f /\ as_u64 (v - offset) <> f + v mod PAGE_SIZE.
Proof.
  intros Hm Hheap Hwin Hoff Hv.
  assert (Hout : forall r, r ∈ map -> mr_usable r = true -> mr_end r <= as_u64 (v - offset)).
  { intros r Hr Hu. destruct (Hwin r Hr Hu) as [Hend Hdis].
    destruct (map_ok_region map r Hm Hr) as [[H0 H1] _]. unfold wrap, HEAP_START, HEAP_SIZE in *.
    destruct Hdis; [rewrite Z.mod_small by lia; lia|].
    destruct (decide (offset <= 2 ^ 64)); [|pose proof (Z.mod_pos_bound (v - offset) (2 ^ 64)); lia].
    rewrite <- (Z.mod_add _ 1), Z.mod_small by lia. lia. }
  split; [done|]. destruct (heap_address_mapped mp mp' map fa' Hm Hheap v Hv) as (f & Hf & r & Hr & Hu & H1 & H2).
  exists f. split; [done|]. specialize (Hout r Hr Hu). pose proof (Z.mod_pos_bound v PAGE_SIZE ltac:(done)). lia.
Qed.

(** So the controller does not reach boxes on the heap, when the bus addresses are those
    of the frames the heap is mapped to. *)
Theorem dma_misses_heap {MP : Type} `{MI : Mapper MP} (bus : Z -> option Z) (mp mp' : MP) (map : list MemoryRegion)
    (fa' : BootInfoFrameAllocator) (bx : Boxes) (offset : Z) :
  map_ok map -> init_heap mp (BootInfoFrameAllocator_init map) = (Ok mp', fa') ->
  (forall r, r ∈ map -> mr_usable r = true ->
     offset + mr_end r <= 2 ^ 64 /\ (offset + mr_end r <= HEAP_START \/ HEAP_START + HEAP_SIZE <= offset)) ->
  0 <= offset -> HEAP_START <= tx_buffers_ptr bx < HEAP_START + HEAP_SIZE ->
  (forall a v f, bus a = Some v -> translate mp' (containing_address v) = Some f -> a = f + v mod PAGE_SIZE) ->
  ~ dma_reaches bus bx offset.
Proof.
  intros Hm Hheap Hwin Hoff Hv Hbus [_ _ Htx _].
  destruct (heap_window_address mp mp' map fa' offset (tx_buffers_ptr bx) Hm Hheap Hwin Hoff Hv) as [_ (f & Hf & Hne)].
  specialize (Htx 0%nat ltac:(unfold TX_DESC_COUNT; lia)). simpl Z.of_nat in Htx. rewrite Z.add_0_r in Htx. by apply Hne, (Hbus _ _ _ Htx).
Qed.

(** The driver may fill the transmit ring to its last descriptor, and then it is
    stuck: with sixty-four packets accepted and none sent the tail equals the head,
    which the controller takes for an empty ring, so whatever happens afterwards no
    packet is ever sent and every further one is refused. *)
Theorem e1000_tx_ring_stalls (bus : Z -> option Z) (map_mmio : Z -> M) (bx : Boxes) (p : PciDevice) (offset : Z) (d d' : D)
    (e : E1000 M) (pkts : list (list byte)) :
  E1000_new map_mmio bx p offset d = (Some e, d') -> dma_reaches bus bx offset ->
  length pkts = TX_DESC_COUNT -> Forall (fun x => (length x <= PACKET_BUFFER_SIZE)%nat) pkts ->
  exists s, rtc (ring_step bus) (ring_start e) s /\ rs_accepted s = pkts /\
    forall s', rtc (ring_step bus) s s' ->
      rs_wire s' = [] /\
      (rs_driver s' = DriverIdle -> forall data, exists e', transmit_raw (rs_dev s') data = Return (false, e')).
Proof.
  intros Hnew Hdma Hlen Hp.
  pose proof (ring_fresh_inv bus e (new_dma_ok _ _ _ _ _ _ _ Hnew bus Hdma) (new_ring_fresh _ _ _ _ _ _ _ Hnew)) as H0.
  destruct (send_all bus pkts _ _ _ H0 eq_refl Hp) as (s & Hr & Hi & _ & Hw & Ha & _);
    [rewrite Hlen; unfold TX_DESC_COUNT, RING; simpl; lia|].
  exists s. split_and!; [done|done|]. intros s' Hr'.
  destruct (ring_reachable_inv bus _ _ _ _ Hi Hr') as (pend' & out' & [_ _ Htx _ _] & Hf).
  destruct (Hf Hlen) as [-> Hw']. split; [by rewrite Hw', Hw|]. intros Hd data. rewrite Hd in Htx.
  destruct (transmit_raw_spec _ _ data Htx) as (e' & E). exists e'. rewrite E.
  rewrite bool_decide_false; [done|]. simpl. rewrite Hlen. unfold TX_DESC_COUNT, RING. lia.
Qed.

(** C27: the addresses [virt_to_phys] gives the controller are wrong for every buffer.
    The boxes live on the heap, whose pages [init_heap] maps to usable frames, while
    the driver subtracts the offset of the window onto physical memory; as long as
    that window does not overlap the heap, every descriptor points behind the end of
    all usable memory, and not at the frame the buffer is mapped to. *)
Theorem e1000_dma_outside_memory {MP : Type} `{MI : Mapper MP} (mp mp' : MP) (map : list MemoryRegion)
    (fa' : BootInfoFrameAllocator) (map_mmio : Z -> M) (bx : Boxes) (p : PciDevice) (offset : Z) (d d' : D)
    (e : E1000 M) :
  map_ok map -> init_heap mp (BootInfoFrameAllocator_init map) = (Ok mp', fa') ->
  (forall r, r ∈ map -> mr_usable r = true ->
     offset + mr_end r <= 2 ^ 64 /\ (offset + mr_end r <= HEAP_START \/ HEAP_START + HEAP_SIZE <= offset)) ->
  0 <= offset ->
  HEAP_START <= tx_buffers_ptr bx -> tx_buffers_ptr bx + 64 * 2048 <= HEAP_START + HEAP_SIZE ->
  HEAP_START <= rx_buffers_ptr bx -> rx_buffers_ptr bx + 64 * 2048 <= HEAP_START + HEAP_SIZE ->
  E1000_new map_mmio bx p offset d = (Some e, d') ->
  (forall i desc, tx_descs e !! i = Some desc ->
     let v := tx_buffers_ptr bx + Z.of_nat (i * PACKET_BUFFER_SIZE) in
     (forall r, r ∈ map -> mr_usable r = true -> mr_end r <= td_addr desc) /\
     exists f, translate mp' (containing_address v) = Some f /\ td_addr desc <> f + v mod PAGE_SIZE) /\
  (forall i desc, rx_descs e !! i = Some desc ->
     let v := rx_buffers_ptr bx + Z.of_nat (i * PACKET_BUFFER_SIZE) in
     (forall r, r ∈ map -> mr_usable r = true -> mr_end r <= rd_addr desc) /\
     exists f, translate mp' (containing_address v) = Some f /\ rd_addr desc <> f + v mod PAGE_SIZE).
Proof.
  intros Hm Hheap Hwin Hoff Ht1 Ht2 Hr1 Hr2 Hnew.
  destruct (new_ring_fresh _ _ _ _ _ _ _ Hnew) as (_ & _ & _ & Htd & Hrd & _).
  destruct (new_descriptor_addresses _ _ _ _ _ _ _ Hnew) as [Htx Hrx].
  assert (Hkey : forall v, HEAP_START <= v < HEAP_START + HEAP_SIZE ->
    (forall r, r ∈ map -> mr_usable r = true -> mr_end r <= as_u64 (v - offset)) /\
    exists f, translate mp' (containing_address v) = Some f /\ as_u64 (v - offset) <> f + v mod PAGE_SIZE).
  { intros v Hv. by eapply heap_window_address. }
  split; intros i desc Hi v; (rewrite (Htx i desc Hi) || rewrite (Hrx i desc Hi)); apply Hkey;
    apply lookup_lt_Some in Hi; unfold v, PACKET_BUFFER_SIZE, RING in *; lia.
Qed.

(** The driver writes the station address back as it found it: when the controller
    has a valid address, the receive address registers are written with the same four
    and two bytes and the valid flag set. *)
Theorem e1000_mac_roundtrip (e : E1000 M) :
  let ral := (mmio_read (regs e) REG_RAL0).1 in
  let rah := (mmio_read (mmio_read (regs e) REG_RAL0).2 REG_RAH0).1 in
  Z.testbit rah 31 = true \/ ral <> 0 ->
  let e' := read_mac_address e in
  length (mac_address e') = 6%nat /\ Forall (fits 8) (mac_address e') /\
  write_mac_address e' = write_reg (write_reg e' REG_RAL0 ral) REG_RAH0 (rah mod 2 ^ 16 + 2 ^ 31).
Proof.
  cbv zeta. pose proof (mmio_read_fits (regs e) REG_RAL0) as Hl.
  unfold read_mac_address. rewrite !read_reg_form. cbn [regs with_regs].
  destruct (mmio_read (regs e) REG_RAL0) as [ral m1]. cbn [fst snd] in *.
  pose proof (mmio_read_fits m1 REG_RAH0) as Hh. destruct (mmio_read m1 REG_RAH0) as [rah m2]. cbn [fst snd] in *.
  intros Hv. change (Z.shiftl 1 31) with (2 ^ 31). rewrite land_bit_nonzero by lia.
  assert (Hc : Z.testbit rah 31 || negb (ral =? 0) = true).
  { destruct Hv as [->|Hv]; [done|]. apply Z.eqb_neq in Hv. rewrite Hv. apply orb_true_r. }
  rewrite Hc. split_and!; [done|by repeat constructor; apply wrap_range|].
  unfold write_mac_address. cbn [mac_address with_mac with_regs nth].
  rewrite byte_slices, two_byte_slices by done. do 2 f_equal. rewrite Z.lor_comm.
  change (Z.shiftl 1 31) with (1 * 2 ^ 31). rewrite lor_add; [lia|lia|].
  pose proof (Z.mod_pos_bound rah (2 ^ 16)). unfold fits. lia.
Qed.
End properties.

(** A bus whose addresses are the window's. *)
Definition demo_bus (a : Z) : option Z := Some (a + 0x18000000000).

Lemma demo_reaches : dma_reaches demo_bus demo_boxes 0x18000000000.
Proof.
  assert (Hw : forall v, HEAP_START <= v < HEAP_START + HEAP_SIZE -> as_u64 (v - 0x18000000000) = v - 0x18000000000).
  { intros v. unfold HEAP_START, HEAP_SIZE. intros Hv. apply wrap_small. unfold fits. lia. }
  split; intros i Hi; unfold demo_bus; unfold demo_boxes, TX_DESC_COUNT, RX_DESC_COUNT, PACKET_BUFFER_SIZE in *;
    cbn [tx_descs_ptr tx_buffers_ptr rx_descs_ptr rx_buffers_ptr]; rewrite Hw by (unfold HEAP_START, HEAP_SIZE; lia);
    f_equal; try lia.
  - change ((HEAP_START - 0x18000000000) / 16 * 16) with (HEAP_START - 0x18000000000). lia.
  - change ((HEAP_START + 0x400 - 0x18000000000) / 16 * 16) with (HEAP_START + 0x400 - 0x18000000000). lia.
Qed.

(** A packet is received, then one is accepted, then it is sent. *)
Lemma demo_traffic : exists e d' s,
  E1000_new (fun _ => ∅ : RegFile) demo_boxes demo_pci 0x18000000000 demo_space = (Some e, d') /\
  rtc (ring_step demo_bus) (ring_start e) s /\ rs_driver s = DriverIdle /\ rs_received s = [[x02]] /\ rs_delivered s = [] /\
  rs_accepted s = [[x01]] /\ rs_wire s = [[x01]].
Proof.
  destruct demo_new as (e & d' & E).
  pose proof (ring_fresh_inv demo_bus e (new_dma_ok _ _ _ _ _ _ _ E _ demo_reaches) (new_ring_fresh _ _ _ _ _ _ _ E)) as H0.
  destruct (hw_can_receive demo_bus _ _ _ [x02] H0) as (s1 & Hs1 & R1 & D1 & W1 & L1 & A1); [unfold RING; simpl; lia|unfold PACKET_BUFFER_SIZE; simpl; lia|].
  destruct (hw_step_inv demo_bus _ _ _ _ H0 Hs1) as (pend1 & out1 & H1 & _).
  assert (out1 = []) as -> by (pose proof (rv_wire _ _ _ _ H1) as Hw; rewrite D1, W1, A1 in Hw; simpl in Hw; by destruct out1).
  destruct (send_all demo_bus [[x01]] s1 pend1 [] H1 D1) as (s2 & Hs2 & H2 & D2 & W2 & A2 & R2 & L2);
    [repeat constructor; unfold PACKET_BUFFER_SIZE; simpl; lia|unfold RING; simpl; lia|].
  destruct (hw_can_send demo_bus s2 pend1 [] [x01] H2) as (s3 & Hs3 & W3 & D3 & R3 & L3 & A3); [unfold RING; simpl; lia|].
  exists e, d', s3. split; [done|]. split; [eapply rtc_l; [by left|]; eapply rtc_r; [exact Hs2|by left]|].
  rewrite D3, D2, R3, R2, R1, L3, L2, L1, A3, A2, A1, W3, W2, W1. done.
Qed.


Lemma e1000_tx_ring_stalls_witness :
  exists (e : E1000 RegFile) s, rtc (ring_step demo_bus) (ring_start e) s /\ length (rs_accepted s) = 64%nat /\
    forall s', rtc (ring_step demo_bus) s s' -> rs_wire s' = [].
Proof.
  destruct demo_new as (e & d' & E).
  destruct (e1000_tx_ring_stalls demo_bus _ _ _ _ _ _ e (replicate 64 [x01]) E demo_reaches eq_refl) as (s & H1 & H2 & H3).
  - apply Forall_replicate. unfold PACKET_BUFFER_SIZE. simpl. lia.
  - exists e, s. split; [exact H1|]. split; [rewrite H2; reflexivity|]. intros s' Hr. exact (proj1 (H3 s' Hr)).
Defined.

Lemma e1000_dma_outside_memory_witness :
  exists (e : E1000 RegFile), forall i desc, tx_descs e !! i = Some desc ->
    forall r, r ∈ demo_map -> mr_usable r = true -> mr_end r <= td_addr desc.
Proof.
  destruct demo_new as (e & d' & E). exists e. pose proof demo_heap_ok as Hok.
  destruct (init_heap (∅ : gmap Z Z) (BootInfoFrameAllocator_init demo_map)) as [[mp'|err] fa'] eqn:Eh; [|discriminate Hok].
  intros i desc Hi.
  refine (proj1 (proj1 (e1000_dma_outside_memory ∅ mp' demo_map fa' _ _ _ _ _ _ e demo_map_ok Eh _ _ _ _ _ _ E) i desc Hi)).
  - intros r Hr%list_elem_of_In _. simpl in Hr.
    repeat (destruct Hr as [<-|Hr]; [vm_compute; split; [|left]; congruence|]). destruct Hr.
  - lia.
  - vm_compute. congruence.
  - vm_compute. congruence.
  - vm_compute. congruence.
  - vm_compute. congruence.
Defined.

Lemma e1000_mac_roundtrip_witness :
  let m : RegFile := {[ REG_RAL0 := 0x12005452; REG_RAH0 := 0x80005634 ]} in
  let e := E1000_mk m 0 0 [] demo_boxes [] [] 0 [] [] 0 in
  mac_address (read_mac_address e) = [0x52; 0x54; 0x00; 0x12; 0x34; 0x56] /\
  write_mac_address (read_mac_address e) =
    write_reg (write_reg (read_mac_address e) REG_RAL0 0x12005452) REG_RAH0 0x80005634.
Proof.
  cbv zeta. split; [vm_compute; reflexivity|].
  exact (proj2 (proj2 (e1000_mac_roundtrip (E1000_mk ({[ REG_RAL0 := 0x12005452; REG_RAH0 := 0x80005634 ]} : RegFile)
    0 0 [] demo_boxes [] [] 0 [] [] 0) (or_introl eq_refl)))).
Defined.
