(* ===== verification/FileSystem.v ===== *)
(** * The filesystem interface

    Models [src/kernel/src/fs/mod.rs]: the error type, file handles and the
    [FileSystem] trait as a class of state-passing operations.  A file handle
    [FileHandle(u32)] is its [u32]. *)

From S2P Require Import Prelude Text.

Inductive FsError : Type := FsNotFound | FsPermissionDenied | FsInvalidHandle.

#[export] Instance FsError_eq_dec : EqDecision FsError.
Proof. solve_decision. Defined.

(** The trait [FileSystem]. [read] takes the caller's buffer and returns the
    number of bytes read with the updated buffer; it is the one operation whose
    slice accesses could panic. *)
Class FileSystem (FS : Type) : Type := {
  fs_open : FS -> string -> Result Z FsError * FS;
  fs_open_at : FS -> Z -> string -> Result Z FsError * FS;
  fs_mkdir : FS -> string -> Result unit FsError * FS;
  fs_mkdir_at : FS -> Z -> string -> Result unit FsError * FS;
  fs_read : FS -> Z -> list byte -> Z -> Outcome (Result (Z * list byte) FsError);
  fs_size : FS -> Z -> Result Z FsError;
  fs_is_dir : FS -> Z -> bool;
  fs_close : FS -> Z -> FS;
}.

(** ** Abstract filesystems

    A filesystem seen from a directory: the file or directory each relative
    path names. *)
Inductive View : Type := VFile (content : list byte) | VDir.

#[export] Instance View_eq_dec : EqDecision View.
Proof. solve_decision. Defined.

Definition Tree : Type := list string -> option View.

Definition is_file (v : option View) : bool :=
  match v with Some (VFile _) => true | _ => false end.

(** Some proper prefix of the path is a file. *)
Definition blocked (T : Tree) (parts : list string) : bool :=
  existsb (fun k => is_file (T (take k parts))) (seq 0 (length parts)).

(** [add_file] on the abstract tree: creates the missing parents and replaces
    whatever the path named (with everything below it) by the file; nothing
    happens for an empty path or through a file. *)
Definition spec_add_file (T : Tree) (parts : list string) (content : list byte) : Tree :=
  if decide (parts = []) then T
  else if blocked T parts then T
  else fun q =>
    if decide (parts `prefix_of` q)
    then if decide (q = parts) then Some (VFile content) else None
    else if decide (q `prefix_of` parts) then Some VDir
    else T q.

(** [mkdir] on the abstract tree: the result it returns and the new tree. *)
Definition spec_mkdir (T : Tree) (parts : list string) : Result unit FsError :=
  if decide (parts = []) then Err FsPermissionDenied
  else match T (removelast parts) with
       | None => Err FsNotFound
       | Some (VFile _) => Err FsInvalidHandle
       | Some VDir =>
           match T parts with Some _ => Err FsPermissionDenied | None => Ok tt end
       end.

Definition spec_mkdir_tree (T : Tree) (parts : list string) : Tree :=
  match spec_mkdir T parts with
  | Ok _ => fun q => if decide (q = parts) then Some VDir else T q
  | Err _ => T
  end.
