(* ===== verification/RamFs.v ===== *)
(** * The RAM filesystem

    Models [src/kernel/src/fs/ramfs.rs].  The [Arc<RwLock<Node>>] pointers are
    locations in a node store ([nodes]), so that open handles and directory
    entries alias the node they were resolved to: replacing a directory entry
    leaves the old node alive for whoever holds it.  Each method runs under the
    locks it takes and is one state-passing function.  The function-local
    statics [NEXT_HANDLE] and [NEXT_HANDLE_AT] are [u32] counters of the state. *)

From S2P Require Import Prelude Text FileSystem.

Inductive Node : Type :=
| File (content : list byte)
| Directory (entries : gmap string nat).

Record RamFs : Type := RamFs_mk {
  nodes : gmap nat Node;
  next_node : nat;
  root : nat;
  open_handles : gmap Z nat;
  next_handle : Z;
  next_handle_at : Z;
}.

(** [RamFs::new]; the handle counters start at 1 and 10000. *)
Definition RamFs_new : RamFs :=
  RamFs_mk {[ 0%nat := Directory ∅ ]} 1 0 ∅ 1 10000.

(** [Arc::new(RwLock::new(node))]. *)
Definition arc_new (fs : RamFs) (n : Node) : nat * RamFs :=
  (next_node fs,
   RamFs_mk (<[next_node fs := n]> (nodes fs)) (S (next_node fs)) (root fs)
     (open_handles fs) (next_handle fs) (next_handle_at fs)).

(** A write through a node pointer. *)
Definition set_node (fs : RamFs) (l : nat) (n : Node) : RamFs :=
  RamFs_mk (<[l := n]> (nodes fs)) (next_node fs) (root fs)
    (open_handles fs) (next_handle fs) (next_handle_at fs).

(** [map.insert(name, Arc::new(RwLock::new(node)))] in the directory [map] at [l]. *)
Definition dir_insert (fs : RamFs) (l : nat) (map : gmap string nat) (name : string) (n : Node)
    : nat * RamFs :=
  let '(new, fs) := arc_new fs n in
  (new, set_node fs l (Directory (<[name := new]> map))).

(** The directory loop of [add_file]: enters each component, creating missing
    directories; [None] when a component is a file. *)
Fixpoint add_file_dirs (fs : RamFs) (current : nat) (parts : list string) : option nat * RamFs :=
  match parts with
  | [] => (Some current, fs)
  | part :: rest =>
      match nodes fs !! current with
      | Some (Directory map) =>
          match map !! part with
          | Some next => add_file_dirs fs next rest
          | None =>
              let '(next, fs) := dir_insert fs current map part (Directory ∅) in
              add_file_dirs fs next rest
          end
      | _ => (None, fs)
      end
  end.

Definition RamFs_add_file (fs : RamFs) (path : string) (content : list byte) : RamFs :=
  let parts := path_parts path in
  match last parts with
  | None => fs
  | Some filename =>
      match add_file_dirs fs (root fs) (removelast parts) with
      | (Some current, fs) =>
          match nodes fs !! current with
          | Some (Directory map) => (dir_insert fs current map filename (File content)).2
          | _ => fs
          end
      | (None, fs) => fs
      end
  end.

(** The lookup loop shared by [resolve_path], [open_at] and [mkdir_at]. *)
Fixpoint walk (ns : gmap nat Node) (current : nat) (parts : list string) : Result nat FsError :=
  match parts with
  | [] => Ok current
  | part :: rest =>
      match ns !! current with
      | Some (Directory map) =>
          match map !! part with
          | Some node => walk ns node rest
          | None => Err FsNotFound
          end
      | _ => Err FsNotFound
      end
  end.

Definition RamFs_resolve_path (fs : RamFs) (path : string) : Result nat FsError :=
  walk (nodes fs) (root fs) (path_parts path).

(** [self.open_handles.lock().insert(handle, node)]. *)
Definition insert_handle (fs : RamFs) (handle : Z) (node : nat) (nh nha : Z) : RamFs :=
  RamFs_mk (nodes fs) (next_node fs) (root fs) (<[handle := node]> (open_handles fs)) nh nha.

Definition RamFs_open (fs : RamFs) (path : string) : Result Z FsError * RamFs :=
  match RamFs_resolve_path fs path with
  | Ok node =>
      let '(handle, next) := fetch_add 32 (next_handle fs) in
      (Ok handle, insert_handle fs handle node next (next_handle_at fs))
  | Err e => (Err e, fs)
  end.

Definition RamFs_open_at (fs : RamFs) (base : Z) (path : string) : Result Z FsError * RamFs :=
  match open_handles fs !! base with
  | None => (Err FsInvalidHandle, fs)
  | Some base_node =>
      match walk (nodes fs) base_node (path_parts path) with
      | Ok node =>
          let '(handle, next) := fetch_add 32 (next_handle_at fs) in
          (Ok handle, insert_handle fs handle node (next_handle fs) next)
      | Err e => (Err e, fs)
      end
  end.

Definition RamFs_mkdir_at (fs : RamFs) (base : Z) (path : string) : Result unit FsError * RamFs :=
  let parts := path_parts path in
  match last parts with
  | None => (Err FsPermissionDenied, fs)
  | Some dirname =>
      let start := if decide (base = 0) then Some (root fs) else open_handles fs !! base in
      match start with
      | None => (Err FsInvalidHandle, fs)
      | Some start =>
          match walk (nodes fs) start (removelast parts) with
          | Err e => (Err e, fs)
          | Ok current =>
              match nodes fs !! current with
              | Some (Directory map) =>
                  match map !! dirname with
                  | Some _ => (Err FsPermissionDenied, fs)
                  | None => (Ok tt, (dir_insert fs current map dirname (Directory ∅)).2)
                  end
              | _ => (Err FsInvalidHandle, fs)
              end
          end
      end
  end.

Definition RamFs_mkdir (fs : RamFs) (path : string) : Result unit FsError * RamFs :=
  RamFs_mkdir_at fs 0 path.

(** [read]: the buffer after the copy is returned with the byte count.  The
    slice [content[offset..end]] panics when [end < offset]. *)
Definition RamFs_read (fs : RamFs) (handle : Z) (buffer : list byte) (offset : Z)
    : Outcome (Result (Z * list byte) FsError) :=
  match open_handles fs !! handle with
  | None => Return (Err FsInvalidHandle)
  | Some node =>
      match nodes fs !! node with
      | Some (File content) =>
          let len := Z.of_nat (length content) in
          if decide (len <= offset) then Return (Ok (0, buffer))
          else
            let end_ := Z.min (as_usize (offset + Z.of_nat (length buffer))) len in
            if decide (end_ < offset) then Panic
            else
              let bytes_read := end_ - offset in
              Return (Ok (bytes_read,
                take (Z.to_nat bytes_read) (drop (Z.to_nat offset) content)
                  ++ drop (Z.to_nat bytes_read) buffer))
      | _ => Return (Err FsInvalidHandle)
      end
  end.

Definition RamFs_size (fs : RamFs) (handle : Z) : Result Z FsError :=
  match open_handles fs !! handle with
  | None => Err FsInvalidHandle
  | Some node =>
      match nodes fs !! node with
      | Some (File content) => Ok (Z.of_nat (length content))
      | Some (Directory _) => Ok 0
      | None => Err FsInvalidHandle
      end
  end.

Definition RamFs_is_dir (fs : RamFs) (handle : Z) : bool :=
  match open_handles fs !! handle with
  | None => false
  | Some node =>
      match nodes fs !! node with Some (Directory _) => true | _ => false end
  end.

Definition RamFs_close (fs : RamFs) (handle : Z) : RamFs :=
  RamFs_mk (nodes fs) (next_node fs) (root fs) (delete handle (open_handles fs))
    (next_handle fs) (next_handle_at fs).

(** [impl FileSystem for RamFs]. *)
#[export] Instance RamFs_FileSystem : FileSystem RamFs := {|
  fs_open := RamFs_open;
  fs_open_at := RamFs_open_at;
  fs_mkdir := RamFs_mkdir;
  fs_mkdir_at := RamFs_mkdir_at;
  fs_read := RamFs_read;
  fs_size := RamFs_size;
  fs_is_dir := RamFs_is_dir;
  fs_close := RamFs_close;
|}.

(** Every state-changing operation, for histories of calls. *)
Inductive FsOp : Type :=
| OpAddFile (path : string) (content : list byte)
| OpOpen (path : string)
| OpOpenAt (base : Z) (path : string)
| OpMkdirAt (base : Z) (path : string)
| OpClose (handle : Z).

Definition fs_step (fs : RamFs) (op : FsOp) : RamFs :=
  match op with
  | OpAddFile p c => RamFs_add_file fs p c
  | OpOpen p => (RamFs_open fs p).2
  | OpOpenAt b p => (RamFs_open_at fs b p).2
  | OpMkdirAt b p => (RamFs_mkdir_at fs b p).2
  | OpClose h => RamFs_close fs h
  end.

Definition fs_run (fs : RamFs) (ops : list FsOp) : RamFs := foldl fs_step fs ops.
