(* ===== verification/RamFsSpec.v ===== *)
(** * Correctness of the RAM filesystem

    The store invariant, the abstraction of a store to a [Tree] and the
    refinement of [mkdir], [add_file], [open], [open_at] and [read] against the
    abstract operations of [FileSystem.v]. *)

From S2P Require Import Prelude Text FileSystem RamFs.

(** ** Abstraction *)

Definition view (n : Node) : View :=
  match n with File c => VFile c | Directory _ => VDir end.

(** The tree seen from node [l]. *)
Definition tree (ns : gmap nat Node) (l : nat) : Tree := fun q =>
  match walk ns l q with Ok l' => view <$> ns !! l' | Err _ => None end.

Definition fs_tree (fs : RamFs) : Tree := tree (nodes fs) (root fs).

(** What an open handle refers to. *)
Definition handle_view (fs : RamFs) (h : Z) : option View :=
  open_handles fs !! h ≫= fun l => view <$> nodes fs !! l.

(** ** Invariant *)

Definition dir_entry (ns : gmap nat Node) (l : nat) (x : string) (c : nat) : Prop :=
  exists m, ns !! l = Some (Directory m) /\ m !! x = Some c.

(** The store is a forest: entries point to younger live nodes, every node has
    at most one parent entry and entry names are path components. *)
Record store_wf (ns : gmap nat Node) (next : nat) : Prop := {
  sw_bound : forall l n, ns !! l = Some n -> (l < next)%nat;
  sw_child : forall l x c, dir_entry ns l x c -> (l < c)%nat /\ is_Some (ns !! c);
  sw_parent : forall l1 x1 l2 x2 c,
    dir_entry ns l1 x1 c -> dir_entry ns l2 x2 c -> l1 = l2 /\ x1 = x2;
  sw_name : forall l x c, dir_entry ns l x c -> component x;
}.

Record fs_wf (fs : RamFs) : Prop := {
  fw_store : store_wf (nodes fs) (next_node fs);
  fw_root : exists m, nodes fs !! root fs = Some (Directory m);
  fw_handles : forall h l, open_handles fs !! h = Some l -> is_Some (nodes fs !! l);
  fw_next_handle : fits 32 (next_handle fs);
  fw_next_handle_at : fits 32 (next_handle_at fs);
}.

(** ** Walking *)

Lemma walk_cons ns l x p c :
  walk ns l (x :: p) = Ok c <-> exists d, dir_entry ns l x d /\ walk ns d p = Ok c.
Proof.
  simpl. split.
  - destruct (ns !! l) as [[|m]|] eqn:E; try done.
    destruct (m !! x) eqn:E'; [|done]. intros. eexists. split; [|done]. by exists m.
  - intros (d & (m & -> & ->) & ?). done.
Qed.

Lemma walk_app ns l p q :
  walk ns l (p ++ q) = let? l' := walk ns l p in walk ns l' q.
Proof.
  revert l. induction p as [|x p IH]; intros l; simpl; [done|].
  destruct (ns !! l) as [[|m]|]; try done. destruct (m !! x); [apply IH|done].
Qed.

Lemma walk_err ns l p e : walk ns l p = Err e -> e = FsNotFound.
Proof.
  revert l. induction p as [|x p IH]; intros l; simpl; [done|].
  destruct (ns !! l) as [[|m]|]; try congruence. destruct (m !! x); [apply IH|congruence].
Qed.

Section store.
Context (ns : gmap nat Node) (next : nat) (Hwf : store_wf ns next).

Lemma walk_le l p c : walk ns l p = Ok c -> (l <= c)%nat /\ (p <> [] -> (l < c)%nat).
Proof.
  revert l. induction p as [|x p IH]; intros l.
  - simpl. intros [= ->]. split; [lia|done].
  - rewrite walk_cons. intros (d & Hd & Hw). apply IH in Hw as [? _].
    apply Hwf in Hd as [? _]. split; intros; lia.
Qed.

Lemma walk_live l p c : is_Some (ns !! l) -> walk ns l p = Ok c -> is_Some (ns !! c).
Proof.
  revert l. induction p as [|x p IH]; intros l Hl.
  - simpl. by intros [= ->].
  - rewrite walk_cons. intros (d & Hd & Hw). apply Hwf in Hd as [_ ?]. eauto.
Qed.

(** Two paths from one node to another are equal. *)
Lemma walk_inj l p q c : walk ns l p = Ok c -> walk ns l q = Ok c -> p = q.
Proof.
  revert q c. induction p as [|x p IH] using rev_ind; intros q c Hp Hq.
  - destruct (decide (q = [])) as [->|Hne]; [done|].
    apply walk_le in Hq as [_ Hq]. simplify_eq/=. specialize (Hq Hne). lia.
  - destruct q as [|y q _] using rev_ind.
    { apply walk_le in Hp as [_ Hp]. simpl in Hq. injection Hq as <-.
      assert (l < l)%nat by (apply Hp; by destruct p). lia. }
    rewrite walk_app in Hp, Hq.
    destruct (walk ns l p) as [d1|] eqn:E1; [|done].
    destruct (walk ns l q) as [d2|] eqn:E2; [|done]. cbn [result_bind] in Hp, Hq.
    apply walk_cons in Hp as (c1 & H1 & [= ->]). apply walk_cons in Hq as (c2 & H2 & [= ->]).
    destruct (sw_parent _ _ Hwf _ _ _ _ _ H1 H2) as [-> ->].
    by rewrite (IH q d2 eq_refl E2).
Qed.

(** ** Linking a fresh leaf under a directory *)

Context (l : nat) (m : gmap string nat) (x : string) (n : Node) (new : nat).
Context (Hl : ns !! l = Some (Directory m)) (Hnew : (next <= new)%nat).
Context (Hn : n = Directory ∅ \/ exists c, n = File c).

Let ns' : gmap nat Node := <[l := Directory (<[x := new]> m)]> (<[new := n]> ns).

Lemma link_fresh : ns !! new = None /\ l <> new.
Proof.
  split.
  - destruct (ns !! new) eqn:E; [|done]. apply Hwf in E. lia.
  - intros ->. apply Hwf in Hl. lia.
Qed.

Lemma link_entry a y c :
  dir_entry ns' a y c <->
  (a = l /\ y = x /\ c = new) \/ (~ (a = l /\ y = x) /\ dir_entry ns a y c).
Proof.
  destruct link_fresh as [Hfresh Hlnew]. unfold dir_entry, ns'.
  rewrite lookup_insert. case_decide as Ha.
  - subst a. split.
    + intros (m' & [= <-] & Hy). rewrite lookup_insert in Hy. case_decide; naive_solver.
    + intros [(_ & -> & ->)|(Hne & m' & Hm & Hy)]; eexists; split; try done.
      * apply lookup_insert_eq.
      * rewrite lookup_insert_ne by naive_solver. congruence.
  - rewrite lookup_insert. case_decide as Ha'.
    + subst a. split.
      * intros (m' & [= Hm'] & Hy). destruct Hn as [->|[? ->]]; simplify_eq.
      * intros [(-> & _)|(_ & m' & Hm & _)]; [done|congruence].
    + naive_solver.
Qed.

Lemma link_wf next' :
  component x -> (new < next')%nat -> store_wf ns' next'.
Proof.
  intros Hx Hnext. destruct link_fresh as [Hfresh Hlnew].
  assert (Hlive : forall c, is_Some (ns !! c) -> is_Some (ns' !! c)).
  { intros c Hc. unfold ns'. rewrite !lookup_insert. repeat case_decide; eauto. }
  assert (Hbd : forall a k, ns !! a = Some k -> (a < new)%nat).
  { intros a k H. apply Hwf in H. lia. }
  constructor.
  - intros a k. unfold ns'. rewrite !lookup_insert.
    repeat case_decide; intros; simplify_eq; try lia.
    + apply Hbd in Hl. lia.
    + apply Hbd in H1. lia.
  - intros a y c. rewrite link_entry. intros [(-> & -> & ->)|[_ He]].
    + split; [by eapply Hbd|]. unfold ns'.
      rewrite lookup_insert_ne, lookup_insert_eq by done. eauto.
    + apply Hwf in He as [? ?]. split; [done|]. by apply Hlive.
  - assert (Hno : forall a y, ~ dir_entry ns a y new).
    { intros a y He. apply Hwf in He as [_ [k Hk]]. congruence. }
    intros a1 y1 a2 y2 c. rewrite !link_entry.
    intros [(-> & -> & ->)|[_ H1]] [(-> & -> & ?)|[_ H2]]; subst; try done.
    + by apply Hno in H2.
    + by apply Hno in H1.
    + eapply Hwf; eauto.
  - intros a y c. rewrite link_entry. intros [(_ & -> & _)|[_ He]]; [done|].
    by eapply Hwf.
Qed.

(** A node from which [l] is unreachable sees no change. *)
Lemma link_walk_unreach s q :
  s <> new -> (forall p, walk ns s p <> Ok l) -> walk ns' s q = walk ns s q.
Proof.
  revert s. induction q as [|y q IH]; intros s Hs Hun; [done|]. simpl.
  assert (s <> l) by (intros ->; by apply (Hun [])).
  unfold ns' at 1. rewrite !lookup_insert_ne by done.
  destruct (ns !! s) as [[|m']|] eqn:E; try done.
  destruct (m' !! y) as [c|] eqn:Ey; [|done].
  assert (He : dir_entry ns s y c) by (by exists m').
  apply IH.
  - intros ->. apply Hwf in He as [_ [k Hk]]. destruct link_fresh. congruence.
  - intros p Hp. apply (Hun (y :: p)). apply walk_cons. eauto.
Qed.

Lemma link_walk_new q : walk ns' new q = if decide (q = []) then Ok new else Err FsNotFound.
Proof.
  destruct link_fresh as [Hfresh Hlnew]. destruct q as [|y q]; [done|]. simpl.
  unfold ns'. rewrite lookup_insert_ne, lookup_insert_eq by done.
  by destruct Hn as [->|[? ->]].
Qed.

Lemma link_walk s p q :
  s <> new -> walk ns s p = Ok l ->
  walk ns' s q =
    if decide (p ++ [x] `prefix_of` q)
    then if decide (q = p ++ [x]) then Ok new else Err FsNotFound
    else walk ns s q.
Proof.
  destruct link_fresh as [Hfresh Hlnew].
  revert s p. induction q as [|y q IH]; intros s p Hs Hp.
  { rewrite decide_False; [done|]. intros [k Hk]. by destruct p. }
  destruct p as [|z p].
  - simpl in Hp. injection Hp as ->. simpl app.
    simpl walk. unfold ns' at 1. rewrite lookup_insert_eq, Hl.
    destruct (decide (y = x)) as [->|Hyx].
    + rewrite lookup_insert_eq, link_walk_new.
      rewrite (decide_True (P:=[x] `prefix_of` x :: q)) by (by exists q).
      repeat case_decide; naive_solver.
    + rewrite lookup_insert_ne by done.
      rewrite (decide_False (P:=[x] `prefix_of` y :: q))
        by (intros ?%prefix_cons_inv_1; naive_solver).
      destruct (m !! y) as [c|] eqn:Ey; [|done].
      assert (He : dir_entry ns l y c) by (by exists m).
      apply Hwf in He as [? [k Hk]]. apply link_walk_unreach; [congruence|].
      intros p Hw. apply walk_le in Hw as [? _]. lia.
  - apply walk_cons in Hp as (d & Hd & Hp).
    assert (s <> l). { apply walk_le in Hp as [? _]. apply Hwf in Hd as [? _]. lia. }
    assert (Hd' := Hd). destruct Hd as (ms & Hms & Hz).
    simpl walk. unfold ns' at 1. rewrite !lookup_insert_ne, Hms by done.
    destruct (decide (y = z)) as [->|Hyz].
    + rewrite Hz. rewrite (IH d p); [| |done].
      2:{ intros ->. apply Hwf in Hd' as [_ [k Hk]]. congruence. }
      assert ((z :: p) ++ [x] `prefix_of` z :: q <-> p ++ [x] `prefix_of` q) as Hiff.
      { split; [apply prefix_cons_inv_2|apply prefix_cons]. }
      repeat case_decide; naive_solver.
    + rewrite (decide_False (P:=(z :: p) ++ [x] `prefix_of` y :: q))
        by (intros ?%prefix_cons_inv_1; naive_solver).
      destruct (ms !! y) as [c|] eqn:Ey; [|done].
      assert (He : dir_entry ns s y c) by (by exists ms).
      apply link_walk_unreach.
      * intros ->. apply Hwf in He as [_ [k Hk]]. congruence.
      * intros p' Hp'. assert (y :: p' = z :: p) as [=]; [|done].
        apply (walk_inj s _ _ l); apply walk_cons; eauto.
Qed.
End store.

(** ** Trees under linking *)

Definition leaf (n : Node) : Prop := n = Directory ∅ \/ exists c, n = File c.

Lemma leaf_dir : leaf (Directory ∅).
Proof. by left. Qed.

Lemma leaf_file c : leaf (File c).
Proof. right. eauto. Qed.
#[export] Hint Resolve leaf_dir leaf_file : rust.

(** What a node may become: a file keeps its content, a directory its entry names. *)
Definition node_le (n n' : Node) : Prop :=
  match n, n' with
  | File c, File c' => c' = c
  | Directory m, Directory m' => dom m ⊆ dom m'
  | _, _ => False
  end.

#[export] Instance node_le_preorder : PreOrder node_le.
Proof.
  split.
  - intros []; simpl; [reflexivity|set_solver].
  - intros [c|m] [c'|m'] [c''|m'']; simpl; try done; [congruence|set_solver].
Qed.

Lemma node_le_view n n' : node_le n n' -> view n' = view n.
Proof. destruct n, n'; simpl; naive_solver. Qed.

(** [ns'] keeps every live node of [ns], at its location. *)
Definition extends (ns ns' : gmap nat Node) : Prop :=
  forall l n, ns !! l = Some n -> exists n', ns' !! l = Some n' /\ node_le n n'.

Lemma extends_refl ns : extends ns ns.
Proof. intros l n ?. by exists n. Qed.

Lemma extends_trans ns1 ns2 ns3 : extends ns1 ns2 -> extends ns2 ns3 -> extends ns1 ns3.
Proof.
  intros H1 H2 l n Hl. apply H1 in Hl as (n' & Hn' & ?). apply H2 in Hn' as (n'' & ? & ?).
  exists n''. split; [done|by etrans].
Qed.
#[export] Hint Resolve extends_refl : rust.

Lemma extends_live ns ns' l : extends ns ns' -> is_Some (ns !! l) -> is_Some (ns' !! l).
Proof. intros H [n Hn]. apply H in Hn as (n' & -> & _). eauto. Qed.

Lemma extends_view ns ns' l v :
  extends ns ns' -> view <$> ns !! l = Some v -> view <$> ns' !! l = Some v.
Proof.
  intros H. destruct (ns !! l) as [n|] eqn:E; [|done]. simpl. intros [= <-].
  apply H in E as (n' & -> & Hv%node_le_view). simpl. congruence.
Qed.

(** The effect of [dir_insert] on a well-formed filesystem, in one place. *)
Record linked (fs fs' : RamFs) (l : nat) (x : string) (n : Node) (new : nat) : Prop := {
  lk_wf : fs_wf fs';
  lk_extends : extends (nodes fs) (nodes fs');
  lk_root : root fs' = root fs;
  lk_handles : open_handles fs' = open_handles fs;
  lk_next_handle : next_handle fs' = next_handle fs;
  lk_next_handle_at : next_handle_at fs' = next_handle_at fs;
  lk_walk : forall s p q, is_Some (nodes fs !! s) -> walk (nodes fs) s p = Ok l ->
    walk (nodes fs') s q =
      if decide (p ++ [x] `prefix_of` q)
      then if decide (q = p ++ [x]) then Ok new else Err FsNotFound
      else walk (nodes fs) s q;
  lk_new : nodes fs' !! new = Some n;
  lk_dir : exists m, nodes fs' !! l = Some (Directory m);
}.

Lemma dir_insert_linked fs l m x n :
  fs_wf fs -> nodes fs !! l = Some (Directory m) -> leaf n -> component x ->
  linked fs (dir_insert fs l m x n).2 l x n (dir_insert fs l m x n).1.
Proof.
  intros [Hst [mr Hr] Hh Hn1 Hn2] Hl Hn Hx. simpl.
  pose proof (link_fresh _ _ Hst l m x n (next_node fs) Hl (le_n _)) as [Hf Hne].
  assert (Hext : extends (nodes fs)
    (<[l:=Directory (<[x:=next_node fs]> m)]> (<[next_node fs:=n]> (nodes fs)))).
  { intros a k Ha. rewrite !lookup_insert. repeat case_decide; subst; simplify_eq;
      (eexists; split; [done|]); simpl; [set_solver|reflexivity]. }
  constructor; simpl; try done.
  - constructor; simpl; try done.
    + apply (link_wf _ _ Hst); auto.
    + destruct (Hext _ _ Hr) as ([|m'] & Hm' & Hv); [by destruct Hv|eauto].
    + intros h a Ha. eapply extends_live; [done|]. eauto.
  - intros s p q Hs Hp. apply (link_walk _ _ Hst); auto.
    intros ->. destruct Hs. congruence.
  - by rewrite lookup_insert_ne, lookup_insert_eq by done.
  - rewrite lookup_insert_eq. eauto.
Qed.

#[global] Arguments dir_insert : simpl never.

Lemma linked_tree fs fs' l x n new s p q :
  fs_wf fs -> linked fs fs' l x n new -> is_Some (nodes fs !! s) ->
  walk (nodes fs) s p = Ok l ->
  tree (nodes fs') s q =
    if decide (p ++ [x] `prefix_of` q)
    then if decide (q = p ++ [x]) then Some (view n) else None
    else tree (nodes fs) s q.
Proof.
  intros Hwf Hlk Hs Hp. unfold tree. rewrite (lk_walk _ _ _ _ _ _ Hlk s p q Hs Hp).
  case_decide; [case_decide; [by rewrite (lk_new _ _ _ _ _ _ Hlk)|done]|].
  destruct (walk (nodes fs) s q) as [c|] eqn:E; [|done].
  destruct (walk_live _ _ (fw_store _ Hwf) _ _ _ Hs E) as [k Hk].
  rewrite Hk. by apply (extends_view _ _ _ _ (lk_extends _ _ _ _ _ _ Hlk)); rewrite Hk.
Qed.

Lemma fs_wf_root_live fs : fs_wf fs -> is_Some (nodes fs !! root fs).
Proof. intros Hwf. destruct (fw_root _ Hwf) as [m ->]. eauto. Qed.
#[export] Hint Resolve fs_wf_root_live : rust.

(** ** Reading trees *)

Lemma tree_app ns s p q :
  tree ns s (p ++ q) = match walk ns s p with Ok l => tree ns l q | Err _ => None end.
Proof. unfold tree. rewrite walk_app. by destruct (walk ns s p). Qed.

Lemma tree_dir_iff fs s p :
  fs_wf fs -> is_Some (nodes fs !! s) ->
  tree (nodes fs) s p = Some VDir <->
  exists l m, walk (nodes fs) s p = Ok l /\ nodes fs !! l = Some (Directory m).
Proof.
  intros Hwf Hs. unfold tree. split.
  - destruct (walk (nodes fs) s p) as [l|] eqn:E; [|done].
    destruct (nodes fs !! l) as [[|m]|] eqn:El; try done. eauto.
  - by intros (l & m & -> & ->).
Qed.

(** Everything below a missing path is missing. *)
Lemma tree_None_below fs s p q :
  fs_wf fs -> is_Some (nodes fs !! s) ->
  tree (nodes fs) s p = None -> tree (nodes fs) s (p ++ q) = None.
Proof.
  intros Hwf Hs. rewrite tree_app. unfold tree at 1.
  destruct (walk (nodes fs) s p) as [l|] eqn:E; [|done].
  destruct (walk_live _ _ (fw_store _ Hwf) _ _ _ Hs E) as [k Hk]. by rewrite Hk.
Qed.

(** ** [mkdir] *)

Lemma last_removelast {A} (l : list A) x : last l = Some x -> l = removelast l ++ [x].
Proof. intros H. apply last_Some in H as [l' ->]. by rewrite removelast_last. Qed.

Lemma last_None_nil {A} (l : list A) : last l = None -> l = [].
Proof. apply last_None. Qed.

Lemma path_parts_last path x : last (path_parts path) = Some x -> component x.
Proof.
  intros (l & E)%last_Some. pose proof (path_parts_component path) as H.
  rewrite E in H. apply Forall_app in H as [_ H]. by inversion H.
Qed.

(** The node [mkdir_at]/[open_at] start from. *)
Definition base_node (fs : RamFs) (base : Z) : option nat :=
  if decide (base = 0) then Some (root fs) else open_handles fs !! base.

Lemma base_node_live fs base s : fs_wf fs -> base_node fs base = Some s -> is_Some (nodes fs !! s).
Proof.
  unfold base_node. intros Hwf. case_decide; intros Hb.
  - simplify_eq. auto with rust.
  - by eapply fw_handles.
Qed.

Lemma prefix_leaf fs s (p q : list string) :
  fs_wf fs -> is_Some (nodes fs !! s) -> tree (nodes fs) s p = None ->
  p `prefix_of` q -> tree (nodes fs) s q = None.
Proof. intros ??? [k ->]. by apply tree_None_below. Qed.

Lemma mkdir_at_spec fs base s path :
  fs_wf fs -> base_node fs base = Some s ->
  let T := tree (nodes fs) s in
  let parts := path_parts path in
  (RamFs_mkdir_at fs base path).1 = spec_mkdir T parts /\
  (forall q, tree (nodes (RamFs_mkdir_at fs base path).2) s q = spec_mkdir_tree T parts q) /\
  ((RamFs_mkdir_at fs base path).2 = fs \/
   exists l x n new, linked fs (RamFs_mkdir_at fs base path).2 l x n new).
Proof.
  intros Hwf Hb T parts. pose proof (base_node_live _ _ _ Hwf Hb) as Hs.
  unfold RamFs_mkdir_at. fold parts. unfold base_node in Hb. rewrite Hb.
  unfold spec_mkdir_tree, spec_mkdir.
  destruct (last parts) as [x|] eqn:Hlast.
  2:{ apply last_None in Hlast. rewrite Hlast. simpl. auto. }
  pose proof (last_removelast _ _ Hlast) as Hsplit.
  rewrite (decide_False (P:=parts = [])) by (rewrite Hsplit; by destruct (removelast parts)).
  set (pp := removelast parts) in *.
  assert (HTp : T pp = match walk (nodes fs) s pp with
     Ok l => view <$> nodes fs !! l | Err _ => None end) by done.
  destruct (walk (nodes fs) s pp) as [l|e] eqn:Ew; rewrite HTp.
  2:{ apply walk_err in Ew as ->. auto. }
  destruct (nodes fs !! l) as [[c|m]|] eqn:El; simpl; [auto| |].
  2:{ destruct (walk_live _ _ (fw_store _ Hwf) _ _ _ Hs Ew) as [k Hk]. congruence. }
  assert (HTx : T parts = match m !! x with Some c => view <$> nodes fs !! c | None => None end).
  { unfold T. rewrite Hsplit, tree_app. rewrite Ew. unfold tree. simpl. rewrite El.
    by destruct (m !! x). }
  rewrite HTx. destruct (m !! x) as [c|] eqn:Ex.
  { assert (He : dir_entry (nodes fs) l x c) by (by exists m).
    apply (fw_store _ Hwf) in He as [_ [k ->]]. simpl. auto. }
  pose proof (dir_insert_linked fs l m x (Directory ∅) Hwf El leaf_dir
    (path_parts_last _ _ Hlast)) as Hlk.
  split; [done|]. split; [|right; eauto]. intros q.
  etrans; [exact (linked_tree _ _ _ _ _ _ s pp q Hwf Hlk Hs Ew)|]. rewrite <- Hsplit.
  destruct (decide (q = parts)) as [->|Hne]; [by rewrite decide_True|].
  destruct (decide (parts `prefix_of` q)); [|reflexivity].
  symmetry. by eapply prefix_leaf.
Qed.

(** ** Growth: what every tree operation preserves *)

Record grown (fs fs' : RamFs) : Prop := {
  gr_wf : fs_wf fs';
  gr_extends : extends (nodes fs) (nodes fs');
  gr_root : root fs' = root fs;
  gr_handles : open_handles fs' = open_handles fs;
  gr_next_handle : next_handle fs' = next_handle fs;
  gr_next_handle_at : next_handle_at fs' = next_handle_at fs;
}.

Lemma grown_refl fs : fs_wf fs -> grown fs fs.
Proof. intros. constructor; auto with rust. Qed.

Lemma grown_trans fs1 fs2 fs3 : grown fs1 fs2 -> grown fs2 fs3 -> grown fs1 fs3.
Proof. intros [] []. constructor; try congruence. by eapply extends_trans. Qed.

Lemma linked_grown fs fs' l x n new : linked fs fs' l x n new -> grown fs fs'.
Proof. intros []. by constructor. Qed.
#[export] Hint Resolve grown_refl linked_grown : rust.

(** ** [add_file] *)

Lemma prefix_snoc_iff {A} (q p : list A) x :
  q `prefix_of` p ++ [x] <-> q `prefix_of` p \/ q = p ++ [x].
Proof.
  split.
  - intros [k Hk]. destruct k as [|y k _] using rev_ind.
    + right. by rewrite app_nil_r in Hk.
    + left. rewrite app_assoc in Hk. apply app_inj_tail in Hk as [-> _]. by exists k.
  - intros [H| ->]; [by apply prefix_app_r|done].
Qed.

Lemma prefix_take_iff {A} (q p : list A) :
  q `prefix_of` p <-> exists k, (k <= length p)%nat /\ q = take k p.
Proof.
  split.
  - intros [k ->]. exists (length q). rewrite length_app, take_app_length. split; [lia|done].
  - intros (k & _ & ->). exists (drop k p). by rewrite take_drop.
Qed.

(** Every prefix of a walkable path is in the tree. *)
Lemma tree_prefix_Some fs s p q l :
  fs_wf fs -> is_Some (nodes fs !! s) -> walk (nodes fs) s p = Ok l ->
  q `prefix_of` p -> tree (nodes fs) s q <> None.
Proof.
  intros Hwf Hs Hp [k ->] Hq.
  pose proof (tree_None_below fs s q k Hwf Hs Hq) as Hn. unfold tree in Hn. rewrite Hp in Hn.
  destruct (walk_live _ _ (fw_store _ Hwf) _ _ _ Hs Hp) as [n Hl]. by rewrite Hl in Hn.
Qed.

Definition or_dir (v : option View) : option View :=
  match v with None => Some VDir | v => v end.

(** The directories [add_file_dirs] passes through, relative to tree [T]. *)
Definition with_dirs (T : Tree) (p : list string) : Tree := fun q =>
  if decide (q `prefix_of` p) then or_dir (T q) else T q.

Definition dirs_spec (fs : RamFs) (p0 rest : list string) (r : option nat * RamFs) : Prop :=
  match r with
  | (None, fs') =>
      fs' = fs /\
      exists k, (k < length rest)%nat /\ is_file (fs_tree fs (p0 ++ take k rest)) = true
  | (Some cur, fs') =>
      grown fs fs' /\ walk (nodes fs') (root fs') (p0 ++ rest) = Ok cur /\
      (forall k, (k < length rest)%nat -> is_file (fs_tree fs (p0 ++ take k rest)) = false) /\
      forall q, fs_tree fs' q = with_dirs (fs_tree fs) (p0 ++ rest) q
  end.

(** One step of the loop through an existing entry. *)
Lemma dirs_spec_enter fs p0 part rest r :
  fs_tree fs p0 = Some VDir -> dirs_spec fs (p0 ++ [part]) rest r -> dirs_spec fs p0 (part :: rest) r.
Proof.
  intros Hdir. destruct r as [[cur|] fs']; simpl.
  - rewrite <- app_assoc. intros (Hg & Hw & Hk & Ht). split_and!; auto.
    intros [|k] Hlt; simpl.
    + by rewrite app_nil_r, Hdir.
    + specialize (Hk k). rewrite <- app_assoc in Hk. apply Hk. lia.
  - intros (-> & k & Hk & Hf). split; [done|]. exists (S k). split; [lia|].
    rewrite <- app_assoc in Hf. done.
Qed.

(** One step of the loop that creates the directory [part]. *)
Lemma dirs_spec_create fs fs1 p0 l part new rest r :
  fs_wf fs -> linked fs fs1 l part (Directory ∅) new ->
  walk (nodes fs) (root fs) p0 = Ok l -> fs_tree fs p0 = Some VDir ->
  fs_tree fs (p0 ++ [part]) = None ->
  dirs_spec fs1 (p0 ++ [part]) rest r -> dirs_spec fs p0 (part :: rest) r.
Proof.
  intros Hwf Hlk Hw Hdir Hnone.
  pose proof (fs_wf_root_live _ Hwf) as Hr.
  assert (HT1 : forall q, fs_tree fs1 q =
    if decide (p0 ++ [part] `prefix_of` q)
    then if decide (q = p0 ++ [part]) then Some VDir else None else fs_tree fs q).
  { intros q. unfold fs_tree. rewrite (lk_root _ _ _ _ _ _ Hlk).
    by apply (linked_tree _ _ _ _ _ _ _ _ q Hwf Hlk). }
  assert (Hbelow : forall q, p0 ++ [part] `prefix_of` q -> fs_tree fs q = None).
  { intros q. by apply prefix_leaf. }
  destruct r as [[cur|] fs']; simpl.
  - rewrite <- app_assoc. intros (Hg & Hwalk & _ & Ht). split_and!; auto.
    + eapply grown_trans; [by eapply linked_grown|done].
    + intros [|k] Hlt; simpl; [by rewrite app_nil_r, Hdir|].
      rewrite Hbelow; [done|]. exists (take k rest). by rewrite <- app_assoc.
    + intros q. rewrite Ht. unfold with_dirs.
      change (p0 ++ part :: rest) with (p0 ++ [part] ++ rest). rewrite HT1.
      destruct (decide (p0 ++ [part] `prefix_of` q)) as [Hp|]; [|done].
      rewrite (Hbelow q Hp).
      destruct (decide (q `prefix_of` p0 ++ [part] ++ rest)) as [|Hnp];
        case_decide as Hq; try done.
      destruct Hnp. rewrite Hq. exists rest. by rewrite <- app_assoc.
  - intros (-> & k & _ & Hf). exfalso. rewrite HT1 in Hf.
    rewrite decide_True in Hf by (by apply prefix_app_r). by case_decide.
Qed.

Lemma add_file_dirs_spec fs cur p0 rest :
  fs_wf fs -> walk (nodes fs) (root fs) p0 = Ok cur -> Forall component rest ->
  dirs_spec fs p0 rest (add_file_dirs fs cur rest).
Proof.
  revert fs cur p0. induction rest as [|part rest IH]; intros fs cur p0 Hwf Hw Hc.
  { simpl. split_and!; [auto with rust|by rewrite app_nil_r|intros; lia|].
    intros q. unfold with_dirs. case_decide as Hp; [|done]. rewrite app_nil_r in Hp.
    pose proof (tree_prefix_Some fs _ _ _ _ Hwf (fs_wf_root_live _ Hwf) Hw Hp).
    unfold fs_tree. by destruct (tree (nodes fs) (root fs) q). }
  apply Forall_cons in Hc as [Hx Hc].
  destruct (walk_live _ _ (fw_store _ Hwf) _ _ _ (fs_wf_root_live _ Hwf) Hw) as [n Hn].
  assert (Hv : fs_tree fs p0 = Some (view n)) by (unfold fs_tree, tree; by rewrite Hw, Hn).
  assert (Hchild : forall m c, n = Directory m -> m !! part = Some c ->
    walk (nodes fs) (root fs) (p0 ++ [part]) = Ok c).
  { intros m c -> Hm. rewrite walk_app, Hw. simpl. by rewrite Hn, Hm. }
  cbn [add_file_dirs]. rewrite Hn. destruct n as [content|m].
  { split; [done|]. exists 0%nat. simpl. rewrite app_nil_r, Hv. split; [lia|done]. }
  destruct (m !! part) as [next|] eqn:Em.
  { apply dirs_spec_enter; [done|]. apply IH; eauto. }
  pose proof (dir_insert_linked fs cur m part (Directory ∅) Hwf Hn leaf_dir Hx) as Hlk.
  destruct (dir_insert fs cur m part (Directory ∅)) as [new fs1]. simpl in Hlk.
  eapply dirs_spec_create; eauto.
  - unfold fs_tree. rewrite tree_app, Hw. unfold tree. simpl. by rewrite Hn, Em.
  - apply IH; [by destruct Hlk| |done].
    rewrite (lk_root _ _ _ _ _ _ Hlk), (lk_walk _ _ _ _ _ _ Hlk _ p0); auto with rust.
    by rewrite !decide_True.
Qed.

Lemma blocked_true T parts k :
  (k < length parts)%nat -> is_file (T (take k parts)) = true -> blocked T parts = true.
Proof.
  intros Hk Hf. apply existsb_exists. exists k. split; [|done].
  apply in_seq. lia.
Qed.

Lemma blocked_false T parts :
  (forall k, (k < length parts)%nat -> is_file (T (take k parts)) = false) ->
  blocked T parts = false.
Proof.
  intros H. apply not_true_iff_false. intros (k & Hk%in_seq & Hf)%existsb_exists.
  rewrite H in Hf by lia. done.
Qed.

Lemma add_file_grown fs path content :
  fs_wf fs -> grown fs (RamFs_add_file fs path content).
Proof.
  intros Hwf. unfold RamFs_add_file.
  destruct (last (path_parts path)) as [x|] eqn:Hlast; [|auto with rust].
  assert (Hc : Forall component (removelast (path_parts path))).
  { pose proof (path_parts_component path) as Hc. rewrite (last_removelast _ _ Hlast) in Hc.
    by apply Forall_app in Hc as []. }
  pose proof (add_file_dirs_spec fs (root fs) [] _ Hwf eq_refl Hc) as Hs.
  destruct (add_file_dirs fs (root fs) _) as [[cur|] fs1].
  - destruct Hs as (Hg & _). destruct (nodes fs1 !! cur) as [[|m]|] eqn:E; [done| |done].
    eapply grown_trans; [done|]. eapply linked_grown, dir_insert_linked; auto with rust.
    + by destruct Hg.
    + by eapply path_parts_last.
  - destruct Hs as [-> _]. auto with rust.
Qed.

(** [fs_tree] after the directory loop and the final insertion. *)
(** The tree with the directories of a path added: nothing changes when the path
    is a file, and without files on the way every prefix is a directory. *)
Lemma with_dirs_file fs pp c q :
  fs_wf fs -> fs_tree fs pp = Some (VFile c) -> with_dirs (fs_tree fs) pp q = fs_tree fs q.
Proof.
  intros Hwf HT. unfold with_dirs. case_decide as Hp; [|done]. destruct Hp as [k Hpk].
  destruct (fs_tree fs q) eqn:Eq; [done|]. exfalso.
  pose proof (tree_None_below fs _ q k Hwf (fs_wf_root_live _ Hwf) Eq) as Hbad.
  rewrite <- Hpk in Hbad. unfold fs_tree in HT. congruence.
Qed.

Lemma with_dirs_dirs (T : Tree) pp x q :
  (forall k, (k <= length pp)%nat -> is_file (T (take k pp)) = false) ->
  ~ (pp ++ [x] `prefix_of` q) ->
  with_dirs T pp q = if decide (q `prefix_of` pp ++ [x]) then Some VDir else T q.
Proof.
  intros Hk Hnp. unfold with_dirs.
  assert (Hiff : q `prefix_of` pp ++ [x] <-> q `prefix_of` pp).
  { rewrite prefix_snoc_iff. split; [|by left]. intros [|E]; [done|]. destruct Hnp. by rewrite E. }
  destruct (decide (q `prefix_of` pp)) as [Hp|];
    [rewrite decide_True by naive_solver|rewrite decide_False by naive_solver; done].
  apply prefix_take_iff in Hp as (k & Hle & ->). specialize (Hk k Hle).
  by destruct (T (take k pp)) as [[]|].
Qed.

Lemma add_file_tree fs path content q :
  fs_wf fs ->
  fs_tree (RamFs_add_file fs path content) q =
    spec_add_file (fs_tree fs) (path_parts path) content q.
Proof.
  intros Hwf. unfold RamFs_add_file, spec_add_file.
  set (parts := path_parts path). set (T := fs_tree fs).
  destruct (last parts) as [x|] eqn:Hlast.
  2:{ apply last_None in Hlast. by rewrite decide_True. }
  pose proof (last_removelast _ _ Hlast) as Hsplit.
  set (pp := removelast parts) in *.
  assert (Hlen : length parts = S (length pp)) by (rewrite Hsplit, length_app; simpl; lia).
  rewrite (decide_False (P:=parts = [])) by (intros E; by rewrite E in Hlen).
  assert (Hc : Forall component pp).
  { pose proof (path_parts_component path) as Hc. fold parts in Hc. rewrite Hsplit in Hc.
    by apply Forall_app in Hc as []. }
  assert (Htake : forall k, (k <= length pp)%nat -> take k parts = take k pp).
  { intros k Hk. by rewrite Hsplit, take_app_le. }
  pose proof (add_file_dirs_spec fs (root fs) [] pp Hwf eq_refl Hc) as Hs.
  destruct (add_file_dirs fs (root fs) pp) as [[cur|] fs1].
  2:{ destruct Hs as (-> & k & Hk & Hf). simpl in Hf.
      rewrite (blocked_true _ _ k); [done|lia|]. rewrite Htake by lia. done. }
  destruct Hs as (Hg & Hw & Hk & Ht). simpl in Hw, Ht, Hk. fold T in Ht, Hk.
  pose proof (fs_wf_root_live _ (gr_wf _ _ Hg)) as Hr1.
  destruct (walk_live _ _ (fw_store _ (gr_wf _ _ Hg)) _ _ _ Hr1 Hw) as [n Hn].
  assert (Hpp : or_dir (T pp) = Some (view n)).
  { specialize (Ht pp). unfold with_dirs in Ht. rewrite decide_True in Ht by done.
    rewrite <- Ht. unfold fs_tree, tree. by rewrite Hw, Hn. }
  rewrite Hn. destruct n as [c|m].
  - assert (HT : T pp = Some (VFile c)) by (by destruct (T pp)).
    rewrite (blocked_true _ _ (length pp)); [|lia|rewrite Htake, firstn_all by lia; by rewrite HT].
    rewrite Ht. by eapply with_dirs_file.
  - assert (Hk' : forall k, (k <= length pp)%nat -> is_file (T (take k pp)) = false).
    { intros k Hle. destruct (decide (k < length pp)%nat); [by apply Hk|].
      rewrite firstn_all2 by lia. by destruct (T pp) as [[]|]. }
    rewrite blocked_false by (intros k Hlt; rewrite Htake by lia; apply Hk'; lia).
    pose proof (dir_insert_linked fs1 cur m x (File content) (gr_wf _ _ Hg) Hn (leaf_file _)
      (path_parts_last _ _ Hlast)) as Hlk.
    destruct (dir_insert fs1 cur m x (File content)) as [new fs2]; simpl in *.
    unfold fs_tree at 1. rewrite (lk_root _ _ _ _ _ _ Hlk).
    rewrite (linked_tree _ _ _ _ _ _ _ _ q (gr_wf _ _ Hg) Hlk Hr1 Hw), <- Hsplit.
    destruct (decide (parts `prefix_of` q)) as [|Hnp]; [done|].
    change (tree (nodes fs1) (root fs1) q) with (fs_tree fs1 q).
    rewrite Ht, (with_dirs_dirs T pp x q Hk'), <- Hsplit; [done|]. by rewrite <- Hsplit.
Qed.

(** ** Opening *)

Lemma insert_handle_wf fs h l nh nha :
  fs_wf fs -> is_Some (nodes fs !! l) -> fits 32 nh -> fits 32 nha ->
  fs_wf (insert_handle fs h l nh nha).
Proof.
  intros [] Hl ? ?. constructor; simpl; try done.
  intros h' l'. rewrite lookup_insert. case_decide; naive_solver.
Qed.

Lemma open_wf fs path : fs_wf fs -> fs_wf (RamFs_open fs path).2.
Proof.
  intros Hwf. unfold RamFs_open, RamFs_resolve_path.
  destruct (walk _ _ _) as [l|] eqn:E; [|done]. simpl.
  apply insert_handle_wf; [done| |apply wrap_range; lia|by destruct Hwf].
  eapply walk_live; [by destruct Hwf| |done]. auto with rust.
Qed.

Lemma open_at_wf fs base path : fs_wf fs -> fs_wf (RamFs_open_at fs base path).2.
Proof.
  intros Hwf. unfold RamFs_open_at. destruct (open_handles fs !! base) as [b|] eqn:Eb; [|done].
  destruct (walk _ _ _) as [l|] eqn:E; [|done]. simpl.
  apply insert_handle_wf; [done| |by destruct Hwf|apply wrap_range; lia].
  eapply walk_live; [by destruct Hwf| |done]. by eapply fw_handles.
Qed.

Lemma close_wf fs h : fs_wf fs -> fs_wf (RamFs_close fs h).
Proof.
  intros []. constructor; simpl; try done.
  intros h' l. rewrite lookup_delete. case_decide; naive_solver.
Qed.

Lemma mkdir_at_grown fs base path : fs_wf fs -> grown fs (RamFs_mkdir_at fs base path).2.
Proof.
  intros Hwf. destruct (base_node fs base) as [s|] eqn:Hb.
  - destruct (mkdir_at_spec fs base s path Hwf Hb) as (_ & _ & [-> |(l & x & n & new & Hlk)]);
      eauto with rust.
  - unfold RamFs_mkdir_at, base_node in *. rewrite Hb.
    destruct (last _); auto with rust.
Qed.
#[export] Hint Resolve open_wf open_at_wf close_wf : rust.

(** Adding a new entry keeps every path. *)
Lemma dir_insert_walk fs l m x n s p c :
  nodes fs !! next_node fs = None -> nodes fs !! l = Some (Directory m) -> m !! x = None ->
  walk (nodes fs) s p = Ok c -> walk (nodes (dir_insert fs l m x n).2) s p = Ok c.
Proof.
  intros Hf Hl Hx. revert s. induction p as [|y p IH]; intros s; [done|]. simpl.
  rewrite !lookup_insert. repeat case_decide; subst; rewrite ?Hf, ?Hl; try done.
  - destruct (decide (x = y)) as [->|]; [by rewrite Hx|].
    rewrite lookup_insert_ne by done. destruct (m !! y); [apply IH|done].
  - destruct (nodes fs !! s) as [[|m']|]; [done| |done]. destruct (m' !! y); [apply IH|done].
Qed.

Lemma mkdir_at_walk fs base path s p c :
  fs_wf fs -> walk (nodes fs) s p = Ok c ->
  walk (nodes (RamFs_mkdir_at fs base path).2) s p = Ok c.
Proof.
  intros Hwf Hp. unfold RamFs_mkdir_at. destruct (last _) as [x|]; [|done].
  destruct (if decide _ then _ else _) as [st|]; [|done].
  destruct (walk (nodes fs) st _) as [l|]; [|done].
  destruct (nodes fs !! l) as [[|m]|] eqn:El; [done| |done].
  destruct (m !! x) eqn:Ex; [done|]. apply dir_insert_walk; auto.
  destruct (nodes fs !! next_node fs) eqn:E; [|done].
  apply (sw_bound _ _ (fw_store _ Hwf)) in E. lia.
Qed.

Lemma fs_step_wf fs op : fs_wf fs -> fs_wf (fs_step fs op).
Proof.
  intros Hwf. destruct op; simpl; auto with rust.
  - by apply add_file_grown.
  - by apply mkdir_at_grown.
Qed.

Lemma fs_new_wf : fs_wf RamFs_new.
Proof.
  constructor; simpl; try (unfold fits; lia); [constructor| |].
  - intros l n. rewrite lookup_singleton. case_decide; [lia|done].
  - intros l x c (m & Hm & Hc). rewrite lookup_singleton in Hm. by case_decide; simplify_eq.
  - intros l1 x1 l2 x2 c (m & Hm & Hc). rewrite lookup_singleton in Hm. by case_decide; simplify_eq.
  - intros l x c (m & Hm & Hc). rewrite lookup_singleton in Hm. by case_decide; simplify_eq.
  - exists ∅. done.
  - intros h l. by rewrite lookup_empty.
Qed.

Lemma fs_run_cons fs op ops : fs_run fs (op :: ops) = fs_run (fs_step fs op) ops.
Proof. done. Qed.

Lemma fs_run_app fs ops1 ops2 : fs_run fs (ops1 ++ ops2) = fs_run (fs_run fs ops1) ops2.
Proof. apply foldl_app. Qed.

Lemma fs_run_preserves_wf fs ops : fs_wf fs -> fs_wf (fs_run fs ops).
Proof. revert fs. induction ops; intros; [done|]. rewrite fs_run_cons. auto using fs_step_wf. Qed.
#[export] Hint Resolve fs_new_wf fs_run_preserves_wf : rust.

(** ** Handles

    Live handles come from one of the two counters. *)
Definition handles_wf (fs : RamFs) : Prop :=
  10000 <= next_handle_at fs /\ 1 <= next_handle fs /\
  forall h l, open_handles fs !! h = Some l ->
    1 <= h < next_handle fs \/ 10000 <= h < next_handle_at fs.

Definition op_opens (op : FsOp) : Z := match op with OpOpen _ => 1 | _ => 0 end.
Definition op_opens_at (op : FsOp) : Z := match op with OpOpenAt _ _ => 1 | _ => 0 end.
Definition opens (ops : list FsOp) : Z := foldr (fun op n => op_opens op + n) 0 ops.
Definition opens_at (ops : list FsOp) : Z := foldr (fun op n => op_opens_at op + n) 0 ops.

Lemma opens_nonneg ops : 0 <= opens ops.
Proof. induction ops as [|[]]; simpl; lia. Qed.
Lemma opens_at_nonneg ops : 0 <= opens_at ops.
Proof. induction ops as [|[]]; simpl; lia. Qed.

(** No counter overflows and [NEXT_HANDLE] stays below the first handle
    [open_at] issues. *)
Definition handle_budget (fs : RamFs) (ops : list FsOp) : Prop :=
  next_handle fs + opens ops <= 10000 /\ next_handle_at fs + opens_at ops < 2 ^ 32.

(** A handle just issued by a counter was not live. *)
Lemma handle_fresh fs h :
  handles_wf fs -> h = next_handle fs /\ h < 10000 \/ h = next_handle_at fs /\ next_handle fs <= 10000 ->
  open_handles fs !! h = None.
Proof.
  intros (Ha & Hb & Hh) Hc. destruct (open_handles fs !! h) eqn:E; [|done].
  apply Hh in E. lia.
Qed.

Lemma insert_handle_range fs h l nh nha :
  handles_wf fs -> next_handle fs <= nh -> next_handle_at fs <= nha ->
  1 <= h < nh \/ 10000 <= h < nha -> handles_wf (insert_handle fs h l nh nha).
Proof.
  intros (Ha & Hb & Hh) ? ? Hc. split_and!; simpl; try lia.
  intros h' l'. rewrite lookup_insert. case_decide; intros Hl; [simplify_eq; lia|].
  apply Hh in Hl. lia.
Qed.

Lemma grown_handles_wf fs fs' : grown fs fs' -> handles_wf fs -> handles_wf fs'.
Proof.
  intros []. unfold handles_wf. by rewrite gr_handles0, gr_next_handle0, gr_next_handle_at0.
Qed.

(** The counters after one operation. *)
Lemma fs_step_counters fs op :
  fs_wf fs -> handles_wf fs -> handle_budget fs [op] ->
  handles_wf (fs_step fs op) /\
  next_handle fs <= next_handle (fs_step fs op) <= next_handle fs + op_opens op /\
  next_handle_at fs <= next_handle_at (fs_step fs op) <= next_handle_at fs + op_opens_at op.
Proof.
  intros Hwf Hhw [Hb1 Hb2]. pose proof Hhw as (Ha & Hb & Hh). simpl in Hb1, Hb2.
  assert (Hgr : forall fs', grown fs fs' -> handles_wf fs' /\
    next_handle fs <= next_handle fs' <= next_handle fs + 0 /\
    next_handle_at fs <= next_handle_at fs' <= next_handle_at fs + 0).
  { intros fs' Hg. split; [by eapply grown_handles_wf|]. destruct Hg. lia. }
  destruct op as [p c|p|b p|b p|h']; simpl in *.
  - apply Hgr. by apply add_file_grown.
  - unfold RamFs_open. destruct (RamFs_resolve_path fs p); simpl; [|split_and!; auto; lia].
    rewrite wrap_small by (unfold fits; lia). split; [apply insert_handle_range; auto; lia|lia].
  - unfold RamFs_open_at. destruct (open_handles fs !! b); simpl; [|split_and!; auto; lia].
    destruct (walk _ _ _); simpl; [|split_and!; auto; lia].
    rewrite wrap_small by (unfold fits; lia). split; [apply insert_handle_range; auto; lia|lia].
  - apply Hgr. by apply mkdir_at_grown.
  - split; [|lia]. split_and!; simpl; try lia.
    intros h'' l'. rewrite lookup_delete. case_decide; [done|]. apply Hh.
Qed.

(** No operation but its [close] re-points an open handle. *)
Lemma fs_step_handle fs op h l :
  handles_wf fs -> handle_budget fs [op] -> fs_wf fs ->
  open_handles fs !! h = Some l -> op <> OpClose h -> open_handles (fs_step fs op) !! h = Some l.
Proof.
  intros Hhw [Hb1 Hb2] Hwf Hl Hcl. simpl in Hb1, Hb2.
  assert (Hins : forall h' l', open_handles fs !! h' = None ->
    <[h':=l']> (open_handles fs) !! h = Some l).
  { intros. rewrite lookup_insert_ne by congruence. done. }
  destruct op as [p c|p|b p|b p|h']; simpl in *.
  - by rewrite (gr_handles _ _ (add_file_grown _ _ _ Hwf)).
  - unfold RamFs_open. destruct (RamFs_resolve_path fs p); [|done]. simpl.
    apply Hins, handle_fresh; [done|lia].
  - unfold RamFs_open_at. destruct (open_handles fs !! b); [|done].
    destruct (walk _ _ _); [|done]. simpl. apply Hins, handle_fresh; [done|lia].
  - by rewrite (gr_handles _ _ (mkdir_at_grown _ _ _ Hwf)).
  - by rewrite lookup_delete_ne by naive_solver.
Qed.

(** A handle that one of the two counters has issued. *)
Definition issued (fs : RamFs) (h : Z) : Prop :=
  1 <= h < next_handle fs \/ 10000 <= h < next_handle_at fs.

(** An issued handle that is open after an operation was open, on the same node,
    before it. *)
Lemma fs_step_old_handle fs op h l :
  fs_wf fs -> handles_wf fs -> handle_budget fs [op] -> issued fs h ->
  open_handles (fs_step fs op) !! h = Some l -> open_handles fs !! h = Some l.
Proof.
  intros Hwf (Ha & Hb & _) [Hb1 Hb2] Hi. unfold issued in Hi. simpl in Hb1, Hb2.
  destruct op as [p c|p|b p|b p|h']; simpl in *.
  - by rewrite (gr_handles _ _ (add_file_grown _ _ _ Hwf)).
  - unfold RamFs_open. destruct (RamFs_resolve_path fs p); [|done]. simpl. by rewrite lookup_insert_ne by lia.
  - unfold RamFs_open_at. destruct (open_handles fs !! b); [|done].
    destruct (walk _ _ _); [|done]. simpl. by rewrite lookup_insert_ne by lia.
  - by rewrite (gr_handles _ _ (mkdir_at_grown _ _ _ Hwf)).
  - by intros [_ ?]%lookup_delete_Some.
Qed.

(** The operations of the trait keep every path; only [add_file] replaces entries. *)
Lemma fs_step_walk fs op s p c :
  fs_wf fs -> (forall p c, op <> OpAddFile p c) ->
  walk (nodes fs) s p = Ok c -> walk (nodes (fs_step fs op)) s p = Ok c.
Proof.
  intros Hwf Hop. destruct op as [q c'|q|b q|b q|h']; simpl; [by destruct (Hop q c')|..|done].
  - unfold RamFs_open. by destruct (RamFs_resolve_path fs q).
  - unfold RamFs_open_at. destruct (open_handles fs !! b); [|done]. by destruct (walk _ _ (path_parts q)).
  - by apply mkdir_at_walk.
Qed.

(** Nodes are never taken away or exchanged. *)
Lemma fs_step_extends fs op : fs_wf fs -> extends (nodes fs) (nodes (fs_step fs op)).
Proof.
  intros Hwf. destruct op as [p c|p|b p|b p|h']; simpl.
  - by apply gr_extends, add_file_grown.
  - unfold RamFs_open. destruct (RamFs_resolve_path fs p); auto with rust.
  - unfold RamFs_open_at. destruct (open_handles fs !! b); [|auto with rust].
    destruct (walk _ _ _); auto with rust.
  - by apply gr_extends, mkdir_at_grown.
  - auto with rust.
Qed.

Lemma fs_run_extends fs ops : fs_wf fs -> extends (nodes fs) (nodes (fs_run fs ops)).
Proof.
  revert fs. induction ops as [|op ops IH]; intros fs Hwf; [apply extends_refl|].
  rewrite fs_run_cons. eapply extends_trans; [by apply fs_step_extends|].
  apply IH. by apply fs_step_wf.
Qed.

Lemma fs_run_handles fs ops h l :
  fs_wf fs -> handles_wf fs -> handle_budget fs ops ->
  open_handles fs !! h = Some l -> OpClose h ∉ ops ->
  open_handles (fs_run fs ops) !! h = Some l.
Proof.
  revert fs. induction ops as [|op ops IH]; intros fs Hwf Hhw [Hb1 Hb2] Hv Hcl; [done|].
  apply not_elem_of_cons in Hcl as [Hop Hcl]. simpl in Hb1, Hb2.
  pose proof (opens_nonneg ops). pose proof (opens_at_nonneg ops).
  assert (handle_budget fs [op]) by (split; simpl; lia).
  destruct (fs_step_counters fs op Hwf Hhw) as (? & ? & ?); [done|].
  rewrite fs_run_cons. apply IH; auto using fs_step_wf, fs_step_handle. split; lia.
Qed.

Lemma fs_run_counters fs ops1 ops2 :
  fs_wf fs -> handles_wf fs -> handle_budget fs (ops1 ++ ops2) ->
  handles_wf (fs_run fs ops1) /\ handle_budget (fs_run fs ops1) ops2.
Proof.
  revert fs. induction ops1 as [|op ops1 IH]; intros fs Hwf Hhw [Hb1 Hb2]; [done|].
  simpl in Hb1, Hb2. pose proof (opens_nonneg (ops1 ++ ops2)).
  pose proof (opens_at_nonneg (ops1 ++ ops2)).
  destruct (fs_step_counters fs op Hwf Hhw) as (? & ? & ?); [split; simpl; lia|].
  rewrite fs_run_cons. apply IH; auto using fs_step_wf. split; lia.
Qed.

(** [n] calls of [open] advance [NEXT_HANDLE] by [n] and leave other handles alone. *)
Lemma fs_run_opens fs path l n h :
  walk (nodes fs) (root fs) (path_parts path) = Ok l ->
  0 <= next_handle fs -> next_handle fs + Z.of_nat n < 2 ^ 32 ->
  next_handle fs + Z.of_nat n <= h ->
  let fs' := fs_run fs (replicate n (OpOpen path)) in
  nodes fs' = nodes fs /\ root fs' = root fs /\
  next_handle fs' = next_handle fs + Z.of_nat n /\
  open_handles fs' !! h = open_handles fs !! h.
Proof.
  revert fs. induction n as [|n IH]; intros fs Hw H0 Hn Hh fs'.
  { unfold fs'. simpl. split_and!; try done. lia. }
  unfold fs'. change (replicate (S n) (OpOpen path)) with (OpOpen path :: replicate n (OpOpen path)).
  rewrite fs_run_cons. simpl fs_step. unfold RamFs_open, RamFs_resolve_path. rewrite Hw. simpl.
  edestruct (IH (insert_handle fs (next_handle fs) l (as_u32 (next_handle fs + 1)) (next_handle_at fs)))
    as (E1 & E2 & E3 & E4); simpl; auto.
  1-3: rewrite wrap_small; unfold fits; lia.
  rewrite E1, E2, E3, E4. simpl. rewrite wrap_small by (unfold fits; lia).
  rewrite lookup_insert_ne by lia. split_and!; auto; lia.
Qed.

(** ** Reading *)

Lemma handle_view_lookup fs h v :
  handle_view fs h = Some v <->
  exists l n, open_handles fs !! h = Some l /\ nodes fs !! l = Some n /\ view n = v.
Proof.
  unfold handle_view. destruct (open_handles fs !! h) as [l|]; simpl.
  - destruct (nodes fs !! l) as [n|] eqn:E; simpl; split.
    + intros [= <-]. eauto.
    + intros (? & ? & [= <-] & ? & <-). congruence.
    + done.
    + intros (? & ? & [= <-] & ? & <-). congruence.
  - split; [done|]. by intros (? & ? & ? & _).
Qed.

Lemma handle_view_file fs h content :
  handle_view fs h = Some (VFile content) <->
  exists l, open_handles fs !! h = Some l /\ nodes fs !! l = Some (File content).
Proof.
  rewrite handle_view_lookup. split.
  - intros (l & [c|m] & ? & ? & ?); naive_solver.
  - intros (l & ? & ?). by exists l, (File content).
Qed.

(** The number of bytes a read at [offset] into a buffer of [blen] bytes returns. *)
Definition read_count (content : list byte) (blen offset : Z) : Z :=
  Z.max 0 (Z.min blen (Z.of_nat (length content) - offset)).

Lemma read_file fs h content buffer offset :
  handle_view fs h = Some (VFile content) -> 0 <= offset ->
  Z.of_nat (length content) <= isize_max -> Z.of_nat (length buffer) <= isize_max ->
  let n := read_count content (Z.of_nat (length buffer)) offset in
  RamFs_read fs h buffer offset =
    Return (Ok (n, take (Z.to_nat n) (drop (Z.to_nat offset) content) ++ drop (Z.to_nat n) buffer)).
Proof.
  intros (l & Hl & Hn)%handle_view_file Ho Hc Hb n. unfold RamFs_read. rewrite Hl, Hn.
  unfold isize_max in *. unfold n, read_count. case_decide as Hd.
  - by rewrite Z.max_l by lia.
  - rewrite wrap_small by (unfold fits; lia). rewrite decide_False by lia.
    repeat f_equal; lia.
Qed.

Lemma open_view fs path v :
  fs_tree fs (path_parts path) = Some v ->
  exists fs', RamFs_open fs path = (Ok (next_handle fs), fs') /\
    handle_view fs' (next_handle fs) = Some v.
Proof.
  unfold fs_tree, tree, RamFs_open, RamFs_resolve_path.
  destruct (walk _ _ _) as [l|]; [|done]. intros Hl. eexists. split; [done|].
  unfold handle_view. simpl. by rewrite lookup_insert_eq.
Qed.

(** ** Properties *)

(** C7: every history of filesystem calls from the empty filesystem keeps the
    invariant: the root is a directory, directory entries name live nodes
    created after their directory (so there are no cycles), each node has at
    most one parent entry, entry names are path components, and every open
    handle refers to a live node. *)
Theorem ramfs_history_invariant (ops : list FsOp) : fs_wf (fs_run RamFs_new ops).
Proof. auto with rust. Qed.

(** C6: [mkdir_at] refines the abstract [mkdir] on the tree seen from its base
    (the root for handle 0): it returns exactly the abstract result, error
    codes included, and the new tree is the abstract one; in particular nothing
    changes on an error and only the new directory appears on success. *)
Theorem ramfs_mkdir_refines (fs : RamFs) (base : Z) (s : nat) (path : string) :
  fs_wf fs -> base_node fs base = Some s ->
  (RamFs_mkdir_at fs base path).1 = spec_mkdir (tree (nodes fs) s) (path_parts path) /\
  forall q, tree (nodes (RamFs_mkdir_at fs base path).2) s q =
    spec_mkdir_tree (tree (nodes fs) s) (path_parts path) q.
Proof. intros Hwf Hb. by destruct (mkdir_at_spec fs base s path Hwf Hb) as (? & ? & _). Qed.

Lemma ramfs_mkdir_refines_witness :
  let fs := fs_run RamFs_new [OpMkdirAt 0 "etc"] in
  (RamFs_mkdir_at fs 0 "etc/net").1 = Ok tt /\
  tree (nodes (RamFs_mkdir_at fs 0 "etc/net").2) 0%nat ["etc"; "net"] = Some VDir.
Proof.
  pose proof (ramfs_mkdir_refines (fs_run RamFs_new [OpMkdirAt 0 "etc"]) 0 0 "etc/net"
    (fs_run_preserves_wf _ _ fs_new_wf) eq_refl) as [H1 H2].
  split; [exact (eq_trans H1 eq_refl)|exact (eq_trans (H2 _) eq_refl)].
Defined.

(** C5: [add_file] refines the abstract operation: it creates the missing parent
    directories and the file, replaces whatever the path named before together
    with everything below it, leaves every other path alone, and changes
    nothing when the path is empty or runs through a file. *)
Theorem ramfs_add_file_refines (fs : RamFs) (path : string) (content : list byte)
    (q : list string) :
  fs_wf fs ->
  fs_tree (RamFs_add_file fs path content) q =
    spec_add_file (fs_tree fs) (path_parts path) content q.
Proof. apply add_file_tree. Qed.

Lemma ramfs_add_file_refines_witness :
  fs_tree (RamFs_add_file RamFs_new "bin/hello" [x00; x61]) ["bin"; "hello"] =
    Some (VFile [x00; x61]) /\
  fs_tree (RamFs_add_file RamFs_new "bin/hello" [x00; x61]) ["bin"] = Some VDir.
Proof.
  split.
  - exact (eq_trans (ramfs_add_file_refines RamFs_new "bin/hello" [x00; x61] ["bin"; "hello"] fs_new_wf) eq_refl).
  - exact (eq_trans (ramfs_add_file_refines RamFs_new "bin/hello" [x00; x61] ["bin"] fs_new_wf) eq_refl).
Defined.

(** C10: reading through an open file handle never panics and never overflows:
    for every offset it copies [min(len, size - offset)] bytes (0 at or past the
    end) of the content at that offset to the front of the buffer and leaves
    the rest of the buffer as it was. *)
Theorem ramfs_read_correct (fs : RamFs) (h : Z) (content buffer : list byte) (offset : Z) :
  handle_view fs h = Some (VFile content) -> fits 64 offset ->
  Z.of_nat (length content) <= isize_max -> Z.of_nat (length buffer) <= isize_max ->
  let n := Z.max 0 (Z.min (Z.of_nat (length buffer)) (Z.of_nat (length content) - offset)) in
  exists buffer', RamFs_read fs h buffer offset = Return (Ok (n, buffer')) /\
    length buffer' = length buffer /\
    (forall i : nat, Z.of_nat i < n -> buffer' !! i = content !! (Z.to_nat offset + i)%nat) /\
    (forall i : nat, n <= Z.of_nat i -> buffer' !! i = buffer !! i).
Proof.
  intros Hv [Ho _] Hc Hb n. rewrite (read_file fs h content) by done.
  unfold read_count. fold n. eexists. split; [done|].
  assert (Hlen : length (take (Z.to_nat n) (drop (Z.to_nat offset) content)) = Z.to_nat n).
  { rewrite length_take, length_drop. lia. }
  split_and!.
  - rewrite length_app, Hlen, length_drop. lia.
  - intros i Hi. rewrite lookup_app_l by lia. rewrite lookup_take_lt, lookup_drop by lia. done.
  - intros i Hi. rewrite lookup_app_r, Hlen, lookup_drop by lia. f_equal. lia.
Qed.

Lemma ramfs_read_correct_witness :
  let fs := fs_run RamFs_new [OpAddFile "f" [x61; x62; x63]; OpOpen "f"] in
  exists buffer', RamFs_read fs 1 [x00; x00; x00; x00] 1 = Return (Ok (2, buffer')) /\
    length buffer' = 4%nat /\
    (forall i : nat, Z.of_nat i < 2 -> buffer' !! i = [x61; x62; x63] !! (1 + i)%nat) /\
    (forall i : nat, 2 <= Z.of_nat i -> buffer' !! i = [x00; x00; x00; x00] !! i).
Proof.
  apply (ramfs_read_correct (fs_run RamFs_new [OpAddFile "f" [x61; x62; x63]; OpOpen "f"]) 1
    [x61; x62; x63] [x00; x00; x00; x00] 1).
  - reflexivity.
  - unfold fits. lia.
  - unfold isize_max. simpl. lia.
  - unfold isize_max. simpl. lia.
Defined.

(** C9: storing a file and reading it back through the path returns its content:
    [open] succeeds, [size] is the content's length and [read] of that many
    bytes fills the buffer with the content. *)
Theorem ramfs_store_load_roundtrip (fs : RamFs) (path : string) (content buffer : list byte) :
  fs_wf fs -> path_parts path <> [] -> blocked (fs_tree fs) (path_parts path) = false ->
  Z.of_nat (length content) <= isize_max -> length buffer = length content ->
  exists h fs', RamFs_open (RamFs_add_file fs path content) path = (Ok h, fs') /\
    RamFs_is_dir fs' h = false /\
    RamFs_size fs' h = Ok (Z.of_nat (length content)) /\
    RamFs_read fs' h buffer 0 = Return (Ok (Z.of_nat (length content), content)).
Proof.
  intros Hwf Hne Hbl Hlen Hbuf.
  assert (Hv : fs_tree (RamFs_add_file fs path content) (path_parts path) = Some (VFile content)).
  { rewrite add_file_tree by done. unfold spec_add_file. rewrite decide_False, Hbl by done.
    by rewrite !decide_True. }
  apply open_view in Hv as (fs' & Hopen & Hv). eexists _, fs'. split; [exact Hopen|].
  rewrite (read_file fs' _ content) by (rewrite ?Hbuf; done || lia).
  apply handle_view_file in Hv as (l & Hl & Hn).
  unfold RamFs_is_dir, RamFs_size, read_count. rewrite Hl, Hn, Hbuf. split_and!; [done|done|].
  rewrite Z.max_r, Z.min_l by lia. simpl. rewrite Nat2Z.id, firstn_all2 by (rewrite ?drop_0; lia).
  by rewrite <- Hbuf, drop_all, app_nil_r.
Qed.

Lemma ramfs_store_load_roundtrip_witness :
  exists h fs', RamFs_open (RamFs_add_file RamFs_new "hello.wasm" [x00; x61; x73; x6d]) "hello.wasm" = (Ok h, fs') /\
    RamFs_is_dir fs' h = false /\ RamFs_size fs' h = Ok 4 /\
    RamFs_read fs' h [x00; x00; x00; x00] 0 = Return (Ok (4, [x00; x61; x73; x6d])).
Proof.
  apply (ramfs_store_load_roundtrip RamFs_new "hello.wasm" [x00; x61; x73; x6d]).
  - apply fs_new_wf.
  - discriminate.
  - reflexivity.
  - unfold isize_max. simpl. lia.
  - reflexivity.
Defined.

(** C8: an open handle keeps naming the very node it was opened on through every
    later history that does not close it (replacing the path's entry included): its
    location is the same, a file there keeps its content, and a directory there keeps
    every entry name.  This holds as long as the history's [open] calls do not advance
    [NEXT_HANDLE] past 10000 and its [open_at] calls do not overflow
    [NEXT_HANDLE_AT]. *)
Theorem ramfs_handle_snapshot (ops1 ops2 : list FsOp) (h : Z) (l : nat) :
  opens (ops1 ++ ops2) <= 9999 -> opens_at (ops1 ++ ops2) < 2 ^ 32 - 10000 ->
  open_handles (fs_run RamFs_new ops1) !! h = Some l -> OpClose h ∉ ops2 ->
  open_handles (fs_run RamFs_new (ops1 ++ ops2)) !! h = Some l /\
  exists n n', nodes (fs_run RamFs_new ops1) !! l = Some n /\
    nodes (fs_run RamFs_new (ops1 ++ ops2)) !! l = Some n' /\ node_le n n'.
Proof.
  intros Hb1 Hb2 Hl Hcl. rewrite fs_run_app.
  assert (Hwf : fs_wf (fs_run RamFs_new ops1)) by auto with rust.
  destruct (fs_run_counters RamFs_new ops1 ops2) as (Hhw & Hbud); auto with rust.
  - split_and!; simpl; try lia. intros h' l'. by rewrite lookup_empty.
  - split; simpl; lia.
  - split; [by apply fs_run_handles|]. destruct (fw_handles _ Hwf _ _ Hl) as [n Hn].
    destruct (fs_run_extends _ ops2 Hwf _ _ Hn) as (n' & ? & ?). by exists n, n'.
Qed.

Lemma ramfs_handle_snapshot_witness :
  let ops1 := [OpAddFile "d/f" [x61]; OpOpen "d"; OpOpen "d/f"] in
  let ops2 := [OpAddFile "d/f" [x62]; OpMkdirAt 1 "e"; OpAddFile "d" []; OpOpen "d"] in
  (open_handles (fs_run RamFs_new (ops1 ++ ops2)) !! 1 = Some 1%nat /\
   exists n n', nodes (fs_run RamFs_new ops1) !! 1%nat = Some n /\
     nodes (fs_run RamFs_new (ops1 ++ ops2)) !! 1%nat = Some n' /\ node_le n n') /\
  (open_handles (fs_run RamFs_new (ops1 ++ ops2)) !! 2 = Some 2%nat /\
   exists n n', nodes (fs_run RamFs_new ops1) !! 2%nat = Some n /\
     nodes (fs_run RamFs_new (ops1 ++ ops2)) !! 2%nat = Some n' /\ node_le n n').
Proof.
  assert (Hn : forall h, OpClose h ∉ [OpAddFile "d/f" [x62]; OpMkdirAt 1 "e"; OpAddFile "d" []; OpOpen "d"]).
  { intros h H. repeat (apply elem_of_cons in H as [H|H]; [discriminate|]). by apply not_elem_of_nil in H. }
  split; apply ramfs_handle_snapshot; solve [simpl; lia|by_compute|apply Hn].
Defined.

(** The two handle counters collide: after 9999 [open] calls the next [open]
    returns a handle that [open_at] issued and that is still open, and the
    handle silently names a different file from then on. *)
Theorem ramfs_handle_collision :
  exists (ops : list FsOp) (h : Z) (c1 c2 : list byte), c1 <> c2 /\
    handle_view (fs_run RamFs_new ops) h = Some (VFile c1) /\
    (RamFs_open (fs_run RamFs_new ops) "b").1 = Ok h /\
    handle_view (RamFs_open (fs_run RamFs_new ops) "b").2 h = Some (VFile c2).
Proof.
  set (setup := [OpAddFile "d/a" [x41]; OpAddFile "b" [x42]; OpOpen "d"; OpOpenAt 1 "a"]).
  exists (setup ++ replicate (Z.to_nat 9998) (OpOpen "b")), 10000, [x41], [x42].
  rewrite fs_run_app. set (fs0 := fs_run RamFs_new setup).
  destruct (fs_run_opens fs0 "b" 3 (Z.to_nat 9998) 10000) as (E1 & E2 & E3 & E4);
    [reflexivity|vm_compute; congruence|reflexivity|vm_compute; congruence|].
  assert (Hb : fs_tree (fs_run fs0 (replicate (Z.to_nat 9998) (OpOpen "b"))) (path_parts "b") = Some (VFile [x42])).
  { unfold fs_tree. rewrite E1, E2. reflexivity. }
  change (next_handle fs0 + Z.of_nat (Z.to_nat 9998)) with 10000 in E3.
  apply open_view in Hb as (fs' & -> & Hb). rewrite E3 in *.
  split_and!; [done| |done|done].
  unfold handle_view. rewrite E1, E4. reflexivity.
Qed.
