(* ===== verification/Queue.v ===== *)
(** * Bounded queues

    [crossbeam_queue::ArrayQueue] is third-party code: its operations are a
    class, with the documented behaviour of a bounded FIFO queue as laws over
    the list of queued items.  [ListQueue] is a concrete queue with these laws. *)

From S2P Require Import Prelude.

Class ArrayQueue (Q : Type -> Type) : Type := {
  q_new : forall A, nat -> Q A;
  q_push : forall A, Q A -> A -> Result unit A * Q A;
  q_pop : forall A, Q A -> option A * Q A;
  q_is_empty : forall A, Q A -> bool;
  q_items : forall A, Q A -> list A;
  q_cap : forall A, Q A -> nat;
  q_new_items : forall A n, (0 < n)%nat -> q_items A (q_new A n) = [] /\ q_cap A (q_new A n) = n;
  q_push_room : forall A q x, (length (q_items A q) < q_cap A q)%nat ->
    (q_push A q x).1 = Ok tt /\ q_items A (q_push A q x).2 = q_items A q ++ [x];
  q_push_full : forall A q x, (q_cap A q <= length (q_items A q))%nat ->
    (q_push A q x).1 = Err x /\ q_items A (q_push A q x).2 = q_items A q;
  q_push_cap : forall A q x, q_cap A (q_push A q x).2 = q_cap A q;
  q_pop_items : forall A q,
    (q_pop A q).1 = head (q_items A q) /\ q_items A (q_pop A q).2 = tail (q_items A q);
  q_pop_cap : forall A q, q_cap A (q_pop A q).2 = q_cap A q;
  q_is_empty_items : forall A q, q_is_empty A q = true <-> q_items A q = [];
  q_bound : forall A q, (length (q_items A q) <= q_cap A q)%nat;
}.
Arguments q_new {Q _ A}.
Arguments q_push {Q _ A}.
Arguments q_pop {Q _ A}.
Arguments q_is_empty {Q _ A}.
Arguments q_items {Q _ A}.
Arguments q_cap {Q _ A}.

(** ** A concrete queue *)

Record ListQueue (A : Type) : Type := ListQueue_mk {
  lq_cap : nat;
  lq_items : list A;
  lq_ok : bool_decide (length lq_items <= lq_cap)%nat = true;
}.
Arguments ListQueue_mk {A}.
Arguments lq_cap {A}.
Arguments lq_items {A}.
Arguments lq_ok {A}.

Definition lq_new (A : Type) (n : nat) : ListQueue A := ListQueue_mk n [] eq_refl.

Lemma lq_push_ok {A} (q : ListQueue A) x :
  (length (lq_items q) < lq_cap q)%nat ->
  bool_decide (length (lq_items q ++ [x]) <= lq_cap q)%nat = true.
Proof. intros. apply bool_decide_eq_true. rewrite length_app. simpl. lia. Qed.

Definition lq_push {A} (q : ListQueue A) (x : A) : Result unit A * ListQueue A :=
  match decide (length (lq_items q) < lq_cap q)%nat with
  | left H => (Ok tt, ListQueue_mk (lq_cap q) (lq_items q ++ [x]) (lq_push_ok q x H))
  | right _ => (Err x, q)
  end.

Lemma lq_pop_ok {A} (q : ListQueue A) :
  bool_decide (length (tail (lq_items q)) <= lq_cap q)%nat = true.
Proof.
  apply bool_decide_eq_true. pose proof (lq_ok q) as H%bool_decide_eq_true.
  destruct (lq_items q); simpl in *; lia.
Qed.

Definition lq_pop {A} (q : ListQueue A) : option A * ListQueue A :=
  (head (lq_items q), ListQueue_mk (lq_cap q) (tail (lq_items q)) (lq_pop_ok q)).

Definition lq_is_empty {A} (q : ListQueue A) : bool :=
  match lq_items q with [] => true | _ => false end.

#[export] Instance ListQueue_ArrayQueue : ArrayQueue ListQueue.
Proof.
  refine {| q_new := @lq_new; q_push := @lq_push; q_pop := @lq_pop;
            q_is_empty := @lq_is_empty; q_items := @lq_items; q_cap := @lq_cap |}.
  - done.
  - intros A q x H. unfold lq_push. by case_match.
  - intros A q x H. unfold lq_push. case_match; [lia|done].
  - intros A q x. unfold lq_push. by case_match.
  - done.
  - done.
  - intros A q. unfold lq_is_empty. by destruct (lq_items q).
  - intros A q. by pose proof (lq_ok q) as H%bool_decide_eq_true.
Defined.

(** ** Derived facts *)

Section queue.
Context {Q : Type -> Type} `{AQ : ArrayQueue Q} {A : Type}.
Implicit Types (q : Q A) (x : A).

(** One equation for both outcomes of a push. *)
Lemma q_push_spec q x :
  q_items (q_push q x).2 =
    (if decide (length (q_items q) < q_cap q)%nat then q_items q ++ [x] else q_items q) /\
  (q_push q x).1 = (if decide (length (q_items q) < q_cap q)%nat then Ok tt else Err x).
Proof.
  case_decide as H.
  - destruct (q_push_room A q x H). auto.
  - destruct (q_push_full A q x ltac:(lia)). auto.
Qed.

Lemma q_push_elem q x y : y ∈ q_items (q_push q x).2 -> y = x \/ y ∈ q_items q.
Proof.
  rewrite (proj1 (q_push_spec q x)). case_decide; [|auto].
  set_solver.
Qed.

Lemma q_pop_cons q x l :
  q_items q = x :: l -> (q_pop q).1 = Some x /\ q_items (q_pop q).2 = l.
Proof. intros H. destruct (q_pop_items A q) as [-> ->]. by rewrite H. Qed.

Lemma q_pop_nil q : q_items q = [] -> (q_pop q).1 = None /\ q_items (q_pop q).2 = [].
Proof. intros H. destruct (q_pop_items A q) as [-> ->]. by rewrite H. Qed.

Lemma q_pop_elem q y : y ∈ q_items (q_pop q).2 -> y ∈ q_items q.
Proof.
  rewrite (proj2 (q_pop_items A q)). destruct (q_items q); simpl; [done|]. by right.
Qed.

Lemma q_new_empty n : (0 < n)%nat -> q_items (q_new n : Q A) = [].
Proof. intros H. by destruct (q_new_items A n H). Qed.
End queue.
#[export] Hint Resolve q_pop_elem : rust.
