(* ===== verification/Mutex.v ===== *)
(** * The asynchronous mutex

    Models [src/kernel/src/sync/mutex.rs].  A mutex is its data, its lock flag
    and its queue of waiting wakers ([W]); the operations return the waker they
    wake, if any.  [compare_exchange_weak] may fail spuriously, so the poll
    function takes one boolean per weak exchange.  The second half of the file
    splits the operations into their atomic accesses and interleaves any number
    of tasks. *)

From S2P Require Import Prelude Queue.
From stdpp Require Import functions.
Open Scope Z_scope.

Definition MUTEX_MAX_WAITERS : nat := 100.

Record AsyncMutex (Q : Type -> Type) (W T : Type) : Type := AsyncMutex_mk {
  mx_data : T;
  mx_locked : bool;
  mx_waiters : Q W;
}.
Arguments AsyncMutex_mk {Q W T}.
Arguments mx_data {Q W T}.
Arguments mx_locked {Q W T}.
Arguments mx_waiters {Q W T}.

Section mutex.
Context {Q : Type -> Type} `{AQ : ArrayQueue Q} {W T : Type}.
Abbreviation mutex := (AsyncMutex Q W T).

Definition AsyncMutex_new (data : T) : mutex :=
  AsyncMutex_mk data false (q_new MUTEX_MAX_WAITERS).

Definition set_locked (m : mutex) (b : bool) : mutex :=
  AsyncMutex_mk (mx_data m) b (mx_waiters m).

(** [try_lock]: [true] stands for [Some(guard)]. *)
Definition AsyncMutex_try_lock (m : mutex) : bool * mutex :=
  if mx_locked m then (false, m) else (true, set_locked m true).

Definition AsyncMutex_wake_next (m : mutex) : option W * mutex :=
  let '(w, ws) := q_pop (mx_waiters m) in
  (w, AsyncMutex_mk (mx_data m) (mx_locked m) ws).

(** Dropping the guard. *)
Definition AsyncMutexGuard_drop (m : mutex) : option W * mutex :=
  AsyncMutex_wake_next (set_locked m false).

(** [*guard] and [*guard = v]. *)
Definition AsyncMutexGuard_deref (m : mutex) : T := mx_data m.
Definition AsyncMutexGuard_deref_mut (m : mutex) (v : T) : mutex :=
  AsyncMutex_mk v (mx_locked m) (mx_waiters m).

(** [locked.compare_exchange_weak(false, true, ..)]; [spurious] makes it fail. *)
Definition cas_weak (spurious : bool) (m : mutex) : bool * mutex :=
  if mx_locked m || spurious then (false, m) else (true, set_locked m true).

Definition push_waiter (m : mutex) (w : W) : mutex :=
  AsyncMutex_mk (mx_data m) (mx_locked m) (q_push (mx_waiters m) w).2.

(** [AsyncMutexLockFuture::poll]; the future's state is its [registered] flag. *)
Definition AsyncMutexLockFuture_poll (spur1 spur2 : bool) (registered : bool) (w : W) (m : mutex)
    : Poll unit * bool * mutex :=
  let '(ok, m) := cas_weak spur1 m in
  if ok then (Ready tt, registered, m)
  else
    let m := if registered then m else push_waiter m w in
    let '(ok, m) := cas_weak spur2 m in
    if ok then (Ready tt, true, m) else (Pending, true, m).

(** ** Interleavings

    Where each task is inside the code. [Loaded v] is a task that holds the
    guard and has read the data. *)
Inductive MutexPc : Type :=
| MIdle
| MPolling (registered : bool)
| MSlow (registered : bool)
| MRecheck
| MParked
| MHolding
| MLoaded (v : T)
| MReleasing.

Context `{!EqDecision W}.

Record MutexState : Type := MutexState_mk {
  ms_mutex : mutex;
  ms_pc : W -> MutexPc;
  ms_woken : list W;         (** the wakers called so far, latest first *)
  ms_log : list (T -> T);    (** the updates of the data so far, latest first *)
}.

Definition ms_goto (s : MutexState) (w : W) (pc : MutexPc) (m : mutex) : MutexState :=
  MutexState_mk m (<[w := pc]> (ms_pc s)) (ms_woken s) (ms_log s).

(** One atomic access of one task. *)
Inductive mutex_step (s : MutexState) : MutexState -> Prop :=
| MsLock w : ms_pc s w = MIdle ->
    mutex_step s (ms_goto s w (MPolling false) (ms_mutex s))
| MsTryLock w : ms_pc s w = MIdle -> mx_locked (ms_mutex s) = false ->
    mutex_step s (ms_goto s w MHolding (set_locked (ms_mutex s) true))
| MsFastOk w r : ms_pc s w = MPolling r -> mx_locked (ms_mutex s) = false ->
    mutex_step s (ms_goto s w MHolding (set_locked (ms_mutex s) true))
| MsFastFail w r : ms_pc s w = MPolling r ->
    mutex_step s (ms_goto s w (MSlow r) (ms_mutex s))
| MsRegister w : ms_pc s w = MSlow false ->
    mutex_step s (ms_goto s w MRecheck (push_waiter (ms_mutex s) w))
| MsRegistered w : ms_pc s w = MSlow true ->
    mutex_step s (ms_goto s w MRecheck (ms_mutex s))
| MsRecheckOk w : ms_pc s w = MRecheck -> mx_locked (ms_mutex s) = false ->
    mutex_step s (ms_goto s w MHolding (set_locked (ms_mutex s) true))
| MsRecheckFail w : ms_pc s w = MRecheck ->
    mutex_step s (ms_goto s w MParked (ms_mutex s))
| MsRepoll w : ms_pc s w = MParked ->
    mutex_step s (ms_goto s w (MPolling true) (ms_mutex s))
| MsLoad w : ms_pc s w = MHolding ->
    mutex_step s (ms_goto s w (MLoaded (AsyncMutexGuard_deref (ms_mutex s))) (ms_mutex s))
| MsStore w v f : ms_pc s w = MLoaded v ->
    mutex_step s (MutexState_mk (AsyncMutexGuard_deref_mut (ms_mutex s) (f v))
      (<[w := MHolding]> (ms_pc s)) (ms_woken s) (f :: ms_log s))
| MsUnlock w : ms_pc s w = MHolding ->
    mutex_step s (ms_goto s w MReleasing (set_locked (ms_mutex s) false))
| MsWake w : ms_pc s w = MReleasing ->
    mutex_step s (MutexState_mk (AsyncMutex_wake_next (ms_mutex s)).2 (<[w := MIdle]> (ms_pc s))
      (option_list (AsyncMutex_wake_next (ms_mutex s)).1 ++ ms_woken s) (ms_log s)).

Definition ms_init (data : T) : MutexState :=
  MutexState_mk (AsyncMutex_new data) (fun _ => MIdle) [] [].

Definition in_critical (pc : MutexPc) : bool :=
  match pc with MHolding | MLoaded _ => true | _ => false end.

(** ** Invariants *)

Record mutex_inv (d0 : T) (s : MutexState) : Prop := {
  mi_held : forall w, in_critical (ms_pc s w) = true -> mx_locked (ms_mutex s) = true;
  mi_unique : forall w1 w2, in_critical (ms_pc s w1) = true ->
    in_critical (ms_pc s w2) = true -> w1 = w2;
  mi_loaded : forall w v, ms_pc s w = MLoaded v -> v = mx_data (ms_mutex s);
  mi_data : mx_data (ms_mutex s) = foldr (fun f d => f d) d0 (ms_log s);
}.

Lemma mutex_inv_init d0 : mutex_inv d0 (ms_init d0).
Proof. by constructor. Qed.

(** A move of a task that stays outside the critical section. *)
Lemma mutex_inv_outside d0 s w pc m :
  mutex_inv d0 s -> in_critical pc = false ->
  mx_locked m = mx_locked (ms_mutex s) -> mx_data m = mx_data (ms_mutex s) ->
  mutex_inv d0 (ms_goto s w pc m).
Proof.
  intros [Hh Hu Hl Hd] Hpc Hm1 Hm2. constructor; simpl; rewrite ?Hm1, ?Hm2; auto.
  - intros w'. unfold insert, fn_insert. case_decide; [congruence|]. apply Hh.
  - intros w1 w2. unfold insert, fn_insert. repeat case_decide; try congruence. apply Hu.
  - intros w' v. unfold insert, fn_insert. case_decide; [intros; by subst|]. apply Hl.
Qed.

(** A task enters the critical section of a free mutex. *)
Lemma mutex_inv_enter d0 s w :
  mutex_inv d0 s -> mx_locked (ms_mutex s) = false ->
  mutex_inv d0 (ms_goto s w MHolding (set_locked (ms_mutex s) true)).
Proof.
  intros [Hh Hu Hl Hd] Hfree.
  assert (Hno : forall w', in_critical (ms_pc s w') = true -> False).
  { intros w' H. apply Hh in H. congruence. }
  constructor; simpl; auto.
  - intros w1 w2. unfold insert, fn_insert. repeat case_decide; try congruence; naive_solver.
  - intros w' v. unfold insert, fn_insert. case_decide; [done|]. intros Hv.
    destruct (Hno w'). by rewrite Hv.
Qed.

(** The task inside moves, and is the only one inside. *)
Lemma mutex_inv_inside d0 s w s' :
  mutex_inv d0 s -> in_critical (ms_pc s w) = true ->
  (forall w', w' <> w -> ms_pc s' w' = ms_pc s w') ->
  (in_critical (ms_pc s' w) = true -> mx_locked (ms_mutex s') = true) ->
  (forall v, ms_pc s' w = MLoaded v -> v = mx_data (ms_mutex s')) ->
  mx_data (ms_mutex s') = foldr (fun f d => f d) d0 (ms_log s') ->
  mutex_inv d0 s'.
Proof.
  intros [Hh Hu Hl Hd] Hin Hother Hself Hload Hdata.
  assert (Hno : forall w', w' <> w -> in_critical (ms_pc s' w') = true -> False).
  { intros w' Hne H. rewrite Hother in H by done. by destruct (Hne (Hu _ _ H Hin)). }
  constructor; auto.
  - intros w' H. destruct (decide (w' = w)) as [->|]; [auto|]. by destruct (Hno w').
  - intros w1 w2 H1 H2. destruct (decide (w1 = w)) as [->|], (decide (w2 = w)) as [->|]; naive_solver.
  - intros w' v H. destruct (decide (w' = w)) as [->|]; [auto|].
    destruct (Hno w'); [done|]. by rewrite H.
Qed.

Lemma mutex_step_inv d0 s s' : mutex_inv d0 s -> mutex_step s s' -> mutex_inv d0 s'.
Proof.
  intros Hinv Hstep. destruct Hstep; try (by apply mutex_inv_outside); try (by apply mutex_inv_enter).
  - apply (mutex_inv_inside d0 s w); simpl; rewrite ?fn_lookup_insert; auto.
    + by rewrite H.
    + intros w' Hne. by rewrite fn_lookup_insert_ne.
    + intros _. apply (mi_held _ _ Hinv w). by rewrite H.
    + by intros v [= <-].
    + apply Hinv.
  - apply (mutex_inv_inside d0 s w); simpl; rewrite ?fn_lookup_insert; auto.
    + by rewrite H.
    + intros w' Hne. by rewrite fn_lookup_insert_ne.
    + intros _. apply (mi_held _ _ Hinv w). by rewrite H.
    + done.
    + rewrite <- (mi_data _ _ Hinv). f_equal. by apply (mi_loaded _ _ Hinv w).
  - apply (mutex_inv_inside d0 s w); simpl; rewrite ?fn_lookup_insert; auto.
    + by rewrite H.
    + intros w' Hne. by rewrite fn_lookup_insert_ne.
    + done.
    + apply Hinv.
  - assert (Hgo : mutex_inv d0 (ms_goto s w MIdle (AsyncMutex_wake_next (ms_mutex s)).2)).
    { apply mutex_inv_outside; try done; unfold AsyncMutex_wake_next; by case_match. }
    destruct Hgo. by constructor.
Qed.

Lemma mutex_reachable_inv d0 s : rtc mutex_step (ms_init d0) s -> mutex_inv d0 s.
Proof.
  intros H. apply (rtc_invariant mutex_step (mutex_inv d0) (ms_init d0)); auto using mutex_inv_init.
  intros a b. apply mutex_step_inv.
Qed.

(** ** The poll function as a sequence of atomic accesses *)

(** [s'] is [s] with task [w] at [pc] and mutex [m]. *)
Definition ms_at (s s' : MutexState) (w : W) (pc : MutexPc) (m : mutex) : Prop :=
  ms_mutex s' = m /\ ms_pc s' w = pc /\ (forall w', w' <> w -> ms_pc s' w' = ms_pc s w') /\
  ms_woken s' = ms_woken s /\ ms_log s' = ms_log s.

Lemma ms_at_goto s w pc m : ms_at s (ms_goto s w pc m) w pc m.
Proof.
  unfold ms_at; simpl. rewrite fn_lookup_insert. split_and!; auto.
  intros. by rewrite fn_lookup_insert_ne.
Qed.

Lemma ms_at_trans s s' w pc m pc' m' :
  ms_at s s' w pc m -> ms_at s (ms_goto s' w pc' m') w pc' m'.
Proof.
  intros (H1 & H2 & H3 & H4 & H5).
  destruct (ms_at_goto s' w pc' m') as (G1 & G2 & G3 & G4 & G5). unfold ms_at.
  split_and!; try congruence. intros w' Hne. rewrite G3, H3; auto.
Qed.

(** The access of a weak exchange by a task at a point where it may try. *)
Lemma cas_weak_locked spur m m' :
  cas_weak spur m = (true, m') -> mx_locked m = false /\ m' = set_locked m true.
Proof. unfold cas_weak. destruct (mx_locked m), spur; naive_solver. Qed.

Lemma cas_weak_failed spur m m' : cas_weak spur m = (false, m') -> m' = m.
Proof. unfold cas_weak. destruct (mx_locked m), spur; naive_solver. Qed.

Lemma poll_steps s w r spur1 spur2 :
  ms_pc s w = MPolling r ->
  let '(res, _, m') := AsyncMutexLockFuture_poll spur1 spur2 r w (ms_mutex s) in
  exists s', rtc mutex_step s s' /\
    ms_at s s' w (match res with Ready _ => MHolding | Pending => MParked end) m'.
Proof.
  intros Hpc. unfold AsyncMutexLockFuture_poll.
  destruct (cas_weak spur1 (ms_mutex s)) as [[] m1] eqn:E1.
  { apply cas_weak_locked in E1 as [Hf ->]. eexists. split; [|apply ms_at_goto].
    by eapply rtc_once, MsFastOk. }
  apply cas_weak_failed in E1 as ->.
  set (s1 := ms_goto s w (MSlow r) (ms_mutex s)).
  set (m2 := if r then ms_mutex s else push_waiter (ms_mutex s) w).
  set (s2 := ms_goto s1 w MRecheck m2).
  assert (Hat : ms_at s s2 w MRecheck m2) by (eapply ms_at_trans, ms_at_goto).
  assert (Hpath : rtc mutex_step s s2).
  { eapply rtc_l; [by eapply MsFastFail|]. apply rtc_once. unfold s2, m2.
    destruct r; [apply (MsRegistered s1 w)|apply (MsRegister s1 w)]; apply fn_lookup_insert. }
  pose proof Hat as (Hm & Hpc2 & _).
  destruct (cas_weak spur2 m2) as [[] m3] eqn:E2.
  - apply cas_weak_locked in E2 as [Hf ->].
    exists (ms_goto s2 w MHolding (set_locked m2 true)). split; [|by eapply ms_at_trans].
    eapply rtc_r; [exact Hpath|]. by apply MsRecheckOk.
  - apply cas_weak_failed in E2 as ->.
    exists (ms_goto s2 w MParked m2). split; [|by eapply ms_at_trans].
    eapply rtc_r; [exact Hpath|]. by apply MsRecheckFail.
Qed.

(** ** Waiting *)

(** A first poll that returns [Pending] without spurious failures found the
    mutex held and queued its waker, if the queue had room. *)
Lemma poll_pending_first w (m m' : mutex) r' :
  AsyncMutexLockFuture_poll false false false w m = (Pending, r', m') ->
  mx_locked m = true /\ r' = true /\ m' = push_waiter m w.
Proof.
  unfold AsyncMutexLockFuture_poll, cas_weak.
  destruct (mx_locked m) eqn:E; simpl; rewrite ?E; naive_solver.
Qed.

Lemma poll_pending_again w (m m' : mutex) r' :
  AsyncMutexLockFuture_poll false false true w m = (Pending, r', m') ->
  mx_locked m = true /\ r' = true /\ m' = m.
Proof.
  unfold AsyncMutexLockFuture_poll, cas_weak.
  destruct (mx_locked m) eqn:E; simpl; rewrite ?E; naive_solver.
Qed.

Lemma poll_locked w (m : mutex) r :
  mx_locked m = true ->
  AsyncMutexLockFuture_poll false false r w m =
    (Pending, true, if r then m else push_waiter m w).
Proof.
  intros E. unfold AsyncMutexLockFuture_poll, cas_weak. rewrite E. simpl.
  destruct r; simpl; by rewrite E.
Qed.

Lemma try_lock_free (m : mutex) :
  mx_locked m = false -> AsyncMutex_try_lock m = (true, set_locked m true).
Proof. intros E. unfold AsyncMutex_try_lock. by rewrite E. Qed.

Lemma drop_spec (m : mutex) :
  (AsyncMutexGuard_drop m).1 = head (q_items (mx_waiters m)) /\
  mx_locked (AsyncMutexGuard_drop m).2 = false /\
  mx_data (AsyncMutexGuard_drop m).2 = mx_data m /\
  q_items (mx_waiters (AsyncMutexGuard_drop m).2) = tail (q_items (mx_waiters m)).
Proof.
  unfold AsyncMutexGuard_drop, AsyncMutex_wake_next. simpl.
  pose proof (q_pop_items _ (mx_waiters m)) as [H1 H2].
  destruct (q_pop (mx_waiters m)) as [o q]. auto.
Qed.
End mutex.

(** ** Properties *)

(** C12: mutual exclusion under every interleaving of the atomic accesses of any
    number of tasks, spurious failures of the weak exchanges included: at most
    one task is between acquiring the lock and dropping its guard, and the lock
    flag is set while one is. *)
Theorem mutex_mutual_exclusion {Q : Type -> Type} `{AQ : ArrayQueue Q} {W T : Type}
    `{!EqDecision W} (d0 : T) (s : MutexState (Q:=Q)) (w1 w2 : W) :
  rtc mutex_step (ms_init d0) s ->
  in_critical (ms_pc s w1) = true -> in_critical (ms_pc s w2) = true ->
  w1 = w2 /\ mx_locked (ms_mutex s) = true.
Proof.
  intros Hr H1 H2. apply mutex_reachable_inv in Hr as [Hh Hu _ _]. eauto.
Qed.

(** A task [w] that took the free mutex, for the witnesses below. *)
Definition demo_held (w : Z) : MutexState (Q:=ListQueue) (W:=Z) (T:=Z) :=
  ms_goto (ms_init 0) w MHolding (set_locked (ms_mutex (ms_init 0)) true).

Lemma mutex_mutual_exclusion_witness :
  (7 = 7)%Z /\ mx_locked (ms_mutex (demo_held 7)) = true.
Proof.
  apply (mutex_mutual_exclusion (Q:=ListQueue) 0 (demo_held 7) 7 7).
  - apply rtc_once. apply (MsTryLock (ms_init 0) 7); reflexivity.
  - reflexivity.
  - reflexivity.
Defined.

(** C13: no update of the protected data is lost: under every interleaving the
    data is the initial value with the guards' read-modify-write updates applied
    one after the other. *)
Theorem mutex_updates_sequential {Q : Type -> Type} `{AQ : ArrayQueue Q} {W T : Type}
    `{!EqDecision W} (d0 : T) (s : MutexState (Q:=Q) (W:=W)) :
  rtc mutex_step (ms_init d0) s ->
  mx_data (ms_mutex s) = foldr (fun f d => f d) d0 (ms_log s).
Proof. intros Hr. apply mutex_reachable_inv in Hr. apply Hr. Qed.

(** Task 7 adds one to the data and releases the mutex, then task 8 doubles it. *)
Definition demo_update (s : MutexState (Q:=ListQueue) (W:=Z) (T:=Z)) (w : Z) (f : Z -> Z) : MutexState :=
  MutexState_mk (AsyncMutexGuard_deref_mut (ms_mutex s) (f (mx_data (ms_mutex s)))) (<[w := MHolding]> (ms_pc s))
    (ms_woken s) (f :: ms_log s).
Definition demo_release (s : MutexState (Q:=ListQueue) (W:=Z) (T:=Z)) (w : Z) : MutexState :=
  let s := ms_goto s w MReleasing (set_locked (ms_mutex s) false) in
  MutexState_mk (AsyncMutex_wake_next (ms_mutex s)).2 (<[w := MIdle]> (ms_pc s))
    (option_list (AsyncMutex_wake_next (ms_mutex s)).1 ++ ms_woken s) (ms_log s).
Definition demo_loaded (s : MutexState (Q:=ListQueue) (W:=Z) (T:=Z)) (w : Z) : MutexState :=
  ms_goto s w (MLoaded (AsyncMutexGuard_deref (ms_mutex s))) (ms_mutex s).
Definition demo_taken (s : MutexState (Q:=ListQueue) (W:=Z) (T:=Z)) (w : Z) : MutexState :=
  ms_goto s w MHolding (set_locked (ms_mutex s) true).
Definition demo_released : MutexState := demo_release (demo_update (demo_loaded (demo_held 7) 7) 7 Z.succ) 7.
Definition demo_updated : MutexState := demo_update (demo_loaded (demo_taken demo_released 8) 8) 8 Z.double.

Lemma mutex_updates_sequential_witness :
  mx_data (ms_mutex demo_updated) = Z.double (Z.succ 0).
Proof.
  apply (mutex_updates_sequential (Q:=ListQueue) 0 demo_updated).
  eapply rtc_l; [apply (MsTryLock (ms_init 0) 7); reflexivity|].
  eapply rtc_l; [apply (MsLoad (demo_held 7) 7); reflexivity|].
  eapply rtc_l; [apply (MsStore (demo_loaded (demo_held 7) 7) 7 0%Z Z.succ); reflexivity|].
  eapply rtc_l; [apply (MsUnlock (demo_update (demo_loaded (demo_held 7) 7) 7 Z.succ) 7); reflexivity|].
  eapply rtc_l; [apply (MsWake (ms_goto _ 7 MReleasing _) 7); reflexivity|].
  eapply rtc_l; [apply (MsTryLock demo_released 8); reflexivity|].
  eapply rtc_l; [apply (MsLoad (demo_taken demo_released 8) 8); reflexivity|].
  apply rtc_once. apply (MsStore (demo_loaded (demo_taken demo_released 8) 8) 8 1%Z Z.double). reflexivity.
Defined.

(** The poll function is a sequence of the atomic accesses: whatever the
    outcome of its weak exchanges, polling task [w]'s future takes the
    interleaving semantics from [w] polling to [w] holding the guard ([Ready])
    or parked ([Pending]) with exactly the mutex the function returns, and
    moves no other task. *)
Theorem mutex_poll_refines_steps {Q : Type -> Type} `{AQ : ArrayQueue Q} {W T : Type}
    `{!EqDecision W} (s : MutexState (Q:=Q) (T:=T)) (w : W) (r spur1 spur2 : bool) :
  ms_pc s w = MPolling r ->
  let '(res, _, m') := AsyncMutexLockFuture_poll spur1 spur2 r w (ms_mutex s) in
  exists s', rtc mutex_step s s' /\
    ms_at s s' w (match res with Ready _ => MHolding | Pending => MParked end) m'.
Proof. apply poll_steps. Qed.

Lemma mutex_poll_refines_steps_witness :
  let s := ms_goto (demo_held 7) 8 (MPolling false) (ms_mutex (demo_held 7)) in
  let '(res, _, m') := AsyncMutexLockFuture_poll false false false 8 (ms_mutex s) in
  exists s', rtc mutex_step s s' /\
    ms_at s s' 8 (match res with Ready _ => MHolding | Pending => MParked end) m'.
Proof.
  exact (mutex_poll_refines_steps (ms_goto (demo_held 7) 8 (MPolling false) (ms_mutex (demo_held 7)))
    8 false false false eq_refl).
Defined.

(** A released mutex wakes its waiters in order: with [k] wakers queued
    behind the one of a pending future, [k + 1] guard drops wake that future, and
    no waker is lost or duplicated on the way. *)
Theorem mutex_wakes_fifo {Q : Type -> Type} `{AQ : ArrayQueue Q} {W T : Type}
    (m m' : AsyncMutex Q W T) (w : W) (r : bool) :
  AsyncMutexLockFuture_poll false false false w m = (Pending, r, m') ->
  (length (q_items (mx_waiters m)) < q_cap (mx_waiters m))%nat ->
  mx_locked m = true /\
  exists m1, Nat.iter (length (q_items (mx_waiters m))) (fun m => (AsyncMutexGuard_drop m).2) m' = m1 /\
    (AsyncMutexGuard_drop m1).1 = Some w /\
    q_items (mx_waiters (AsyncMutexGuard_drop m1).2) = [].
Proof.
  intros Hp Hroom. apply poll_pending_first in Hp as (Hl & _ & ->). split; [done|].
  eexists. split; [done|].
  assert (Hdrop : forall k (mm : AsyncMutex Q W T),
    q_items (mx_waiters (Nat.iter k (fun m => (AsyncMutexGuard_drop m).2) mm)) =
      drop k (q_items (mx_waiters mm))).
  { induction k as [|k IH]; intros mm; simpl; [by rewrite drop_0|].
    destruct (drop_spec (Nat.iter k (fun m => (AsyncMutexGuard_drop m).2) mm)) as (_ & _ & _ & ->).
    by rewrite IH, tail_drop. }
  destruct (drop_spec (Nat.iter (length (q_items (mx_waiters m)))
    (fun m => (AsyncMutexGuard_drop m).2) (push_waiter m w))) as (-> & _ & _ & ->).
  rewrite Hdrop. simpl. rewrite (proj1 (q_push_spec _ _)), decide_True by done.
  by rewrite drop_app_length.
Qed.

Lemma mutex_wakes_fifo_witness :
  let m := ms_mutex (demo_held 7) in
  mx_locked m = true /\
  exists m1, Nat.iter 0 (fun m => (AsyncMutexGuard_drop m).2) (push_waiter m 8) = m1 /\
    (AsyncMutexGuard_drop m1).1 = Some 8%Z /\
    q_items (mx_waiters (AsyncMutexGuard_drop m1).2) = [].
Proof.
  refine (mutex_wakes_fifo (ms_mutex (demo_held 7)) (push_waiter (ms_mutex (demo_held 7)) 8) 8 true _ _).
  - reflexivity.
  - simpl. unfold MUTEX_MAX_WAITERS. lia.
Defined.

(** A waiter can be lost.  Task [a] holds the mutex and [b] waits; [a] drops
    its guard, which wakes [b] and takes [b]'s waker off the queue; a third task
    takes the mutex before [b] runs, so [b]'s next poll is [Pending] again, but the
    future's [registered] flag keeps it from queueing its waker a second time.
    When the third task drops its guard nobody is woken: the mutex is free, the
    queue is empty and [b] stays suspended with no waker left anywhere. *)
Theorem mutex_lost_wakeup {Q : Type -> Type} `{AQ : ArrayQueue Q} {W T : Type} (d : T) (b : W) :
  let '(a_locked, m1) := AsyncMutex_try_lock (AsyncMutex_new d : AsyncMutex Q W T) in
  let '(b_first, registered, m2) := AsyncMutexLockFuture_poll false false false b m1 in
  let '(woken1, m3) := AsyncMutexGuard_drop m2 in
  let '(c_locked, m4) := AsyncMutex_try_lock m3 in
  let '(b_second, _, m5) := AsyncMutexLockFuture_poll false false registered b m4 in
  let '(woken2, m6) := AsyncMutexGuard_drop m5 in
  a_locked = true /\ b_first = Pending /\ woken1 = Some b /\ c_locked = true /\
  b_second = Pending /\ woken2 = None /\ mx_locked m6 = false /\ q_items (mx_waiters m6) = [].
Proof.
  rewrite (try_lock_free (AsyncMutex_new d)) by done.
  set (m1 := set_locked (AsyncMutex_new d) true : AsyncMutex Q W T).
  rewrite (poll_locked b m1 false) by done.
  pose proof (drop_spec (push_waiter m1 b)) as (Hw & Hl & _ & Hq).
  assert (Hitems : q_items (mx_waiters (push_waiter m1 b)) = [b]).
  { simpl. destruct (q_new_items W MUTEX_MAX_WAITERS) as [H1 H2]; [unfold MUTEX_MAX_WAITERS; lia|].
    rewrite (proj1 (q_push_spec _ _)), H1, H2. by rewrite decide_True by (simpl; unfold MUTEX_MAX_WAITERS; lia). }
  rewrite Hitems in Hw, Hq. simpl in Hw, Hq.
  destruct (AsyncMutexGuard_drop (push_waiter m1 b)) as [woken1 m3]. simpl in Hw, Hl, Hq.
  rewrite (try_lock_free m3) by done.
  rewrite (poll_locked b (set_locked m3 true) true) by done.
  pose proof (drop_spec (set_locked m3 true)) as (Hw2 & Hl2 & _ & Hq2).
  simpl in Hw2, Hq2. rewrite Hq in Hw2, Hq2. simpl in Hw2, Hq2.
  destruct (AsyncMutexGuard_drop (set_locked m3 true)) as [woken2 m6]. naive_solver.
Qed.

Lemma mutex_lost_wakeup_witness :
  let '(_, m1) := AsyncMutex_try_lock (AsyncMutex_new 0%Z : AsyncMutex ListQueue Z Z) in
  let '(b_first, registered, m2) := AsyncMutexLockFuture_poll false false false 8%Z m1 in
  let '(woken1, m3) := AsyncMutexGuard_drop m2 in
  b_first = Pending /\ registered = true /\ woken1 = Some 8%Z /\ q_items (mx_waiters m3) = [].
Proof.
  pose proof (mutex_lost_wakeup (Q:=ListQueue) 0%Z 8%Z) as H. vm_compute. vm_compute in H.
  naive_solver.
Defined.
