(* ===== verification/Semaphore.v ===== *)
(** * The counting semaphore

    Models [src/kernel/src/sync/semaphore.rs].  Retry loops around
    [compare_exchange_weak] take the number of failed exchanges before the one
    that succeeds; with no other task in between the loop re-reads the same
    count.  The interleaving semantics at the end has a task's load and its
    exchange as separate accesses, so other tasks run in between. *)

From S2P Require Import Prelude Queue.
From stdpp Require Import functions.
Open Scope Z_scope.

Definition SEM_MAX_WAITERS : nat := 100.

Record Semaphore (Q : Type -> Type) (W : Type) : Type := Semaphore_mk {
  permits : Z;
  max_permits : Z;
  sem_waiters : Q W;
}.
Arguments Semaphore_mk {Q W}.
Arguments permits {Q W}.
Arguments max_permits {Q W}.
Arguments sem_waiters {Q W}.

Section semaphore.
Context {Q : Type -> Type} `{AQ : ArrayQueue Q} {W : Type}.
Abbreviation sem := (Semaphore Q W).

Definition Semaphore_new (n : Z) : sem := Semaphore_mk n n (q_new SEM_MAX_WAITERS).

(** [with_max]; the [debug_assert!] panics in builds with [debug_assertions]. *)
Definition Semaphore_with_max (debug_assertions : bool) (initial max : Z) : Outcome sem :=
  if debug_assertions && negb (initial <=? max) then Panic
  else Return (Semaphore_mk initial max (q_new SEM_MAX_WAITERS)).

Definition Semaphore_available_permits (s : sem) : Z := permits s.

Definition set_permits (s : sem) (p : Z) : sem :=
  Semaphore_mk p (max_permits s) (sem_waiters s).

Fixpoint Semaphore_try_acquire (failures : nat) (s : sem) : bool * sem :=
  let current := permits s in
  if current =? 0 then (false, s)
  else match failures with
       | O => (true, set_permits s (current - 1))
       | S n => Semaphore_try_acquire n s
       end.

(** The loop of [release]: [min(current + 1, max)], [usize] addition. *)
Fixpoint release_loop (failures : nat) (s : sem) : sem :=
  let current := permits s in
  let new_val := Z.min (as_usize (current + 1)) (max_permits s) in
  if current =? new_val then s
  else match failures with
       | O => set_permits s new_val
       | S n => release_loop n s
       end.

Definition sem_wake (s : sem) : option W * sem :=
  let '(w, ws) := q_pop (sem_waiters s) in
  (w, Semaphore_mk (permits s) (max_permits s) ws).

Definition Semaphore_release (failures : nat) (s : sem) : option W * sem :=
  sem_wake (release_loop failures s).

(** Dropping a [SemaphorePermit]. *)
Definition SemaphorePermit_drop (failures : nat) (s : sem) : option W * sem :=
  Semaphore_release failures s.

Definition sem_push_waiter (s : sem) (w : W) : sem :=
  Semaphore_mk (permits s) (max_permits s) (q_push (sem_waiters s) w).2.

(** [SemaphoreAcquireFuture::poll]; the future's state is its [registered] flag. *)
Definition SemaphoreAcquireFuture_poll (f1 f2 : nat) (registered : bool) (w : W) (s : sem)
    : Poll unit * bool * sem :=
  let '(ok, s) := Semaphore_try_acquire f1 s in
  if ok then (Ready tt, registered, s)
  else
    let s := if registered then s else sem_push_waiter s w in
    let '(ok, s) := Semaphore_try_acquire f2 s in
    if ok then (Ready tt, true, s) else (Pending, true, s).

(** ** Interleavings *)

Inductive SemPc : Type :=
| SIdle
| SAcquire                  (** about to load in [try_acquire] *)
| SAcquireCas (current : Z) (** loaded a non-zero count *)
| SRelease                  (** about to load in [release] *)
| SReleaseCas (current : Z)
| SReleaseWake.

Context `{!EqDecision W}.

Record SemState : Type := SemState_mk {
  ss_sem : sem;
  ss_pc : W -> SemPc;
  ss_acquired : Z;   (** successful [try_acquire] calls so far *)
  ss_returned : Z;   (** permits put back by [release] so far *)
}.

Definition ss_goto (s : SemState) (w : W) (pc : SemPc) : SemState :=
  SemState_mk (ss_sem s) (<[w := pc]> (ss_pc s)) (ss_acquired s) (ss_returned s).

Definition release_target (s : sem) (current : Z) : Z :=
  Z.min (as_usize (current + 1)) (max_permits s).

(** One atomic access of one task. *)
Inductive sem_step (s : SemState) : SemState -> Prop :=
| SsAcquire w : ss_pc s w = SIdle -> sem_step s (ss_goto s w SAcquire)
| SsAcquireNone w : ss_pc s w = SAcquire -> permits (ss_sem s) = 0 ->
    sem_step s (ss_goto s w SIdle)
| SsAcquireLoad w : ss_pc s w = SAcquire -> permits (ss_sem s) <> 0 ->
    sem_step s (ss_goto s w (SAcquireCas (permits (ss_sem s))))
| SsAcquireOk w c : ss_pc s w = SAcquireCas c -> permits (ss_sem s) = c ->
    sem_step s (SemState_mk (set_permits (ss_sem s) (c - 1)) (<[w := SIdle]> (ss_pc s))
      (ss_acquired s + 1) (ss_returned s))
| SsAcquireFail w c : ss_pc s w = SAcquireCas c -> sem_step s (ss_goto s w SAcquire)
| SsRelease w : ss_pc s w = SIdle -> sem_step s (ss_goto s w SRelease)
| SsReleaseFull w : ss_pc s w = SRelease ->
    permits (ss_sem s) = release_target (ss_sem s) (permits (ss_sem s)) ->
    sem_step s (ss_goto s w SReleaseWake)
| SsReleaseLoad w : ss_pc s w = SRelease ->
    permits (ss_sem s) <> release_target (ss_sem s) (permits (ss_sem s)) ->
    sem_step s (ss_goto s w (SReleaseCas (permits (ss_sem s))))
| SsReleaseOk w c : ss_pc s w = SReleaseCas c -> permits (ss_sem s) = c ->
    sem_step s (SemState_mk (set_permits (ss_sem s) (release_target (ss_sem s) c))
      (<[w := SReleaseWake]> (ss_pc s)) (ss_acquired s) (ss_returned s + 1))
| SsReleaseFail w c : ss_pc s w = SReleaseCas c -> sem_step s (ss_goto s w SRelease)
| SsWake w : ss_pc s w = SReleaseWake ->
    sem_step s (SemState_mk (sem_wake (ss_sem s)).2 (<[w := SIdle]> (ss_pc s))
      (ss_acquired s) (ss_returned s)).

Definition ss_init (s : sem) : SemState := SemState_mk s (fun _ => SIdle) 0 0.

(** ** Sequential behaviour *)

Lemma try_acquire_spec n (s : sem) :
  Semaphore_try_acquire n s =
    if permits s =? 0 then (false, s) else (true, set_permits s (permits s - 1)).
Proof. induction n as [|n IH]; simpl; [done|]. rewrite IH. by destruct (permits s =? 0). Qed.

(** A semaphore in range: what [new] and a checked [with_max] build, short of
    [usize::MAX] permits. *)
Definition sem_wf (s : sem) : Prop :=
  0 <= permits s <= max_permits s /\ max_permits s < 2 ^ 64 - 1.

Lemma release_target_wf (s : sem) :
  sem_wf s -> release_target s (permits s) = Z.min (permits s + 1) (max_permits s).
Proof.
  intros [Hp Hm]. unfold release_target. rewrite wrap_small by (unfold fits; lia). done.
Qed.

Lemma release_loop_spec n (s : sem) :
  sem_wf s -> release_loop n s = set_permits s (Z.min (permits s + 1) (max_permits s)).
Proof.
  intros Hwf. pose proof (release_target_wf s Hwf) as Ht. unfold release_target in Ht.
  assert (Hid : permits s = Z.min (permits s + 1) (max_permits s) ->
    s = set_permits s (Z.min (permits s + 1) (max_permits s))).
  { intros <-. by destruct s. }
  induction n as [|n IH]; simpl; rewrite Ht; destruct (Z.eqb_spec (permits s)
    (Z.min (permits s + 1) (max_permits s))) as [E|E]; auto.
Qed.

Lemma sem_wake_spec (s : sem) :
  permits (sem_wake s).2 = permits s /\ max_permits (sem_wake s).2 = max_permits s /\
  (sem_wake s).1 = head (q_items (sem_waiters s)) /\
  q_items (sem_waiters (sem_wake s).2) = tail (q_items (sem_waiters s)).
Proof.
  unfold sem_wake. pose proof (q_pop_items _ (sem_waiters s)) as [H1 H2].
  destruct (q_pop (sem_waiters s)) as [o q]. auto.
Qed.

Lemma release_spec n (s : sem) :
  sem_wf s ->
  permits (Semaphore_release n s).2 = Z.min (permits s + 1) (max_permits s) /\
  max_permits (Semaphore_release n s).2 = max_permits s /\
  (Semaphore_release n s).1 = head (q_items (sem_waiters s)) /\
  q_items (sem_waiters (Semaphore_release n s).2) = tail (q_items (sem_waiters s)).
Proof.
  intros Hwf. unfold Semaphore_release. rewrite release_loop_spec by done.
  apply (sem_wake_spec (set_permits s _)).
Qed.

(** ** Interleaving invariant *)

(** The count is the initial one less the permits taken plus those put back, and
    a task about to exchange loaded a count in range. *)
Record sem_inv (s0 : sem) (s : SemState) : Prop := {
  si_count : permits (ss_sem s) = permits s0 - ss_acquired s + ss_returned s;
  si_wf : sem_wf (ss_sem s);
  si_max : max_permits (ss_sem s) = max_permits s0;
  si_acquire : forall w c, ss_pc s w = SAcquireCas c -> c <> 0;
  si_release : forall w c, ss_pc s w = SReleaseCas c -> c < max_permits s0;
}.

Lemma sem_inv_init s0 : sem_wf s0 -> sem_inv s0 (ss_init s0).
Proof. intros. constructor; simpl; try done. lia. Qed.

(** The invariant through one access of task [w]: the facts about the count, and
    what [w]'s new position records. *)
Lemma sem_inv_move s0 s w pc s' :
  sem_inv s0 s -> ss_pc s' = <[w := pc]> (ss_pc s) ->
  permits (ss_sem s') = permits s0 - ss_acquired s' + ss_returned s' ->
  0 <= permits (ss_sem s') <= max_permits s0 ->
  max_permits (ss_sem s') = max_permits s0 ->
  (forall c, pc = SAcquireCas c -> c <> 0) ->
  (forall c, pc = SReleaseCas c -> c < max_permits s0) ->
  sem_inv s0 s'.
Proof.
  intros [Hc [Hw1 Hw2] Hm Ha Hr] Hpc Hcount Hrange Hmax Ha' Hr'.
  constructor; try done.
  - split; [rewrite Hmax; lia|]. rewrite Hmax, <- Hm. lia.
  - intros w' c. rewrite Hpc. unfold insert, fn_insert. case_decide; [apply Ha'|apply Ha].
  - intros w' c. rewrite Hpc. unfold insert, fn_insert. case_decide; [apply Hr'|apply Hr].
Qed.

Lemma sem_step_inv s0 s s' : sem_inv s0 s -> sem_step s s' -> sem_inv s0 s'.
Proof.
  intros Hinv Hstep. pose proof Hinv as [Hc Hwf Hm Ha Hr]. pose proof Hwf as [Hw1 Hw2].
  assert (Hgoto : forall w pc, (forall c, pc = SAcquireCas c -> c <> 0) ->
    (forall c, pc = SReleaseCas c -> c < max_permits s0) -> sem_inv s0 (ss_goto s w pc)).
  { intros w pc H1 H2. apply (sem_inv_move s0 s w pc); simpl; auto. lia. }
  pose proof (release_target_wf _ Hwf) as Ht. rewrite Hm in Ht.
  destruct Hstep; try (apply Hgoto; naive_solver).
  - apply (sem_inv_move s0 s w SIdle); simpl; auto; try done; [lia|].
    apply Ha in H. lia.
  - apply Hgoto; [done|]. intros c [= <-]. lia.
  - apply Hr in H. subst c.
    apply (sem_inv_move s0 s w SReleaseWake); simpl; auto; try done; rewrite Ht; lia.
  - destruct (sem_wake_spec (ss_sem s)) as (E1 & E2 & _).
    apply (sem_inv_move s0 s w SIdle); simpl; rewrite ?E1, ?E2; auto; try done. lia.
Qed.

Lemma sem_reachable_inv s0 s : sem_wf s0 -> rtc sem_step (ss_init s0) s -> sem_inv s0 s.
Proof.
  intros Hwf H. apply (rtc_invariant sem_step (sem_inv s0) (ss_init s0)); auto using sem_inv_init.
  intros a b. apply sem_step_inv.
Qed.
End semaphore.

(** ** Properties *)


(** A task takes the only permit and puts it back. *)
Definition demo_sem : Semaphore ListQueue Z := Semaphore_new 1.
Definition demo_took : SemState :=
  SemState_mk (set_permits demo_sem 0) (<[7 := SIdle]> (<[7 := SAcquireCas 1]> (<[7 := SAcquire]> (fun _ => SIdle)))) 1 0.
Definition demo_releasing : SemState := ss_goto (ss_goto demo_took 7 SRelease) 7 (SReleaseCas 0).
Definition demo_returned : SemState :=
  SemState_mk (set_permits demo_sem 1) (<[7 := SReleaseWake]> (ss_pc demo_releasing)) 1 1.


(** Sequential behaviour of the retry loops, independent of how many weak
    exchanges fail: [try_acquire] fails exactly when no permit is left and takes
    one otherwise; [release] adds one permit up to the maximum and wakes the
    first waiter. *)
Theorem semaphore_sequential {Q : Type -> Type} `{AQ : ArrayQueue Q} {W : Type}
    (s : Semaphore Q W) (n : nat) :
  sem_wf s ->
  Semaphore_try_acquire n s =
    (if decide (permits s = 0) then (false, s) else (true, set_permits s (permits s - 1))) /\
  permits (Semaphore_release n s).2 = Z.min (permits s + 1) (max_permits s) /\
  (Semaphore_release n s).1 = head (q_items (sem_waiters s)) /\
  sem_wf (Semaphore_try_acquire n s).2 /\ sem_wf (Semaphore_release n s).2.
Proof.
  intros Hwf. rewrite try_acquire_spec. destruct (release_spec n s Hwf) as (E1 & E2 & E3 & _).
  destruct Hwf as [Hp Hm].
  split_and!; auto.
  - destruct (Z.eqb_spec (permits s) 0); by case_decide.
  - unfold sem_wf. destruct (Z.eqb_spec (permits s) 0); simpl; lia.
  - unfold sem_wf. rewrite E1, E2. lia.
Qed.

Lemma semaphore_sequential_witness :
  let s := (Semaphore_new 2 : Semaphore ListQueue Z) in
  Semaphore_try_acquire 3 s = (true, set_permits s 1) /\
  permits (Semaphore_release 3 s).2 = 2 /\ (Semaphore_release 3 s).1 = None /\
  sem_wf (Semaphore_try_acquire 3 s).2 /\ sem_wf (Semaphore_release 3 s).2.
Proof.
  destruct (semaphore_sequential (Semaphore_new 2 : Semaphore ListQueue Z) 3) as (H1 & H2 & H3 & H4 & H5).
  { split; simpl; lia. }
  split_and!; [exact (eq_trans H1 eq_refl)|exact H2|exact H3|exact H4|exact H5].
Defined.

(** At [usize::MAX] permits the addition in [release] wraps and a [release]
    on a full semaphore empties it. *)
Theorem semaphore_release_wraps {Q : Type -> Type} `{AQ : ArrayQueue Q} {W : Type} (n : nat) :
  permits (Semaphore_release n (Semaphore_new (2 ^ 64 - 1) : Semaphore Q W)).2 = 0.
Proof.
  unfold Semaphore_release. destruct (sem_wake_spec (release_loop n (Semaphore_new (2 ^ 64 - 1) : Semaphore Q W)))
    as (-> & _). induction n; simpl; auto.
Qed.

Lemma semaphore_release_wraps_witness :
  permits (Semaphore_release 0 (Semaphore_new (2 ^ 64 - 1) : Semaphore ListQueue Z)).2 = 0.
Proof. apply (semaphore_release_wraps (Q:=ListQueue) 0). Defined.
