(* ===== verification/Registry.v ===== *)
(** * The registry of synchronization objects

    Models [src/kernel/src/sync/registry.rs].  The objects are behind [Arc]s:
    they live in an arena ([mutex_arcs], [sem_arcs]) and the registries map
    handles to arena locations, so that a looked-up object is shared with the
    registry.  The [spin::Once] cells are options, filled by the first access. *)

From S2P Require Import Prelude Queue Mutex Semaphore.
Open Scope Z_scope.

Record SyncRegistry (Q : Type -> Type) (W : Type) : Type := SyncRegistry_mk {
  mutex_arcs : gmap nat (AsyncMutex Q W unit);
  sem_arcs : gmap nat (Semaphore Q W);
  next_arc : nat;
  MUTEX_REGISTRY : option (gmap Z nat);
  SEM_REGISTRY : option (gmap Z nat);
  NEXT_MUTEX_ID : Z;
  NEXT_SEM_ID : Z;
}.
Arguments SyncRegistry_mk {Q W}.
Arguments mutex_arcs {Q W}.
Arguments sem_arcs {Q W}.
Arguments next_arc {Q W}.
Arguments MUTEX_REGISTRY {Q W}.
Arguments SEM_REGISTRY {Q W}.
Arguments NEXT_MUTEX_ID {Q W}.
Arguments NEXT_SEM_ID {Q W}.

Section registry.
Context {Q : Type -> Type} `{AQ : ArrayQueue Q} {W : Type}.
Abbreviation reg := (SyncRegistry Q W).

(** The statics before first use. *)
Definition registry_boot : reg := SyncRegistry_mk ∅ ∅ 0 None None 1 1.

Definition init_registries (r : reg) : reg :=
  SyncRegistry_mk (mutex_arcs r) (sem_arcs r) (next_arc r)
    (Some (default ∅ (MUTEX_REGISTRY r))) (Some (default ∅ (SEM_REGISTRY r)))
    (NEXT_MUTEX_ID r) (NEXT_SEM_ID r).

(** [mutex_registry()] and [sem_registry()]: initialise, then read the cell. *)
Definition mutex_registry (r : reg) : gmap Z nat * reg :=
  let r := init_registries r in (default ∅ (MUTEX_REGISTRY r), r).

Definition sem_registry (r : reg) : gmap Z nat * reg :=
  let r := init_registries r in (default ∅ (SEM_REGISTRY r), r).

Definition set_mutex_registry (r : reg) (m : gmap Z nat) : reg :=
  SyncRegistry_mk (mutex_arcs r) (sem_arcs r) (next_arc r) (Some m) (SEM_REGISTRY r)
    (NEXT_MUTEX_ID r) (NEXT_SEM_ID r).

Definition set_sem_registry (r : reg) (m : gmap Z nat) : reg :=
  SyncRegistry_mk (mutex_arcs r) (sem_arcs r) (next_arc r) (MUTEX_REGISTRY r) (Some m)
    (NEXT_MUTEX_ID r) (NEXT_SEM_ID r).

(** A write through an [Arc]. *)
Definition set_mutex (r : reg) (a : nat) (m : AsyncMutex Q W unit) : reg :=
  SyncRegistry_mk (<[a := m]> (mutex_arcs r)) (sem_arcs r) (next_arc r)
    (MUTEX_REGISTRY r) (SEM_REGISTRY r) (NEXT_MUTEX_ID r) (NEXT_SEM_ID r).

Definition set_sem (r : reg) (a : nat) (s : Semaphore Q W) : reg :=
  SyncRegistry_mk (mutex_arcs r) (<[a := s]> (sem_arcs r)) (next_arc r)
    (MUTEX_REGISTRY r) (SEM_REGISTRY r) (NEXT_MUTEX_ID r) (NEXT_SEM_ID r).

Definition create_mutex (r : reg) : Z * reg :=
  let '(handle, next) := fetch_add 64 (NEXT_MUTEX_ID r) in
  let r := SyncRegistry_mk (<[next_arc r := AsyncMutex_new tt]> (mutex_arcs r)) (sem_arcs r)
    (S (next_arc r)) (MUTEX_REGISTRY r) (SEM_REGISTRY r) next (NEXT_SEM_ID r) in
  let '(map, r) := mutex_registry r in
  (handle, set_mutex_registry r (<[handle := pred (next_arc r)]> map)).

Definition get_mutex (r : reg) (handle : Z) : option nat * reg :=
  let '(map, r) := mutex_registry r in (map !! handle, r).

Definition destroy_mutex (r : reg) (handle : Z) : bool * reg :=
  let '(map, r) := mutex_registry r in
  (bool_decide (is_Some (map !! handle)), set_mutex_registry r (delete handle map)).

Definition create_semaphore (r : reg) (n : Z) : Z * reg :=
  let '(handle, next) := fetch_add 64 (NEXT_SEM_ID r) in
  let r := SyncRegistry_mk (mutex_arcs r) (<[next_arc r := Semaphore_new n]> (sem_arcs r))
    (S (next_arc r)) (MUTEX_REGISTRY r) (SEM_REGISTRY r) (NEXT_MUTEX_ID r) next in
  let '(map, r) := sem_registry r in
  (handle, set_sem_registry r (<[handle := pred (next_arc r)]> map)).

Definition get_semaphore (r : reg) (handle : Z) : option nat * reg :=
  let '(map, r) := sem_registry r in (map !! handle, r).

Definition destroy_semaphore (r : reg) (handle : Z) : bool * reg :=
  let '(map, r) := sem_registry r in
  (bool_decide (is_Some (map !! handle)), set_sem_registry r (delete handle map)).

(** ** Abstraction: the objects the handles name *)

Definition mutex_at (r : reg) (handle : Z) : option (AsyncMutex Q W unit) :=
  default ∅ (MUTEX_REGISTRY r) !! handle ≫= fun a => mutex_arcs r !! a.

Definition sem_at (r : reg) (handle : Z) : option (Semaphore Q W) :=
  default ∅ (SEM_REGISTRY r) !! handle ≫= fun a => sem_arcs r !! a.

(** Registered locations are live and no two handles share one; handles come
    from the counters. *)
Record registry_wf (r : reg) : Prop := {
  rw_mutex : forall h a, default ∅ (MUTEX_REGISTRY r) !! h = Some a ->
    is_Some (mutex_arcs r !! a) /\ (a < next_arc r)%nat /\ 0 < h < NEXT_MUTEX_ID r;
  rw_sem : forall h a, default ∅ (SEM_REGISTRY r) !! h = Some a ->
    is_Some (sem_arcs r !! a) /\ (a < next_arc r)%nat /\ 0 < h < NEXT_SEM_ID r;
  rw_mutex_inj : forall h1 h2 a, default ∅ (MUTEX_REGISTRY r) !! h1 = Some a ->
    default ∅ (MUTEX_REGISTRY r) !! h2 = Some a -> h1 = h2;
  rw_sem_inj : forall h1 h2 a, default ∅ (SEM_REGISTRY r) !! h1 = Some a ->
    default ∅ (SEM_REGISTRY r) !! h2 = Some a -> h1 = h2;
  rw_ids : 0 < NEXT_MUTEX_ID r /\ 0 < NEXT_SEM_ID r;
}.

(** Reads that do not depend on whether the cells were initialised. *)
Definition same_objects (r r' : reg) : Prop :=
  (forall h, mutex_at r' h = mutex_at r h) /\ (forall h, sem_at r' h = sem_at r h).

Lemma registry_boot_wf : registry_wf registry_boot.
Proof. constructor; simpl; try done; try lia. Qed.

Lemma init_registries_wf r : registry_wf r -> registry_wf (init_registries r).
Proof. intros []. constructor; simpl; auto. Qed.

Lemma init_registries_same r : same_objects r (init_registries r).
Proof. done. Qed.

Lemma get_mutex_spec r h :
  registry_wf r ->
  let '(a, r') := get_mutex r h in
  registry_wf r' /\ same_objects r r' /\ r' = init_registries r /\
  mutex_at r h = a ≫= fun a => mutex_arcs r' !! a.
Proof. intros Hwf. simpl. split_and!; auto using init_registries_wf, init_registries_same. Qed.

Lemma get_semaphore_spec r h :
  registry_wf r ->
  let '(a, r') := get_semaphore r h in
  registry_wf r' /\ same_objects r r' /\ r' = init_registries r /\
  sem_at r h = a ≫= fun a => sem_arcs r' !! a.
Proof. intros Hwf. simpl. split_and!; auto using init_registries_wf, init_registries_same. Qed.

(** A write through a looked-up [Arc] changes the object of that handle only. *)
Lemma set_mutex_spec r h a m :
  registry_wf r -> default ∅ (MUTEX_REGISTRY r) !! h = Some a ->
  registry_wf (set_mutex r a m) /\
  (forall h', mutex_at (set_mutex r a m) h' = if decide (h' = h) then Some m else mutex_at r h') /\
  (forall h', sem_at (set_mutex r a m) h' = sem_at r h').
Proof.
  intros [Hm Hs Hmi Hsi Hid] Ha. split_and!; [constructor; simpl; auto| |done].
  - intros h' a' Hh'. destruct (Hm _ _ Hh') as (? & ? & ?). split_and!; try lia.
    rewrite lookup_insert. case_decide; eauto.
  - intros h'. unfold mutex_at; simpl. case_decide as Hd.
    + subst. rewrite Ha. simpl. apply lookup_insert_eq.
    + destruct (default ∅ (MUTEX_REGISTRY r) !! h') as [a'|] eqn:E; [|done]. simpl.
      rewrite lookup_insert_ne; [done|]. intros <-. by destruct (Hd (Hmi _ _ _ E Ha)).
Qed.

Lemma set_sem_spec r h a s :
  registry_wf r -> default ∅ (SEM_REGISTRY r) !! h = Some a ->
  registry_wf (set_sem r a s) /\
  (forall h', sem_at (set_sem r a s) h' = if decide (h' = h) then Some s else sem_at r h') /\
  (forall h', mutex_at (set_sem r a s) h' = mutex_at r h').
Proof.
  intros [Hm Hs Hmi Hsi Hid] Ha. split_and!; [constructor; simpl; auto| |done].
  - intros h' a' Hh'. destruct (Hs _ _ Hh') as (? & ? & ?). split_and!; try lia.
    rewrite lookup_insert. case_decide; eauto.
  - intros h'. unfold sem_at; simpl. case_decide as Hd.
    + subst. rewrite Ha. simpl. apply lookup_insert_eq.
    + destruct (default ∅ (SEM_REGISTRY r) !! h') as [a'|] eqn:E; [|done]. simpl.
      rewrite lookup_insert_ne; [done|]. intros <-. by destruct (Hd (Hsi _ _ _ E Ha)).
Qed.

Lemma create_mutex_spec r :
  registry_wf r -> NEXT_MUTEX_ID r < 2 ^ 64 - 1 ->
  let '(h, r') := create_mutex r in
  registry_wf r' /\ mutex_at r h = None /\ h = NEXT_MUTEX_ID r /\
  (forall h', mutex_at r' h' = if decide (h' = h) then Some (AsyncMutex_new tt) else mutex_at r h') /\
  (forall h', sem_at r' h' = sem_at r h').
Proof.
  intros [Hm Hs Hmi Hsi [Hid1 Hid2]] Hlt. simpl.
  assert (Hfresh : default ∅ (MUTEX_REGISTRY r) !! NEXT_MUTEX_ID r = None).
  { destruct (default ∅ (MUTEX_REGISTRY r) !! NEXT_MUTEX_ID r) eqn:E; [|done].
    apply Hm in E as (_ & _ & ?). lia. }
  assert (Hne : forall h a, default ∅ (MUTEX_REGISTRY r) !! h = Some a -> a <> next_arc r).
  { intros h a Ha. apply Hm in Ha as (_ & ? & _). lia. }
  split_and!; try done.
  - constructor; simpl; auto; rewrite ?wrap_small by (unfold fits; lia).
    + intros h a. rewrite lookup_insert. case_decide; intros Ha; simplify_eq.
      * rewrite lookup_insert_eq. split_and!; eauto; lia.
      * destruct (Hm _ _ Ha) as (? & ? & ?). rewrite lookup_insert_ne by naive_solver.
        split_and!; auto; lia.
    + intros h a Ha. destruct (Hs _ _ Ha) as (? & ? & ?). split_and!; auto; lia.
    + intros h1 h2 a. rewrite !lookup_insert. repeat case_decide; intros; simplify_eq; eauto;
        exfalso; eapply Hne; eauto.
    + lia.
  - unfold mutex_at. by rewrite Hfresh.
  - intros h'. unfold mutex_at; simpl. rewrite lookup_insert.
    repeat case_decide; subst; simplify_eq; try done; simpl.
    + by rewrite lookup_insert_eq.
    + destruct (default ∅ (MUTEX_REGISTRY r) !! h') as [a|] eqn:E; [|done]. simpl.
      rewrite lookup_insert_ne; [done|]. apply not_eq_sym. eauto.
Qed.

Lemma create_semaphore_spec r n :
  registry_wf r -> NEXT_SEM_ID r < 2 ^ 64 - 1 ->
  let '(h, r') := create_semaphore r n in
  registry_wf r' /\ sem_at r h = None /\ h = NEXT_SEM_ID r /\
  (forall h', sem_at r' h' = if decide (h' = h) then Some (Semaphore_new n) else sem_at r h') /\
  (forall h', mutex_at r' h' = mutex_at r h').
Proof.
  intros [Hm Hs Hmi Hsi [Hid1 Hid2]] Hlt. simpl.
  assert (Hfresh : default ∅ (SEM_REGISTRY r) !! NEXT_SEM_ID r = None).
  { destruct (default ∅ (SEM_REGISTRY r) !! NEXT_SEM_ID r) eqn:E; [|done].
    apply Hs in E as (_ & _ & ?). lia. }
  assert (Hne : forall h a, default ∅ (SEM_REGISTRY r) !! h = Some a -> a <> next_arc r).
  { intros h a Ha. apply Hs in Ha as (_ & ? & _). lia. }
  split_and!; try done.
  - constructor; simpl; auto; rewrite ?wrap_small by (unfold fits; lia).
    + intros h a Ha. destruct (Hm _ _ Ha) as (? & ? & ?). split_and!; auto; lia.
    + intros h a. rewrite lookup_insert. case_decide; intros Ha; simplify_eq.
      * rewrite lookup_insert_eq. split_and!; eauto; lia.
      * destruct (Hs _ _ Ha) as (? & ? & ?). rewrite lookup_insert_ne by naive_solver.
        split_and!; auto; lia.
    + intros h1 h2 a. rewrite !lookup_insert. repeat case_decide; intros; simplify_eq; eauto;
        exfalso; eapply Hne; eauto.
    + lia.
  - unfold sem_at. by rewrite Hfresh.
  - intros h'. unfold sem_at; simpl. rewrite lookup_insert.
    repeat case_decide; subst; simplify_eq; try done; simpl.
    + by rewrite lookup_insert_eq.
    + destruct (default ∅ (SEM_REGISTRY r) !! h') as [a|] eqn:E; [|done]. simpl.
      rewrite lookup_insert_ne; [done|]. apply not_eq_sym. eauto.
Qed.

Lemma destroy_mutex_spec r h :
  registry_wf r ->
  let '(b, r') := destroy_mutex r h in
  registry_wf r' /\ b = bool_decide (is_Some (mutex_at r h)) /\
  (forall h', mutex_at r' h' = if decide (h' = h) then None else mutex_at r h') /\
  (forall h', sem_at r' h' = sem_at r h').
Proof.
  intros [Hm Hs Hmi Hsi Hid]. simpl. split_and!; try done.
  - constructor; simpl; auto.
    + intros h' a. rewrite lookup_delete. case_decide; [done|]. apply Hm.
    + intros h1 h2 a. rewrite !lookup_delete. repeat case_decide; try done. apply Hmi.
  - apply bool_decide_ext. unfold mutex_at.
    destruct (default ∅ (MUTEX_REGISTRY r) !! h) as [a|] eqn:E; simpl; [|done].
    destruct (Hm _ _ E) as ([m ->] & _). split; eauto.
  - intros h'. unfold mutex_at; simpl. rewrite lookup_delete. repeat case_decide; naive_solver.
Qed.
End registry.

(** ** Properties *)

(** The life of a registered mutex: [create_mutex] returns a handle that named
    nothing, [get_mutex] then finds a fresh unlocked mutex under it, [destroy_mutex]
    removes it (answering [true] the first time and [false] afterwards), and no
    other mutex or semaphore of the registry is affected. *)
Theorem registry_mutex_lifecycle {Q : Type -> Type} `{AQ : ArrayQueue Q} {W : Type}
    (r : SyncRegistry Q W) :
  registry_wf r -> NEXT_MUTEX_ID r < 2 ^ 64 - 1 ->
  let '(h, r1) := create_mutex r in
  let '(b1, r2) := destroy_mutex r1 h in
  let '(b2, r3) := destroy_mutex r2 h in
  mutex_at r h = None /\ mutex_at r1 h = Some (AsyncMutex_new tt) /\
  is_Some (get_mutex r1 h).1 /\ b1 = true /\ mutex_at r2 h = None /\ b2 = false /\
  registry_wf r3 /\ (forall h', mutex_at r3 h' = mutex_at r h') /\
  (forall h', sem_at r3 h' = sem_at r h').
Proof.
  intros Hwf Hlt. pose proof (create_mutex_spec r Hwf Hlt) as H1.
  destruct (create_mutex r) as [h r1]. destruct H1 as (Hwf1 & Hnone & _ & Hm1 & Hs1).
  pose proof (destroy_mutex_spec r1 h Hwf1) as H2.
  destruct (destroy_mutex r1 h) as [b1 r2]. destruct H2 as (Hwf2 & Hb1 & Hm2 & Hs2).
  pose proof (destroy_mutex_spec r2 h Hwf2) as H3.
  destruct (destroy_mutex r2 h) as [b2 r3]. destruct H3 as (Hwf3 & Hb2 & Hm3 & Hs3).
  assert (E1 : mutex_at r1 h = Some (AsyncMutex_new tt)) by (by rewrite Hm1, decide_True).
  assert (E2 : mutex_at r2 h = None) by (by rewrite Hm2, decide_True).
  rewrite E1 in Hb1. rewrite E2 in Hb2. split_and!; auto.
  - pose proof (get_mutex_spec r1 h Hwf1) as H. destruct (get_mutex r1 h) as [a r'].
    destruct H as (_ & _ & _ & H). rewrite E1 in H. destruct a; eauto. done.
  - intros h'. rewrite Hm3, Hm2, Hm1. case_decide; congruence.
  - intros h'. by rewrite Hs3, Hs2, Hs1.
Qed.

Lemma registry_mutex_lifecycle_witness :
  let '(h, r1) := create_mutex (registry_boot : SyncRegistry ListQueue Z) in
  let '(b1, r2) := destroy_mutex r1 h in
  let '(b2, r3) := destroy_mutex r2 h in
  h = 1 /\ mutex_at r1 h = Some (AsyncMutex_new tt) /\ b1 = true /\ b2 = false.
Proof.
  pose proof (registry_mutex_lifecycle (registry_boot : SyncRegistry ListQueue Z)
    registry_boot_wf eq_refl) as H. simpl in H |- *. naive_solver.
Defined.
