(* ===== verification/Executor.v ===== *)
(** * Tasks and the executor

    Models [src/kernel/src/task/mod.rs] and [src/kernel/src/task/executor.rs].
    A future is a parameter type [F] with a poll function over a shared
    [World]: polling returns the result, the future's next state, the next world
    and the wakers called during the poll, in order.  The four priority queues
    are bounded queues indexed by priority; a waker is a task id with the queue
    it pushes to.  The drain loops take fuel, [None] meaning that the loop was
    still running. *)

From S2P Require Import Prelude Queue.
From stdpp Require Import functions.
Open Scope Z_scope.

(** ** [task/mod.rs] *)

Inductive Priority : Type := Idle | Normal | High | Critical.

#[export] Instance Priority_eq_dec : EqDecision Priority.
Proof. solve_decision. Defined.

(** [TaskId::new]: the static [NEXT_ID], a [u64] counter from 0. *)
Definition TaskId_new (next_id : Z) : Z * Z := fetch_add 64 next_id.

Record Task (F : Type) : Type := Task_mk {
  task_id : Z;
  task_priority : Priority;
  task_future : F;
}.
Arguments Task_mk {F}.
Arguments task_id {F}.
Arguments task_priority {F}.
Arguments task_future {F}.

Definition Task_with_priority {F} (next_id : Z) (f : F) (p : Priority) : Task F * Z :=
  let '(id, next_id) := TaskId_new next_id in (Task_mk id p f, next_id).

Definition Task_new {F} (next_id : Z) (f : F) : Task F * Z :=
  Task_with_priority next_id f Normal.

(** ** [task/executor.rs] *)

Definition QUEUE_CAPACITY : nat := 100.

(** [TaskWaker]: the task and the (shared) queue it re-queues the task on. *)
Record TaskWaker : Type := TaskWaker_mk { tw_task_id : Z; tw_queue : Priority }.

Definition TaskWaker_new (id : Z) (q : Priority) : TaskWaker := TaskWaker_mk id q.

(** [YieldNow::poll]: the state is [yielded]; the second component is whether the
    task's own waker was called. *)
Definition YieldNow_poll (yielded : bool) : Poll unit * bool * bool :=
  if yielded then (Ready tt, yielded, false) else (Pending, true, true).

Record Executor (Q : Type -> Type) (F : Type) : Type := Executor_mk {
  tasks : gmap Z (Task F);
  task_queues : Priority -> Q Z;
  waker_cache : gmap Z TaskWaker;
}.
Arguments Executor_mk {Q F}.
Arguments tasks {Q F}.
Arguments task_queues {Q F}.
Arguments waker_cache {Q F}.

Section executor.
Context {Q : Type -> Type} `{AQ : ArrayQueue Q} {F World : Type}.
Context (fpoll : F -> TaskWaker -> World -> Poll unit * F * World * list TaskWaker).
Abbreviation exec := (Executor Q F).

Definition Executor_new : exec := Executor_mk ∅ (fun _ => q_new QUEUE_CAPACITY) ∅.

Definition set_queue (ex : exec) (p : Priority) (q : Q Z) : exec :=
  Executor_mk (tasks ex) (<[p := q]> (task_queues ex)) (waker_cache ex).

Definition set_tasks (ex : exec) (ts : gmap Z (Task F)) (ws : gmap Z TaskWaker) : exec :=
  Executor_mk ts (task_queues ex) ws.

(** [Executor::spawn]; the boolean tells whether the task was queued. *)
Definition Executor_spawn (ex : exec) (t : Task F) : bool * exec :=
  let id := task_id t in
  match tasks ex !! id with
  | Some _ => (false, ex)
  | None =>
      let ex := set_tasks ex (<[id := t]> (tasks ex)) (waker_cache ex) in
      match q_push (task_queues ex (task_priority t)) id with
      | (Ok _, q) => (true, set_queue ex (task_priority t) q)
      | (Err _, q) =>
          let ex := set_queue ex (task_priority t) q in
          (false, set_tasks ex (delete id (tasks ex)) (waker_cache ex))
      end
  end.

(** [ArcWake::wake_by_ref]: a full queue drops the wake. *)
Definition wake_by_ref (ex : exec) (w : TaskWaker) : exec :=
  set_queue ex (tw_queue w) (q_push (task_queues ex (tw_queue w)) (tw_task_id w)).2.

(** The body of the [while let] loop after popping [id] from queue [p]. *)
Definition poll_popped (p : Priority) (id : Z) (ex : exec) (world : World) : exec * World :=
  match tasks ex !! id with
  | None => (ex, world)
  | Some task =>
      let waker := default (TaskWaker_new id p) (waker_cache ex !! id) in
      let cache := <[id := waker]> (waker_cache ex) in
      let '(res, future, world, wakes) := fpoll (task_future task) waker world in
      let task := Task_mk (task_id task) (task_priority task) future in
      let ex := foldl wake_by_ref (set_tasks ex (<[id := task]> (tasks ex)) cache) wakes in
      match res with
      | Ready _ => (set_tasks ex (delete id (tasks ex)) (delete id (waker_cache ex)), world)
      | Pending => (ex, world)
      end
  end.

(** One iteration of the loop on queue [p]: [None] when the queue is empty. *)
Definition level_step (p : Priority) (ex : exec) (world : World) : option (Z * exec * World) :=
  match q_pop (task_queues ex p) with
  | (None, _) => None
  | (Some id, q) =>
      let '(ex, world) := poll_popped p id (set_queue ex p q) world in Some (id, ex, world)
  end.

(** The first [n] iterations of the loop on queue [p], with the ids popped. *)
Fixpoint level_trace (n : nat) (p : Priority) (ex : exec) (world : World) : list Z * exec * World :=
  match n with
  | O => ([], ex, world)
  | S n =>
      match level_step p ex world with
      | None => ([], ex, world)
      | Some (id, ex, world) =>
          let '(l, ex, world) := level_trace n p ex world in (id :: l, ex, world)
      end
  end.

(** The loop on queue [p]. *)
Fixpoint run_level (fuel : nat) (p : Priority) (ex : exec) (world : World) : option (exec * World) :=
  match fuel with
  | O => None
  | S fuel =>
      match level_step p ex world with
      | None => Some (ex, world)
      | Some (_, ex, world) => run_level fuel p ex world
      end
  end.

(** [run_ready_tasks]: the levels from [Critical] down to [Idle]. *)
Definition run_ready_tasks (fuel : nat) (ex : exec) (world : World) : option (exec * World) :=
  foldl (fun st p => match st with
                     | Some (ex, world) => run_level fuel p ex world
                     | None => None
                     end) (Some (ex, world)) [Critical; High; Normal; Idle].

(** [sleep_if_idle] halts the CPU exactly when every queue is empty. *)
Definition sleep_if_idle (ex : exec) : bool :=
  forallb (fun p => q_is_empty (task_queues ex p)) [Idle; Normal; High; Critical].

(** [run]: rounds until the CPU would first halt; [None] while it has not. *)
Fixpoint run (rounds fuel : nat) (ex : exec) (world : World) : option (exec * World) :=
  match rounds with
  | O => None
  | S rounds =>
      match run_ready_tasks fuel ex world with
      | None => None
      | Some (ex, world) =>
          if sleep_if_idle ex then Some (ex, world) else run rounds fuel ex world
      end
  end.

(** ** Queues under the loop body *)

Abbreviation items ex p := (q_items (task_queues ex p)).

Lemma set_queue_eq ex p q : task_queues (set_queue ex p q) p = q.
Proof. simpl. by rewrite fn_lookup_insert. Qed.

Lemma set_queue_ne ex p p' q : p <> p' -> task_queues (set_queue ex p q) p' = task_queues ex p'.
Proof. intros. simpl. by rewrite fn_lookup_insert_ne. Qed.

(** Wakes only append to queues, and only ids of the woken tasks. *)
Lemma wakes_items ws ex p :
  exists l, items (foldl wake_by_ref ex ws) p = items ex p ++ l /\
    (length l <= length ws)%nat /\ Forall (fun id => TaskWaker_mk id p ∈ ws) l.
Proof.
  revert ex. induction ws as [|w ws IH]; intros ex; simpl.
  { exists []. by rewrite app_nil_r. }
  destruct (IH (wake_by_ref ex w)) as (l & -> & Hlen & Hl).
  assert (Hl' : Forall (fun id => TaskWaker_mk id p ∈ w :: ws) l).
  { eapply Forall_impl; [|exact Hl]. intros. by right. }
  destruct (decide (tw_queue w = p)) as [<-|Hne].
  - unfold wake_by_ref. rewrite set_queue_eq, (proj1 (q_push_spec _ _)).
    case_decide; [|exists l; split_and!; auto; lia].
    exists (tw_task_id w :: l). rewrite <- app_assoc. split_and!; [done|simpl; lia|].
    constructor; [|done]. destruct w. by left.
  - exists l. unfold wake_by_ref. rewrite set_queue_ne by done. split_and!; auto; lia.
Qed.

Lemma wakes_tasks ws ex :
  tasks (foldl wake_by_ref ex ws) = tasks ex /\
  waker_cache (foldl wake_by_ref ex ws) = waker_cache ex.
Proof. revert ex. induction ws as [|w ws IH]; intros ex; simpl; [done|]. by destruct (IH (wake_by_ref ex w)). Qed.

(** Spawning and polling other tasks leave a task alone. *)
Lemma spawn_tasks_ne ex t id :
  task_id t <> id -> tasks (Executor_spawn ex t).2 !! id = tasks ex !! id.
Proof.
  intros Hne. unfold Executor_spawn. destruct (tasks ex !! task_id t); [done|].
  destruct (q_push _ _) as [[u|u] q]; simpl.
  - by rewrite lookup_insert_ne.
  - by rewrite lookup_delete_ne, lookup_insert_ne by done.
Qed.

Lemma level_step_tasks_ne p ex world j ex' world' id :
  level_step p ex world = Some (j, ex', world') -> j <> id -> tasks ex' !! id = tasks ex !! id.
Proof.
  unfold level_step. destruct (q_pop _) as [[i|] q]; [|done].
  destruct (poll_popped p i (set_queue ex p q) world) as [ex1 w1] eqn:Ep. intros [= -> -> ->] Hne. revert Ep.
  unfold poll_popped. simpl. destruct (tasks ex !! j) as [t|]; [|by intros [= <- <-]].
  destruct (fpoll _ _ _) as [[[res fut] w] wakes].
  match goal with |- context [foldl wake_by_ref ?e wakes] => destruct (wakes_tasks wakes e) as [Et _] end.
  destruct res; intros [= <- <-]; simpl; rewrite Et; simpl.
  - by rewrite lookup_delete_ne, lookup_insert_ne by done.
  - by rewrite lookup_insert_ne by done.
Qed.

(** The wakers a poll of task [id] from queue [p] calls. *)
Definition poll_wakes (p : Priority) (id : Z) (ex : exec) (world : World) : list TaskWaker :=
  match tasks ex !! id with
  | None => []
  | Some task =>
      (fpoll (task_future task) (default (TaskWaker_new id p) (waker_cache ex !! id)) world).2
  end.

(** Queue [p'] after the loop body: what it was, then the woken ids. *)
Lemma poll_popped_items p id ex world p' :
  items (poll_popped p id ex world).1 p' =
  items (foldl wake_by_ref ex (poll_wakes p id ex world)) p'.
Proof.
  unfold poll_popped, poll_wakes. destruct (tasks ex !! id) as [task|]; [|done].
  destruct (fpoll _ _ _) as [[[res fut] w] wakes]. simpl.
  assert (Hq : forall ws ex1 ex2, task_queues ex1 = task_queues ex2 ->
    task_queues (foldl wake_by_ref ex1 ws) = task_queues (foldl wake_by_ref ex2 ws)).
  { induction ws as [|x ws IH]; intros e1 e2 E; simpl; [done|]. apply IH. simpl. by rewrite E. }
  destruct res; simpl; by rewrite (Hq _ _ ex).
Qed.

Lemma level_step_items p ex world id ex' world' :
  level_step p ex world = Some (id, ex', world') ->
  exists l, items ex p = id :: tail (items ex p) /\
    items ex' p = tail (items ex p) ++ l /\ 
    (length l <= length (poll_wakes p id (set_queue ex p (q_pop (task_queues ex p)).2) world))%nat.
Proof.
  unfold level_step. pose proof (q_pop_items _ (task_queues ex p)) as [H1 H2].
  destruct (q_pop (task_queues ex p)) as [[i|] q] eqn:E; [|done]. simpl in *.
  destruct (poll_popped p i (set_queue ex p q) world) as [ex1 w1] eqn:Ep. intros [= <- <- <-].
  pose proof (poll_popped_items p i (set_queue ex p q) world p) as Hit. rewrite Ep in Hit. simpl in Hit.
  destruct (wakes_items (poll_wakes p i (set_queue ex p q) world) (set_queue ex p q) p) as (l & Hl & Hlen & _).
  exists l. simpl in Hit, Hl. rewrite fn_lookup_insert in Hl. rewrite Hit, Hl, H2.
  destruct (items ex p); simplify_eq/=. auto.
Qed.

Lemma level_step_None p ex world : level_step p ex world = None <-> items ex p = [].
Proof.
  unfold level_step. pose proof (q_pop_items _ (task_queues ex p)) as [H1 _].
  destruct (q_pop (task_queues ex p)) as [[i|] q] eqn:E; simpl in *;
    [destruct (poll_popped p i (set_queue ex p q) world)|]; destruct (items ex p); naive_solver.
Qed.

Lemma level_trace_add n m p ex world :
  length (level_trace n p ex world).1.1 = n ->
  level_trace (n + m) p ex world =
  let '(l, ex', world') := level_trace n p ex world in
  let '(l', ex'', world'') := level_trace m p ex' world' in (l ++ l', ex'', world'').
Proof.
  revert ex world. induction n as [|n IH]; intros ex world Hn; simpl in *.
  { by destruct (level_trace m p ex world) as [[??]?]. }
  destruct (level_step p ex world) as [[[id ex1] w1]|]; [|done].
  specialize (IH ex1 w1). destruct (level_trace n p ex1 w1) as [[l ex2] w2]. simpl in *.
  rewrite IH by lia. by destruct (level_trace m p ex2 w2) as [[??]?].
Qed.

(** The loop runs at least as long as the trace. *)
Lemma run_level_trace n p ex world :
  length (level_trace n p ex world).1.1 = n -> run_level n p ex world = None.
Proof.
  revert ex world. induction n as [|n IH]; intros ex world Hn; simpl in *; [done|].
  destruct (level_step p ex world) as [[[id ex1] w1]|]; [|done]. apply IH.
  destruct (level_trace n p ex1 w1) as [[l ex2] w2]. simpl in *. lia.
Qed.

(** ** First in, first out *)

Lemma level_trace_prefix l1 l2 p ex world :
  items ex p = l1 ++ l2 ->
  exists ex' world' l, level_trace (length l1) p ex world = (l1, ex', world') /\
    items ex' p = l2 ++ l.
Proof.
  revert l2 ex world. induction l1 as [|id l1 IH]; intros l2 ex world Hl; simpl.
  { exists ex, world, []. by rewrite app_nil_r. }
  destruct (level_step p ex world) as [[[i ex1] w1]|] eqn:E.
  - apply level_step_items in E as (l & E1 & E2 & _). rewrite Hl in E1, E2. simplify_eq/=.
    rewrite <- app_assoc in E2. destruct (IH _ _ w1 E2) as (ex' & w' & l' & -> & H').
    exists ex', w', (l ++ l'). by rewrite H', app_assoc.
  - apply level_step_None in E. by rewrite E in Hl.
Qed.

(** ** Tasks that yield *)

(** A poll that wakes its own task moves it to the end of its queue. *)
Lemma yield_step p ex world id l t f' world' :
  items ex p = id :: l -> tasks ex !! id = Some t ->
  (forall wk, waker_cache ex !! id = Some wk -> wk = TaskWaker_mk id p) ->
  fpoll (task_future t) (TaskWaker_mk id p) world = (Pending, f', world', [TaskWaker_mk id p]) ->
  exists ex', level_step p ex world = Some (id, ex', world') /\ items ex' p = l ++ [id] /\
    tasks ex' = <[id := Task_mk (task_id t) (task_priority t) f']> (tasks ex) /\
    waker_cache ex' = <[id := TaskWaker_mk id p]> (waker_cache ex) /\
    forall p', p' <> p -> task_queues ex' p' = task_queues ex p'.
Proof.
  intros Hl Ht Hw E. unfold level_step.
  destruct (q_pop_cons _ _ _ Hl) as [H1 H2]. pose proof (q_pop_cap _ (task_queues ex p)) as Hc.
  pose proof (q_bound _ (task_queues ex p)) as Hb. rewrite Hl in Hb. simpl in Hb.
  destruct (q_pop (task_queues ex p)) as [i q]. simpl in *. subst i. unfold poll_popped. simpl. rewrite Ht.
  assert (default (TaskWaker_new id p) (waker_cache ex !! id) = TaskWaker_mk id p) as ->.
  { destruct (waker_cache ex !! id); simpl; [by apply Hw|done]. }
  rewrite E. eexists. split; [done|]. simpl. rewrite !fn_lookup_insert. split_and!; [|done|done|].
  - rewrite (proj1 (q_push_spec q id)), decide_True by (rewrite H2, Hc; lia). by rewrite H2.
  - intros p' Hp. by rewrite !fn_lookup_insert_ne by done.
Qed.

Section yielding.
Variable Y : F -> Prop.
Hypothesis yield_poll : forall f wk w, Y f ->
  exists f' w', fpoll f wk w = (Pending, f', w', [wk]) /\ Y f'.

(** Task [id] is live, yields forever, and its waker (if cached) is its own. *)
Definition yielding (p : Priority) (ex : exec) (id : Z) : Prop :=
  (exists t, tasks ex !! id = Some t /\ Y (task_future t)) /\
  (forall wk, waker_cache ex !! id = Some wk -> wk = TaskWaker_mk id p).

Lemma yielding_step p ex world id l :
  items ex p = id :: l -> Forall (yielding p ex) (id :: l) ->
  exists ex' world', level_step p ex world = Some (id, ex', world') /\
    items ex' p = l ++ [id] /\ Forall (yielding p ex') (l ++ [id]) /\
    forall p', p' <> p -> task_queues ex' p' = task_queues ex p'.
Proof.
  intros Hl Hy. destruct (Forall_cons_1 _ _ _ Hy) as [[(t & Ht & HY) Hw] Hys].
  destruct (yield_poll (task_future t) (TaskWaker_mk id p) world HY) as (f' & w' & E & HY').
  destruct (yield_step p ex world id l t f' w' Hl Ht Hw E) as (ex' & E' & Hi & Hts & Hc & Hq).
  exists ex', w'. split_and!; [done..| |done].
  assert (Hall : Forall (yielding p ex) (l ++ [id])).
  { apply Forall_app. split; [done|]. by apply Forall_singleton; inversion Hy. }
  eapply Forall_impl; [|exact Hall]. intros j [(t' & Ht' & HY2) Hw']. split; rewrite ?Hts, ?Hc.
  - destruct (decide (j = id)) as [->|].
    + eexists. rewrite lookup_insert_eq. split; [done|]. done.
    + exists t'. by rewrite lookup_insert_ne.
  - intros wk. rewrite lookup_insert_Some. naive_solver.
Qed.

Lemma yielding_trace l1 l2 p ex world :
  items ex p = l1 ++ l2 -> Forall (yielding p ex) (l1 ++ l2) ->
  exists ex' world', level_trace (length l1) p ex world = (l1, ex', world') /\
    items ex' p = l2 ++ l1 /\ Forall (yielding p ex') (l2 ++ l1) /\
    forall p', p' <> p -> task_queues ex' p' = task_queues ex p'.
Proof.
  revert l2 ex world. induction l1 as [|id l1 IH]; intros l2 ex world Hl Hy; simpl in *.
  { rewrite !app_nil_r. eauto 6. }
  destruct (yielding_step _ _ world _ _ Hl Hy) as (ex1 & w1 & -> & Hl1 & Hy1 & Hq).
  rewrite <- app_assoc in Hl1, Hy1.
  destruct (IH _ _ w1 Hl1 Hy1) as (ex2 & w2 & -> & Hl2 & Hy2 & Hq2).
  rewrite <- app_assoc in Hl2, Hy2. eexists _, _. split_and!; [done..|].
  intros p' Hp. by rewrite Hq2, Hq.
Qed.

Lemma yielding_rounds k l1 l2 p ex world :
  items ex p = l1 ++ l2 -> Forall (yielding p ex) (l1 ++ l2) ->
  exists ex' world',
    level_trace (k * length (l1 ++ l2) + length l1) p ex world =
      (concat (replicate k (l1 ++ l2)) ++ l1, ex', world') /\
    forall p', p' <> p -> task_queues ex' p' = task_queues ex p'.
Proof.
  revert ex world. induction k as [|k IH]; intros ex world Hl Hy; simpl.
  { destruct (yielding_trace l1 l2 p ex world Hl Hy) as (ex' & w' & -> & _ & _ & Hq). eauto. }
  destruct (yielding_trace (l1 ++ l2) [] p ex world) as (ex1 & w1 & E & Hl1 & Hy1 & Hq);
    [by rewrite app_nil_r..|].
  destruct (IH ex1 w1 Hl1 Hy1) as (ex2 & w2 & E2 & Hq2).
  exists ex2, w2. rewrite <- Nat.add_assoc, level_trace_add by (by rewrite E).
  rewrite E, E2, app_assoc. split; [done|]. intros p' Hp. by rewrite Hq2, Hq.
Qed.
End yielding.

(** ** Bounded work *)

Section bounded.
Variable budget : World -> nat.
Hypothesis budget_poll : forall f wk w r f' w' ws,
  fpoll f wk w = (r, f', w', ws) -> (budget w' + length ws <= budget w)%nat.

Definition queued (ex : exec) : nat :=
  (length (items ex Idle) + length (items ex Normal) + length (items ex High) +
   length (items ex Critical))%nat.

Definition work (ex : exec) (world : World) : nat := (queued ex + budget world)%nat.

Lemma wake_queued ex w : (queued (wake_by_ref ex w) <= S (queued ex))%nat.
Proof.
  unfold queued, wake_by_ref. destruct w as [id q]. simpl.
  pose proof (proj1 (q_push_spec (task_queues ex q) id)) as Hp.
  assert (length (q_items (q_push (task_queues ex q) id).2) <= S (length (items ex q)))%nat.
  { rewrite Hp. case_decide; [rewrite length_app|]; simpl; lia. }
  destruct q; simpl in *; unfold insert, fn_insert; simpl; lia.
Qed.

Lemma wakes_queued ws ex : (queued (foldl wake_by_ref ex ws) <= queued ex + length ws)%nat.
Proof.
  revert ex. induction ws as [|w ws IH]; intros ex; simpl; [lia|].
  pose proof (IH (wake_by_ref ex w)). pose proof (wake_queued ex w). lia.
Qed.

Lemma pop_queued ex p id q :
  q_pop (task_queues ex p) = (Some id, q) -> S (queued (set_queue ex p q)) = queued ex.
Proof.
  intros E. pose proof (q_pop_items _ (task_queues ex p)) as [H1 H2]. rewrite E in H1, H2.
  unfold queued, set_queue. simpl in *. destruct (items ex p) as [|i l] eqn:Hl; [done|].
  destruct p; unfold insert, fn_insert; simpl; rewrite H2, Hl; simpl; lia.
Qed.

Lemma poll_popped_work p id ex world :
  let '(ex', world') := poll_popped p id ex world in (work ex' world' <= work ex world)%nat.
Proof.
  unfold poll_popped, work. destruct (tasks ex !! id) as [t|]; [|done].
  destruct (fpoll _ _ world) as [[[r f'] w'] ws] eqn:E. apply budget_poll in E.
  pose proof (wakes_queued ws (set_tasks ex (<[id:=Task_mk (task_id t) (task_priority t) f']> (tasks ex))
     (<[id:=default (TaskWaker_new id p) (waker_cache ex !! id)]> (waker_cache ex)))) as Hq.
  destruct r; unfold queued in *; simpl in *; lia.
Qed.

Lemma level_step_work p ex world id ex' world' :
  level_step p ex world = Some (id, ex', world') -> (work ex' world' < work ex world)%nat.
Proof.
  unfold level_step. destruct (q_pop _) as [[i|] q] eqn:E; [|done].
  pose proof (poll_popped_work p i (set_queue ex p q) world) as Hw.
  destruct (poll_popped _ _ _ _). intros [= -> -> ->]. apply pop_queued in E.
  unfold work in *. lia.
Qed.

Lemma run_level_work fuel p ex world :
  (work ex world < fuel)%nat ->
  exists ex' world', run_level fuel p ex world = Some (ex', world') /\ items ex' p = [] /\
    (ex' = ex /\ world' = world \/ (work ex' world' < work ex world)%nat).
Proof.
  revert ex world. induction fuel as [|fuel IH]; intros ex world Hf; [lia|]. simpl.
  destruct (level_step p ex world) as [[[id ex1] w1]|] eqn:E.
  - apply level_step_work in E. destruct (IH ex1 w1 ltac:(lia)) as (ex' & w' & -> & Hi & Hw).
    eexists _, _. split_and!; [done..|]. right. naive_solver lia.
  - apply level_step_None in E. exists ex, world. auto.
Qed.

Lemma run_ready_work fuel ex world :
  (work ex world < fuel)%nat ->
  exists ex' world', run_ready_tasks fuel ex world = Some (ex', world') /\ items ex' Idle = [] /\
    (sleep_if_idle ex' = true \/ (work ex' world' < work ex world)%nat).
Proof.
  intros Hf. unfold run_ready_tasks. simpl.
  destruct (run_level_work fuel Critical ex world Hf) as (ex1 & w1 & -> & Hi1 & H1).
  destruct (run_level_work fuel High ex1 w1) as (ex2 & w2 & -> & Hi2 & H2); [naive_solver lia|].
  destruct (run_level_work fuel Normal ex2 w2) as (ex3 & w3 & -> & Hi3 & H3); [naive_solver lia|].
  destruct (run_level_work fuel Idle ex3 w3) as (ex4 & w4 & -> & Hi4 & H4); [naive_solver lia|].
  exists ex4, w4. split_and!; [done..|].
  destruct H1 as [[-> ->]|H1], H2 as [[-> ->]|H2], H3 as [[-> ->]|H3], H4 as [[-> ->]|H4];
    try (right; lia).
  left. unfold sleep_if_idle. simpl. rewrite !andb_true_iff, !q_is_empty_items. done.
Qed.

Lemma run_work rounds fuel ex world :
  (work ex world < rounds)%nat -> (work ex world < fuel)%nat ->
  exists ex' world', run rounds fuel ex world = Some (ex', world') /\ sleep_if_idle ex' = true.
Proof.
  revert ex world. induction rounds as [|rounds IH]; intros ex world Hr Hf; [lia|]. simpl.
  destruct (run_ready_work fuel ex world Hf) as (ex1 & w1 & -> & _ & Hw).
  destruct (sleep_if_idle ex1) eqn:Es; [eauto|]. destruct Hw as [|Hw]; [done|].
  apply IH; lia.
Qed.
End bounded.

(** ** Every history of the executor *)

Section history.
(** The wakers stored in the world (mutex waiters, the keyboard waker, ...). *)
Variable held : World -> list TaskWaker.
(** A future calls and stores only wakers it was given or found in the world. *)
Hypothesis held_poll : forall f wk w r f' w' ws,
  fpoll f wk w = (r, f', w', ws) ->
  (forall x, x ∈ ws -> x = wk \/ x ∈ held w) /\ (forall x, x ∈ held w' -> x = wk \/ x ∈ held w).

(** What happens to an executor: a spawn of a new task, one iteration of a drain
    loop, and an interrupt that calls a stored waker or changes the world. *)
Inductive exec_step : Z * exec * World -> Z * exec * World -> Prop :=
| es_spawn n ex w f p t n' :
    n + 1 < 2 ^ 64 -> Task_with_priority n f p = (t, n') ->
    exec_step (n, ex, w) (n', (Executor_spawn ex t).2, w)
| es_poll n ex w p id ex' w' :
    level_step p ex w = Some (id, ex', w') -> exec_step (n, ex, w) (n, ex', w')
| es_wake n ex w wk : wk ∈ held w -> exec_step (n, ex, w) (n, wake_by_ref ex wk, w)
| es_world n ex w w' : held w' ⊆ held w -> exec_step (n, ex, w) (n, ex, w').

(** [id] may be queued at level [p]: it is an issued id, and at its own level
    if its task is live. *)
Definition entry_ok (n : Z) (ts : gmap Z (Task F)) (p : Priority) (id : Z) : Prop :=
  0 <= id < n /\ forall t, ts !! id = Some t -> task_priority t = p.

Record exec_wf (s : Z * exec * World) : Prop := {
  ew_ids : 0 <= s.1.1;
  ew_tasks : forall id t, tasks s.1.2 !! id = Some t -> task_id t = id /\ 0 <= id < s.1.1;
  ew_cache : forall id wk, waker_cache s.1.2 !! id = Some wk ->
    exists t, tasks s.1.2 !! id = Some t /\ wk = TaskWaker_mk id (task_priority t);
  ew_queue : forall p id, id ∈ items s.1.2 p -> entry_ok s.1.1 (tasks s.1.2) p id;
  ew_held : forall wk, wk ∈ held s.2 ->
    entry_ok s.1.1 (tasks s.1.2) (tw_queue wk) (tw_task_id wk);
}.

Lemma wake_items_elem ex wk p id :
  id ∈ items (wake_by_ref ex wk) p ->
  id ∈ items ex p \/ (p = tw_queue wk /\ id = tw_task_id wk).
Proof.
  unfold wake_by_ref. destruct (decide (tw_queue wk = p)) as [<-|].
  - rewrite set_queue_eq. intros [->|]%q_push_elem; auto.
  - rewrite set_queue_ne by done. auto.
Qed.

Lemma wakes_items_elem ws ex p id :
  id ∈ items (foldl wake_by_ref ex ws) p -> id ∈ items ex p \/ TaskWaker_mk id p ∈ ws.
Proof.
  destruct (wakes_items ws ex p) as (l & -> & _ & Hl). rewrite elem_of_app.
  intros [|Hin]; [auto|]. right. exact (proj1 (list.Forall_forall _ _) Hl id Hin).
Qed.

Lemma entry_ok_mono n ts n' ts' p id :
  entry_ok n ts p id -> n <= n' ->
  (forall t, ts' !! id = Some t -> exists t', ts !! id = Some t' /\ task_priority t' = task_priority t) ->
  entry_ok n' ts' p id.
Proof. intros [? H] ? Ht. split; [lia|]. intros t (t' & ? & <-)%Ht. auto. Qed.

Lemma spawn_wf n ex w f p :
  n + 1 < 2 ^ 64 -> exec_wf (n, ex, w) ->
  exec_wf (n + 1, (Executor_spawn ex (Task_mk n p f)).2, w).
Proof.
  intros Hn [Hi Ht Hc Hq Hh]. simpl in *. unfold Executor_spawn. simpl.
  assert (Hnone : tasks ex !! n = None).
  { destruct (tasks ex !! n) eqn:E; [|done]. apply Ht in E. lia. }
  assert (Hup : forall P i, entry_ok n (tasks ex) P i ->
    entry_ok (n + 1) (<[n := Task_mk n p f]> (tasks ex)) P i).
  { intros P i [? H]. split; [lia|]. intros t. rewrite lookup_insert_ne by lia. apply H. }
  assert (Hup' : forall P i, entry_ok n (tasks ex) P i -> entry_ok (n + 1) (tasks ex) P i).
  { intros P i [? H]. split; [lia|done]. }
  rewrite Hnone. pose proof (q_push_spec (task_queues ex p) n) as [Hit Hr].
  destruct (q_push (task_queues ex p) n) as [[u|u] q]; simpl in Hit, Hr; case_decide as Hlen; try done;
    split; simpl; try lia.
  - intros id t [[<- <-]|[? H]]%lookup_insert_Some; [simpl; split; [done|lia]|].
    apply Ht in H. split; [tauto|lia].
  - intros id wk H. destruct (Hc _ _ H) as (t & E & ->). exists t.
    rewrite lookup_insert_ne; [done|]. intros ->. congruence.
  - intros p' id. destruct (decide (p = p')) as [<-|].
    + rewrite fn_lookup_insert, Hit, elem_of_app, list_elem_of_singleton.
      intros [H| ->]; [by apply Hup, Hq|]. split; [lia|]. intros t.
      rewrite lookup_insert_eq. naive_solver.
    + rewrite fn_lookup_insert_ne by done. intros H. by apply Hup, Hq.
  - intros wk H. by apply Hup, Hh.
  - rewrite delete_insert_id by done. intros id t H. apply Ht in H. split; [tauto|lia].
  - rewrite delete_insert_id by done. done.
  - rewrite delete_insert_id by done. intros p' id. destruct (decide (p = p')) as [<-|].
    + rewrite fn_lookup_insert, Hit. intros H'. by apply Hup', Hq.
    + rewrite fn_lookup_insert_ne by done. intros H'. by apply Hup', Hq.
  - rewrite delete_insert_id by done. intros wk H'. by apply Hup', Hh.
Qed.

Lemma wake_wf n ex w wk :
  entry_ok n (tasks ex) (tw_queue wk) (tw_task_id wk) ->
  exec_wf (n, ex, w) -> exec_wf (n, wake_by_ref ex wk, w).
Proof.
  intros Hk [Hi Ht Hc Hq Hh]. split; [done..| |done].
  intros p id [H|[-> ->]]%wake_items_elem; [by apply Hq|done].
Qed.

Lemma pop_wf n ex w p q :
  (q_pop (task_queues ex p)).2 = q -> exec_wf (n, ex, w) -> exec_wf (n, set_queue ex p q, w).
Proof.
  intros <- [Hi Ht Hc Hq Hh]. split; [done..| |done]. simpl in *.
  intros p' id. destruct (decide (p = p')) as [<-|].
  - rewrite fn_lookup_insert. intros H%q_pop_elem. by apply Hq.
  - rewrite fn_lookup_insert_ne by done. apply Hq.
Qed.

Lemma poll_popped_wf n ex w p id :
  entry_ok n (tasks ex) p id -> exec_wf (n, ex, w) ->
  exec_wf (n, (poll_popped p id ex w).1, (poll_popped p id ex w).2).
Proof.
  intros [Hid Hp] [Hi Ht Hc Hq Hh]. unfold poll_popped. simpl in *.
  destruct (tasks ex !! id) as [t|] eqn:Et; [|by split].
  pose proof (Hp t eq_refl) as <-. destruct (Ht _ _ Et) as [<- _].
  assert (Hwk : default (TaskWaker_new (task_id t) (task_priority t)) (waker_cache ex !! task_id t)
                = TaskWaker_mk (task_id t) (task_priority t)).
  { destruct (waker_cache ex !! task_id t) eqn:Ec; [|done]. simpl.
    destruct (Hc _ _ Ec) as (t' & E' & ->). congruence. }
  rewrite Hwk. destruct (fpoll _ _ w) as [[[r f'] w'] ws] eqn:Ef.
  destruct (held_poll _ _ _ _ _ _ _ Ef) as [Hws Hw'].
  set (t' := Task_mk (task_id t) (task_priority t) f').
  set (ex1 := set_tasks ex (<[task_id t := t']> (tasks ex))
     (<[task_id t := TaskWaker_mk (task_id t) (task_priority t)]> (waker_cache ex))).
  assert (Hts : forall i x, tasks ex1 !! i = Some x ->
     exists y, tasks ex !! i = Some y /\ task_priority y = task_priority x /\ task_id y = task_id x).
  { intros i x. simpl. rewrite lookup_insert_Some. intros [[<- <-]|[? H]]; eauto. }
  assert (Hok : forall P i, entry_ok n (tasks ex) P i -> entry_ok n (tasks ex1) P i).
  { intros P i H. eapply entry_ok_mono; [exact H|lia|]. intros x (y & ? & ? & ?)%Hts. eauto. }
  assert (Hk : forall x, x = TaskWaker_mk (task_id t) (task_priority t) \/ x ∈ held w ->
     entry_ok n (tasks ex1) (tw_queue x) (tw_task_id x)).
  { intros x [->|H]; [|by apply Hok, Hh]. apply Hok. simpl. split; [done|]. congruence. }
  assert (H1 : exec_wf (n, foldl wake_by_ref ex1 ws, w')).
  { destruct (wakes_tasks ws ex1) as [E1 E2]. split; simpl; [done|..]; rewrite ?E1, ?E2.
    - intros i x (y & Hy & _ & <-)%Hts. by apply Ht.
    - intros i wk. simpl. destruct (decide (task_id t = i)) as [<-|].
      + rewrite !lookup_insert_eq. intros [= <-]. by exists t'.
      + rewrite !lookup_insert_ne by done. apply Hc.
    - intros P i [H|H]%wakes_items_elem; [by apply Hok, Hq|]. by apply (Hk _ (Hws _ H)).
    - intros wk H. by apply Hk, Hw'. }
  destruct r; simpl; [|done]. destruct H1 as [Hi1 Ht1 Hc1 Hq1 Hh1]. simpl in *.
  assert (Hdel : forall P i, entry_ok n (tasks (foldl wake_by_ref ex1 ws)) P i ->
    entry_ok n (delete (task_id t) (tasks (foldl wake_by_ref ex1 ws))) P i).
  { intros P i H. eapply entry_ok_mono; [exact H|lia|]. intros x [_ Hx]%lookup_delete_Some. eauto. }
  split; simpl; [done|..].
  - intros i x [_ H]%lookup_delete_Some. auto.
  - intros i wk [Hne H]%lookup_delete_Some. rewrite lookup_delete_ne by done. auto.
  - intros P i H. by apply Hdel, Hq1.
  - intros wk H. by apply Hdel, Hh1.
Qed.

Lemma exec_step_wf s s' : exec_wf s -> exec_step s s' -> exec_wf s'.
Proof.
  intros Hw H. destruct H as [n ex w f p t n' Hn E|n ex w p id ex' w' E|n ex w wk Hk|n ex w w' Hs].
  - unfold Task_with_priority, TaskId_new, fetch_add in E. simplify_eq.
    pose proof (ew_ids _ Hw). simpl in *. rewrite wrap_small by (split; lia).
    by apply spawn_wf.
  - unfold level_step in E. pose proof (q_pop_items _ (task_queues ex p)) as [Hp _].
    destruct (q_pop (task_queues ex p)) as [[i|] q] eqn:Eq; [|done]. simpl in Hp.
    pose proof (poll_popped_wf n (set_queue ex p q) w p i) as Hwf.
    destruct (poll_popped _ _ _ _) as [ex1 w1]. simplify_eq. apply Hwf.
    + apply (ew_queue _ Hw). simpl. destruct (items ex p); [done|]. simplify_eq/=. by left.
    + apply pop_wf; [by rewrite Eq|done].
  - apply wake_wf; [|done]. by apply (ew_held _ Hw).
  - destruct Hw. split; simpl in *; auto.
Qed.

Lemma exec_new_wf w : held w = [] -> exec_wf (0, Executor_new, w).
Proof.
  intros H. split; simpl; [lia|..]; rewrite ?H; try set_solver.
  intros p id. rewrite q_new_empty by (unfold QUEUE_CAPACITY; lia). set_solver.
Qed.
End history.
End executor.

(** ** Properties of the executor *)

Section claims.
Context {Q : Type -> Type} `{AQ : ArrayQueue Q} {F World : Type}.
Context (fpoll : F -> TaskWaker -> World -> Poll unit * F * World * list TaskWaker).
Implicit Type ex : Executor Q F.

(** C30: in every history of an executor, a queued live task is queued at its own
    priority, and the cached wakers are exactly wakers of live tasks that re-queue
    the task at its own priority, when futures call only genuine wakers. *)
Theorem executor_priority_invariant (held : World -> list TaskWaker) w0 n ex w :
  (forall f wk w r f' w' ws, fpoll f wk w = (r, f', w', ws) ->
    (forall x, x ∈ ws -> x = wk \/ x ∈ held w) /\ (forall x, x ∈ held w' -> x = wk \/ x ∈ held w)) ->
  held w0 = [] ->
  rtc (exec_step fpoll held) (0, Executor_new, w0) (n, ex, w) ->
  (forall p id t, id ∈ q_items (task_queues ex p) -> tasks ex !! id = Some t -> task_priority t = p) /\
  (forall id wk, waker_cache ex !! id = Some wk ->
    exists t, tasks ex !! id = Some t /\ wk = TaskWaker_new id (task_priority t)).
Proof.
  intros Hh H0 Hr.
  assert (Hwf : exec_wf held (n, ex, w)).
  { eapply rtc_invariant; [intros ?? Ha Hs; eapply exec_step_wf; [exact Hh|exact Ha|exact Hs]| |exact Hr].
    by eapply (exec_new_wf fpoll). }
  split; [|apply (ew_cache _ _ Hwf)].
  intros p id t Hin Ht. by apply (ew_queue _ _ Hwf p id Hin).
Qed.

(** Bounded waiting: a task queued behind [k] others at its level is the
    [k+1]-st one the drain loop of that level takes, whatever the polls before it
    do. *)
Theorem executor_fifo p ex world l1 id l2 :
  q_items (task_queues ex p) = l1 ++ id :: l2 ->
  (level_trace fpoll (S (length l1)) p ex world).1.1 = l1 ++ [id].
Proof.
  intros H. destruct (level_trace_prefix fpoll (l1 ++ [id]) l2 p ex world) as (ex' & w' & l & E & _).
  { by rewrite H, <- app_assoc. }
  rewrite length_app, Nat.add_comm in E. simpl plus in E. by rewrite E.
Qed.

(** Round robin: a level whose queued tasks all yield forever serves them
    cyclically, for any number of rounds. *)
Theorem executor_round_robin (Y : F -> Prop) p ex world l1 l2 k :
  (forall f wk w, Y f -> exists f' w', fpoll f wk w = (Pending, f', w', [wk]) /\ Y f') ->
  q_items (task_queues ex p) = l1 ++ l2 -> Forall (yielding Y p ex) (l1 ++ l2) ->
  (level_trace fpoll (k * length (l1 ++ l2) + length l1) p ex world).1.1 =
    concat (replicate k (l1 ++ l2)) ++ l1.
Proof.
  intros HY Hl Hy. destruct (yielding_rounds fpoll Y HY k l1 l2 p ex world Hl Hy) as (? & ? & -> & _).
  done.
Qed.

(** No preemption between levels: while one level holds tasks that yield
    forever its drain loop never ends, and no task queued at another level, higher
    ones included, is taken off its queue. *)
Theorem executor_yield_monopoly (Y : F -> Prop) p ex world n :
  (forall f wk w, Y f -> exists f' w', fpoll f wk w = (Pending, f', w', [wk]) /\ Y f') ->
  q_items (task_queues ex p) <> [] -> Forall (yielding Y p ex) (q_items (task_queues ex p)) ->
  run_level fpoll n p ex world = None /\
  forall p', p' <> p ->
    task_queues (level_trace fpoll n p ex world).1.2 p' = task_queues ex p'.
Proof.
  intros HY Hne Hy. set (l := q_items (task_queues ex p)) in *.
  assert (Hlen : (0 < length l)%nat) by (destruct l; [done|simpl; lia]).
  pose proof (take_drop (n mod length l) l) as Hl.
  destruct (yielding_rounds fpoll Y HY (n / length l) (take (n mod length l) l)
              (drop (n mod length l) l) p ex world) as (ex' & w' & E & Hq); [by rewrite Hl..|].
  pose proof (Nat.mod_upper_bound n (length l) ltac:(lia)).
  rewrite Hl, length_take, Nat.min_l, (Nat.mul_comm _ (length l)), <- Nat.div_mod in E by lia.
  split; [|by rewrite E].
  apply run_level_trace. rewrite E. simpl.
  rewrite length_app, length_concat_replicate, length_take, Nat.min_l by lia.
  by rewrite (Nat.mul_comm _ (length l)), <- Nat.div_mod by lia.
Qed.

(** C31: if the futures can only call boundedly many wakers in total, [run] drains
    every queue and halts the CPU: the number of rounds and of loop iterations per
    level is at most the number of queued ids plus the remaining wakes. *)
Theorem executor_run_halts (budget : World -> nat) ex world rounds fuel :
  (forall f wk w r f' w' ws,
    fpoll f wk w = (r, f', w', ws) -> (budget w' + length ws <= budget w)%nat) ->
  (queued ex + budget world < rounds)%nat -> (queued ex + budget world < fuel)%nat ->
  exists ex' world', run fpoll rounds fuel ex world = Some (ex', world') /\
    forall p, q_items (task_queues ex' p) = [].
Proof.
  intros Hb Hr Hf. destruct (run_work fpoll budget Hb rounds fuel ex world Hr Hf) as (ex' & w' & E & Hs).
  exists ex', w'. split; [done|]. unfold sleep_if_idle in Hs. simpl in Hs.
  rewrite !andb_true_iff, !q_is_empty_items in Hs. intros []; tauto.
Qed.
End claims.

(** ** Witnesses

    [yield_loop] is the shape of the kernel's tasks, [loop { ..; yield_now().await }];
    a [nat] future yields that many times and finishes. *)

Definition yield_loop (f : unit) (wk : TaskWaker) (w : unit) : Poll unit * unit * unit * list TaskWaker :=
  (Pending, tt, tt, [wk]).

Definition yield_times (f : nat) (wk : TaskWaker) (w : nat) : Poll unit * nat * nat * list TaskWaker :=
  match f, w with
  | S f, S w => (Pending, f, w, [wk])
  | _, _ => (Ready tt, f, w, [])
  end.

Definition spawn_all {F} (l : list (Task F)) : Executor ListQueue F :=
  foldl (fun ex t => (Executor_spawn ex t).2) Executor_new l.

(** The kernel's three tasks and a critical one. *)
Definition demo_executor : Executor ListQueue unit :=
  spawn_all [Task_mk 0 Normal tt; Task_mk 1 Normal tt; Task_mk 2 Normal tt; Task_mk 3 Critical tt].

Lemma demo_yielding : Forall (yielding (fun _ => True) Normal demo_executor) [0; 1; 2].
Proof. repeat constructor; simpl; eauto; done. Qed.

Lemma executor_priority_invariant_witness :
  exists ex, rtc (exec_step yield_loop (fun _ => [])) (0, Executor_new, tt) (1, ex, tt) /\
    lq_items (task_queues ex High) = [0] /\ waker_cache ex !! 0 = Some (TaskWaker_mk 0 High) /\
    forall t, tasks ex !! 0 = Some t -> task_priority t = High.
Proof.
  set (ex0 := (Executor_spawn (Executor_new (Q:=ListQueue)) (Task_mk 0 High tt)).2).
  destruct (level_step yield_loop High ex0 tt) as [[[id ex] []]|] eqn:E; [|discriminate E].
  assert (H : rtc (exec_step yield_loop (fun _ => []))
    (0, Executor_new (Q:=ListQueue), tt) (1, ex, tt)).
  { eapply rtc_l; [eapply (es_spawn _ _ 0 _ _ tt High); [lia|reflexivity]|].
    eapply rtc_once, (es_poll _ _ _ _ _ High). exact E. }
  injection E as <- <-. eexists.
  split; [exact H|]. split; [reflexivity|]. split; [reflexivity|]. intros t.
  refine (proj1 (executor_priority_invariant yield_loop (fun _ => []) tt _ _ tt _ eq_refl H) High 0 t _).
  - intros [] wk [] r f' w' ws [= <- <- <- <-]. split; set_solver.
  - by left.
Defined.

Lemma executor_fifo_witness :
  lq_items (task_queues demo_executor Normal) = [0; 1] ++ 2 :: [] /\
  (level_trace yield_loop 3 Normal demo_executor tt).1.1 = [0; 1; 2].
Proof. split; [reflexivity|]. by apply (executor_fifo yield_loop Normal demo_executor tt [0; 1] 2 []). Defined.

Lemma executor_round_robin_witness :
  (level_trace yield_loop 7 Normal demo_executor tt).1.1 = [0; 1; 2; 0; 1; 2; 0].
Proof.
  apply (executor_round_robin yield_loop (fun _ => True) Normal demo_executor tt [0] [1; 2] 2).
  - intros [] wk [] _. by exists tt, tt.
  - reflexivity.
  - apply demo_yielding.
Defined.

Lemma executor_yield_monopoly_witness :
  lq_items (task_queues demo_executor Critical) = [3] /\
  run_level yield_loop 1000 Normal demo_executor tt = None.
Proof.
  split; [reflexivity|].
  apply (executor_yield_monopoly yield_loop (fun _ => True) Normal demo_executor tt 1000).
  - intros [] wk [] _. by exists tt, tt.
  - done.
  - apply demo_yielding.
Defined.

Lemma executor_run_halts_witness :
  exists ex' world', run yield_times 20 20 (spawn_all [Task_mk 0 Normal 3%nat; Task_mk 1 Idle 2%nat]) 9%nat
      = Some (ex', world') /\ lq_items (task_queues ex' Idle) = [].
Proof.
  destruct (executor_run_halts yield_times (fun w => w)
    (spawn_all [Task_mk 0 Normal 3%nat; Task_mk 1 Idle 2%nat]) 9%nat 20 20) as (ex' & w' & E & H).
  - intros f wk w r f' w' ws. unfold yield_times. destruct f, w; intros [= <- <- <- <-]; simpl; lia.
  - vm_compute. lia.
  - vm_compute. lia.
  - exists ex', w'. split; [exact E|apply H].
Defined.
