(* ===== verification/Host.v ===== *)
(** * Host functions of WASM processes

    Models [src/kernel/src/wasm/host.rs].  A host function runs in a state
    monad over [Kernel]: the calling process's [HostState] and linear memory,
    and the kernel globals it touches ([ROOT_FS], the registry of
    synchronization objects, the counter of [Capability::new], the wakers
    called so far, the console).  It returns a value to the module, raises a [HostTrap], or
    panics the kernel.  The filesystem is any implementation of the
    [FileSystem] trait; the linear memory is the interface of [wasmi::Memory].
    The kernel heap is an oracle: [alloc_ok n] tells whether the allocator can
    serve a request of [n] bytes at the time of the call. *)

From S2P Require Import Prelude Capability Text Vga FileSystem Queue Mutex Semaphore Registry.
Open Scope Z_scope.

(** ** Constants *)

Definition CAP_NOT_FOUND : Z := -1.
Definition NO_MEMORY_EXPORT : Z := -2.
Definition MEMORY_READ_FAILED : Z := -3.
Definition INVALID_UTF8 : Z := -4.
Definition PERMISSION_DENIED : Z := -5.
Definition NOT_A_DIRECTORY : Z := -6.
Definition FS_ERROR : Z := -7.
Definition BUFFER_TOO_SMALL : Z := -8.
Definition MEMORY_WRITE_FAILED : Z := -9.
Definition NOT_A_FILE : Z := -10.
Definition MUTEX_LOCKED : Z := -11.
Definition SEM_NO_PERMITS : Z := -12.
Definition INVALID_HANDLE : Z := -13.

Definition CAP_LOOKUP : Z := 10.
Definition FS_OPERATION : Z := 100.
Definition MEMORY_IO : Z := 50.
Definition YIELD_THRESHOLD : Z := 500.
Definition SYNC_CREATE : Z := 50.
Definition SYNC_OPERATION : Z := 20.

(** ** Linear memory

    [wasmi::Memory]: reads and writes succeed exactly inside the memory, which
    is smaller than 4 GiB. *)
Class WasmMemory (M : Type) : Type := {
  mem_read : M -> Z -> Z -> option (list byte);
  mem_write : M -> Z -> list byte -> option M;
  mem_bytes : M -> list byte;
  mem_size : forall m, Z.of_nat (length (mem_bytes m)) <= 2 ^ 32;
  mem_read_spec : forall m off len, 0 <= off -> 0 <= len ->
    mem_read m off len =
      if decide (off + len <= Z.of_nat (length (mem_bytes m)))
      then Some (take (Z.to_nat len) (drop (Z.to_nat off) (mem_bytes m))) else None;
  mem_write_spec : forall m off bs, 0 <= off ->
    mem_bytes <$> mem_write m off bs =
      if decide (off + Z.of_nat (length bs) <= Z.of_nat (length (mem_bytes m)))
      then Some (take (Z.to_nat off) (mem_bytes m) ++ bs ++
                 drop (Z.to_nat off + length bs) (mem_bytes m)) else None;
}.

(** A concrete memory. *)
Record ByteMemory : Type := ByteMemory_mk {
  bm_bytes : list byte;
  bm_ok : bool_decide (Z.of_nat (length bm_bytes) <= 2 ^ 32) = true;
}.

Definition bm_read (m : ByteMemory) (off len : Z) : option (list byte) :=
  if decide (off + len <= Z.of_nat (length (bm_bytes m)))
  then Some (take (Z.to_nat len) (drop (Z.to_nat off) (bm_bytes m))) else None.

Definition splice (l : list byte) (off : nat) (bs : list byte) : list byte :=
  take off l ++ bs ++ drop (off + length bs) l.

Lemma bm_write_ok m off bs :
  0 <= off -> off + Z.of_nat (length bs) <= Z.of_nat (length (bm_bytes m)) ->
  bool_decide (Z.of_nat (length (splice (bm_bytes m) (Z.to_nat off) bs)) <= 2 ^ 32) = true.
Proof.
  intros. pose proof (bm_ok m) as Hok%bool_decide_eq_true. apply bool_decide_eq_true.
  unfold splice. rewrite !length_app, length_take, length_drop. lia.
Qed.

Definition bm_write (m : ByteMemory) (off : Z) (bs : list byte) : option ByteMemory :=
  match decide (0 <= off), decide (off + Z.of_nat (length bs) <= Z.of_nat (length (bm_bytes m))) with
  | left H1, left H2 => Some (ByteMemory_mk _ (bm_write_ok m off bs H1 H2))
  | _, _ => None
  end.

#[export] Instance ByteMemory_WasmMemory : WasmMemory ByteMemory.
Proof.
  refine {| mem_read := bm_read; mem_write := bm_write; mem_bytes := bm_bytes |}.
  - intros m. by pose proof (bm_ok m) as Hok%bool_decide_eq_true.
  - done.
  - intros m off bs Hoff. unfold bm_write. by do 2 case_decide.
Defined.

(** The line of the host function [print]. *)
Definition print_line : ConsoleOp := Println "[WASM] Host function 'print' called".

(** ** State *)

Inductive HostTrap : Type :=
| TrapYield
| TrapSleep (ms : Z)
| TrapMutexWait (handle : Z)
| TrapSemWait (handle : Z).

(** [Display] for [HostTrap]. *)
Definition HostTrap_fmt (t : HostTrap) : string :=
  match t with
  | TrapYield => "Yield"
  | TrapSleep ms => "Sleep(" ++ show_uint ms ++ "ms)"
  | TrapMutexWait h => "MutexWait(" ++ show_uint h ++ ")"
  | TrapSemWait h => "SemWait(" ++ show_uint h ++ ")"
  end.

Record HostState : Type := HostState_mk {
  capabilities : gmap CapId Capability;
  fuel_remaining : Z;
}.

Definition HostState_new : HostState := HostState_mk ∅ 0.

Definition HostState_add_capability (s : HostState) (cap : Capability) : CapId * HostState :=
  (cap_id cap, HostState_mk (<[cap_id cap := cap]> (capabilities s)) (fuel_remaining s)).

Definition HostState_with_capabilities (initial_caps : list Capability) : HostState :=
  foldl (fun s cap => HostState_mk (<[cap_id cap := cap]> (capabilities s)) (fuel_remaining s))
    HostState_new initial_caps.

Definition HostState_get_capability (s : HostState) (id : CapId) : option Capability :=
  match capabilities s !! id with
  | None => None
  | Some cap =>
      if decide (as_u32 (cap_generation cap) = capid_generation id) then Some cap else None
  end.

Definition HostState_revoke (s : HostState) (id : CapId) : HostState :=
  HostState_mk (delete id (capabilities s)) (fuel_remaining s).

Definition HostState_consume_fuel (s : HostState) (cost : Z) : bool * HostState :=
  let fuel := saturating_sub (fuel_remaining s) cost in
  (YIELD_THRESHOLD <=? fuel, HostState_mk (capabilities s) fuel).

(** [BTreeMap::values]: in the order of the keys. *)
Definition key_le (a b : CapId * Capability) : Prop := CapId_le a.1 b.1.

#[export] Instance key_le_dec : RelDecision key_le.
Proof. intros a b. unfold key_le. apply _. Defined.

Definition btree_values (m : gmap CapId Capability) : list Capability :=
  (merge_sort key_le (map_to_list m)).*2.

(** What a host function call ends in. *)
Inductive HostResult (A : Type) : Type :=
| HReturn (a : A)
| HTrap (t : HostTrap)
| HPanic.
Arguments HReturn {A}.
Arguments HTrap {A}.
Arguments HPanic {A}.

Record Kernel (FS M : Type) (Q : Type -> Type) (W : Type) : Type := Kernel_mk {
  k_host : HostState;
  k_memory : option M;            (** the module's exported "memory" *)
  k_fs : FS;                      (** [ROOT_FS] *)
  k_sync : SyncRegistry Q W;
  k_next_cap : Z;                 (** the static of [Capability::new] *)
  k_woken : list W;               (** wakers called, latest first *)
  k_console : list ConsoleOp;     (** what was printed *)
}.
Arguments Kernel_mk {FS M Q W}.
Arguments k_host {FS M Q W}.
Arguments k_memory {FS M Q W}.
Arguments k_fs {FS M Q W}.
Arguments k_sync {FS M Q W}.
Arguments k_next_cap {FS M Q W}.
Arguments k_woken {FS M Q W}.
Arguments k_console {FS M Q W}.

Section host.
Context {FS M : Type} {Q : Type -> Type} {W : Type}.
Context `{BF : Bitflags} `{FSI : FileSystem FS} `{MI : WasmMemory M} `{AQ : ArrayQueue Q}.
Abbreviation kernel := (Kernel FS M Q W).

(** ** The monad of host functions *)

Definition Host (A : Type) : Type := kernel -> HostResult A * kernel.

#[export] Instance Host_ret : MRet Host := fun A a k => (HReturn a, k).
#[export] Instance Host_bind : MBind Host := fun A B f m k =>
  match m k with
  | (HReturn a, k) => f a k
  | (HTrap t, k) => (HTrap t, k)
  | (HPanic, k) => (HPanic, k)
  end.

Definition host_trap {A} (t : HostTrap) : Host A := fun k => (HTrap t, k).
Definition host_panic {A} : Host A := fun k => (HPanic, k).
Definition host_get : Host kernel := fun k => (HReturn k, k).

Definition set_host (k : kernel) (h : HostState) : kernel :=
  Kernel_mk h (k_memory k) (k_fs k) (k_sync k) (k_next_cap k) (k_woken k) (k_console k).
Definition set_memory (k : kernel) (m : M) : kernel :=
  Kernel_mk (k_host k) (Some m) (k_fs k) (k_sync k) (k_next_cap k) (k_woken k) (k_console k).
Definition set_fs (k : kernel) (fs : FS) : kernel :=
  Kernel_mk (k_host k) (k_memory k) fs (k_sync k) (k_next_cap k) (k_woken k) (k_console k).
Definition set_sync (k : kernel) (r : SyncRegistry Q W) : kernel :=
  Kernel_mk (k_host k) (k_memory k) (k_fs k) r (k_next_cap k) (k_woken k) (k_console k).
Definition set_next_cap (k : kernel) (n : Z) : kernel :=
  Kernel_mk (k_host k) (k_memory k) (k_fs k) (k_sync k) n (k_woken k) (k_console k).
Definition add_woken (k : kernel) (w : option W) : kernel :=
  Kernel_mk (k_host k) (k_memory k) (k_fs k) (k_sync k) (k_next_cap k) (option_list w ++ k_woken k) (k_console k).

Definition check_fuel (cost : Z) : Host unit := fun k =>
  let '(ok, h) := HostState_consume_fuel (k_host k) cost in
  (if ok then HReturn tt else HTrap TrapYield, set_host k h).

(** [alloc::vec![0u8; len]]: panics past [isize::MAX] and when the heap cannot
    serve the request. *)
Definition vec_zeroed (alloc_ok : Z -> bool) (len : Z) : Host (list byte) :=
  if decide (len = 0) then mret []
  else if (isize_max <? len) || negb (alloc_ok len) then host_panic
  else mret (replicate (Z.to_nat len) x00).

(** Calls of the filesystem and of the registry. *)
Definition on_fs {A} (f : FS -> A * FS) : Host A := fun k =>
  let '(a, fs) := f (k_fs k) in (HReturn a, set_fs k fs).
Definition on_sync {A} (f : SyncRegistry Q W -> A * SyncRegistry Q W) : Host A := fun k =>
  let '(a, r) := f (k_sync k) in (HReturn a, set_sync k r).

(** [caller.data_mut().add_capability(Capability::new(object, rights)).as_u64() as i64]. *)
Definition grant_capability (object : CapabilityType) (rights : Z) : Host Z := fun k =>
  let '(cap, next) := Capability_new object rights (k_next_cap k) in
  let '(id, h) := HostState_add_capability (k_host k) cap in
  (HReturn (as_i64 (CapId_as_u64 id)), set_next_cap (set_host k h) next).

(** Reads the path argument: [Err] is the code returned early. *)
Definition read_path (alloc_ok : Z -> bool) (memory : M) (path_ptr path_len : Z)
    : Host (Result string Z) :=
  buffer ← vec_zeroed alloc_ok (as_usize path_len);
  match mem_read memory (as_usize path_ptr) (Z.of_nat (length buffer)) with
  | None => mret (Err MEMORY_READ_FAILED)
  | Some bytes => mret (ok_or (from_utf8 bytes) INVALID_UTF8)
  end.

(** The capability checks at the head of each function: the handle (with the
    capability's rights where the function uses them), or the code returned. *)
Definition dir_cap (h : HostState) (right : Z) (id : CapId) : Result (Z * Z) Z :=
  match HostState_get_capability h id with
  | Some cap =>
      match cap_object cap with
      | CtDirectory handle_val =>
          if rights_contains (cap_rights cap) right
          then Ok (as_u32 handle_val, cap_rights cap) else Err PERMISSION_DENIED
      | _ => Err NOT_A_DIRECTORY
      end
  | None => Err CAP_NOT_FOUND
  end.

Definition file_cap (h : HostState) (id : CapId) : Result Z Z :=
  match HostState_get_capability h id with
  | Some cap =>
      match cap_object cap with
      | CtFile handle_val =>
          if rights_contains (cap_rights cap) RIGHT_READ
          then Ok (as_u32 handle_val) else Err PERMISSION_DENIED
      | _ => Err NOT_A_FILE
      end
  | None => Err CAP_NOT_FOUND
  end.

Definition mutex_cap (h : HostState) (id : CapId) : Result Z Z :=
  match HostState_get_capability h id with
  | Some c =>
      match cap_object c with
      | CtMutex h => if rights_contains (cap_rights c) RIGHT_CALL then Ok h else Err PERMISSION_DENIED
      | _ => Err INVALID_HANDLE
      end
  | None => Err CAP_NOT_FOUND
  end.

Definition sem_cap (h : HostState) (id : CapId) : Result Z Z :=
  match HostState_get_capability h id with
  | Some c =>
      match cap_object c with
      | CtSemaphore h => if rights_contains (cap_rights c) RIGHT_CALL then Ok h else Err PERMISSION_DENIED
      | _ => Err INVALID_HANDLE
      end
  | None => Err CAP_NOT_FOUND
  end.

(** ** Debug and capability discovery *)

(** [print] only writes to the console. *)
Definition host_print : Host unit := fun k =>
  (HReturn tt, Kernel_mk (k_host k) (k_memory k) (k_fs k) (k_sync k) (k_next_cap k) (k_woken k)
     (k_console k ++ [print_line])).

Definition type_val (object : CapabilityType) : Z :=
  match object with
  | CtFile _ => 0
  | CtDirectory _ => 1
  | CtMutex _ => 2
  | CtSemaphore _ => 3
  | _ => 255
  end.

Definition memory_write (offset : Z) (bs : list byte) : Host bool := fun k =>
  match k_memory k with
  | None => (HReturn false, k)
  | Some m =>
      match mem_write m offset bs with
      | None => (HReturn false, k)
      | Some m => (HReturn true, set_memory k m)
      end
  end.

(** The write loop of [sp_get_capabilities]; [false] when a write failed. *)
Fixpoint write_caps (caps : list Capability) (offset : Z) : Host bool :=
  match caps with
  | [] => mret true
  | cap :: caps =>
      ok ← memory_write offset (le_bytes 8 (CapId_as_u64 (cap_id cap)));
      if negb ok then mret false else
      let offset := as_usize (offset + 8) in
      ok ← memory_write offset (le_bytes 4 (type_val (cap_object cap)));
      if negb ok then mret false else
      let offset := as_usize (offset + 4) in
      ok ← memory_write offset (le_bytes 4 (cap_rights cap));
      if negb ok then mret false else
      write_caps caps (as_usize (offset + 4))
  end.

Definition sp_get_capabilities (ptr len : Z) : Host Z :=
  _ ← check_fuel CAP_LOOKUP;
  k ← host_get;
  match k_memory k with
  | None => mret NO_MEMORY_EXPORT
  | Some _ =>
      let caps := btree_values (capabilities (k_host k)) in
      let count := Z.of_nat (length caps) in
      let struct_size := 16 in
      let required_len := as_usize (count * struct_size) in
      if as_usize len <? required_len then mret BUFFER_TOO_SMALL else
      _ ← check_fuel (as_u64 (MEMORY_IO * count));
      ok ← write_caps caps (as_usize ptr);
      mret (if (ok : bool) then as_i32 count else MEMORY_WRITE_FAILED)
  end.

(** ** Filesystem *)

Definition sp_fs_open (alloc_ok : Z -> bool) (dir : Z) (path_ptr path_len : Z) : Host Z :=
  _ ← check_fuel FS_OPERATION;
  k ← host_get;
  match k_memory k with
  | None => mret NO_MEMORY_EXPORT
  | Some memory =>
      path ← read_path alloc_ok memory path_ptr path_len;
      match path with
      | Err e => mret e
      | Ok path =>
          match dir_cap (k_host k) RIGHT_READ (CapId_from_u64 (as_u64 dir)) with
          | Err e => mret e
          | Ok (dir_handle, parent_rights) =>
              r ← on_fs (fun fs => fs_open_at fs dir_handle path);
              match r with
              | Err _ => mret FS_ERROR
              | Ok new_handle =>
                  k ← host_get;
                  let is_dir := fs_is_dir (k_fs k) new_handle in
                  let cap_type := if is_dir then CtDirectory new_handle else CtFile new_handle in
                  let applicable_rights :=
                    if is_dir
                    then rights_or (rights_or (rights_or RIGHT_READ RIGHT_WRITE) RIGHT_EXECUTE) RIGHT_GRANT
                    else rights_or RIGHT_READ RIGHT_WRITE in
                  grant_capability cap_type (rights_and parent_rights applicable_rights)
              end
          end
      end
  end.

Definition sp_fs_read (alloc_ok : Z -> bool) (file : Z) (buf_ptr buf_len offset : Z) : Host Z :=
  _ ← check_fuel FS_OPERATION;
  k ← host_get;
  match k_memory k with
  | None => mret NO_MEMORY_EXPORT
  | Some _ =>
      match file_cap (k_host k) (CapId_from_u64 (as_u64 file)) with
      | Err e => mret e
      | Ok file_handle =>
          buffer ← vec_zeroed alloc_ok (as_usize buf_len);
          match fs_read (k_fs k) file_handle buffer (as_usize offset) with
          | Panic => host_panic
          | Return (Err _) => mret FS_ERROR
          | Return (Ok (bytes_read, buffer)) =>
              _ ← check_fuel MEMORY_IO;
              ok ← memory_write (as_usize buf_ptr) (take (Z.to_nat bytes_read) buffer);
              mret (if (ok : bool) then as_i32 bytes_read else MEMORY_WRITE_FAILED)
          end
      end
  end.

Definition sp_fs_size (file : Z) : Host Z :=
  _ ← check_fuel CAP_LOOKUP;
  k ← host_get;
  match HostState_get_capability (k_host k) (CapId_from_u64 (as_u64 file)) with
  | None => mret CAP_NOT_FOUND
  | Some cap =>
      match cap_object cap with
      | CtFile val | CtDirectory val =>
          match fs_size (k_fs k) (as_u32 val) with
          | Ok s => mret (as_i32 s)
          | Err _ => mret FS_ERROR
          end
      | _ => mret NOT_A_FILE
      end
  end.

Definition sp_fs_close (file : Z) : Host unit :=
  _ ← check_fuel CAP_LOOKUP;
  let cap_id := CapId_from_u64 (as_u64 file) in
  k ← host_get;
  match capabilities (k_host k) !! cap_id with
  | None => mret tt
  | Some cap =>
      _ ← (fun k => (HReturn tt, set_host k (HostState_revoke (k_host k) cap_id)));
      match cap_object cap with
      | CtFile val | CtDirectory val => on_fs (fun fs => (tt, fs_close fs (as_u32 val)))
      | _ => mret tt
      end
  end.

Definition sp_fs_mkdir (alloc_ok : Z -> bool) (dir : Z) (path_ptr path_len : Z) : Host Z :=
  _ ← check_fuel FS_OPERATION;
  k ← host_get;
  match k_memory k with
  | None => mret NO_MEMORY_EXPORT
  | Some memory =>
      path ← read_path alloc_ok memory path_ptr path_len;
      match path with
      | Err e => mret e
      | Ok path =>
          match dir_cap (k_host k) RIGHT_WRITE (CapId_from_u64 (as_u64 dir)) with
          | Err e => mret e
          | Ok (dir_handle, _) =>
              r ← on_fs (fun fs => fs_mkdir_at fs dir_handle path);
              match r with
              | Ok _ => mret 0
              | Err _ => mret FS_ERROR
              end
          end
      end
  end.

(** ** Scheduling *)

Definition sp_sched_yield : Host unit := host_trap TrapYield.

(** ** Synchronization *)

Definition sp_mutex_create : Host Z :=
  _ ← check_fuel SYNC_CREATE;
  handle ← on_sync create_mutex;
  grant_capability (CtMutex handle) RIGHT_CALL.

(** [mutex.try_lock().is_some()]: the guard of a successful attempt is a
    temporary of the condition, dropped before the branch runs. *)
Definition try_lock_is_some (arc : nat) : Host bool := fun k =>
  match mutex_arcs (k_sync k) !! arc with
  | None => (HReturn false, k)
  | Some m =>
      let '(ok, m) := AsyncMutex_try_lock m in
      if (ok : bool) then
        let '(w, m) := AsyncMutexGuard_drop m in
        (HReturn true, add_woken (set_sync k (set_mutex (k_sync k) arc m)) w)
      else (HReturn false, k)
  end.

Definition sp_mutex_lock (cap : Z) : Host Z :=
  _ ← check_fuel SYNC_OPERATION;
  k ← host_get;
  match mutex_cap (k_host k) (CapId_from_u64 (as_u64 cap)) with
  | Err e => mret e
  | Ok handle =>
      mutex ← on_sync (fun r => get_mutex r handle);
      match mutex with
      | Some mutex =>
          ok ← try_lock_is_some mutex;
          if (ok : bool) then mret 0 else host_trap (TrapMutexWait handle)
      | None => mret INVALID_HANDLE
      end
  end.

Definition sp_mutex_try_lock (cap : Z) : Host Z :=
  _ ← check_fuel SYNC_OPERATION;
  k ← host_get;
  match mutex_cap (k_host k) (CapId_from_u64 (as_u64 cap)) with
  | Err e => mret e
  | Ok handle =>
      mutex ← on_sync (fun r => get_mutex r handle);
      match mutex with
      | Some mutex =>
          ok ← try_lock_is_some mutex;
          mret (if (ok : bool) then 0 else MUTEX_LOCKED)
      | None => mret INVALID_HANDLE
      end
  end.

Definition sp_mutex_unlock (cap : Z) : Host Z :=
  _ ← check_fuel SYNC_OPERATION;
  k ← host_get;
  match mutex_cap (k_host k) (CapId_from_u64 (as_u64 cap)) with
  | Err e => mret e
  | Ok handle =>
      mutex ← on_sync (fun r => get_mutex r handle);
      mret (if bool_decide (is_Some mutex) then 0 else INVALID_HANDLE)
  end.

Definition sp_sem_create (n : Z) : Host Z :=
  _ ← check_fuel SYNC_CREATE;
  if n <? 0 then mret PERMISSION_DENIED else
  handle ← on_sync (fun r => create_semaphore r (as_usize n));
  grant_capability (CtSemaphore handle) RIGHT_CALL.

(** [sem.try_acquire()] and [sem.release()] through the [Arc]. *)
Definition try_acquire_at (arc : nat) : Host bool := fun k =>
  match sem_arcs (k_sync k) !! arc with
  | None => (HReturn false, k)
  | Some s =>
      let '(ok, s) := Semaphore_try_acquire 0 s in
      (HReturn ok, set_sync k (set_sem (k_sync k) arc s))
  end.

Definition release_at (arc : nat) : Host unit := fun k =>
  match sem_arcs (k_sync k) !! arc with
  | None => (HReturn tt, k)
  | Some s =>
      let '(w, s) := Semaphore_release 0 s in
      (HReturn tt, add_woken (set_sync k (set_sem (k_sync k) arc s)) w)
  end.

Definition sp_sem_acquire (cap : Z) : Host Z :=
  _ ← check_fuel SYNC_OPERATION;
  k ← host_get;
  match sem_cap (k_host k) (CapId_from_u64 (as_u64 cap)) with
  | Err e => mret e
  | Ok handle =>
      sem ← on_sync (fun r => get_semaphore r handle);
      match sem with
      | Some sem =>
          ok ← try_acquire_at sem;
          if (ok : bool) then mret 0 else host_trap (TrapSemWait handle)
      | None => mret INVALID_HANDLE
      end
  end.

Definition sp_sem_try_acquire (cap : Z) : Host Z :=
  _ ← check_fuel SYNC_OPERATION;
  k ← host_get;
  match sem_cap (k_host k) (CapId_from_u64 (as_u64 cap)) with
  | Err e => mret e
  | Ok handle =>
      sem ← on_sync (fun r => get_semaphore r handle);
      match sem with
      | Some sem =>
          ok ← try_acquire_at sem;
          mret (if (ok : bool) then 0 else SEM_NO_PERMITS)
      | None => mret INVALID_HANDLE
      end
  end.

Definition sp_sem_release (cap : Z) : Host Z :=
  _ ← check_fuel SYNC_OPERATION;
  k ← host_get;
  match sem_cap (k_host k) (CapId_from_u64 (as_u64 cap)) with
  | Err e => mret e
  | Ok handle =>
      sem ← on_sync (fun r => get_semaphore r handle);
      match sem with
      | Some sem => _ ← release_at sem; mret 0
      | None => mret INVALID_HANDLE
      end
  end.

(** ** Calls

    The functions [register_functions] defines in the linker, as values; a call
    of a function without a result returns 0. *)
Inductive HostCall : Type :=
| CallPrint
| CallGetCapabilities (ptr len : Z)
| CallFsOpen (dir path_ptr path_len : Z)
| CallFsRead (file buf_ptr buf_len offset : Z)
| CallFsSize (file : Z)
| CallFsClose (file : Z)
| CallFsMkdir (dir path_ptr path_len : Z)
| CallSchedYield
| CallMutexCreate
| CallMutexLock (cap : Z)
| CallMutexTryLock (cap : Z)
| CallMutexUnlock (cap : Z)
| CallSemCreate (n : Z)
| CallSemAcquire (cap : Z)
| CallSemTryAcquire (cap : Z)
| CallSemRelease (cap : Z).

Definition register_functions (alloc_ok : Z -> bool) (c : HostCall) : Host Z :=
  match c with
  | CallPrint => _ ← host_print; mret 0
  | CallGetCapabilities ptr len => sp_get_capabilities ptr len
  | CallFsOpen dir ptr len => sp_fs_open alloc_ok dir ptr len
  | CallFsRead file ptr len off => sp_fs_read alloc_ok file ptr len off
  | CallFsSize file => sp_fs_size file
  | CallFsClose file => _ ← sp_fs_close file; mret 0
  | CallFsMkdir dir ptr len => sp_fs_mkdir alloc_ok dir ptr len
  | CallSchedYield => _ ← sp_sched_yield; mret 0
  | CallMutexCreate => sp_mutex_create
  | CallMutexLock cap => sp_mutex_lock cap
  | CallMutexTryLock cap => sp_mutex_try_lock cap
  | CallMutexUnlock cap => sp_mutex_unlock cap
  | CallSemCreate n => sp_sem_create n
  | CallSemAcquire cap => sp_sem_acquire cap
  | CallSemTryAcquire cap => sp_sem_try_acquire cap
  | CallSemRelease cap => sp_sem_release cap
  end.

(** The types the functions are registered with. *)
Inductive ValType : Type := TI32 | TI64.

#[export] Instance ValType_eq_dec : EqDecision ValType.
Proof. solve_decision. Defined.

Definition FuncType : Type := list ValType * list ValType.

(** What each [func_wrap] call defines in module "env" of the linker. *)
Definition wrap_print : string * FuncType := ("print"%string, ([], [])).
Definition wrap_sp_get_capabilities : string * FuncType := ("sp_get_capabilities"%string, ([TI32; TI32], [TI32])).
Definition wrap_sp_fs_open : string * FuncType := ("sp_fs_open"%string, ([TI64; TI32; TI32], [TI64])).
Definition wrap_sp_fs_read : string * FuncType := ("sp_fs_read"%string, ([TI64; TI32; TI32; TI32], [TI32])).
Definition wrap_sp_fs_size : string * FuncType := ("sp_fs_size"%string, ([TI64], [TI32])).
Definition wrap_sp_fs_close : string * FuncType := ("sp_fs_close"%string, ([TI64], [])).
Definition wrap_sp_fs_mkdir : string * FuncType := ("sp_fs_mkdir"%string, ([TI64; TI32; TI32], [TI32])).
Definition wrap_sp_sched_yield : string * FuncType := ("sp_sched_yield"%string, ([], [])).
Definition wrap_sp_mutex_create : string * FuncType := ("sp_mutex_create"%string, ([], [TI64])).
Definition wrap_sp_mutex_lock : string * FuncType := ("sp_mutex_lock"%string, ([TI64], [TI32])).
Definition wrap_sp_mutex_try_lock : string * FuncType := ("sp_mutex_try_lock"%string, ([TI64], [TI32])).
Definition wrap_sp_mutex_unlock : string * FuncType := ("sp_mutex_unlock"%string, ([TI64], [TI32])).
Definition wrap_sp_sem_create : string * FuncType := ("sp_sem_create"%string, ([TI32], [TI64])).
Definition wrap_sp_sem_acquire : string * FuncType := ("sp_sem_acquire"%string, ([TI64], [TI32])).
Definition wrap_sp_sem_try_acquire : string * FuncType := ("sp_sem_try_acquire"%string, ([TI64], [TI32])).
Definition wrap_sp_sem_release : string * FuncType := ("sp_sem_release"%string, ([TI64], [TI32])).

(** The definitions in the order of registration. *)
Definition host_functions : list (string * FuncType) :=
  [wrap_print; wrap_sp_get_capabilities;
   wrap_sp_fs_open; wrap_sp_fs_read; wrap_sp_fs_size; wrap_sp_fs_close; wrap_sp_fs_mkdir;
   wrap_sp_sched_yield; wrap_sp_mutex_create; wrap_sp_mutex_lock; wrap_sp_mutex_try_lock; wrap_sp_mutex_unlock;
   wrap_sp_sem_create; wrap_sp_sem_acquire; wrap_sp_sem_try_acquire; wrap_sp_sem_release].

Definition host_signature (name : string) : option FuncType :=
  (fun f => f.2.2) <$> list_find (fun f => f.1 = name) host_functions.

(** One event of a process: it writes its own linear memory, or makes a call
    (with the heap of that moment). *)
Inductive ProcEvent : Type :=
| EvMemory (m : M)
| EvCall (alloc_ok : Z -> bool) (c : HostCall).

Definition proc_step (k : kernel) (e : ProcEvent) : kernel :=
  match e with
  | EvMemory m => match k_memory k with Some _ => set_memory k m | None => k end
  | EvCall alloc_ok c => (register_functions alloc_ok c k).2
  end.

Definition proc_run (k : kernel) (es : list ProcEvent) : kernel := foldl proc_step k es.
End host.
