(* ===== verification/Wasm.v ===== *)
(** * WASM processes and tasks

    Models [src/kernel/src/wasm/mod.rs].  The interpreter is the third-party
    [wasmi]: its engine, stores, instances and resumable invocations are a
    class whose laws are the documented behaviour the kernel relies on.  The
    data of a store is the process's [HostState]. *)

From S2P Require Import Prelude Capability Text Vga FileSystem Queue Mutex Semaphore Registry Executor Host.
Open Scope Z_scope.

Definition FUEL_PER_SLICE : Z := 10000.

Inductive ResumableCall (Inv : Type) : Type :=
| Finished
| Resumable (invocation : Inv).
Arguments Finished {Inv}.
Arguments Resumable {Inv}.

(** The operations that run code of a module (its start function included) also say
    how often that code called the host function [print]. *)
Class Wasmi (Store Instance Func Inv Error : Type) : Type := {
  (** [Module::new], [Store::new], [Linker::instantiate] and [start]. *)
  wasm_instantiate : list byte -> HostState -> Result (Store * Instance) Error * nat;
  (** The functions a module imports from "env". *)
  wasm_imports : list byte -> list (string * FuncType);
  wasm_add_fuel : Store -> Z -> Result unit Error * Store;
  wasm_data : Store -> HostState;
  wasm_set_data : Store -> HostState -> Store;
  wasm_get_func : Instance -> Store -> string -> option Func;
  (** [Func::call] with parameters and a slice for the results. *)
  wasm_call : Func -> Store -> list Z -> list Z -> Result (list Z) Error * Store * nat;
  (** [Func::call_resumable] likewise, and [ResumableInvocation::resume] with the
      results of the host function and a slice for the results of the call. *)
  wasm_call_resumable : Func -> Store -> list Z -> list Z -> Result (ResumableCall Inv) Error * Store * nat;
  wasm_resume : Inv -> Store -> list Z -> list Z -> Result (ResumableCall Inv) Error * Store * nat;
  (** The error of [TrapCode::UnreachableCodeReached]. *)
  wasm_unreachable : Error;
  (** The number of results of the host function an invocation is suspended in;
      [resume] fails unless it is given that many values. *)
  wasm_results : Inv -> nat;
  (** The number of results of a function; [call] fails unless the slice has that
      length.  Arities are checked before any code runs. *)
  wasm_func_results : Func -> nat;
  (** [Debug] of an error. *)
  wasm_error_debug : Error -> string;
  wasm_data_set : forall s h, wasm_data (wasm_set_data s h) = h;
  wasm_resume_arity : forall inv s vs rs, length vs <> wasm_results inv ->
    exists e s', wasm_resume inv s vs rs = (Err e, s', 0%nat);
  wasm_call_arity : forall f s ps rs, length rs <> wasm_func_results f ->
    exists e s', wasm_call f s ps rs = (Err e, s', 0%nat);
  (** [instantiate] checks every import against the linker. *)
  wasm_link : forall bytes h name ft, (name, ft) ∈ wasm_imports bytes -> host_signature name <> Some ft ->
    exists e, wasm_instantiate bytes h = (Err e, 0%nat);
  wasm_call_resumable_arity : forall f s ps rs, length rs <> wasm_func_results f ->
    exists e s', wasm_call_resumable f s ps rs = (Err e, s', 0%nat);
}.

(** What [n] calls of [print] write. *)
Definition host_prints (n : nat) : list ConsoleOp := replicate n print_line.

Section wasm.
Context {Store Instance Func Inv Error : Type} `{WI : Wasmi Store Instance Func Inv Error}.

Record WasmProcess : Type := WasmProcess_mk { wp_store : Store; wp_instance : Instance }.

(** [add_fuel]; a failure is only logged. *)
Definition add_fuel (store : Store) : list ConsoleOp * Store :=
  let '(r, store) := wasm_add_fuel store FUEL_PER_SLICE in
  (match r with Ok _ => [] | Err e => [Println ("[WASM] Failed to add fuel: " ++ wasm_error_debug e)] end, store).

(** [spawn_process_with_caps] with what it prints. *)
Definition spawn_process_with_caps (wasm_bytes : list byte) (initial_caps : list Capability)
    : list ConsoleOp * Result WasmProcess Error :=
  let '(r, n) := wasm_instantiate wasm_bytes (HostState_with_capabilities initial_caps) in
  match r with
  | Err e => (host_prints n, Err e)
  | Ok (store, instance) =>
      let '(out, store) := add_fuel store in (host_prints n ++ out, Ok (WasmProcess_mk store instance))
  end.

Definition spawn_process (wasm_bytes : list byte) : list ConsoleOp * Result WasmProcess Error :=
  spawn_process_with_caps wasm_bytes [].

(** [WasmProcess::call] with what the module prints: the result slice always has one
    element. *)
Definition WasmProcess_call (p : WasmProcess) (name : string) (params : list Z)
    : list ConsoleOp * Result (list Z) Error * WasmProcess :=
  match wasm_get_func (wp_instance p) (wp_store p) name with
  | None => ([], Err wasm_unreachable, p)
  | Some func =>
      let '(r, store, n) := wasm_call func (wp_store p) params [0] in
      (host_prints n, r, WasmProcess_mk store (wp_instance p))
  end.

Record WasmTask : Type := WasmTask_mk {
  wt_process : WasmProcess;
  wt_func_name : string;
  wt_invocation : option Inv;
}.

(** [WasmProcess::spawn_task] and [call_async]: the future before its first poll. *)
Definition WasmTask_start (p : WasmProcess) (name : string) : WasmTask := WasmTask_mk p name None.

(** The refill at the head of [poll]: wasmi fuel and host fuel. *)
Definition refill (store : Store) : list ConsoleOp * Store :=
  let '(out, store) := add_fuel store in
  (out, wasm_set_data store (HostState_mk (capabilities (wasm_data store)) FUEL_PER_SLICE)).

(** [WasmTask::poll] with what it prints: the context is not used, so the poll calls
    no waker and stores none.  The result slice always has one element. *)
Definition WasmTask_poll (t : WasmTask) : Poll (Result unit Error) * WasmTask * list ConsoleOp :=
  let name := wt_func_name t in
  let instance := wp_instance (wt_process t) in
  let '(out, store) := refill (wp_store (wt_process t)) in
  let finish '((result, store, n) : Result (ResumableCall Inv) Error * Store * nat) :=
    let process := WasmProcess_mk store instance in
    let out := out ++ host_prints n in
    match result with
    | Ok Finished => (Ready (Ok tt), WasmTask_mk process name None, out)
    | Ok (Resumable invocation) => (Pending, WasmTask_mk process name (Some invocation), out)
    | Err e => (Ready (Err e), WasmTask_mk process name None, out)
    end in
  match wt_invocation t with
  | None =>
      match wasm_get_func instance store name with
      | None => (Ready (Err wasm_unreachable), WasmTask_mk (WasmProcess_mk store instance) name None, out)
      | Some func => finish (wasm_call_resumable func store [] [0])
      end
  | Some invocation => finish (wasm_resume invocation store [] [0])
  end.

(** [WasmCallFuture::poll]: the same code for a future that borrows its process. *)
Definition WasmCallFuture_poll (t : WasmTask) : Poll (Result unit Error) * WasmTask * list ConsoleOp := WasmTask_poll t.

(** The task as the executor polls it: the async block of [spawn_task] logs the
    result and is done.  The world is the console. *)
Definition wasm_future_poll (t : WasmTask) (wk : TaskWaker) (w : list ConsoleOp)
    : Poll unit * WasmTask * list ConsoleOp * list TaskWaker :=
  match WasmTask_poll t with
  | (Ready (Ok _), t, out) => (Ready tt, t, w ++ out ++ [Println "[WASM] Completed."], [])
  | (Ready (Err e), t, out) => (Ready tt, t, w ++ out ++ [Println ("[WASM] Error: " ++ wasm_error_debug e)], [])
  | (Pending, t, out) => (Pending, t, w ++ out, [])
  end.

(** [spawn_task]: the executor holds boxed futures of any kind, [box] is the boxing of
    this one. *)
Definition spawn_task {Q} `{AQ : ArrayQueue Q} {F : Type} (box : WasmTask -> F) (next_id : Z) (p : WasmProcess)
    (name : string) (ex : Executor Q F) : Executor Q F * Z :=
  let '(t, next_id) := Task_with_priority next_id (box (WasmTask_start p name)) Normal in
  ((Executor_spawn ex t).2, next_id).

(** ** What a poll does *)

Lemma refill_fuel s : fuel_remaining (wasm_data (refill s).2) = FUEL_PER_SLICE.
Proof. unfold refill. destruct (add_fuel s). simpl. by rewrite wasm_data_set. Qed.

(** How often an id is queued at a level. *)
Definition occ (id : Z) (l : list Z) : nat := length (filter (fun i => i = id) l).

Lemma occ_app id l1 l2 : occ id (l1 ++ l2) = (occ id l1 + occ id l2)%nat.
Proof. unfold occ. by rewrite filter_app, length_app. Qed.

Lemma occ_zero id l : occ id l = 0%nat <-> id ∉ l.
Proof.
  unfold occ. rewrite length_zero_iff_nil. split.
  - intros H Hin. assert (id ∈ filter (fun i => i = id) l) by (by apply list_elem_of_filter). rewrite H in *. set_solver.
  - intros H. destruct (filter _ l) as [|i l'] eqn:E; [done|].
    assert (Hin : i ∈ filter (fun i => i = id) l) by (rewrite E; by left).
    apply list_elem_of_filter in Hin as [-> Hin]. done.
Qed.

(** ** WASM tasks among other tasks

    The executor runs WASM tasks beside futures of other kinds.  The world has a
    console and the wakers stored in it; the other futures call and store only wakers
    they were given or found there. *)

Section exec.
Context {Q : Type -> Type} `{AQ : ArrayQueue Q} {G World : Type}.
Context (gpoll : G -> TaskWaker -> World -> Poll unit * G * World * list TaskWaker).
Context (print_to : list ConsoleOp -> World -> World) (held : World -> list TaskWaker).
Abbreviation exec := (Executor Q (WasmTask + G)).

Definition mixed_poll (f : WasmTask + G) (wk : TaskWaker) (w : World)
    : Poll unit * (WasmTask + G) * World * list TaskWaker :=
  match f with
  | inl t => let '(r, t, out, ws) := wasm_future_poll t wk [] in (r, inl t, print_to out w, ws)
  | inr g => let '(r, g, w, ws) := gpoll g wk w in (r, inr g, w, ws)
  end.

Definition genuine_wakers : Prop :=
  (forall out w, held (print_to out w) = held w) /\
  forall g wk w r g' w' ws, gpoll g wk w = (r, g', w', ws) ->
    (forall x, x ∈ ws -> x = wk \/ x ∈ held w) /\ (forall x, x ∈ held w' -> x = wk \/ x ∈ held w).

Hypothesis Hgen : genuine_wakers.
Abbreviation step := (exec_step mixed_poll held).
Abbreviation wf := (exec_wf held).

(** A poll of a WASM task calls no waker and stores none. *)
Lemma mixed_poll_wasm t wk w r f' w' ws :
  mixed_poll (inl t) wk w = (r, f', w', ws) -> (exists t', f' = inl t') /\ ws = [] /\ held w' = held w.
Proof.
  simpl. unfold wasm_future_poll. destruct (WasmTask_poll t) as [[[[]|] t'] out];
    intros [= <- <- <- <-]; (split_and!; [eauto|done|apply Hgen]).
Qed.

Lemma mixed_poll_held f wk w r f' w' ws :
  mixed_poll f wk w = (r, f', w', ws) ->
  (forall x, x ∈ ws -> x = wk \/ x ∈ held w) /\ (forall x, x ∈ held w' -> x = wk \/ x ∈ held w).
Proof.
  destruct f as [t|g].
  - intros (_ & -> & ->)%mixed_poll_wasm. split; [by intros x ?%elem_of_nil|auto].
  - simpl. destruct (gpoll g wk w) as [[[r0 g'] w0] ws0] eqn:E. intros [= <- <- <- <-].
    by apply (proj2 Hgen) in E.
Qed.

(** No waker of task [id] is stored, and the task is queued at most [k] times. *)
Definition quiet (id : Z) (k : nat) (s : Z * exec * World) : Prop :=
  (forall wk, wk ∈ held s.2 -> tw_task_id wk <> id) /\
  forall p, (occ id (q_items (task_queues s.1.2 p)) <= k)%nat.

Definition is_wasm (s : Z * exec * World) (id : Z) : Prop :=
  exists tk t, tasks s.1.2 !! id = Some tk /\ task_future tk = inl t.

(** One id pushed on a queue that does not hold it. *)
Lemma push_occ id j (q : Q Z) : id <> j -> occ id (q_items (q_push q j).2) = occ id (q_items q).
Proof.
  intros Hne. rewrite (proj1 (q_push_spec q j)). case_decide; [|done]. rewrite occ_app.
  rewrite (proj2 (occ_zero id [j])); [lia|]. by rewrite list_elem_of_singleton.
Qed.

Lemma wakes_occ id ws (ex : exec) p :
  (forall x, x ∈ ws -> tw_task_id x <> id) ->
  occ id (q_items (task_queues (foldl wake_by_ref ex ws) p)) = occ id (q_items (task_queues ex p)).
Proof.
  intros H. destruct (wakes_items ws ex p) as (l & -> & _ & Hl). rewrite occ_app.
  rewrite (proj2 (occ_zero id l)); [lia|]. intros Hin.
  apply (H _ (proj1 (list.Forall_forall _ _) Hl id Hin)). done.
Qed.

(** Any step but a poll of [id] itself leaves task [id] alone. *)
Lemma quiet_poll_other id k n (ex ex' : exec) w w' p j :
  wf (n, ex, w) -> quiet id k (n, ex, w) -> level_step mixed_poll p ex w = Some (j, ex', w') -> j <> id ->
  quiet id k (n, ex', w').
Proof.
  intros Hwf [Hh Ho] E Hj. pose proof (level_step_items _ _ _ _ _ _ _ E) as (_ & Hhd & _). revert E. unfold level_step.
  pose proof (q_pop_items _ (task_queues ex p)) as [H1 H2].
  destruct (q_pop (task_queues ex p)) as [[i|] q] eqn:Eq; [|done]. simpl in H1, H2.
  destruct (poll_popped mixed_poll p i (set_queue ex p q) w) as [ex1 w1] eqn:Ep. intros [= -> -> ->].
  assert (Hpop : forall p', (occ id (q_items (task_queues (set_queue ex p q) p')) <= k)%nat).
  { intros p'. destruct (decide (p = p')) as [<-|]; [|by rewrite set_queue_ne]. rewrite set_queue_eq, H2.
    specialize (Ho p). simpl in Ho. rewrite Hhd in Ho. unfold occ in *. rewrite filter_cons_False in Ho by done. done. }
  revert Ep. unfold poll_popped. simpl. destruct (tasks ex !! j) as [tk|] eqn:Et; [|by intros [= <- <-]].
  assert (Hwk : default (TaskWaker_new j p) (waker_cache ex !! j) = TaskWaker_mk j p \/
    tw_task_id (default (TaskWaker_new j p) (waker_cache ex !! j)) = j).
  { destruct (waker_cache ex !! j) as [wk|] eqn:Ec; [|by left]. right. simpl.
    destruct (ew_cache _ _ Hwf _ _ Ec) as (? & _ & ->). done. }
  assert (Hid : tw_task_id (default (TaskWaker_new j p) (waker_cache ex !! j)) <> id) by (destruct Hwk as [-> | ->]; done).
  destruct (mixed_poll _ _ w) as [[[r f'] wd] ws] eqn:Em. apply mixed_poll_held in Em as [Hws Hw'].
  match goal with |- context [foldl wake_by_ref ?e ws] => set (ex1 := e) end.
  assert (Hq : forall p', (occ id (q_items (task_queues (foldl wake_by_ref ex1 ws) p')) <= k)%nat).
  { intros p'. rewrite wakes_occ; [apply Hpop|]. intros x [-> |Hx]%Hws; [done|by apply Hh]. }
  assert (Hheld : forall wk, wk ∈ held wd -> tw_task_id wk <> id) by (intros x [-> |Hx]%Hw'; [done|by apply Hh]).
  destruct r; intros [= <- <-]; (split; [exact Hheld|exact Hq]).
Qed.

Lemma quiet_spawn_other id k n (ex : exec) w f p :
  quiet id k (n, ex, w) -> n <> id ->
  quiet id k (n + 1, (Executor_spawn ex (Task_mk n p f)).2, w).
Proof.
  intros [Hh Ho] Hne. unfold Executor_spawn. simpl. destruct (tasks ex !! n); [done|].
  pose proof (push_occ id n (task_queues ex p) ltac:(done)) as Hp.
  assert (Hq : forall p', (occ id (q_items ((<[p := (q_push (task_queues ex p) n).2]> (task_queues ex)) p')) <= k)%nat).
  { intros p'. destruct (decide (p = p')) as [<-|].
    - rewrite stdpp.functions.fn_lookup_insert, Hp. apply Ho.
    - rewrite stdpp.functions.fn_lookup_insert_ne by done. apply Ho. }
  destruct (q_push (task_queues ex p) n) as [[u|u] q]; (split; [exact Hh|exact Hq]).
Qed.

(** The first poll of a WASM task takes its only queue entry. *)
Lemma quiet_poll_self id n (ex ex' : exec) w w' p tk t :
  wf (n, ex, w) -> quiet id 1 (n, ex, w) -> level_step mixed_poll p ex w = Some (id, ex', w') ->
  tasks ex !! id = Some tk -> task_future tk = inl t ->
  quiet id 0 (n, ex', w') /\
  tasks ex' !! id = match WasmTask_poll t with
                    | (Pending, t', _) => Some (Task_mk id (task_priority tk) (inl t'))
                    | _ => None
                    end.
Proof.
  intros Hwf [Hh Ho] E Et Ef. pose proof (level_step_items _ _ _ _ _ _ _ E) as (_ & Hhd & _). revert E. unfold level_step.
  pose proof (q_pop_items _ (task_queues ex p)) as [H1 H2].
  destruct (q_pop (task_queues ex p)) as [[i|] q]; [|done]. simpl in H1, H2.
  destruct (poll_popped mixed_poll p i (set_queue ex p q) w) as [ex1 w1] eqn:Ep. intros [= -> -> ->].
  assert (Hprio : task_priority tk = p).
  { eapply (proj2 (ew_queue _ _ Hwf p id ltac:(simpl; rewrite Hhd; by left))). done. }
  assert (Hpop : forall p', occ id (q_items (task_queues (set_queue ex p q) p')) = 0%nat).
  { intros p'. destruct (decide (p = p')) as [<-|Hne].
    - rewrite set_queue_eq, H2. specialize (Ho p). simpl in Ho. rewrite Hhd in Ho. unfold occ in *.
      rewrite filter_cons_True in Ho by done. simpl in Ho. lia.
    - rewrite set_queue_ne by done. apply occ_zero. intros Hin.
      destruct Hne. rewrite <- Hprio. by eapply (proj2 (ew_queue _ _ Hwf p' id Hin)). }
  destruct (ew_tasks _ _ Hwf _ _ Et) as [Hid _].
  revert Ep. unfold poll_popped. simpl. rewrite Et, Ef, Hid.
  destruct (mixed_poll (inl t) _ w) as [[[r f'] wd] ws] eqn:Em. pose proof Em as (_ & -> & Hw')%mixed_poll_wasm.
  simpl in Em. unfold wasm_future_poll in Em. simpl.
  destruct (WasmTask_poll t) as [[[[]|] t'] out]; simplify_eq/=; intros [= <- <-];
    (split; [split; simpl; [by rewrite Hw'|intros p'; specialize (Hpop p'); simpl in Hpop; by rewrite Hpop]|]); simpl.
  - by rewrite lookup_delete_eq.
  - by rewrite lookup_delete_eq.
  - by rewrite lookup_insert_eq.
Qed.

(** ** Every history *)

(** A queued WASM task is queued once, and nobody holds a waker of it. *)
Definition wasm_inv (s : Z * exec * World) : Prop :=
  wf s /\ forall id, is_wasm s id -> quiet id 1 s.

Lemma wake_quiet id k n (ex : exec) w wk :
  wk ∈ held w -> quiet id k (n, ex, w) -> quiet id k (n, wake_by_ref ex wk, w).
Proof.
  intros Hk [Hh Ho]. split; [done|]. intros p.
  pose proof (wakes_occ id [wk] ex p) as E. cbn [foldl] in E. cbn [fst snd]. rewrite E; [apply Ho|].
  intros x ->%list_elem_of_singleton. by apply Hh.
Qed.

Lemma world_quiet id k n (ex : exec) w w' :
  held w' ⊆ held w -> quiet id k (n, ex, w) -> quiet id k (n, ex, w').
Proof. intros Hs [Hh Ho]. split; [|done]. intros wk Hk. by apply Hh, Hs. Qed.

Lemma spawn_quiet_new n (ex : exec) w f p :
  wf (n, ex, w) -> quiet n 1 (n + 1, (Executor_spawn ex (Task_mk n p f)).2, w).
Proof.
  intros Hwf. assert (Hold : forall p', n ∉ q_items (task_queues ex p')).
  { intros p' Hin. destruct (ew_queue _ _ Hwf p' n Hin) as [? _]. simpl in *. lia. }
  split; simpl. { intros wk Hk. destruct (ew_held _ _ Hwf wk Hk) as [? _]. simpl in *. lia. }
  intros p'. unfold Executor_spawn. simpl. destruct (tasks ex !! n).
  { simpl. rewrite (proj2 (occ_zero n _) (Hold p')). lia. }
  assert (Hq : (occ n (q_items ((<[p := (q_push (task_queues ex p) n).2]> (task_queues ex)) p')) <= 1)%nat).
  { destruct (decide (p = p')) as [<-|].
    - rewrite stdpp.functions.fn_lookup_insert, (proj1 (q_push_spec (task_queues ex p) n)).
      case_decide; rewrite ?occ_app, (proj2 (occ_zero n _) (Hold p)); [|lia]. unfold occ.
      rewrite filter_cons_True by done. simpl. lia.
    - rewrite stdpp.functions.fn_lookup_insert_ne, (proj2 (occ_zero n _) (Hold p')) by done. lia. }
  by destruct (q_push (task_queues ex p) n) as [[u|u] q].
Qed.

Lemma poll_wasm_before id n (ex ex' : exec) w w' p :
  level_step mixed_poll p ex w = Some (id, ex', w') -> is_wasm (n, ex', w') id -> is_wasm (n, ex, w) id.
Proof.
  unfold level_step. destruct (q_pop (task_queues ex p)) as [[i|] q]; [|done].
  destruct (poll_popped mixed_poll p i (set_queue ex p q) w) as [ex1 w1] eqn:Ep. intros [= -> -> ->].
  intros (tk & t & Ht & Hf). simpl in Ht. revert Ep. unfold poll_popped. simpl.
  destruct (tasks ex !! id) as [tk0|] eqn:Et0.
  2:{ intros [= <- <-]. simpl in Ht. congruence. }
  destruct (task_future tk0) as [t0|g] eqn:Ef0; [by intros _; exists tk0, t0|].
  simpl. destruct (gpoll g _ w) as [[[r g'] wd] ws].
  match goal with |- context [foldl wake_by_ref ?e ws] => destruct (wakes_tasks ws e) as [Ets _] end.
  destruct r; intros [= <- <-]; simpl in Ht; rewrite Ets in Ht; simpl in Ht.
  - by rewrite lookup_delete_eq in Ht.
  - rewrite lookup_insert_eq in Ht. by simplify_eq.
Qed.

Lemma wasm_inv_step s s' : wasm_inv s -> step s s' -> wasm_inv s'.
Proof.
  intros [Hwf Hq] Hs. split; [by eapply (exec_step_wf mixed_poll held mixed_poll_held)|]. intros id Hid.
  destruct Hs as [n ex w f p tk n' Hb E|n ex w p j ex' w' E|n ex w wk Hk|n ex w w' Hsub].
  - pose proof (ew_ids _ _ Hwf) as H0. simpl in H0. unfold Task_with_priority, TaskId_new, fetch_add in E. simplify_eq/=.
    rewrite wrap_small by (split; lia). destruct (decide (n = id)) as [<-|Hne]; [by apply spawn_quiet_new|].
    apply quiet_spawn_other; [|done]. apply Hq. destruct Hid as (tk & t & Ht & Hf). exists tk, t. simpl in *.
    by rewrite (spawn_tasks_ne ex (Task_mk n p f) id Hne) in Ht.
  - destruct (decide (j = id)) as [->|Hne].
    + pose proof (poll_wasm_before _ n _ _ _ _ _ E Hid) as Hw. destruct Hw as (tk & t & Ht & Hf).
      destruct (quiet_poll_self id n ex ex' w w' p tk t) as [[Hh Ho] _]; auto.
      { apply Hq. by exists tk, t. }
      split; [done|]. intros p'. specialize (Ho p'). lia.
    + pose proof (level_step_tasks_ne _ _ _ _ _ _ _ _ E Hne) as Ht.
      eapply quiet_poll_other; [done| |done..]. apply Hq. destruct Hid as (tk & t & Htk & Hf). exists tk, t.
      simpl in *. by rewrite <- Ht.
  - apply wake_quiet; [done|]. apply Hq. exact Hid.
  - eapply world_quiet; [done|]. apply Hq. exact Hid.
Qed.

Lemma wasm_inv_reachable w0 s : held w0 = [] -> rtc step (0, Executor_new, w0) s -> wasm_inv s.
Proof.
  intros H0 Hr. refine (rtc_invariant _ wasm_inv _ _ wasm_inv_step _ Hr). split.
  - by apply (exec_new_wf mixed_poll held mixed_poll_held).
  - intros id (tk & t & Ht & _). simpl in Ht. by rewrite lookup_empty in Ht.
Qed.

(** Task [id] sits unfinished in the table, in no queue, without a waker. *)
Definition stalled (id : Z) (tk : Task (WasmTask + G)) (s : Z * exec * World) : Prop :=
  tasks s.1.2 !! id = Some tk /\ quiet id 0 s.

Lemma stalled_step id tk s s' :
  wasm_inv s /\ stalled id tk s -> step s s' -> wasm_inv s' /\ stalled id tk s'.
Proof.
  intros [Hinv [Ht Hq]] Hs. split; [by eapply wasm_inv_step|]. destruct Hinv as [Hwf _].
  destruct (ew_tasks _ _ Hwf _ _ Ht) as [_ Hlt].
  destruct Hs as [n ex w f p tk' n' Hb E|n ex w p j ex' w' E|n ex w wk Hk|n ex w w' Hsub]; simpl in *.
  - unfold Task_with_priority, TaskId_new, fetch_add in E. simplify_eq/=. rewrite wrap_small by (split; lia).
    split; simpl; [rewrite spawn_tasks_ne by (simpl; lia); done|]. apply quiet_spawn_other; [done|lia].
  - assert (Hne : j <> id).
    { intros ->. pose proof (level_step_items _ _ _ _ _ _ _ E) as (_ & Hhd & _).
      destruct Hq as [_ Ho]. specialize (Ho p). simpl in Ho. assert (H0 : occ id (q_items (task_queues ex p)) = 0%nat) by lia.
      apply occ_zero in H0. rewrite Hhd in H0. set_solver. }
    split; [simpl; by rewrite (level_step_tasks_ne _ _ _ _ _ _ _ _ E Hne)|]. by eapply quiet_poll_other.
  - split; [done|]. by apply wake_quiet.
  - split; [done|]. by eapply world_quiet.
Qed.
End exec.
End wasm.

(** ** Properties *)

Section claims.
Context {Store Instance Func Inv Error : Type} `{WI : Wasmi Store Instance Func Inv Error}.


(** Each time slice starts with the full host fuel and the capabilities the
    process already had; a task suspended in a host function that returns a value
    ends with an error at its next poll, because it is resumed without one. *)
Theorem wasm_resume_without_value (t : WasmTask) (inv : Inv) :
  wt_invocation t = Some inv -> wasm_results inv <> 0%nat ->
  fuel_remaining (wasm_data (refill (wp_store (wt_process t))).2) = FUEL_PER_SLICE /\
  exists e t' out, WasmTask_poll t = (Ready (Err e), t', out).
Proof.
  intros Hi Hr. split; [apply refill_fuel|]. unfold WasmTask_poll. rewrite Hi.
  destruct (refill _) as [out store]. destruct (wasm_resume_arity inv store [] [0]) as (e & s & He); [done|].
  rewrite He. eauto.
Qed.

(** A task for an exported function without results ends at its first poll: the
    call is refused, because it is always given one result slot.  The console shows
    the error. *)
Theorem wasm_task_without_results (p : WasmProcess) (name : string) (func : Func) (wk : TaskWaker) (w : list ConsoleOp) :
  wasm_get_func (wp_instance p) (refill (wp_store p)).2 name = Some func -> wasm_func_results func = 0%nat ->
  exists e t', wasm_future_poll (WasmTask_start p name) wk w =
    (Ready tt, t', w ++ (refill (wp_store p)).1 ++ [Println ("[WASM] Error: " ++ wasm_error_debug e)], []).
Proof.
  intros Hf Hr. unfold wasm_future_poll, WasmTask_poll. simpl. destruct (refill (wp_store p)) as [out store]. simpl in *.
  rewrite Hf. destruct (wasm_call_resumable_arity func store [] [0]) as (e & st & He); [by rewrite Hr|].
  rewrite He. simpl. rewrite app_nil_r. eauto.
Qed.
End claims.

(** ** Witnesses

    An interpreter whose only function yields in a host function with one
    result. *)
#[local] Instance demo_Wasmi : Wasmi HostState unit unit unit unit.
Proof.
  refine {| wasm_instantiate := fun _ h => (Ok (h, tt), 0%nat); wasm_imports := fun _ => [];
            wasm_add_fuel := fun s _ => (Ok tt, s);
            wasm_data := fun s => s; wasm_set_data := fun _ h => h;
            wasm_get_func := fun _ _ _ => Some tt;
            wasm_call := fun _ s _ rs => (if decide (length rs = 1%nat) then Ok [0] else Err tt, s, 0%nat);
            wasm_func_results := fun _ => 1%nat; wasm_error_debug := fun _ => "Error"%string;
            wasm_call_resumable := fun _ s _ rs => (if decide (length rs = 1%nat) then Ok (Resumable tt) else Err tt, s, 0%nat);
            wasm_resume := fun _ s vs _ => (if decide (length vs = 1%nat) then Ok Finished else Err tt, s, 0%nat);
            wasm_unreachable := tt; wasm_results := fun _ => 1%nat |}; [done|..].
  - intros inv s vs rs H. exists tt, s. by case_decide.
  - intros f s ps rs H. exists tt, s. by case_decide.
  - intros bytes h name ft H. by apply elem_of_nil in H.
  - intros f s ps rs H. exists tt, s. by case_decide.
Defined.

Definition demo_process : WasmProcess := WasmProcess_mk (HostState_with_capabilities []) tt.

(** A kernel task that always yields runs beside a WASM task; after the WASM task has
    yielded, the kernel task is polled again. *)
Definition demo_future : Type := WasmTask (Store:=HostState) (Instance:=unit) (Inv:=unit) + unit.

Definition demo_gpoll (g : unit) (wk : TaskWaker) (w : list ConsoleOp)
    : Poll unit * unit * list ConsoleOp * list TaskWaker := (Pending, tt, w, [wk]).

Lemma demo_genuine : genuine_wakers demo_gpoll (fun out w => w ++ out) (fun _ => []).
Proof.
  split; [done|]. intros g wk w r g' w' ws [= <- <- <- <-]. split; intros x Hx.
  - left. by apply list_elem_of_singleton in Hx.
  - by apply elem_of_nil in Hx.
Qed.

Definition demo_poll : demo_future -> TaskWaker -> list ConsoleOp -> Poll unit * demo_future * list ConsoleOp * list TaskWaker :=
  mixed_poll demo_gpoll (fun out w => w ++ out).

Definition demo_next (ex : Executor ListQueue demo_future) : Executor ListQueue demo_future :=
  match level_step demo_poll Normal ex [] with Some (_, ex, _) => ex | None => ex end.

Definition demo_spawned : Executor ListQueue demo_future :=
  (spawn_task inl 1 demo_process "main" (Executor_spawn Executor_new (Task_mk 0 Normal (inr tt))).2).1.

Lemma demo_level_steps :
  level_step demo_poll Normal demo_spawned [] = Some (0, demo_next demo_spawned, []) /\
  level_step demo_poll Normal (demo_next demo_spawned) [] = Some (1, demo_next (demo_next demo_spawned), []) /\
  level_step demo_poll Normal (demo_next (demo_next demo_spawned)) [] =
    Some (0, demo_next (demo_next (demo_next demo_spawned)), []).
Proof. split_and!; vm_compute; reflexivity. Qed.


Lemma wasm_resume_without_value_witness :
  exists e t' out, WasmTask_poll (WasmTask_mk demo_process "main" (Some tt)) = (Ready (Err e), t', out).
Proof.
  apply (wasm_resume_without_value (WasmTask_mk demo_process "main" (Some tt)) tt); [reflexivity|done].
Defined.
