(* ===== verification/Sdk.v ===== *)
(** * The userspace SDK

    Models [src/userspace/sdk/src/lib.rs]: the wrappers a module calls, on top
    of the host functions they import.  Pointers and lengths of a 32-bit module
    reach the host as [i32]. *)

From S2P Require Import Prelude Capability Text Vga FileSystem Queue Mutex Semaphore Registry Host.
Open Scope Z_scope.

Section sdk.
Context {FS M : Type} {Q : Type -> Type} {W : Type}.
Context `{BF : Bitflags} `{FSI : FileSystem FS} `{MI : WasmMemory M} `{AQ : ArrayQueue Q}.
Abbreviation call A := (Host (FS:=FS) (M:=M) (Q:=Q) (W:=W) A).

(** [open], [read], [mkdir], [close] and [yield_now] forward their arguments. *)
Definition sdk_open (alloc_ok : Z -> bool) (dir ptr len : Z) : call Z := sp_fs_open alloc_ok dir (as_i32 ptr) (as_i32 len).
Definition sdk_read (alloc_ok : Z -> bool) (file ptr len offset : Z) : call Z :=
  sp_fs_read alloc_ok file (as_i32 ptr) (as_i32 len) (as_i32 offset).
Definition sdk_mkdir (alloc_ok : Z -> bool) (dir ptr len : Z) : call Z := sp_fs_mkdir alloc_ok dir (as_i32 ptr) (as_i32 len).
Definition sdk_close (file : Z) : call unit := sp_fs_close file.
Definition sdk_yield_now : call unit := sp_sched_yield.

(** The two ways results are decoded. *)
Definition handle_result (result : Z) : Result Z Z := if result <? 0 then Err (as_i32 result) else Ok result.
Definition unit_result (result : Z) : Result unit Z := if result =? 0 then Ok tt else Err result.
Definition try_result (busy result : Z) : Result bool Z :=
  if result =? 0 then Ok true else if result =? busy then Ok false else Err result.

Definition sdk_mutex_create : call (Result Z Z) := r ← sp_mutex_create; mret (handle_result r).
Definition sdk_mutex_lock (h : Z) : call (Result unit Z) := r ← sp_mutex_lock h; mret (unit_result r).
Definition sdk_mutex_try_lock (h : Z) : call (Result bool Z) :=
  r ← sp_mutex_try_lock h; mret (try_result (-11) r).
Definition sdk_mutex_unlock (h : Z) : call (Result unit Z) := r ← sp_mutex_unlock h; mret (unit_result r).

Definition sdk_sem_create (n : Z) : call (Result Z Z) := r ← sp_sem_create (as_i32 n); mret (handle_result r).
Definition sdk_sem_acquire (h : Z) : call (Result unit Z) := r ← sp_sem_acquire h; mret (unit_result r).
Definition sdk_sem_try_acquire (h : Z) : call (Result bool Z) :=
  r ← sp_sem_try_acquire h; mret (try_result (-12) r).
Definition sdk_sem_release (h : Z) : call (Result unit Z) := r ← sp_sem_release h; mret (unit_result r).

(** ** Linking *)

(** The [extern] block as WASM imports: pointers, [usize] and [i32] are [i32]. *)
Definition sdk_imports : list (string * FuncType) :=
  [("print", ([TI32; TI32], [])); ("sp_fs_open", ([TI64; TI32; TI32], [TI64]));
   ("sp_fs_read", ([TI64; TI32; TI32; TI32], [TI32])); ("sp_fs_mkdir", ([TI64; TI32; TI32], [TI32]));
   ("sp_fs_close", ([TI64], [])); ("sp_sched_yield", ([], []));
   ("sp_mutex_create", ([], [TI64])); ("sp_mutex_lock", ([TI64], [TI32])); ("sp_mutex_try_lock", ([TI64], [TI32]));
   ("sp_mutex_unlock", ([TI64], [TI32])); ("sp_sem_create", ([TI32], [TI64])); ("sp_sem_acquire", ([TI64], [TI32]));
   ("sp_sem_try_acquire", ([TI64], [TI32])); ("sp_sem_release", ([TI64], [TI32]))]%string.

(** What the example application calls: [print_str] and [yield_now]. *)
Inductive AppCall : Type := PrintStr (s : string) | YieldNow.

(** [hello::_start] and [hello::run_with_cap]. *)
Definition hello_start : list AppCall :=
  [PrintStr ("Hello from WASM!" ++ NL); YieldNow; PrintStr ("Yielded and resumed successfully!" ++ NL)].
Definition hello_run_with_cap (dir_cap : Z) : list AppCall :=
  PrintStr ("Running with granted capability!" ++ NL) ::
  (if 0 <=? dir_cap then [PrintStr ("Directory capability received." ++ NL)] else []) ++
  [YieldNow; PrintStr ("Done!" ++ NL)].

(** The import behind a call. *)
Definition app_import (c : AppCall) : string * FuncType :=
  match c with
  | PrintStr _ => ("print", ([TI32; TI32], []))
  | YieldNow => ("sp_sched_yield", ([], []))
  end%string.

(** The tests for the codes [-11] and [-12] agree with the host's constants. *)
Lemma sdk_codes : MUTEX_LOCKED = -11 /\ SEM_NO_PERMITS = -12 /\ INVALID_HANDLE = -13.
Proof. done. Qed.

(** A permit count the [u32] argument allows but the host reads as negative is
    refused; every other one gives a non-negative handle. *)
Theorem sdk_sem_create_result (n : Z) (k : Kernel FS M Q W) :
  fits 32 n -> YIELD_THRESHOLD + SYNC_CREATE <= fuel_remaining (k_host k) -> fits 32 (k_next_cap k) ->
  (sdk_sem_create n k).1 =
    if 2 ^ 31 <=? n then HReturn (Err PERMISSION_DENIED) else HReturn (Ok (k_next_cap k)).
Proof.
  intros Hn Hf Hc. unfold sdk_sem_create, sp_sem_create, mbind, Host_bind.
  unfold check_fuel, HostState_consume_fuel, saturating_sub, YIELD_THRESHOLD, SYNC_CREATE in *.
  rewrite Z.max_r, (proj2 (Z.leb_le _ _)) by lia. unfold fits in Hn.
  destruct (2 ^ 31 <=? n) eqn:E.
  - apply Z.leb_le in E.
    assert (as_i32 n = n - 2 ^ 32) as ->.
    { unfold swrap. rewrite <- (Z_mod_plus_full _ (-1)), Z.mod_small; lia. }
    rewrite (proj2 (Z.ltb_lt _ _)) by lia. done.
  - apply Z.leb_gt in E. rewrite swrap_small by lia.
    rewrite (proj2 (Z.ltb_ge _ _)) by lia. simpl. unfold mret, Host_ret. simpl.
    pose proof (CapId_as_i64_gen0 (k_next_cap k) Hc) as ->.
    unfold handle_result. rewrite (proj2 (Z.ltb_ge _ _)) by (apply Hc). done.
Qed.
End sdk.
