(* ===== verification/Device.v ===== *)
(** * Network devices

    Models [src/kernel/src/net/device.rs] (the fallback device) and the
    [NetworkDevice] of [src/kernel/src/net/mod.rs], which is a real e1000 or the
    fallback.  The [Device] trait the protocol engine drives them through is a
    class: a receive token is its packet, a transmit token is the permission to
    fill and send one. *)

From S2P Require Import Prelude Pci Text E1000.
Open Scope Z_scope.

(** [DeviceCapabilities]; the medium is always Ethernet. *)
Record DeviceCapabilities : Type := DeviceCapabilities_mk {
  max_transmission_unit : Z;
  max_burst_size : option Z;
}.

(** The [Device] trait: the packet of the receive token, if there is one; whether a
    transmit token is given out; using a token for a packet of the given length that
    the function fills in. *)
Class Device (T : Type) : Type := {
  dev_receive : T -> Outcome (option (list byte) * T);
  dev_transmit : T -> Outcome bool;
  dev_consume : forall {R : Type}, T -> nat -> (list byte -> R * list byte) -> Outcome (R * T);
  dev_capabilities : T -> DeviceCapabilities;
}.

(** [RxToken::consume] of every device. *)
Definition RxToken_consume {R : Type} (buffer : list byte) (f : list byte -> R) : R := f buffer.

(** ** The fallback device: [net/device.rs] *)

Definition MTU : Z := 1500.
Definition DEVICE_QUEUE_CAPACITY : nat := 16.

Record QemuE1000 : Type := QemuE1000_mk {
  rx_queue : list (list byte);
  tx_queue : list (list byte);
  qe_mac_address : list Z;
}.

Definition QemuE1000_new : QemuE1000 := QemuE1000_mk [] [] [0x52; 0x54; 0x00; 0x12; 0x34; 0x56].

Definition inject_rx (d : QemuE1000) (data : list byte) : QemuE1000 :=
  if (length (rx_queue d) <? DEVICE_QUEUE_CAPACITY)%nat
  then QemuE1000_mk (rx_queue d ++ [data]) (tx_queue d) (qe_mac_address d) else d.

Definition drain_tx (d : QemuE1000) : list (list byte) * QemuE1000 :=
  (tx_queue d, QemuE1000_mk (rx_queue d) [] (qe_mac_address d)).

(** [receive]: the buffer of the receive token. *)
Definition QemuE1000_receive (d : QemuE1000) : option (list byte) * QemuE1000 :=
  match rx_queue d with
  | buffer :: rest => (Some buffer, QemuE1000_mk rest (tx_queue d) (qe_mac_address d))
  | [] => (None, d)
  end.

(** [transmit]: whether a transmit token is given out. *)
Definition QemuE1000_transmit (d : QemuE1000) : bool :=
  (length (tx_queue d) <? DEVICE_QUEUE_CAPACITY)%nat.

(** [E1000TxToken::consume] with the filling function [f]. *)
Definition E1000TxToken_consume {R} (d : QemuE1000) (len : nat) (f : list byte -> R * list byte)
    : R * QemuE1000 :=
  let '(result, buffer) := f (replicate len x00) in
  (result,
   if (length (tx_queue d) <? DEVICE_QUEUE_CAPACITY)%nat
   then QemuE1000_mk (rx_queue d) (tx_queue d ++ [buffer]) (qe_mac_address d) else d).

Definition QemuE1000_capabilities (d : QemuE1000) : DeviceCapabilities := DeviceCapabilities_mk MTU (Some 1).

#[export] Instance QemuE1000_Device : Device QemuE1000 :=
  {| dev_receive := fun d => Return (QemuE1000_receive d);
     dev_transmit := fun d => Return (QemuE1000_transmit d);
     dev_consume := fun R d len f => Return (E1000TxToken_consume d len f);
     dev_capabilities := QemuE1000_capabilities |}.

(** ** The e1000 behind the trait: [net/e1000.rs] *)

Definition E1000_capabilities {M} (e : E1000 M) : DeviceCapabilities := DeviceCapabilities_mk E1000_MTU (Some 1).

#[export] Instance E1000_Device {M} `{NI : Nic M} : Device (E1000 M) :=
  {| dev_receive := receive_raw;
     dev_transmit := E1000_transmit;
     dev_consume := fun R e len f => E1000_consume e len f;
     dev_capabilities := E1000_capabilities |}.

(** ** Either of them: [net/mod.rs] *)

Inductive NetworkDevice (M : Type) : Type :=
| DevE1000 (dev : E1000 M)
| DevLoopback (dev : QemuE1000).
Arguments DevE1000 {M}.
Arguments DevLoopback {M}.

Definition NetworkDevice_probe {M D} `{NI : Nic M} `{PH : PciHost D} (map_mmio : Z -> M) (bx : Boxes)
    (phys_mem_offset : Z) (d : D) : NetworkDevice M * D :=
  match E1000_probe map_mmio bx phys_mem_offset d with
  | (Some e1000, d) => (DevE1000 e1000, d)
  | (None, d) => (DevLoopback QemuE1000_new, d)
  end.

Definition NetworkDevice_mac_address {M} (d : NetworkDevice M) : list Z :=
  match d with
  | DevE1000 dev => mac_address dev
  | DevLoopback dev => qe_mac_address dev
  end.

Definition is_real {M} (d : NetworkDevice M) : bool :=
  match d with DevE1000 _ => true | DevLoopback _ => false end.

#[export] Instance NetworkDevice_Device {M} `{NI : Nic M} : Device (NetworkDevice M) :=
  {| dev_receive := fun d =>
       match d with
       | DevE1000 dev => let! (pkt, dev) := dev_receive dev in Return (pkt, DevE1000 dev)
       | DevLoopback dev => let! (pkt, dev) := dev_receive dev in Return (pkt, DevLoopback dev)
       end;
     dev_transmit := fun d =>
       match d with DevE1000 dev => dev_transmit dev | DevLoopback dev => dev_transmit dev end;
     dev_consume := fun R d len f =>
       match d with
       | DevE1000 dev => let! (r, dev) := dev_consume dev len f in Return (r, DevE1000 dev)
       | DevLoopback dev => let! (r, dev) := dev_consume dev len f in Return (r, DevLoopback dev)
       end;
     dev_capabilities := fun d =>
       match d with DevE1000 dev => dev_capabilities dev | DevLoopback dev => dev_capabilities dev end |}.
