(* ===== verification/Net.v ===== *)
(** * Network services

    Models the kernel's own logic around [smoltcp]: creation and configuration of
    the stack in [net/stack.rs], the DHCP client of [net/dhcp.rs], the resolver and
    address parser of [net/dns.rs] and the ephemeral ports of [net/socket.rs].  The protocol engine itself (interface,
    socket set, DHCP and DNS sockets) is third-party: it is the class [Smoltcp]
    with the documented behaviour the kernel relies on. *)

From S2P Require Import Prelude Text E1000 Device.
From Stdlib Require Import Ascii.
Open Scope Z_scope.

(** [Ipv4Address] and an address with its prefix length. *)
Record Ipv4Address : Type := Ipv4Address_new { ip_a : Z; ip_b : Z; ip_c : Z; ip_d : Z }.
Record IpCidr : Type := IpCidr_mk { cidr_ip : Ipv4Address; cidr_prefix : Z }.

#[export] Instance Ipv4Address_eq_dec : EqDecision Ipv4Address.
Proof. solve_decision. Defined.

(** What [dhcpv4::Socket::poll] reports. *)
Record SocketConfig : Type := SocketConfig_mk {
  sc_address : IpCidr;
  sc_router : option Ipv4Address;
  sc_dns_servers : list Ipv4Address;
}.
Inductive DhcpSocketEvent : Type := SockConfigured (config : SocketConfig) | SockDeconfigured.

Inductive StartQueryError : Type := NoFreeSlot | InvalidName | NameTooLong.
Inductive GetQueryResultError : Type := QueryPending | QueryFailed.

(** The methods of the DHCP and DNS sockets are called through
    [SocketSet::get_mut::<T>], which panics for a handle that names no socket of the
    type. *)
Class Smoltcp (I S H QH : Type) : Type := {
  (** [Interface::new] for a hardware address, and [SocketSet::new]. *)
  iface_new : list Z -> DeviceCapabilities -> I;
  sockets_new : S;
  ip_addrs : I -> list IpCidr;
  default_route : I -> option Ipv4Address;
  (** [update_ip_addrs(|a| a.push(ip).ok())]. *)
  push_ip_addr : I -> IpCidr -> I;
  (** [update_ip_addrs(|a| { a.clear(); a.push(ip) })]. *)
  replace_ip_addr : I -> IpCidr -> I;
  add_default_ipv4_route : I -> Ipv4Address -> I;
  add_dhcp_socket : S -> H * S;
  (** [get_mut::<dhcpv4::Socket>(h).poll()] and [.reset()]. *)
  dhcp_socket_poll : S -> H -> Outcome (option DhcpSocketEvent * S);
  dhcp_socket_reset : S -> H -> Outcome S;
  add_dns_socket : S -> list Ipv4Address -> H * S;
  (** [get_mut::<dns::Socket>(h)] alone, [.start_query(..)], and
      [.get_query_result(q)], which also panics when the slot of [q] is free. *)
  dns_get_mut : S -> H -> Outcome unit;
  dns_start_query : S -> H -> string -> Outcome (Result QH StartQueryError * S);
  dns_get_result : S -> H -> QH -> Outcome (Result (list Ipv4Address) GetQueryResultError * S);
  (** [Instant - Instant], in milliseconds. *)
  instant_sub : Z -> Z -> Z;
  instant_sub_le : forall a b, b <= a -> instant_sub a b = a - b;
  iface_new_addrs : forall mac caps, ip_addrs (iface_new mac caps) = [];
  iface_new_route : forall mac caps, default_route (iface_new mac caps) = None;
  push_addrs : forall i c, ip_addrs i = [] -> ip_addrs (push_ip_addr i c) = [c];
  push_route : forall i c, default_route (push_ip_addr i c) = default_route i;
  replace_addrs : forall i c, ip_addrs (replace_ip_addr i c) = [c];
  replace_route : forall i c, default_route (replace_ip_addr i c) = default_route i;
  route_addrs : forall i g, ip_addrs (add_default_ipv4_route i g) = ip_addrs i;
  route_route : forall i g, default_route (add_default_ipv4_route i g) = Some g;
}.

(** [NetError] of the common crate, with its [Display]. *)
Inductive NetError : Type :=
| DeviceNotReady | NoAddress | ConnectionRefused | NetTimeout | BufferFull | InvalidAddress
| DnsError | DhcpFailed | IoError.

Definition NetError_fmt (e : NetError) : string :=
  match e with
  | DeviceNotReady => "network device not ready"
  | NoAddress => "no IP address configured"
  | ConnectionRefused => "connection refused"
  | NetTimeout => "connection timed out"
  | BufferFull => "socket buffer full"
  | InvalidAddress => "invalid address format"
  | DnsError => "DNS error"
  | DhcpFailed => "DHCP failed to acquire lease"
  | IoError => "I/O error"
  end.

(** [NetConfig]. *)
Inductive NetConfig : Type :=
| CfgDhcp
| CfgStatic (ip : IpCidr) (gateway : option Ipv4Address) (dns_servers : list Ipv4Address).

Section net.
Context {M I S H QH : Type} `{SI : Smoltcp I S H QH}.

(** ** The stack's configuration: [net/stack.rs] *)

Record NetworkStack : Type := NetworkStack_mk {
  ns_device : NetworkDevice M;
  ns_interface : I;
  ns_sockets : S;
  ns_config : NetConfig;
  ns_dns_servers : list Ipv4Address;
}.

Definition with_interface (s : NetworkStack) (i : I) : NetworkStack :=
  NetworkStack_mk (ns_device s) i (ns_sockets s) (ns_config s) (ns_dns_servers s).
Definition with_sockets (s : NetworkStack) (so : S) : NetworkStack :=
  NetworkStack_mk (ns_device s) (ns_interface s) so (ns_config s) (ns_dns_servers s).

(** [NetworkStack::new]; the interface is created against a dummy device. *)
Definition NetworkStack_new (device : NetworkDevice M) (config : NetConfig) : NetworkStack :=
  let mac := NetworkDevice_mac_address device in
  let interface := iface_new mac (dev_capabilities QemuE1000_new) in
  let dns_servers := match config with CfgDhcp => [] | CfgStatic _ _ dns_servers => dns_servers end in
  let stack := NetworkStack_mk device interface sockets_new config dns_servers in
  match config with
  | CfgDhcp => stack
  | CfgStatic ip gateway _ =>
      let i := push_ip_addr (ns_interface stack) ip in
      with_interface stack (match gateway with Some gw => add_default_ipv4_route i gw | None => i end)
  end.

Definition has_ip (s : NetworkStack) : bool :=
  match ip_addrs (ns_interface s) with [] => false | _ => true end.

Definition ipv4_address (s : NetworkStack) : option Ipv4Address :=
  cidr_ip <$> head (ip_addrs (ns_interface s)).

Definition set_ip_config (s : NetworkStack) (ip : IpCidr) (gateway : option Ipv4Address) : NetworkStack :=
  let i := replace_ip_addr (ns_interface s) ip in
  with_interface s (match gateway with Some gw => add_default_ipv4_route i gw | None => i end).

Definition set_dns_servers (s : NetworkStack) (servers : list Ipv4Address) : NetworkStack :=
  NetworkStack_mk (ns_device s) (ns_interface s) (ns_sockets s) (ns_config s) servers.

(** [NetworkStack::start_dns_query]. *)
Definition start_dns_query (s : NetworkStack) (handle : H) (hostname : string)
    : Outcome (Result QH StartQueryError * NetworkStack) :=
  let! (q, sockets) := dns_start_query (ns_sockets s) handle hostname in Return (q, with_sockets s sockets).

(** ** The DHCP client: [net/dhcp.rs]; times are in milliseconds. *)

Inductive DhcpState : Type := DhcpIdle | Discovering | Requesting | Configured | LinkLocal.

#[export] Instance DhcpState_eq_dec : EqDecision DhcpState.
Proof. solve_decision. Defined.

Record DhcpConfig : Type := DhcpConfig_mk {
  dc_ip : Ipv4Address;
  dc_prefix_len : Z;
  dc_gateway : option Ipv4Address;
  dc_dns_servers : list Ipv4Address;
}.

Definition DhcpConfig_cidr (c : DhcpConfig) : IpCidr := IpCidr_mk (dc_ip c) (dc_prefix_len c).

Inductive DhcpEvent : Type :=
| EvConfigured (config : DhcpConfig)
| EvDeconfigured
| EvLinkLocalFallback (ip : Ipv4Address).

Record DhcpClient : Type := DhcpClient_mk {
  dhcp_socket : option H;
  dhcp_state : DhcpState;
  dhcp_config : option DhcpConfig;
  dhcp_start_time : option Z;
}.

Definition link_local_timeout : Z := 10 * 1000.

Definition DhcpClient_new : DhcpClient := DhcpClient_mk None DhcpIdle None None.

Definition DhcpClient_start (d : DhcpClient) (s : NetworkStack) (timestamp : Z) : DhcpClient * NetworkStack :=
  let '(handle, sockets) := add_dhcp_socket (ns_sockets s) in
  (DhcpClient_mk (Some handle) Discovering (dhcp_config d) (Some timestamp), with_sockets s sockets).

Definition fallback_to_link_local (d : DhcpClient) (s : NetworkStack)
    : DhcpEvent * DhcpClient * NetworkStack :=
  let mac := NetworkDevice_mac_address (ns_device s) in
  let ip := Ipv4Address_new 169 254 (nth 4 mac 0) (nth 5 mac 0) in
  (EvLinkLocalFallback ip,
   DhcpClient_mk (dhcp_socket d) LinkLocal (dhcp_config d) (dhcp_start_time d),
   set_ip_config s (IpCidr_mk ip 16) None).

(** The test at the head of [poll]: searching for more than the timeout. *)
Definition timed_out (d : DhcpClient) (timestamp : Z) : bool :=
  (bool_decide (dhcp_state d = Discovering) || bool_decide (dhcp_state d = Requesting)) &&
  match dhcp_start_time d with
  | Some start => link_local_timeout <? instant_sub timestamp start
  | None => false
  end.

Definition DhcpClient_poll (d : DhcpClient) (s : NetworkStack) (timestamp : Z)
    : Outcome (option DhcpEvent * DhcpClient * NetworkStack) :=
  match dhcp_socket d with
  | None => Return (None, d, s)
  | Some handle =>
      if timed_out d timestamp then
        let '(ev, d, s) := fallback_to_link_local d s in Return (Some ev, d, s)
      else
        let! (ev, sockets) := dhcp_socket_poll (ns_sockets s) handle in
        let s := with_sockets s sockets in
        match ev with
        | None => Return (None, d, s)
        | Some (SockConfigured config) =>
            let dns_servers := sc_dns_servers config in
            let dhcp_config := DhcpConfig_mk (cidr_ip (sc_address config)) (cidr_prefix (sc_address config))
              (sc_router config) dns_servers in
            let s := set_ip_config s (DhcpConfig_cidr dhcp_config) (dc_gateway dhcp_config) in
            let s := set_dns_servers s dns_servers in
            Return (Some (EvConfigured dhcp_config),
             DhcpClient_mk (dhcp_socket d) Configured (Some dhcp_config) (dhcp_start_time d), s)
        | Some SockDeconfigured =>
            Return (Some EvDeconfigured,
             DhcpClient_mk (dhcp_socket d) Discovering None (Some timestamp), s)
        end
  end.

Definition DhcpClient_renew (d : DhcpClient) (s : NetworkStack) : Outcome (DhcpClient * NetworkStack) :=
  match dhcp_socket d with
  | None => Return (d, s)
  | Some handle =>
      let! sockets := dhcp_socket_reset (ns_sockets s) handle in
      Return (DhcpClient_mk (dhcp_socket d) Discovering (dhcp_config d) (dhcp_start_time d), with_sockets s sockets)
  end.

(** ** The resolver: [net/dns.rs] *)

Record DnsQueryHandle : Type := DnsQueryHandle_mk { dq_handle : QH; dq_id : Z }.
Record DnsResult : Type := DnsResult_mk { dr_hostname : string; dr_addresses : list Ipv4Address }.

Record DnsResolver : Type := DnsResolver_mk {
  dns_socket : option H;
  dns_pending : list (Z * QH * string);
  dns_next_id : Z;
}.

Definition DnsResolver_new : DnsResolver := DnsResolver_mk None [] 1.

Definition DnsResolver_init (r : DnsResolver) (s : NetworkStack) : DnsResolver * NetworkStack :=
  match dns_socket r with
  | Some _ => (r, s)
  | None =>
      match ns_dns_servers s with
      | [] => (r, s)
      | servers =>
          let '(handle, sockets) := add_dns_socket (ns_sockets s) servers in
          (DnsResolver_mk (Some handle) (dns_pending r) (dns_next_id r), with_sockets s sockets)
      end
  end.

Definition is_ready (r : DnsResolver) : bool := match dns_socket r with Some _ => true | None => false end.

Definition DnsResolver_resolve (r : DnsResolver) (s : NetworkStack) (hostname : string)
    : Outcome (Result DnsQueryHandle NetError * DnsResolver * NetworkStack) :=
  match dns_socket r with
  | None => Return (Err DeviceNotReady, r, s)
  | Some socket =>
      let! (q, s) := start_dns_query s socket hostname in
      match q with
      | Ok query_handle =>
          let id := dns_next_id r in
          Return (Ok (DnsQueryHandle_mk query_handle id),
           DnsResolver_mk (dns_socket r) (dns_pending r ++ [(id, query_handle, hostname)]) (as_u16 (id + 1)),
           s)
      | Err NoFreeSlot => Return (Err BufferFull, r, s)
      | Err InvalidName | Err NameTooLong => Return (Err DnsError, r, s)
      end
  end.

(** The [while i < self.pending.len()] loop of [poll]; [None] when the fuel ends first. *)
Fixpoint dns_poll_loop (fuel : nat) (socket : H) (i : nat) (pending : list (Z * QH * string))
    (results : list (Result DnsResult NetError)) (sockets : S)
    : option (Outcome (list (Result DnsResult NetError) * list (Z * QH * string) * S)) :=
  match fuel with
  | O => None
  | Datatypes.S fuel =>
      match pending !! i with
      | None => Some (Return (results, pending, sockets))
      | Some (_, query_handle, hostname) =>
          match dns_get_result sockets socket query_handle with
          | Panic => Some Panic
          | Return (Ok addrs, sockets) =>
              dns_poll_loop fuel socket i (delete i pending)
                (results ++ [Ok (DnsResult_mk hostname addrs)]) sockets
          | Return (Err QueryPending, sockets) =>
              dns_poll_loop fuel socket (Datatypes.S i) pending results sockets
          | Return (Err QueryFailed, sockets) =>
              dns_poll_loop fuel socket i (delete i pending) (results ++ [Err DnsError]) sockets
          end
      end
  end.

Definition DnsResolver_poll (r : DnsResolver) (s : NetworkStack)
    : option (Outcome (list (Result DnsResult NetError) * DnsResolver * NetworkStack)) :=
  match dns_socket r with
  | None => Some (Return ([], r, s))
  | Some socket =>
      match dns_get_mut (ns_sockets s) socket with
      | Panic => Some Panic
      | Return _ =>
          polled ← dns_poll_loop (Datatypes.S (length (dns_pending r))) socket 0 (dns_pending r) [] (ns_sockets s);
          Some (let! (results, pending, sockets) := polled in
                Return (results, DnsResolver_mk (dns_socket r) pending (dns_next_id r), with_sockets s sockets))
      end
  end.

(** [self.pending.iter().position(|(id, _, _)| *id == query.id)]. *)
Definition position (pending : list (Z * QH * string)) (id : Z) : option nat :=
  fst <$> list_find (fun p => p.1.1 = id) pending.

Definition DnsResolver_get_result (r : DnsResolver) (s : NetworkStack) (query : DnsQueryHandle)
    : Outcome (option (Result DnsResult NetError) * DnsResolver * NetworkStack) :=
  match dns_socket r with
  | None => Return (None, r, s)
  | Some socket =>
      let! _ := dns_get_mut (ns_sockets s) socket in
      let! (q, sockets) := dns_get_result (ns_sockets s) socket (dq_handle query) in
      let s := with_sockets s sockets in
      let take_pending (k : string -> Result DnsResult NetError) :=
        match position (dns_pending r) (dq_id query) with
        | None => Return (None, r, s)
        | Some pos =>
            match dns_pending r !! pos with
            | Some (_, _, hostname) =>
                Return (Some (k hostname),
                 DnsResolver_mk (dns_socket r) (delete pos (dns_pending r)) (dns_next_id r), s)
            | None => Return (None, r, s)
            end
        end in
      match q with
      | Ok addrs => take_pending (fun hostname => Ok (DnsResult_mk hostname addrs))
      | Err QueryPending => Return (None, r, s)
      | Err QueryFailed => take_pending (fun _ => Err DnsError)
      end
  end.

Definition DnsResolver_cancel (r : DnsResolver) (query : DnsQueryHandle) : DnsResolver :=
  match position (dns_pending r) (dq_id query) with
  | Some pos => DnsResolver_mk (dns_socket r) (delete pos (dns_pending r)) (dns_next_id r)
  | None => r
  end.

Definition pending_count (r : DnsResolver) : nat := length (dns_pending r).
End net.

(** [parse_ipv4]; [filter_map] drops the parts that are not a [u8]. *)
Definition parse_ipv4 (s : string) : option Ipv4Address :=
  let parts := split_on "."%char s in
  if decide (length parts <> 4%nat) then None
  else
    match omap (parse_uint 8) parts with
    | [a; b; c; d] => Some (Ipv4Address_new a b c d)
    | _ => None
    end.

(** The [Display] of an address. *)
Definition show_ipv4 (ip : Ipv4Address) : string :=
  join "." [show_u8 (ip_a ip); show_u8 (ip_b ip); show_u8 (ip_c ip); show_u8 (ip_d ip)].

(** ** Ephemeral ports: [net/socket.rs] *)

(** [ephemeral_port]: the port and the next value of the counter. *)
Definition ephemeral_port (counter : Z) : Z * Z :=
  (counter, if counter =? 65535 then 49152 else as_u16 (counter + 1)).

Definition EPHEMERAL_PORT_COUNTER : Z := 49152.
