(* ===== verification/NetSpec.v ===== *)
(** * Correctness of the network services

    The DHCP client keeps the stack in step with its lease, the resolver's
    index loop is the partition of its queries into finished and pending ones,
    addresses print and parse back, ephemeral ports cycle through their range. *)

From S2P Require Import Prelude Text E1000 Device Net.
From Stdlib Require Import Ascii.
Open Scope Z_scope.

(** ** Addresses *)

Definition ipv4_wf (ip : Ipv4Address) : Prop :=
  fits 8 (ip_a ip) /\ fits 8 (ip_b ip) /\ fits 8 (ip_c ip) /\ fits 8 (ip_d ip).

Lemma digit_of_range c d : digit_of c = Some d -> 0 <= d <= 9.
Proof. unfold digit_of. destruct (_ && _) eqn:E; [|done]. intros [= <-]. lia. Qed.

Lemma parse_digits_fits w s acc n : fits w acc -> parse_digits w s acc = Some n -> fits w n.
Proof.
  revert acc. induction s as [|c s IH]; intros acc Ha; simpl; [by intros [= ->]|].
  destruct (digit_of c) as [d|] eqn:Ed; [|done]. apply digit_of_range in Ed.
  destruct (_ <? _) eqn:El; [|done]. apply IH. unfold fits in *. lia.
Qed.

Lemma parse_uint_fits w s n : 0 <= w -> parse_uint w s = Some n -> fits w n.
Proof.
  intros Hw. unfold parse_uint. destruct s as [|c s]; [done|].
  assert (H0 : fits w 0) by (split; [lia|apply Z.pow_pos_nonneg; lia]).
  case_decide; [destruct s; [done|]|]; by apply parse_digits_fits.
Qed.

Lemma parse_show ip : ipv4_wf ip -> parse_ipv4 (show_ipv4 ip) = Some ip.
Proof.
  intros (Ha & Hb & Hc & Hd). unfold parse_ipv4, show_ipv4.
  apply show_u8_spec in Ha as [Pa Da], Hb as [Pb Db], Hc as [Pc Dc], Hd as [Pd Dd].
  rewrite (split_on_join "."%char) by (by repeat constructor).
  rewrite decide_False by (simpl; lia). cbn [omap list_omap]. rewrite Pa, Pb, Pc, Pd. by destruct ip.
Qed.

Lemma parse_wf s ip : parse_ipv4 s = Some ip -> ipv4_wf ip.
Proof.
  unfold parse_ipv4. case_decide; [done|]. intros Hp.
  assert (Hall : Forall (fits 8) (omap (parse_uint 8) (split_on "."%char s))).
  { apply list.Forall_forall. intros n (p & _ & Hn)%list_elem_of_omap. by eapply parse_uint_fits. }
  destruct (omap _ _) as [|a [|b [|c [|d [|]]]]]; try done. injection Hp as <-.
  rewrite !list.Forall_cons in Hall. unfold ipv4_wf. simpl. tauto.
Qed.

Section spec.
Context {M I S H QH : Type} `{SI : Smoltcp I S H QH}.
Abbreviation stack := (NetworkStack (M:=M) (I:=I) (S:=S)).
Abbreviation client := (DhcpClient (H:=H)).
Abbreviation pending := (list (Z * QH * string)).

(** ** The resolver's loop *)

(** One pass over the queries: the results of the finished ones in order, and the
    ones still pending. *)
Fixpoint dns_pass (socket : H) (ps : pending) (sockets : S)
    : Outcome (list (Result DnsResult NetError) * pending * S) :=
  match ps with
  | [] => Return ([], [], sockets)
  | p :: ps =>
      let! (q, sockets) := dns_get_result sockets socket p.1.2 in
      let! (results, kept, sockets) := dns_pass socket ps sockets in
      Return match q with
             | Ok addrs => (Ok (DnsResult_mk p.2 addrs) :: results, kept, sockets)
             | Err QueryPending => (results, p :: kept, sockets)
             | Err QueryFailed => (Err DnsError :: results, kept, sockets)
             end
  end.

Lemma dns_poll_loop_pass fuel socket kept rest results sockets :
  (length rest < fuel)%nat ->
  dns_poll_loop fuel socket (length kept) (kept ++ rest) results sockets =
    Some (let! (rs, ks, ss) := dns_pass socket rest sockets in Return (results ++ rs, kept ++ ks, ss)).
Proof.
  revert kept rest results sockets. induction fuel as [|fuel IH]; intros kept rest results sockets Hf; [lia|].
  cbn [dns_poll_loop]. rewrite lookup_app_r, Nat.sub_diag by done. destruct rest as [|[[id q] name] rest]; simpl.
  { by rewrite !app_nil_r. }
  destruct (dns_get_result sockets socket q) as [[[addrs|[]] sockets']|]; [..|done]; cbn [outcome_bind].
  - rewrite delete_middle. rewrite IH by (simpl in *; lia).
    destruct (dns_pass socket rest sockets') as [[[rs ks] ss]|]; [|done]. cbn [outcome_bind]. by rewrite <- app_assoc.
  - specialize (IH (kept ++ [(id, q, name)]) rest results sockets' ltac:(simpl in *; lia)).
    rewrite length_app, <- app_assoc in IH. simpl in IH. rewrite Nat.add_1_r in IH. rewrite IH.
    destruct (dns_pass socket rest sockets') as [[[rs ks] ss]|]; [|done]. cbn [outcome_bind]. by rewrite <- app_assoc.
  - rewrite delete_middle. rewrite IH by (simpl in *; lia).
    destruct (dns_pass socket rest sockets') as [[[rs ks] ss]|]; [|done]. cbn [outcome_bind]. by rewrite <- app_assoc.
Qed.

(** ** The DHCP client *)

(** The stack carries the lease [c]. *)
Definition lease_applied (s : stack) (c : DhcpConfig) : Prop :=
  ip_addrs (ns_interface s) = [DhcpConfig_cidr c] /\ ns_dns_servers s = dc_dns_servers c /\
  (forall g, dc_gateway c = Some g -> default_route (ns_interface s) = Some g).

(** The operations of the client, and traffic that changes the socket set. *)
Inductive dhcp_step : client * stack -> client * stack -> Prop :=
| ds_start d s t : dhcp_step (d, s) (DhcpClient_start d s t)
| ds_poll d s t ev d' s' : DhcpClient_poll d s t = Return (ev, d', s') -> dhcp_step (d, s) (d', s')
| ds_renew d s d' s' : DhcpClient_renew d s = Return (d', s') -> dhcp_step (d, s) (d', s')
| ds_traffic d s sockets : dhcp_step (d, s) (d, with_sockets s sockets).

Definition dhcp_inv (x : client * stack) : Prop :=
  dhcp_state x.1 = Configured -> exists c, dhcp_config x.1 = Some c /\ lease_applied x.2 c.

Lemma set_ip_config_route (s : stack) ip g : 
  default_route (ns_interface (set_ip_config s ip (Some g))) = Some g.
Proof. simpl. apply route_route. Qed.

Lemma set_ip_config_addrs (s : stack) ip g : ip_addrs (ns_interface (set_ip_config s ip g)) = [ip].
Proof. simpl. destruct g; rewrite ?route_addrs; apply replace_addrs. Qed.

Lemma dhcp_poll_inv d s t ev d' s' :
  dhcp_inv (d, s) -> DhcpClient_poll d s t = Return (ev, d', s') -> dhcp_inv (d', s').
Proof.
  intros Hi. unfold DhcpClient_poll. destruct (dhcp_socket d) as [h|]; [|by intros [= <- <- <-]].
  destruct (timed_out d t).
  { unfold fallback_to_link_local. intros [= <- <- <-]. by intros ?. }
  destruct (dhcp_socket_poll _ h) as [[[[c|]|] ss]|]; [..|done]; intros [= <- <- <-]; [..|exact Hi].
  - intros _. eexists. split; [done|]. split_and!; [|done|].
    + apply (set_ip_config_addrs (with_sockets s ss)).
    + simpl. intros g ->. apply route_route.
  - by intros ?.
Qed.

Lemma dhcp_step_inv x y : dhcp_inv x -> dhcp_step x y -> dhcp_inv y.
Proof.
  intros Hi Hs. destruct Hs as [d s t|d s t ev d' s' E|d s d' s' E|d s ss]; [..|exact Hi].
  - unfold DhcpClient_start. destruct (add_dhcp_socket _). by intros ?.
  - by eapply dhcp_poll_inv.
  - revert E. unfold DhcpClient_renew. destruct (dhcp_socket d) as [h|]; [|by intros [= <- <-]].
    destruct (dhcp_socket_reset _ h); [|done]. intros [= <- <-]. by intros ?.
Qed.
End spec.

(** ** Ephemeral ports *)

Fixpoint ephemeral_ports (n : nat) (counter : Z) : list Z :=
  match n with
  | O => []
  | Datatypes.S n => let '(port, counter) := ephemeral_port counter in port :: ephemeral_ports n counter
  end.

Lemma ephemeral_ports_cycle n k :
  0 <= k ->
  ephemeral_ports n (49152 + k mod 16384) = (fun i => 49152 + (k + Z.of_nat i) mod 16384) <$> seq 0 n.
Proof.
  revert k. induction n as [|n IH]; intros k Hk; [done|]. cbn [ephemeral_ports]. unfold ephemeral_port.
  simpl. f_equal; [f_equal; f_equal; lia|].
  assert (Hnext : (if 49152 + k mod 16384 =? 65535 then 49152 else as_u16 (49152 + k mod 16384 + 1))
                  = 49152 + (k + 1) mod 16384).
  { destruct (_ =? _) eqn:E; [|unfold wrap]; Z.to_euclidean_division_equations; lia. }
  rewrite Hnext, IH by lia. rewrite <- fmap_S_seq, <- list_fmap_compose.
  apply list_fmap_ext. intros _ i _. simpl. do 2 f_equal. lia.
Qed.

(** ** The fallback device *)

(** The stack sends a packet when it is given a transmit token. *)
Definition device_send (d : QemuE1000) (packet : list byte) : QemuE1000 :=
  if QemuE1000_transmit d
  then (E1000TxToken_consume d (length packet) (fun _ => (tt, packet))).2 else d.

Lemma device_sends packets rx tx mac :
  (length tx <= DEVICE_QUEUE_CAPACITY)%nat ->
  foldl device_send (QemuE1000_mk rx tx mac) packets =
    QemuE1000_mk rx (take DEVICE_QUEUE_CAPACITY (tx ++ packets)) mac.
Proof.
  revert tx. induction packets as [|p packets IH]; intros tx Ht; simpl.
  { by rewrite app_nil_r, take_ge. }
  unfold device_send, QemuE1000_transmit, E1000TxToken_consume. simpl.
  destruct (length tx <? DEVICE_QUEUE_CAPACITY)%nat eqn:E.
  - apply Nat.ltb_lt in E. rewrite IH by (rewrite length_app; simpl; lia). by rewrite <- app_assoc.
  - apply Nat.ltb_ge in E. rewrite IH by done. f_equal. rewrite !take_app_le by lia. done.
Qed.

(** ** Properties *)

(** The resolver's poll loop always ends, and it is one pass over the queries: unless
    a lookup panics it returns the results of the finished ones in their order, drops these and
    keeps exactly the pending ones, skipping none when it removes an element. *)
Theorem dns_poll_is_pass {M I S H QH : Type} `{SI : Smoltcp I S H QH}
    (r : DnsResolver) (s : NetworkStack (M:=M) (I:=I) (S:=S)) (socket : H) :
  dns_socket r = Some socket ->
  DnsResolver_poll r s =
    Some (let! _ := dns_get_mut (ns_sockets s) socket in
          let! (results, kept, sockets) := dns_pass socket (dns_pending r) (ns_sockets s) in
          Return (results, DnsResolver_mk (Some socket) kept (dns_next_id r), with_sockets s sockets)).
Proof.
  intros Hs. unfold DnsResolver_poll. rewrite Hs. destruct (dns_get_mut _ _); [|done]. cbn [outcome_bind].
  pose proof (dns_poll_loop_pass (Datatypes.S (length (dns_pending r))) socket [] (dns_pending r) []
    (ns_sockets s) ltac:(lia)) as E. simpl app in E. simpl length in E. rewrite E.
  by destruct (dns_pass socket (dns_pending r) (ns_sockets s)) as [[[results kept] sockets]|].
Qed.

(** Addresses round trip: parsing the printed form of an address gives it back,
    and everything [parse_ipv4] accepts has four octets below 256. *)
Theorem parse_ipv4_roundtrip (ip : Ipv4Address) (s : string) :
  (ipv4_wf ip -> parse_ipv4 (show_ipv4 ip) = Some ip) /\
  (parse_ipv4 s = Some ip -> ipv4_wf ip).
Proof. split; [apply parse_show|apply parse_wf]. Qed.

(** Whatever the client does and whatever the network delivers, a client in the
    state [Configured] has a lease, and the stack's address, name servers and (when
    the lease has one) gateway are those of the lease. *)
Theorem dhcp_configured_consistent {M I S H QH : Type} `{SI : Smoltcp I S H QH}
    (s0 : NetworkStack (M:=M) (I:=I) (S:=S)) (d : DhcpClient (H:=H)) (s : NetworkStack) :
  rtc dhcp_step (DhcpClient_new, s0) (d, s) -> dhcp_state d = Configured ->
  exists c, dhcp_config d = Some c /\ lease_applied s c.
Proof.
  intros Hr. refine (rtc_invariant _ dhcp_inv _ _ _ _ Hr); [apply dhcp_step_inv|]. by intros ?.
Qed.

(** [renew] keeps the start time of the first discovery, so a client that has
    been up for more than ten seconds falls back to a link-local address at the
    first poll after a renewal, replacing the leased address before the DHCP socket
    is even asked. *)
Theorem dhcp_renew_falls_back {M I S H QH : Type} `{SI : Smoltcp I S H QH}
    (d d1 : DhcpClient (H:=H)) (s s1 : NetworkStack (M:=M) (I:=I) (S:=S)) (h : H) (start t : Z) :
  dhcp_socket d = Some h -> dhcp_start_time d = Some start -> start + link_local_timeout < t ->
  let mac := NetworkDevice_mac_address (ns_device s) in
  let ip := Ipv4Address_new 169 254 (nth 4 mac 0) (nth 5 mac 0) in
  DhcpClient_renew d s = Return (d1, s1) ->
  exists d2 s2, DhcpClient_poll d1 s1 t = Return (Some (EvLinkLocalFallback ip), d2, s2) /\
    dhcp_state d2 = LinkLocal /\ ip_addrs (ns_interface s2) = [IpCidr_mk ip 16].
Proof.
  intros Hh Hs Ht mac ip. unfold DhcpClient_renew. rewrite Hh. destruct (dhcp_socket_reset _ h) as [so|]; [|done].
  intros [= <- <-]. unfold DhcpClient_poll. simpl.
  unfold timed_out. simpl. rewrite Hs, instant_sub_le by (unfold link_local_timeout in Ht; lia).
  rewrite (proj2 (Z.ltb_lt _ _)) by lia. eexists _, _. split; [done|]. split; [done|].
  apply (set_ip_config_addrs (with_sockets s _)).
Qed.

(** The fallback device only swallows packets: whatever the stack sends, the
    device keeps the first sixteen packets, gives out no transmit token after them,
    and never delivers a packet back. *)
Theorem fallback_device_swallows (packets : list (list byte)) :
  let d := foldl device_send QemuE1000_new packets in
  tx_queue d = take 16 packets /\ (QemuE1000_receive d).1 = None /\
  (QemuE1000_transmit d = true <-> (length packets < 16)%nat).
Proof.
  unfold QemuE1000_new. rewrite device_sends by (simpl; unfold DEVICE_QUEUE_CAPACITY; lia).
  split_and!; [done..|]. unfold QemuE1000_transmit, DEVICE_QUEUE_CAPACITY. cbn [tx_queue].
  rewrite Nat.ltb_lt, length_take. simpl app. lia.
Qed.

(** ** Witnesses *)

(** A network that answers the first poll with a lease; one query in three is
    finished, one failed. *)
Definition demo_lease : SocketConfig :=
  SocketConfig_mk (IpCidr_mk (Ipv4Address_new 10 0 2 15) 24) (Some (Ipv4Address_new 10 0 2 2))
    [Ipv4Address_new 10 0 2 3].

#[local] Instance demo_Smoltcp : Smoltcp (list IpCidr * option Ipv4Address) unit unit nat.
Proof.
  refine {| iface_new := fun _ _ => ([], None); sockets_new := tt; push_ip_addr := fun i c => (i.1 ++ [c], i.2);
            ip_addrs := fst; default_route := snd;
            replace_ip_addr := fun i c => ([c], i.2);
            add_default_ipv4_route := fun i g => (i.1, Some g);
            add_dhcp_socket := fun s => (tt, s);
            dhcp_socket_poll := fun s _ => Return (Some (SockConfigured demo_lease), s);
            dhcp_socket_reset := fun s _ => Return s;
            add_dns_socket := fun s _ => (tt, s);
            dns_get_mut := fun _ _ => Return tt;
            dns_start_query := fun s _ _ => Return (Ok 0%nat, s);
            dns_get_result := fun s _ q => Return
              (match q with
               | 0%nat => Ok [Ipv4Address_new 1 2 3 4]
               | 1%nat => Err QueryPending
               | _ => Err QueryFailed end, s);
            instant_sub := Z.sub |}; try done. by intros [] c ->.
Defined.

Definition demo_stack : NetworkStack (M:=unit) (I:=list IpCidr * option Ipv4Address) (S:=unit) :=
  NetworkStack_new (DevLoopback QemuE1000_new) CfgDhcp.

Lemma dns_poll_is_pass_witness :
  let r := DnsResolver_mk (Some tt) [(1, 0%nat, "a"); (2, 1%nat, "b"); (3, 2%nat, "c")]%string 4 in
  DnsResolver_poll r demo_stack =
    Some (Return ([Ok (DnsResult_mk "a" [Ipv4Address_new 1 2 3 4]); Err DnsError],
          DnsResolver_mk (Some tt) [(2, 1%nat, "b"%string)] 4, demo_stack)).
Proof.
  exact (dns_poll_is_pass (DnsResolver_mk (Some tt) [(1, 0%nat, "a"); (2, 1%nat, "b"); (3, 2%nat, "c")]%string 4)
    demo_stack tt eq_refl).
Defined.

Lemma dhcp_configured_consistent_witness :
  exists d s, rtc dhcp_step (DhcpClient_new, demo_stack) (d, s) /\ dhcp_state d = Configured /\
    exists c, dhcp_config d = Some c /\ lease_applied s c.
Proof.
  destruct (DhcpClient_start DhcpClient_new demo_stack 0) as [d1 s1] eqn:E1.
  destruct (DhcpClient_poll d1 s1 100) as [[[ev d] s]|] eqn:E2;
    [|vm_compute in E1; injection E1 as <- <-; discriminate E2].
  assert (Hr : rtc dhcp_step (DhcpClient_new, demo_stack) (d, s)).
  { apply (rtc_l _ _ (d1, s1)); [rewrite <- E1; apply (ds_start DhcpClient_new demo_stack 0)|].
    eapply rtc_once, ds_poll, E2. }
  assert (Hc : dhcp_state d = Configured).
  { vm_compute in E1. injection E1 as <- <-. vm_compute in E2. by injection E2 as <- <- <-. }
  exists d, s. split; [exact Hr|]. split; [exact Hc|].
  exact (dhcp_configured_consistent demo_stack d s Hr Hc).
Defined.

Lemma dhcp_renew_falls_back_witness :
  let d := DhcpClient_mk (Some tt) Configured None (Some 0) in
  exists d1 s1 d2 s2, DhcpClient_renew d demo_stack = Return (d1, s1) /\
    DhcpClient_poll d1 s1 20000 =
      Return (Some (EvLinkLocalFallback (Ipv4Address_new 169 254 0x34 0x56)), d2, s2) /\
    dhcp_state d2 = LinkLocal.
Proof.
  destruct (DhcpClient_renew (DhcpClient_mk (Some tt) Configured None (Some 0)) demo_stack) as [[d1 s1]|] eqn:E; [|discriminate E].
  destruct (dhcp_renew_falls_back (DhcpClient_mk (Some tt) Configured None (Some 0)) d1 demo_stack s1 tt 0 20000
    eq_refl eq_refl eq_refl E) as (d2 & s2 & H1 & H2 & _).
  exists d1, s1, d2, s2. split; [exact E|]. split; [exact H1|exact H2].
Defined.

Lemma parse_ipv4_roundtrip_witness :
  parse_ipv4 "10.0.2.15" = Some (Ipv4Address_new 10 0 2 15).
Proof.
  exact (proj1 (parse_ipv4_roundtrip (Ipv4Address_new 10 0 2 15) "") ltac:(by_compute)).
Defined.

(** A sign is accepted in front of an octet, as [u8]'s parser does. *)
Lemma parse_ipv4_accepts_plus : parse_ipv4 "+1.02.3.4" = Some (Ipv4Address_new 1 2 3 4).
Proof. reflexivity. Qed.
