(* ===== verification/DhcpSpec.v ===== *)
(** * Progress of the DHCP client

    The client of [src/kernel/src/net/dhcp.rs] polled repeatedly while the network
    does what it likes to the sockets: an address is on the interface at the latest
    at the first poll after the ten-second timeout.  Also shows what the client leaves
    behind when it loses a lease. *)

From S2P Require Import Prelude Text E1000 Device Net NetSpec.
Open Scope Z_scope.

Section dhcp.
Context {M I S H QH : Type} `{SI : Smoltcp I S H QH}.
Abbreviation stack := (NetworkStack (M:=M) (I:=I) (S:=S)).
Abbreviation client := (DhcpClient (H:=H)).

(** Polls at the given times; before each one the traffic leaves the sockets in the
    given state.  The events are collected. *)
Fixpoint dhcp_polls (ps : list (S * Z)) (d : client) (s : stack) : Outcome (list DhcpEvent * client * stack) :=
  match ps with
  | [] => Return ([], d, s)
  | (sockets, t) :: ps =>
      let! (ev, d, s) := DhcpClient_poll d (with_sockets s sockets) t in
      let! (evs, d, s) := dhcp_polls ps d s in
      Return (option_list ev ++ evs, d, s)
  end.

(** One of the polls found a lease of the address [c]. *)
Definition leased (ps : list (S * Z)) (h : H) (c : IpCidr) : Prop :=
  exists p config so, p ∈ ps /\ dhcp_socket_poll p.1 h = Return (Some (SockConfigured config), so) /\
    sc_address config = c.

Definition link_local (s : stack) : IpCidr :=
  let mac := NetworkDevice_mac_address (ns_device s) in
  IpCidr_mk (Ipv4Address_new 169 254 (nth 4 mac 0) (nth 5 mac 0)) 16.

(** The interface has exactly one address: the one of a lease the client holds, or
    the link-local one made from the hardware address. *)
Definition has_address (ps : list (S * Z)) (h : H) (d : client) (s : stack) : Prop :=
  (dhcp_state d = Configured /\ exists c, dhcp_config d = Some c /\
     ip_addrs (ns_interface s) = [DhcpConfig_cidr c] /\ leased ps h (DhcpConfig_cidr c)) \/
  (dhcp_state d = LinkLocal /\ ip_addrs (ns_interface s) = [link_local s]).

(** Searching since [t0], or done; the polls so far are [ps]. *)
Definition progress_inv (ps : list (S * Z)) (h : H) (t0 : Z) (d : client) (s : stack) : Prop :=
  dhcp_socket d = Some h /\
  ((dhcp_state d = Discovering /\ dhcp_start_time d = Some t0) \/ has_address ps h d s).

Lemma leased_app ps qs h c : leased ps h c -> leased (ps ++ qs) h c.
Proof.
  intros (p & config & so & Hp & Hl). exists p, config, so. split; [|done]. rewrite elem_of_app. by left.
Qed.

Lemma has_address_app ps qs h d s : has_address ps h d s -> has_address (ps ++ qs) h d s.
Proof.
  intros [[Hst (c & Hc & Ha & Hl)]|Hl]; [left|by right]. split; [done|]. exists c. auto using leased_app.
Qed.

(** A poll whose lookup succeeds returns, and the client keeps its socket. *)
Lemma poll_returns h d (s : stack) t :
  dhcp_socket d = Some h -> (exists r, dhcp_socket_poll (ns_sockets s) h = Return r) ->
  exists ev d' s', DhcpClient_poll d s t = Return (ev, d', s') /\ dhcp_socket d' = Some h.
Proof.
  intros Hs [[ev so'] Hr]. unfold DhcpClient_poll. rewrite Hs.
  destruct (timed_out d t); [unfold fallback_to_link_local; by eexists _, _, _|]. rewrite Hr. cbn [outcome_bind].
  destruct ev as [[config|]|]; by eexists _, _, _.
Qed.

Lemma polls_return ps h d (s : stack) :
  dhcp_socket d = Some h -> (forall p, p ∈ ps -> exists r, dhcp_socket_poll p.1 h = Return r) ->
  exists evs d' s', dhcp_polls ps d s = Return (evs, d', s').
Proof.
  revert d s. induction ps as [|[so t] ps IH]; intros d s Hs Hr; simpl; [by eexists _, _, _|].
  destruct (poll_returns h d (with_sockets s so) t Hs (Hr (so, t) ltac:(by left))) as (ev & d1 & s1 & -> & H1).
  cbn [outcome_bind]. destruct (IH d1 s1 H1) as (evs & d2 & s2 & ->); [by intros; apply Hr; right|].
  cbn [outcome_bind]. by eexists _, _, _.
Qed.

Lemma poll_progress ps h t0 d (s : stack) so t ev d' s' :
  progress_inv ps h t0 d s -> t0 <= t -> DhcpClient_poll d (with_sockets s so) t = Return (ev, d', s') ->
  ev <> Some EvDeconfigured ->
  progress_inv (ps ++ [(so, t)]) h t0 d' s' /\
  (link_local_timeout < t - t0 -> has_address (ps ++ [(so, t)]) h d' s').
Proof.
  intros [Hs Hi] Ht. unfold DhcpClient_poll. rewrite Hs. destruct (timed_out d t) eqn:Et.
  { unfold fallback_to_link_local. intros [= <- <- <-] _.
    match goal with |- progress_inv _ _ _ ?d ?s /\ _ => assert (Ha : has_address (ps ++ [(so, t)]) h d s) end.
    { right. split; [done|]. apply (set_ip_config_addrs (with_sockets s so)). }
    split; [split; [done|by right]|intros _; exact Ha]. }
  cbn [ns_sockets with_sockets]. destruct (dhcp_socket_poll so h) as [[[[config|]|] so']|] eqn:Ep; [..|done]; cbn [outcome_bind];
    intros [= <- <- <-] Hev; [|done|].
  - match goal with |- progress_inv _ _ _ ?d ?s /\ _ => assert (Ha : has_address (ps ++ [(so, t)]) h d s) end.
    { left. split; [done|]. eexists. split; [done|]. split.
      - apply (set_ip_config_addrs (with_sockets (with_sockets s so) so')).
      - exists (so, t), config, so'. split; [rewrite elem_of_app; right; by left|]. split; [done|].
        unfold DhcpConfig_cidr. simpl. by destruct (sc_address config). }
    split; [split; [done|by right]|intros _; exact Ha].
  - assert (Hd : (dhcp_state d = Discovering /\ dhcp_start_time d = Some t0) \/ has_address (ps ++ [(so, t)]) h d
      (with_sockets (with_sockets s so) so')).
    { destruct Hi as [?|Ha]; [by left|right]. by apply (has_address_app ps [(so, t)]). }
    split; [by split|]. intros Hl. destruct Hd as [[Hd Hst]|Ha]; [|done]. unfold timed_out in Et.
    rewrite Hd, Hst, instant_sub_le in Et by done. simpl in Et. apply Z.ltb_ge in Et. lia.
Qed.

Lemma polls_progress ps qs h t0 d (s : stack) evs d' s' :
  progress_inv qs h t0 d s -> Forall (fun p => t0 <= p.2) ps -> dhcp_polls ps d s = Return (evs, d', s') ->
  EvDeconfigured ∉ evs -> progress_inv (qs ++ ps) h t0 d' s' /\
  (forall p, last ps = Some p -> link_local_timeout < p.2 - t0 -> has_address (qs ++ ps) h d' s').
Proof.
  revert qs d s evs. induction ps as [|[so t] ps IH]; intros qs d s evs Hi Ht; simpl.
  { intros [= <- <- <-]. by rewrite app_nil_r. }
  apply Forall_cons in Ht as [Ht Hts]. simpl in Ht.
  destruct (DhcpClient_poll d (with_sockets s so) t) as [[[ev d1] s1]|] eqn:E1; [|done]. cbn [outcome_bind].
  destruct (dhcp_polls ps d1 s1) as [[[evs2 d2] s2]|] eqn:E2; [|done]. cbn [outcome_bind]. intros [= <- <- <-] Hev.
  destruct (poll_progress _ _ _ _ _ _ _ _ _ _ Hi Ht E1) as [Hi1 Hl1].
  { intros ->. apply Hev. by left. }
  destruct (IH _ d1 s1 evs2 Hi1 Hts E2) as [Hi2 Hl2].
  { intros Hin. apply Hev. rewrite elem_of_app. by right. }
  rewrite <- app_assoc in Hi2, Hl2. split; [exact Hi2|]. intros p. destruct ps as [|q ps]; [|by apply Hl2].
  simpl in E2. injection E2 as <- <- <-. simpl. intros [= <-]. exact Hl1.
Qed.
End dhcp.

(** ** Properties *)

(** C40: A started client puts an address on the interface within ten seconds.  While
    the lookup of its socket succeeds every poll returns, and whatever the network
    delivers short of the loss of a lease, after a poll later than the timeout the
    interface has exactly one address: the one of the lease the client holds, which
    its DHCP socket reported, or 169.254.x.y with the last two bytes of the hardware
    address. *)
Theorem dhcp_obtains_address {M I S H QH : Type} `{SI : Smoltcp I S H QH}
    (d : DhcpClient (H:=H)) (s : NetworkStack (M:=M) (I:=I) (S:=S)) (t0 : Z) (ps : list (S * Z)) (h : H)
    (d0 : DhcpClient (H:=H)) (s0 : NetworkStack (M:=M) (I:=I) (S:=S)) (p : S * Z) :
  DhcpClient_start d s t0 = (d0, s0) -> dhcp_socket d0 = Some h ->
  (forall q, q ∈ ps -> exists r, dhcp_socket_poll q.1 h = Return r) ->
  Forall (fun q => t0 <= q.2) ps -> last ps = Some p -> link_local_timeout < p.2 - t0 ->
  exists evs d' s', dhcp_polls ps d0 s0 = Return (evs, d', s') /\
    (EvDeconfigured ∉ evs -> has_address ps h d' s').
Proof.
  unfold DhcpClient_start. destruct (add_dhcp_socket (ns_sockets s)) as [h0 ss]. intros [= <- <-] [= <-] Hr Ht Hl Hlate.
  destruct (polls_return ps h0 (DhcpClient_mk (Some h0) Discovering (dhcp_config d) (Some t0)) (with_sockets s ss)
    eq_refl Hr) as (evs & d' & s' & E). exists evs, d', s'. split; [exact E|]. intros Hev.
  eapply (polls_progress ps [] h0 t0); [|exact Ht|exact E|done|exact Hl|done]. split; [done|]. by left.
Qed.

(** A lost lease stays in use: at the [Deconfigured] event the client forgets the
    lease and starts over, but the interface keeps the expired address, the stack its
    name servers and the default route, until the next lease or the link-local
    fallback. *)
Theorem dhcp_keeps_lost_address {M I S H QH : Type} `{SI : Smoltcp I S H QH}
    (d d' : DhcpClient (H:=H)) (s s' : NetworkStack (M:=M) (I:=I) (S:=S)) (t : Z) :
  DhcpClient_poll d s t = Return (Some EvDeconfigured, d', s') ->
  dhcp_state d' = Discovering /\ dhcp_config d' = None /\
  ns_interface s' = ns_interface s /\ ns_dns_servers s' = ns_dns_servers s.
Proof.
  unfold DhcpClient_poll. destruct (dhcp_socket d) as [h|]; [|done].
  destruct (timed_out d t); [unfold fallback_to_link_local; by intros [=]|].
  destruct (dhcp_socket_poll _ h) as [[[[c|]|] ss]|]; [by intros [=]| |done|done]. by intros [= <- <-].
Qed.

(** ** Witnesses *)

(** A network without a server, one that grants a lease, or one that takes it back;
    the DHCP socket is there as long as the state is not [None]. *)
Inductive Server : Type := Silent | Grants | Withdraws.

Definition some_lease : SocketConfig := SocketConfig_mk (IpCidr_mk (Ipv4Address_new 10 0 2 15) 24) None [].

#[local] Instance silent_Smoltcp : Smoltcp (list IpCidr * option Ipv4Address) (option Server) unit nat.
Proof.
  refine {| iface_new := fun _ _ => ([], None); sockets_new := None; push_ip_addr := fun i c => (i.1 ++ [c], i.2);
            ip_addrs := fst; default_route := snd;
            replace_ip_addr := fun i c => ([c], i.2);
            add_default_ipv4_route := fun i g => (i.1, Some g);
            add_dhcp_socket := fun s => (tt, Some Silent);
            dhcp_socket_poll := fun s _ =>
              let! sv := or_panic s in
              Return (match sv with
                      | Silent => None
                      | Grants => Some (SockConfigured some_lease)
                      | Withdraws => Some SockDeconfigured
                      end, s);
            dhcp_socket_reset := fun s _ => Return s;
            add_dns_socket := fun s _ => (tt, s);
            dns_get_mut := fun _ _ => Return tt;
            dns_start_query := fun s _ _ => Return (Ok 0%nat, s);
            dns_get_result := fun s _ q => Return (Err QueryPending, s);
            instant_sub := Z.sub |}; try done. by intros [] c ->.
Defined.

Definition silent_stack : NetworkStack (M:=unit) (I:=list IpCidr * option Ipv4Address) (S:=option Server) :=
  NetworkStack_new (DevLoopback QemuE1000_new) CfgDhcp.

(** Without a server the link-local address; with one the lease, also when it comes
    after the fallback. *)
Lemma dhcp_obtains_address_witness :
  let t := link_local_timeout + 1 in
  let '(d0, s0) := DhcpClient_start (SI:=silent_Smoltcp) DhcpClient_new silent_stack 0 in
  (exists evs d' s', dhcp_polls (SI:=silent_Smoltcp) [(Some Silent, 5000); (Some Silent, t)] d0 s0 = Return (evs, d', s') /\
     has_address (SI:=silent_Smoltcp) [(Some Silent, 5000); (Some Silent, t)] tt d' s' /\ dhcp_state d' = LinkLocal) /\
  (exists evs d' s', dhcp_polls (SI:=silent_Smoltcp) [(Some Silent, t); (Some Grants, t + 1)] d0 s0 = Return (evs, d', s') /\
     has_address (SI:=silent_Smoltcp) [(Some Silent, t); (Some Grants, t + 1)] tt d' s' /\ dhcp_state d' = Configured).
Proof.
  destruct (DhcpClient_start (SI:=silent_Smoltcp) DhcpClient_new silent_stack 0) as [d0 s0] eqn:E0.
  assert (Hok : forall (l : list (option Server * Z)), Forall (fun q => is_Some q.1) l ->
    forall q, q ∈ l -> exists r, dhcp_socket_poll (Smoltcp:=silent_Smoltcp) q.1 tt = Return r).
  { intros l Hl q Hq. rewrite Forall_forall in Hl. destruct (Hl q Hq) as [sv Hsv]. rewrite Hsv. by eexists. }
  assert (Hsome : forall sv : Server, is_Some (Some sv)) by (intros sv; by exists sv).
  pose proof (dhcp_obtains_address (SI:=silent_Smoltcp) DhcpClient_new silent_stack 0) as H.
  split; [specialize (H [(Some Silent, 5000); (Some Silent, link_local_timeout + 1)] tt d0 s0 (Some Silent, link_local_timeout + 1) E0)
         |specialize (H [(Some Silent, link_local_timeout + 1); (Some Grants, link_local_timeout + 1 + 1)] tt d0 s0
            (Some Grants, link_local_timeout + 1 + 1) E0)];
    (destruct H as (evs & d' & s' & E & Ha);
      [by injection E0 as <- <-|apply Hok; by repeat constructor|by repeat constructor|reflexivity|reflexivity|]);
    exists evs, d', s'; (split; [exact E|]); injection E0 as <- <-; vm_compute in E; injection E as <- <- <-;
    (split; [apply Ha; set_solver|reflexivity]).
Defined.

Lemma dhcp_keeps_lost_address_witness :
  exists d' s', DhcpClient_poll (SI:=silent_Smoltcp) (DhcpClient_mk (Some tt) Configured None (Some 0))
      (with_sockets silent_stack (Some Withdraws)) 100 = Return (Some EvDeconfigured, d', s') /\ dhcp_state d' = Discovering.
Proof.
  eexists _, _. split; [reflexivity|].
  refine (proj1 (dhcp_keeps_lost_address (SI:=silent_Smoltcp) (DhcpClient_mk (Some tt) Configured None (Some 0)) _
    (with_sockets silent_stack (Some Withdraws)) _ 100 _)). reflexivity.
Defined.
