(* ===== verification/Keyboard.v ===== *)
(** * The keyboard scancode stream

    Models [src/kernel/src/task/keyboard.rs] and the [get_scancode] of
    [main.rs].  The static queue is an option ([spin::Once]); the third-party
    [AtomicWaker] is a class with its documented behaviour.  The second half
    interleaves [poll_next] with keyboard interrupts at every access. *)

From S2P Require Import Prelude Text Vga Queue.
Open Scope Z_scope.

Class AtomicWaker (A W : Type) : Type := {
  aw_new : A;
  aw_register : A -> W -> A;
  aw_wake : A -> option W * A;
  aw_take : A -> option W * A;
  aw_stored : A -> option W;
  aw_new_stored : aw_stored aw_new = None;
  aw_register_stored : forall a w, aw_stored (aw_register a w) = Some w;
  aw_wake_stored : forall a, (aw_wake a).1 = aw_stored a /\ aw_stored (aw_wake a).2 = None;
  aw_take_stored : forall a, (aw_take a).1 = aw_stored a /\ aw_stored (aw_take a).2 = None;
}.

(** A cell is such a waker. *)
#[export] Instance option_AtomicWaker (W : Type) : AtomicWaker (option W) W.
Proof.
  by refine {| aw_new := None; aw_register := fun _ w => Some w; aw_wake := fun a => (a, None);
               aw_take := fun a => (a, None); aw_stored := fun a => a |}.
Defined.

Definition SCANCODE_CAPACITY : nat := 100.

(** The two statics. *)
Record Keyboard (Q : Type -> Type) (A : Type) : Type := Keyboard_mk {
  SCANCODE_QUEUE : option (Q Z);
  WAKER : A;
}.
Arguments Keyboard_mk {Q A}.
Arguments SCANCODE_QUEUE {Q A}.
Arguments WAKER {Q A}.

Section keyboard.
Context {Q : Type -> Type} `{AQ : ArrayQueue Q} {A W : Type} `{AW : AtomicWaker A W}.
Abbreviation kbd := (Keyboard Q A).

Definition keyboard_boot : kbd := Keyboard_mk None aw_new.

(** [add_scancode]: the waker it calls, if any. *)
Definition add_scancode (k : kbd) (scancode : Z) : option W * kbd :=
  match SCANCODE_QUEUE k with
  | None => (None, k)
  | Some queue =>
      match q_push queue scancode with
      | (Err _, queue) => (None, Keyboard_mk (Some queue) (WAKER k))
      | (Ok _, queue) =>
          let '(w, a) := aw_wake (WAKER k) in (w, Keyboard_mk (Some queue) a)
      end
  end.

(** [ScancodeStream::new]: [call_once]. *)
Definition ScancodeStream_new (k : kbd) : kbd :=
  match SCANCODE_QUEUE k with
  | Some _ => k
  | None => Keyboard_mk (Some (q_new SCANCODE_CAPACITY)) (WAKER k)
  end.

Definition queue_pop (k : kbd) : option Z * kbd :=
  match SCANCODE_QUEUE k with
  | None => (None, k)
  | Some queue => let '(sc, queue) := q_pop queue in (sc, Keyboard_mk (Some queue) (WAKER k))
  end.

(** [poll_next] without interruptions; [expect] panics without a queue. *)
Definition poll_next (k : kbd) (w : W) : Outcome (Poll (option Z) * kbd) :=
  match SCANCODE_QUEUE k with
  | None => Panic
  | Some _ =>
      match queue_pop k with
      | (Some scancode, k) => Return (Ready (Some scancode), k)
      | (None, k) =>
          let k := Keyboard_mk (SCANCODE_QUEUE k) (aw_register (WAKER k) w) in
          match queue_pop k with
          | (Some scancode, k) =>
              Return (Ready (Some scancode), Keyboard_mk (SCANCODE_QUEUE k) (aw_take (WAKER k)).2)
          | (None, k) => Return (Pending, k)
          end
      end
  end.

(** [get_scancode] of the terminal task in [main.rs]. *)
Definition get_scancode (k : kbd) : option Z * kbd := queue_pop k.

(** A poll of the async block of [print_keypresses] after the stream is created: it
    echoes scancodes until the stream has none.  [None]: out of fuel. *)
Fixpoint print_keypresses_loop (fuel : nat) (k : kbd) (w : W) : option (Outcome (Poll unit * list ConsoleOp * kbd)) :=
  match fuel with
  | O => None
  | S fuel =>
      match poll_next k w with
      | Panic => Some Panic
      | Return (Pending, k) => Some (Return (Pending, [], k))
      | Return (Ready None, k) => Some (Return (Ready tt, [], k))
      | Return (Ready (Some scancode), k) =>
          (fun o => let! (r, out, k) := o in Return (r, Print (show_uint scancode) :: out, k))
            <$> print_keypresses_loop fuel k w
      end
  end.

Definition print_keypresses (fuel : nat) (started : bool) (k : kbd) (w : W) : option (Outcome (Poll unit * list ConsoleOp * kbd)) :=
  print_keypresses_loop fuel (if started then k else ScancodeStream_new k) w.

(** ** Interleavings of one reader with interrupts *)

Inductive PollPc : Type :=
| KIdle      (** not in [poll_next] *)
| KRegister  (** the fast path found nothing *)
| KRecheck   (** the waker is registered *)
| KParked.   (** returned [Pending] *)

Record StreamState : Type := StreamState_mk {
  st_kbd : kbd;
  st_pc : PollPc;
  st_notified : bool;      (** the reader was woken since its last poll began *)
  st_delivered : list Z;   (** the scancodes returned so far *)
  st_accepted : list Z;    (** the scancodes the interrupt handler queued so far *)
}.

(** Was this call of the interrupt handler able to queue its scancode? *)
Definition accepts (k : kbd) : bool :=
  match SCANCODE_QUEUE k with
  | None => false
  | Some q => bool_decide (length (q_items q) < q_cap q)%nat
  end.

(** A keyboard interrupt. *)
Definition stream_interrupt (s : StreamState) (sc : Z) : StreamState :=
  StreamState_mk (add_scancode (st_kbd s) sc).2 (st_pc s)
    (match (add_scancode (st_kbd s) sc).1 with Some _ => true | None => st_notified s end)
    (st_delivered s) (if accepts (st_kbd s) then st_accepted s ++ [sc] else st_accepted s).

(** An access of [poll_next]. *)
Inductive reader_step (w : W) (s : StreamState) : StreamState -> Prop :=
| StFast sc k : (st_pc s = KIdle \/ st_pc s = KParked) -> queue_pop (st_kbd s) = (Some sc, k) ->
    reader_step w s (StreamState_mk k KIdle false (st_delivered s ++ [sc]) (st_accepted s))
| StEmpty k : (st_pc s = KIdle \/ st_pc s = KParked) -> queue_pop (st_kbd s) = (None, k) ->
    reader_step w s (StreamState_mk k KRegister false (st_delivered s) (st_accepted s))
| StRegister : st_pc s = KRegister ->
    reader_step w s (StreamState_mk
      (Keyboard_mk (SCANCODE_QUEUE (st_kbd s)) (aw_register (WAKER (st_kbd s)) w)) KRecheck
      (st_notified s) (st_delivered s) (st_accepted s))
| StRecheckSome sc k : st_pc s = KRecheck -> queue_pop (st_kbd s) = (Some sc, k) ->
    reader_step w s (StreamState_mk (Keyboard_mk (SCANCODE_QUEUE k) (aw_take (WAKER k)).2) KIdle
      (st_notified s) (st_delivered s ++ [sc]) (st_accepted s))
| StRecheckNone k : st_pc s = KRecheck -> queue_pop (st_kbd s) = (None, k) ->
    reader_step w s (StreamState_mk k KParked (st_notified s) (st_delivered s) (st_accepted s)).

Inductive stream_step (w : W) (s : StreamState) : StreamState -> Prop :=
| StInterrupt sc : stream_step w s (stream_interrupt s sc)
| StReader s' : reader_step w s s' -> stream_step w s s'.

Definition stream_init : StreamState :=
  StreamState_mk (ScancodeStream_new keyboard_boot) KIdle false [] [].

(** ** Invariant *)

Record stream_inv (w : W) (s : StreamState) : Prop := {
  si_queue : exists q, SCANCODE_QUEUE (st_kbd s) = Some q /\ q_cap q = SCANCODE_CAPACITY /\
    st_delivered s ++ q_items q = st_accepted s /\
    (st_pc s = KParked -> st_notified s = true \/ (q_items q = [] /\ aw_stored (WAKER (st_kbd s)) = Some w)) /\
    (st_pc s = KRecheck -> st_notified s = true \/ aw_stored (WAKER (st_kbd s)) = Some w);
}.

Lemma stream_init_inv w : stream_inv w stream_init.
Proof.
  constructor. exists (q_new SCANCODE_CAPACITY).
  destruct (q_new_items (Q:=Q) Z SCANCODE_CAPACITY) as [Hi Hc]; [unfold SCANCODE_CAPACITY; lia|].
  split_and!; [done..| | |]; simpl; rewrite ?Hi; done.
Qed.

(** A pop leaves the waker alone and takes the head of the queue. *)
Lemma queue_pop_spec (k : kbd) q :
  SCANCODE_QUEUE k = Some q ->
  exists q', (queue_pop k) = (head (q_items q), Keyboard_mk (Some q') (WAKER k)) /\
    q_cap q' = q_cap q /\ q_items q' = tail (q_items q).
Proof.
  intros Hq. unfold queue_pop. rewrite Hq.
  pose proof (q_pop_items _ q) as [H1 H2]. pose proof (q_pop_cap _ q) as H3.
  destruct (q_pop q) as [sc q']. simpl in *. subst sc. eauto.
Qed.

Lemma interrupt_inv w s sc : stream_inv w s -> stream_inv w (stream_interrupt s sc).
Proof.
  intros [(q & Hq & Hc & Hd & Hp & Hr)]. constructor. unfold stream_interrupt, add_scancode, accepts. rewrite Hq.
  pose proof (q_push_spec q sc) as [Hi Ho]. pose proof (q_push_cap _ q sc) as Hc'.
  destruct (q_push q sc) as [r q']. simpl in Hi, Ho, Hc'. subst r.
  destruct (decide (length (q_items q) < q_cap q)%nat) as [Hroom|Hfull].
  - rewrite bool_decide_true by done. pose proof (aw_wake_stored (WAKER (st_kbd s))) as [Hw Hs].
    destruct (aw_wake (WAKER (st_kbd s))) as [ow a]. simpl in Hw, Hs. subst ow.
    exists q'. simpl. split_and!; [done|congruence|by rewrite Hi, app_assoc, Hd| |].
    + intros [Hn|[_ Hst]]%Hp; [|rewrite Hst; auto]. rewrite Hn. left. by destruct (aw_stored _).
    + intros [Hn|Hst]%Hr; [|rewrite Hst; auto]. rewrite Hn. left. by destruct (aw_stored _).
  - rewrite bool_decide_false by done. exists q'. simpl. split_and!; [done|congruence|by rewrite Hi|..].
    + intros [Hn|[He _]]%Hp; [auto|]. rewrite He, Hc in Hfull. simpl in Hfull.
      unfold SCANCODE_CAPACITY in Hfull. lia.
    + done.
Qed.

Lemma reader_step_inv w s s' : stream_inv w s -> reader_step w s s' -> stream_inv w s'.
Proof.
  intros Hi Hs. destruct Hs as [sc k Hpc E|k Hpc E|Hpc|sc k Hpc E|k Hpc E];
    destruct Hi as [(q & Hq & Hc & Hd & Hp & Hr)]; constructor.
  all: destruct (queue_pop_spec _ _ Hq) as (q' & E' & Hc' & Hi').
  - rewrite E' in E. injection E as Hh <-. exists q'. destruct (q_items q) as [|x l]; [done|].
    simplify_eq/=. split_and!; [done|congruence|by rewrite <- app_assoc|done|done].
  - rewrite E' in E. injection E as Hh <-. exists q'. destruct (q_items q) as [|x l]; [|done].
    split_and!; simpl; [done|congruence| |done|done]. by rewrite Hi'.
  - exists q. split_and!; simpl; [done|done|done|done|]. rewrite aw_register_stored. auto.
  - rewrite E' in E. injection E as Hh <-. exists q'. destruct (q_items q) as [|x l]; [done|].
    simplify_eq/=. split_and!; [done|congruence|by rewrite <- app_assoc|done|done].
  - rewrite E' in E. injection E as Hh <-. exists q'. destruct (q_items q) as [|x l]; [|done].
    split_and!; simpl; [done|congruence|by rewrite Hi'| |done]. intros _.
    destruct (Hr Hpc); auto.
Qed.

Lemma stream_step_inv w s s' : stream_inv w s -> stream_step w s s' -> stream_inv w s'.
Proof. intros Hi [sc|s'' Hs]; [by apply interrupt_inv|by eapply reader_step_inv]. Qed.

(** An uninterrupted [poll_next] is a run of these steps. *)
Lemma poll_next_steps w s r k' :
  st_pc s = KIdle \/ st_pc s = KParked -> poll_next (st_kbd s) w = Return (r, k') ->
  exists s', rtc (stream_step w) s s' /\ st_kbd s' = k' /\
    st_pc s' = match r with Ready _ => KIdle | Pending => KParked end.
Proof.
  intros Hpc. unfold poll_next. destruct (SCANCODE_QUEUE (st_kbd s)); [|done].
  destruct (queue_pop (st_kbd s)) as [[sc|] k1] eqn:E1.
  { intros [= <- <-]. eexists. split; [by eapply rtc_once, StReader, StFast|done]. }
  destruct (queue_pop (Keyboard_mk (SCANCODE_QUEUE k1) (aw_register (WAKER k1) w))) as [[sc|] k2] eqn:E2;
    intros [= <- <-]; eexists; split;
    try (eapply rtc_l; [by eapply StReader, StEmpty|]; eapply rtc_l; [by apply StReader, StRegister|]).
  - eapply rtc_once. by eapply StReader, StRecheckSome.
  - done.
  - eapply rtc_once. by eapply StReader, StRecheckNone.
  - done.
Qed.

(** [poll_next] takes the head of the queue, or parks the reader's waker. *)
Lemma poll_next_items (k : kbd) q w :
  SCANCODE_QUEUE k = Some q ->
  exists q' a, q_items q' = tail (q_items q) /\
    match q_items q with
    | [] => poll_next k w = Return (Pending, Keyboard_mk (Some q') a) /\ aw_stored a = Some w
    | sc :: _ => poll_next k w = Return (Ready (Some sc), Keyboard_mk (Some q') a)
    end.
Proof.
  intros Hq. unfold poll_next. rewrite Hq. destruct (queue_pop_spec k q Hq) as (q1 & -> & _ & Hi).
  destruct (q_items q) as [|sc l]; simpl in *; [|by eexists q1, _].
  destruct (queue_pop_spec (Keyboard_mk (Some q1) (aw_register (WAKER k) w)) q1 eq_refl) as (q2 & E2 & _ & Hi2).
  rewrite E2, Hi. simpl. eexists q2, _. rewrite Hi2, Hi. split_and!; [done..|]. apply aw_register_stored.
Qed.
End keyboard.

(** ** Properties *)

(** The echo task never ends and leaves nothing behind: with more fuel than queued
    scancodes, a poll prints all of them in order, leaves the queue empty and the
    waker registered for the next interrupt. *)
Theorem print_keypresses_drains {Q : Type -> Type} `{AQ : ArrayQueue Q} {A W : Type} `{AW : AtomicWaker A W}
    (fuel : nat) (k : Keyboard Q A) (q : Q Z) (w : W) :
  SCANCODE_QUEUE k = Some q -> (length (q_items q) < fuel)%nat ->
  exists q' a, q_items q' = [] /\ aw_stored a = Some w /\
    print_keypresses fuel true k w =
      Some (Return (Pending, (fun sc => Print (show_uint sc)) <$> q_items q, Keyboard_mk (Some q') a)).
Proof.
  unfold print_keypresses. revert k q. induction fuel as [|fuel IH]; intros k q Hq Hf; [lia|]. simpl.
  destruct (poll_next_items k q w Hq) as (q' & a & Hi & Hp). destruct (q_items q) as [|sc l] eqn:E.
  - destruct Hp as [-> Ha]. by exists q', a.
  - rewrite Hp. simpl in Hf, Hi. destruct (IH (Keyboard_mk (Some q') a) q' eq_refl) as (q2 & a2 & H1 & H2 & ->); [rewrite Hi; lia|].
    exists q2, a2. rewrite Hi. done.
Qed.

Lemma print_keypresses_drains_witness :
  let k := (add_scancode (add_scancode (ScancodeStream_new (keyboard_boot (Q:=ListQueue) (A:=option nat))) 30).2 158).2 in
  exists k', print_keypresses 101 true k 7%nat = Some (Return (Pending, [Print "30"; Print "158"], k')).
Proof.
  intros k. destruct (SCANCODE_QUEUE k) as [q|] eqn:Eq; [|discriminate Eq].
  assert (Hi : q_items q = [30; 158]) by (vm_compute in Eq; injection Eq as <-; reflexivity).
  destruct (print_keypresses_drains 101 k q 7%nat Eq) as (q' & a & _ & _ & H); [rewrite Hi; simpl; lia|].
  exists (Keyboard_mk (Some q') a). rewrite H, Hi. reflexivity.
Defined.

(** The stream loses and reorders nothing the interrupt handler queued, and it
    has no lost wake-up: whatever the interleaving of polls and interrupts, a reader
    that is parked while a scancode is waiting has been woken. *)
Theorem keyboard_no_lost_wakeup {Q : Type -> Type} `{AQ : ArrayQueue Q} {A W : Type}
    `{AW : AtomicWaker A W} (w : W) (s : StreamState (Q:=Q) (A:=A)) :
  rtc (stream_step w) stream_init s ->
  exists q, SCANCODE_QUEUE (st_kbd s) = Some q /\ st_delivered s ++ q_items q = st_accepted s /\
    (st_pc s = KParked -> q_items q <> [] -> st_notified s = true).
Proof.
  intros Hr. destruct (rtc_invariant _ (stream_inv w) _ _ (stream_step_inv w) (stream_init_inv w) Hr)
    as [(q & Hq & _ & Hd & Hp & _)].
  exists q. split_and!; [done..|]. intros Hpc Hne. destruct (Hp Hpc) as [|[]]; [done|congruence].
Qed.

Lemma keyboard_no_lost_wakeup_witness :
  exists s : StreamState (Q:=ListQueue) (A:=option nat),
    rtc (stream_step 7%nat) stream_init s /\ st_pc s = KParked /\ st_accepted s = [30] /\
    st_notified s = true.
Proof.
  assert (H : exists s : StreamState (Q:=ListQueue) (A:=option nat),
    rtc (stream_step 7%nat) stream_init s /\ st_pc s = KParked /\ st_accepted s = [30] /\ st_delivered s = []).
  { eexists. split; [|split; [|split]].
    - eapply rtc_l; [eapply StReader, StEmpty; [by left|reflexivity]|].
      eapply rtc_l; [by apply StReader, StRegister|].
      eapply rtc_l; [by eapply StReader, StRecheckNone|].
      apply rtc_once, (StInterrupt _ _ 30).
    - reflexivity.
    - reflexivity.
    - reflexivity. }
  destruct H as (s & Hr & Hpc & Hacc & Hdel). exists s. split_and!; [exact Hr|exact Hpc|exact Hacc|].
  destruct (keyboard_no_lost_wakeup 7%nat s Hr) as (q & _ & Hd & Hn). apply Hn; [exact Hpc|].
  intros E. rewrite E, Hdel, Hacc in Hd. discriminate Hd.
Defined.

(** The kernel never creates a [ScancodeStream]: in the state it boots into, every
    scancode is dropped and the terminal task never reads one. *)
Theorem keyboard_boot_drops_input {Q : Type -> Type} `{AQ : ArrayQueue Q} {A W : Type}
    `{AW : AtomicWaker A W} (scancodes : list Z) :
  let k := foldl (fun k sc => (add_scancode k sc).2) (keyboard_boot (Q:=Q) (A:=A)) scancodes in
  (get_scancode k).1 = None /\ accepts k = false.
Proof.
  simpl. assert (foldl (fun k sc => (add_scancode k sc).2) (keyboard_boot (Q:=Q) (A:=A)) scancodes
    = keyboard_boot) as ->; [|done].
  induction scancodes as [|sc l IH]; [done|]. exact IH.
Qed.
