(* ===== verification/Idle.v ===== *)
(** * Sleeping and waking

    Composes the loop of [src/kernel/src/task/executor.rs] ([run],
    [run_ready_tasks], [sleep_if_idle]), the wakers it hands out, and a task that
    reads the scancode stream of [task/keyboard.rs], with interrupts arriving
    between any two accesses.  The other tasks are arbitrary: polling one may call
    any wakers.  [sleep_if_idle] is three accesses: [cli], the check of the queues,
    and [sti; hlt] (one step, as the processor delivers nothing in between) or
    [sti]. *)

From S2P Require Import Prelude Queue Executor Keyboard.
From stdpp Require Import functions.
Open Scope Z_scope.

(** The order in which [run_ready_tasks] drains the queues. *)
Definition levels : list Priority := [Critical; High; Normal; Idle].

Inductive LoopPc : Type :=
| InScan (ps : list Priority)       (** in [run_ready_tasks], these levels to drain *)
| InReader (ps : list Priority)     (** polling the reader *)
| InDisabled                        (** after [interrupts::disable] *)
| InChecked (is_empty : bool)       (** after the check *)
| InHalt.                           (** in [hlt] *)

Section idle.
Context {Q : Type -> Type} `{AQ : ArrayQueue Q} {A : Type} `{AW : AtomicWaker A TaskWaker} {F : Type}.
Abbreviation exec := (Executor Q F).
Abbreviation items ex p := (q_items (task_queues ex p)).

(** The reader: its task id, its priority, and the waker the executor cached for it. *)
Context (rid : Z) (rp : Priority).
Abbreviation rwaker := (TaskWaker_mk rid rp).

(** The wakers the other tasks may call. *)
Context (others : TaskWaker -> Prop).

Record SysState : Type := SysState_mk {
  sy_ex : exec;
  sy_stream : StreamState (Q:=Q) (A:=A);
  sy_pc : LoopPc;
  sy_dropped : bool;    (** an interrupt's wake was dropped for want of room *)
}.
Implicit Types s : SysState.

(** Interrupts are disabled between [cli] and [sti]. *)
Definition sy_if s : bool :=
  match sy_pc s with InDisabled | InChecked _ => false | _ => true end.

(** An interrupt ends [hlt]: [sleep_if_idle] returns and the loop starts over. *)
Definition after_irq (pc : LoopPc) : LoopPc := match pc with InHalt => InScan levels | pc => pc end.

Definition queue_full (ex : exec) (p : Priority) : bool :=
  bool_decide (q_cap (task_queues ex p) <= length (items ex p))%nat.

(** A keyboard interrupt: [add_scancode], and the waker it calls. *)
Definition keyboard_irq (sc : Z) s : SysState :=
  match (add_scancode (st_kbd (sy_stream s)) sc).1 with
  | Some w => SysState_mk (wake_by_ref (sy_ex s) w) (stream_interrupt (sy_stream s) sc) (after_irq (sy_pc s))
                (sy_dropped s || queue_full (sy_ex s) (tw_queue w))
  | None => SysState_mk (sy_ex s) (stream_interrupt (sy_stream s) sc) (after_irq (sy_pc s)) (sy_dropped s)
  end.

Inductive sys_step s : SysState -> Prop :=
| SyKeyboard sc : sy_if s = true -> sys_step s (keyboard_irq sc s)
| SyTimer : sy_if s = true ->
    sys_step s (SysState_mk (sy_ex s) (sy_stream s) (after_irq (sy_pc s)) (sy_dropped s))
| SyPopReader p ps q : sy_pc s = InScan (p :: ps) -> q_pop (task_queues (sy_ex s) p) = (Some rid, q) ->
    sys_step s (SysState_mk (set_queue (sy_ex s) p q) (sy_stream s) (InReader (p :: ps)) (sy_dropped s))
| SyPopOther p ps id q ws : sy_pc s = InScan (p :: ps) -> q_pop (task_queues (sy_ex s) p) = (Some id, q) -> id <> rid ->
    Forall others ws ->
    sys_step s (SysState_mk (foldl wake_by_ref (set_queue (sy_ex s) p q) ws) (sy_stream s) (sy_pc s) (sy_dropped s))
| SyLevelDone p ps q : sy_pc s = InScan (p :: ps) -> q_pop (task_queues (sy_ex s) p) = (None, q) ->
    sys_step s (SysState_mk (sy_ex s) (sy_stream s) (InScan ps) (sy_dropped s))
| SyRead ps st : sy_pc s = InReader ps -> reader_step rwaker (sy_stream s) st ->
    sys_step s (SysState_mk (sy_ex s) st (match st_pc st with KParked => InScan ps | _ => InReader ps end) (sy_dropped s))
| SyDisable : sy_pc s = InScan [] ->
    sys_step s (SysState_mk (sy_ex s) (sy_stream s) InDisabled (sy_dropped s))
| SyCheck : sy_pc s = InDisabled ->
    sys_step s (SysState_mk (sy_ex s) (sy_stream s) (InChecked (sleep_if_idle (sy_ex s))) (sy_dropped s))
| SyHalt : sy_pc s = InChecked true ->
    sys_step s (SysState_mk (sy_ex s) (sy_stream s) InHalt (sy_dropped s))
| SyEnable : sy_pc s = InChecked false ->
    sys_step s (SysState_mk (sy_ex s) (sy_stream s) (InScan levels) (sy_dropped s)).

(** [run] starts with the reader queued and not yet polled. *)
Definition sys_start (ex : exec) : SysState := SysState_mk ex stream_init (InScan levels) false.

(** ** Invariant *)

(** The reader's id is in its queue. *)
Definition queued s : Prop := rid ∈ items (sy_ex s) rp.

(** The reader is between polls: parked, or queued for its first poll. *)
Definition resting s : Prop :=
  st_pc (sy_stream s) = KParked \/ (st_pc (sy_stream s) = KIdle /\ (sy_dropped s = false -> queued s)).

Record sys_inv s : Prop := SysInv {
  sv_stream : stream_inv rwaker (sy_stream s);
  sv_waker : forall w, aw_stored (WAKER (st_kbd (sy_stream s))) = Some w -> w = rwaker;
  sv_notified : sy_dropped s = false -> st_notified (sy_stream s) = true ->
    queued s \/ (exists ps, sy_pc s = InReader ps) /\ (st_pc (sy_stream s) = KIdle \/ st_pc (sy_stream s) = KParked);
  sv_rest : match sy_pc s with InReader _ => True | _ => resting s end;
  sv_empty : match sy_pc s with InChecked true | InHalt => forall p, items (sy_ex s) p = [] | _ => True end;
}.

(** Wakes keep what is queued. *)
Lemma wakes_keep (ex : exec) ws p id : id ∈ items ex p -> id ∈ items (foldl wake_by_ref ex ws) p.
Proof. intros H. destruct (wakes_items ws ex p) as (l & -> & _). set_solver. Qed.

Lemma wake_enqueues (ex : exec) (w : TaskWaker) :
  queue_full ex (tw_queue w) = false -> tw_task_id w ∈ items (wake_by_ref ex w) (tw_queue w).
Proof.
  unfold queue_full. rewrite bool_decide_eq_false. intros Hf. unfold wake_by_ref. simpl. rewrite fn_lookup_insert.
  rewrite (proj1 (q_push_spec _ _)), decide_True by lia. set_solver.
Qed.

Lemma pop_keep (ex : exec) p p' id q j :
  q_pop (task_queues ex p) = (Some id, q) -> j <> id -> j ∈ items ex p' -> j ∈ items (set_queue ex p q) p'.
Proof.
  intros Hp Hne Hj. destruct (decide (p = p')) as [<-|Hn]; [|by rewrite set_queue_ne].
  rewrite set_queue_eq. pose proof (q_pop_items _ (task_queues ex p)) as [H1 H2]. rewrite Hp in H1, H2. simpl in *.
  rewrite H2. destruct (items ex p) as [|x l]; simplify_eq/=. set_solver.
Qed.

Lemma sleep_if_idle_items (ex : exec) : sleep_if_idle ex = true <-> forall p, items ex p = [].
Proof.
  unfold sleep_if_idle. rewrite forallb_forall. setoid_rewrite <- q_is_empty_items.
  split; intros H p; [apply H; destruct p; simpl; auto|auto].
Qed.

(** What [add_scancode] does to the waker cell. *)
Lemma add_scancode_waker (k : Keyboard Q A) sc :
  match (add_scancode k sc).1 with
  | Some w => aw_stored (WAKER k) = Some w /\ aw_stored (WAKER (add_scancode k sc).2) = None
  | None => aw_stored (WAKER (add_scancode k sc).2) = aw_stored (WAKER k) \/ aw_stored (WAKER (add_scancode k sc).2) = None
  end.
Proof.
  unfold add_scancode. destruct (SCANCODE_QUEUE k) as [q|]; simpl; [|auto].
  destruct (q_push q sc) as [[] q']; simpl; [|auto]. pose proof (aw_wake_stored (WAKER k)) as [H1 H2].
  destruct (aw_wake (WAKER k)) as [[w|] cell]; simpl in *; auto.
Qed.

Lemma keyboard_irq_inv sc s : sys_inv s -> sy_if s = true -> sys_inv (keyboard_irq sc s).
Proof.
  intros [Hs Hw Hn Hr He] Hif. unfold keyboard_irq. pose proof (add_scancode_waker (st_kbd (sy_stream s)) sc) as Ha.
  pose proof (interrupt_inv rwaker (sy_stream s) sc Hs) as Hs'.
  assert (Hpc : st_pc (stream_interrupt (sy_stream s) sc) = st_pc (sy_stream s)) by done.
  destruct (add_scancode (st_kbd (sy_stream s)) sc).1 as [w|] eqn:Ew.
  - destruct Ha as [Ha1 Ha2]. apply Hw in Ha1 as ->. cbn [tw_queue].
    assert (Hq : (sy_dropped s || queue_full (sy_ex s) rp) = false -> rid ∈ items (wake_by_ref (sy_ex s) rwaker) rp).
    { intros [_ Hf]%orb_false_iff. by apply (wake_enqueues _ rwaker). }
    split; simpl; [done| |intros Hd _; left; by apply Hq| |].
    + by rewrite Ha2.
    + unfold resting in *. destruct (sy_pc s); simpl in *; try done;
        (destruct Hr as [Hk|[Hk _]]; [by left|right; split; [done|exact Hq]]).
    + unfold sy_if in Hif. by destruct (sy_pc s) as [| | |[]|].
  - split; simpl; [done| | | |].
    + intros w. destruct Ha as [->| ->]; [apply Hw|done].
    + rewrite Ew. intros Hd Hno. destruct (Hn Hd Hno) as [?|[[ps Hps] ?]]; [by left|]. right. rewrite Hps. eauto.
    + destruct (sy_pc s); simpl; try done; exact Hr.
    + unfold sy_if in Hif. by destruct (sy_pc s) as [| | |[]|].
Qed.

(** Any change of the queues that keeps the reader queued, outside [sleep_if_idle]. *)
Lemma sys_inv_queues s ex pc :
  sys_inv s -> (queued s -> rid ∈ items ex rp) -> (forall ps, sy_pc s <> InReader ps) ->
  match pc with InScan _ | InDisabled | InChecked false => True | InChecked true | InHalt => forall p, items ex p = [] | _ => False end ->
  sys_inv (SysState_mk ex (sy_stream s) pc (sy_dropped s)).
Proof.
  intros [Hs Hw Hn Hr He] Hq Hnr Hpc.
  assert (Hrest : resting s) by (destruct (sy_pc s) eqn:E; try done; by destruct (Hnr ps)).
  split; simpl; [done..| | |].
  - intros Hd Hno. destruct (Hn Hd Hno) as [?|[[ps Hps] _]]; [left; by apply Hq|]. by destruct (Hnr ps).
  - destruct pc; try done; (destruct Hrest as [?|[? Hx]]; [by left|right; split; [done|]; intros Hd; by apply Hq, Hx]).
  - by destruct pc as [| | |[]|].
Qed.

Lemma reader_step_waker s st :
  reader_step rwaker (sy_stream s) st ->
  (forall w, aw_stored (WAKER (st_kbd (sy_stream s))) = Some w -> w = rwaker) ->
  (forall w, aw_stored (WAKER (st_kbd st)) = Some w -> w = rwaker).
Proof.
  assert (Hp : forall k r k', queue_pop (Q:=Q) (A:=A) k = (r, k') -> WAKER k' = WAKER k).
  { intros k r k'. unfold queue_pop. destruct (SCANCODE_QUEUE k); [destruct (q_pop q)|]; by intros [= <- <-]. }
  destruct 1 as [sc k _ E|k _ E|_|sc k _ E|k _ E]; simpl; intros Hw w.
  - rewrite (Hp _ _ _ E). apply Hw.
  - rewrite (Hp _ _ _ E). apply Hw.
  - rewrite aw_register_stored. by intros [= <-].
  - rewrite (proj2 (aw_take_stored _)). done.
  - rewrite (Hp _ _ _ E). apply Hw.
Qed.

Lemma read_inv s ps st :
  sys_inv s -> sy_pc s = InReader ps -> reader_step rwaker (sy_stream s) st ->
  sys_inv (SysState_mk (sy_ex s) st (match st_pc st with KParked => InScan ps | _ => InReader ps end) (sy_dropped s)).
Proof.
  intros [Hs Hw Hn Hr He] Hpc Hst. split; simpl.
  - by eapply reader_step_inv.
  - by eapply reader_step_waker.
  - intros Hd Hno. specialize (Hn Hd).
    destruct Hst as [sc k Hk E|k Hk E|Hk|sc k Hk E|k Hk E]; simpl in *; try done;
      (destruct (Hn Hno) as [?|[_ Hx]]; [by left|rewrite Hk in Hx; naive_solver]).
  - destruct (st_pc st) eqn:E; try done. by left.
  - by destruct (st_pc st).
Qed.

Lemma sys_step_inv s s' : sys_inv s -> sys_step s s' -> sys_inv s'.
Proof.
  intros Hi Hst. destruct Hst as [sc Hif|Hif|p ps q Hpc Hp|p ps id q ws Hpc Hp Hne _|p ps q Hpc Hp|ps st Hpc Hst|Hpc|Hpc|Hpc|Hpc].
  - by apply keyboard_irq_inv.
  - destruct Hi as [Hs Hw Hn Hr He]. split; simpl; [done..| | |].
    + intros Hd Hno. destruct (Hn Hd Hno) as [?|[[ps Hps] ?]]; [by left|]. right. rewrite Hps. eauto.
    + by destruct (sy_pc s).
    + unfold sy_if in Hif. by destruct (sy_pc s) as [| | |[]|].
  - destruct Hi as [Hs Hw Hn Hr He]. rewrite Hpc in Hr. split; simpl; [done..| |done|done].
    intros _ _. right. split; [eauto|]. destruct Hr as [|[]]; auto.
  - apply sys_inv_queues; [done| |congruence|by rewrite Hpc].
    intros Hq. by apply wakes_keep, (pop_keep _ p rp id).
  - apply sys_inv_queues; [done..|congruence|done].
  - by apply read_inv.
  - apply sys_inv_queues; [done..|congruence|done].
  - apply sys_inv_queues; [done..|congruence|]. destruct (sleep_if_idle (sy_ex s)) eqn:E; [|done]. by apply sleep_if_idle_items.
  - apply sys_inv_queues; [done..|congruence|]. destruct Hi as [_ _ _ _ He]. by rewrite Hpc in He.
  - apply sys_inv_queues; [done..|congruence|done].
Qed.

Lemma sys_start_inv ex : rid ∈ items ex rp -> sys_inv (sys_start ex).
Proof.
  intros Hq. split; simpl; [apply stream_init_inv| |done| |done].
  - by rewrite aw_new_stored.
  - by right.
Qed.

(** ** Execution *)

(** The next access of [poll_next], and of the loop when the other tasks wake nobody. *)
Definition reader_next (st : StreamState (Q:=Q) (A:=A)) : StreamState :=
  match st_pc st with
  | KIdle | KParked =>
      match queue_pop (st_kbd st) with
      | (Some sc, k) => StreamState_mk k KIdle false (st_delivered st ++ [sc]) (st_accepted st)
      | (None, k) => StreamState_mk k KRegister false (st_delivered st) (st_accepted st)
      end
  | KRegister =>
      StreamState_mk (Keyboard_mk (SCANCODE_QUEUE (st_kbd st)) (aw_register (WAKER (st_kbd st)) rwaker)) KRecheck
        (st_notified st) (st_delivered st) (st_accepted st)
  | KRecheck =>
      match queue_pop (st_kbd st) with
      | (Some sc, k) => StreamState_mk (Keyboard_mk (SCANCODE_QUEUE k) (aw_take (WAKER k)).2) KIdle
                          (st_notified st) (st_delivered st ++ [sc]) (st_accepted st)
      | (None, k) => StreamState_mk k KParked (st_notified st) (st_delivered st) (st_accepted st)
      end
  end.

Definition loop_next s : SysState :=
  let go pc := SysState_mk (sy_ex s) (sy_stream s) pc (sy_dropped s) in
  match sy_pc s with
  | InScan [] => go InDisabled
  | InScan (p :: ps) =>
      match q_pop (task_queues (sy_ex s) p) with
      | (None, _) => go (InScan ps)
      | (Some id, q) =>
          SysState_mk (set_queue (sy_ex s) p q) (sy_stream s)
            (if decide (id = rid) then InReader (p :: ps) else InScan (p :: ps)) (sy_dropped s)
      end
  | InReader ps =>
      let st := reader_next (sy_stream s) in
      SysState_mk (sy_ex s) st (match st_pc st with KParked => InScan ps | _ => InReader ps end) (sy_dropped s)
  | InDisabled => go (InChecked (sleep_if_idle (sy_ex s)))
  | InChecked true => go InHalt
  | InChecked false => go (InScan levels)
  | InHalt => s
  end.

Lemma reader_next_step st : reader_step rwaker st (reader_next st).
Proof.
  unfold reader_next. destruct (st_pc st) eqn:E; try destruct (queue_pop (st_kbd st)) as [[]] eqn:Eq.
  all: first [by eapply StFast; auto | by eapply StEmpty; auto | by apply StRegister | by eapply StRecheckSome | by eapply StRecheckNone].
Qed.

Lemma loop_next_steps s : rtc (sys_step) s (loop_next s).
Proof.
  unfold loop_next. destruct (sy_pc s) as [[|p ps]|ps| |[]|] eqn:E; [apply rtc_once..|done].
  - by apply SyDisable.
  - destruct (q_pop _) as [[id|] q] eqn:Eq; [|by eapply SyLevelDone]. case_decide as Hid.
    + subst id. by eapply SyPopReader.
    + rewrite <- E. by apply (SyPopOther s p ps id q []).
  - eapply SyRead; [done|]. apply reader_next_step.
  - by apply SyCheck.
  - by apply SyHalt.
  - by apply SyEnable.
Qed.

Fixpoint loop_run (n : nat) s : SysState := match n with O => s | S n => loop_run n (loop_next s) end.

Lemma loop_run_steps n s : rtc sys_step s (loop_run n s).
Proof. revert s. induction n as [|n IH]; intros s; simpl; [done|]. etrans; [apply loop_next_steps|apply IH]. Qed.

(** ** After a dropped wake *)

(** The reader is parked with an empty waker cell, and its id is in no queue. *)
Definition forgotten (delivered : list Z) s : Prop :=
  st_pc (sy_stream s) = KParked /\ st_delivered (sy_stream s) = delivered /\
  aw_stored (WAKER (st_kbd (sy_stream s))) = None /\ (forall ps, sy_pc s <> InReader ps) /\
  forall p, rid ∉ items (sy_ex s) p.

Lemma wakes_others (ex : exec) ws p :
  (forall w, others w -> tw_task_id w <> rid) -> Forall others ws -> rid ∉ items ex p ->
  rid ∉ items (foldl wake_by_ref ex ws) p.
Proof.
  intros Ho Hws Hn. destruct (wakes_items ws ex p) as (l & -> & _ & Hl). rewrite elem_of_app. intros [?|Hin]; [done|].
  rewrite list.Forall_forall in Hl. rewrite list.Forall_forall in Hws. apply Hl, Hws, Ho in Hin. done.
Qed.

Lemma pop_not_queued (ex : exec) p p' q id : q_pop (task_queues ex p) = (Some id, q) ->
  rid ∉ items ex p' -> rid ∉ items (set_queue ex p q) p'.
Proof.
  intros Hp Hn. destruct (decide (p = p')) as [<-|Hne]; [|by rewrite set_queue_ne]. rewrite set_queue_eq.
  pose proof (q_pop_elem (task_queues ex p) rid) as He. rewrite Hp in He. auto.
Qed.

Lemma pop_head (ex : exec) p id q : q_pop (task_queues ex p) = (Some id, q) -> id ∈ items ex p.
Proof.
  intros Hp. pose proof (q_pop_items _ (task_queues ex p)) as [H1 _]. rewrite Hp in H1. simpl in H1.
  destruct (items ex p); simplify_eq/=. by left.
Qed.

Lemma forgotten_step dl s s' :
  (forall w, others w -> tw_task_id w <> rid) -> forgotten dl s -> sys_step s s' -> forgotten dl s'.
Proof.
  intros Ho (Hk & Hd & Ha & Hnr & Hq) Hst.
  assert (Hair : forall ps, after_irq (sy_pc s) <> InReader ps) by 
    (intros ps; destruct (sy_pc s); simpl; [apply Hnr..|done]).
  destruct Hst as [sc Hif|Hif|p ps q Hpc Hp|p ps id q ws Hpc Hp Hne Hws|p ps q Hpc Hp|ps st Hpc Hst|Hpc|Hpc|Hpc|Hpc];
    unfold forgotten; simpl.
  - unfold keyboard_irq. pose proof (add_scancode_waker (st_kbd (sy_stream s)) sc) as Hx.
    destruct (add_scancode (st_kbd (sy_stream s)) sc).1; simpl; [naive_solver|].
    split_and!; [done..| |done|done]. destruct Hx; congruence.
  - done.
  - apply pop_head in Hp. by destruct (Hq p).
  - split_and!; [done..|]. intros p'. apply wakes_others; [done..|]. by eapply pop_not_queued.
  - split_and!; [done..|congruence|done].
  - by destruct (Hnr ps).
  - split_and!; [done..|congruence|done].
  - split_and!; [done..|congruence|done].
  - split_and!; [done..|congruence|done].
  - split_and!; [done..|congruence|done].
Qed.
End idle.

(** ** Properties *)

(** C20: The processor sleeps only when there is nothing to do.  Under every
    interleaving of interrupts with the executor's loop, when the processor is in
    [hlt] no task is queued; and unless a wake was dropped for want of room, the
    reader is parked and has been given every scancode that was accepted. *)
Theorem sleep_delivers_all_keys {Q : Type -> Type} `{AQ : ArrayQueue Q} {A : Type} `{AW : AtomicWaker A TaskWaker}
    {F : Type} (rid : Z) (rp : Priority) (others : TaskWaker -> Prop) (ex : Executor Q F) (s : SysState (Q:=Q) (A:=A) (F:=F)) :
  rid ∈ q_items (task_queues ex rp) -> rtc (sys_step rid rp others) (sys_start ex) s -> sy_pc s = InHalt ->
  (forall p, q_items (task_queues (sy_ex s) p) = []) /\
  (sy_dropped s = false ->
     st_pc (sy_stream s) = KParked /\ st_delivered (sy_stream s) = st_accepted (sy_stream s)).
Proof.
  intros Hq Hr Hpc.
  pose proof (rtc_invariant _ (sys_inv rid rp) _ _ (sys_step_inv rid rp others) (sys_start_inv rid rp ex Hq) Hr) as [Hs _ Hn Hre He].
  rewrite Hpc in Hre, He. split; [done|]. intros Hd.
  assert (Hnq : ~ queued rid rp s) by (unfold queued; rewrite He; set_solver).
  destruct Hre as [Hk|[_ Hx]]; [|by destruct (Hnq (Hx Hd))]. split; [done|].
  destruct Hs as [(q & _ & _ & Hda & Hp & _)]. destruct (Hp Hk) as [Hno|[Hemp _]].
  - destruct (Hn Hd Hno) as [?|[[ps Hps] _]]; [done|congruence].
  - by rewrite Hemp, app_nil_r in Hda.
Qed.

(** C21: A dropped wake is never made up for.  When a key arrives while the
    reader is parked and its queue is full, the wake is dropped and the stored
    waker is gone: however the kernel runs on, unless another task wakes the reader, it
    is never polled again, and no key is delivered any more. *)
Theorem dropped_wake_is_final {Q : Type -> Type} `{AQ : ArrayQueue Q} {A : Type} `{AW : AtomicWaker A TaskWaker}
    {F : Type} (rid : Z) (rp : Priority) (others : TaskWaker -> Prop) (sc : Z) (s s' : SysState (Q:=Q) (A:=A) (F:=F)) :
  (forall w, others w -> tw_task_id w <> rid) ->
  st_pc (sy_stream s) = KParked -> (forall ps, sy_pc s <> InReader ps) -> accepts (st_kbd (sy_stream s)) = true ->
  aw_stored (WAKER (st_kbd (sy_stream s))) = Some (TaskWaker_mk rid rp) -> queue_full (sy_ex s) rp = true ->
  (forall p, rid ∉ q_items (task_queues (sy_ex s) p)) ->
  rtc (sys_step rid rp others) (keyboard_irq sc s) s' ->
  st_pc (sy_stream s') = KParked /\ st_delivered (sy_stream s') = st_delivered (sy_stream s) /\
  st_accepted (sy_stream (keyboard_irq sc s)) = st_accepted (sy_stream s) ++ [sc].
Proof.
  intros Ho Hk Hnr Hacc Hst Hfull Hq Hr.
  assert (Hw : (add_scancode (st_kbd (sy_stream s)) sc).1 = Some (TaskWaker_mk rid rp) /\
    aw_stored (WAKER (add_scancode (st_kbd (sy_stream s)) sc).2) = None).
  { unfold add_scancode, accepts in *. destruct (SCANCODE_QUEUE _) as [q|]; [|done]. apply bool_decide_eq_true in Hacc.
    destruct (q_push_room _ q sc Hacc) as [H1 _]. destruct (q_push q sc) as [r q']. simpl in H1. subst r.
    pose proof (aw_wake_stored (WAKER (st_kbd (sy_stream s)))) as [H1 H2]. rewrite Hst in H1.
    destruct (aw_wake _) as [ow cell]. simpl in *. by subst. }
  destruct Hw as [Hw1 Hw2].
  assert (Hf : forgotten rid (st_delivered (sy_stream s)) (keyboard_irq sc s)).
  { unfold forgotten, keyboard_irq. rewrite Hw1. simpl. split_and!; [done..| |].
    - intros ps. destruct (sy_pc s); simpl; [apply Hnr..|done].
    - intros p. apply bool_decide_eq_true in Hfull. destruct (decide (rp = p)) as [<-|Hne].
      + rewrite fn_lookup_insert, (proj1 (q_push_spec _ _)), decide_False by lia. apply Hq.
      + rewrite fn_lookup_insert_ne by done. apply Hq. }
  destruct (rtc_invariant _ (forgotten rid (st_delivered (sy_stream s))) _ _ (fun a b => forgotten_step rid rp others _ a b Ho) Hf Hr)
    as (H1 & H2 & _).
  split_and!; [done..|]. unfold keyboard_irq. rewrite Hw1. simpl. by rewrite Hacc.
Qed.

(** ** Witnesses *)

(** The reader is task 3 on an executor with nothing else to do. *)
Definition demo_executor : Executor ListQueue unit :=
  wake_by_ref Executor_new (TaskWaker_mk 3 Normal).

Lemma sleep_delivers_all_keys_witness :
  exists s : SysState (Q:=ListQueue) (A:=option TaskWaker) (F:=unit),
    rtc (sys_step 3 Normal (fun _ => False)) (sys_start demo_executor) s /\ sy_pc s = InHalt /\
    st_delivered (sy_stream s) = [30].
Proof.
  set (s1 := loop_run 3 Normal 6 (sys_start demo_executor) : SysState (Q:=ListQueue) (A:=option TaskWaker) (F:=unit)).
  set (s2 := loop_run 3 Normal 10 (keyboard_irq 30 s1)).
  assert (Hr : rtc (sys_step 3 Normal (fun _ => False)) (sys_start demo_executor) s2).
  { etrans; [apply (loop_run_steps 3 Normal _ 6)|]. eapply rtc_l; [apply (SyKeyboard _ _ _ _ 30)|apply loop_run_steps].
    vm_compute. reflexivity. }
  assert (Hpc : sy_pc s2 = InHalt) by (vm_compute; reflexivity).
  exists s2. split_and!; [exact Hr|exact Hpc|].
  destruct (sleep_delivers_all_keys 3 Normal (fun _ => False) demo_executor s2) as [_ H2];
    [vm_compute; left|exact Hr|exact Hpc|].
  destruct (H2 ltac:(vm_compute; reflexivity)) as [_ E]. rewrite E. vm_compute. reflexivity.
Defined.

(** A queue of a hundred other tasks. *)
Definition demo_full : Executor ListQueue unit :=
  foldl wake_by_ref Executor_new ((fun i => TaskWaker_mk (Z.of_nat i) Normal) <$> seq 0 100).
Definition demo_parked : SysState (Q:=ListQueue) (A:=option TaskWaker) (F:=unit) :=
  SysState_mk demo_full (StreamState_mk (Keyboard_mk (Some (q_new 100)) (Some (TaskWaker_mk 1000 Normal))) KParked false [] [])
    (InScan [Normal; Idle]) false.

Lemma dropped_wake_is_final_witness :
  queue_full demo_full Normal = true /\ st_pc (sy_stream (keyboard_irq 30 demo_parked)) = KParked /\
  st_accepted (sy_stream (keyboard_irq 30 demo_parked)) = [30].
Proof.
  assert (Hn : forall p, 1000 ∉ q_items (task_queues demo_full p)).
  { intros p Hin. assert (Hf : forallb (fun x => negb (x =? 1000)) (q_items (task_queues demo_full p)) = true)
      by (destruct p; vm_compute; reflexivity).
    rewrite forallb_forall in Hf. specialize (Hf 1000). rewrite <- list_elem_of_In in Hf. discriminate (Hf Hin). }
  split; [vm_compute; reflexivity|].
  destruct (dropped_wake_is_final 1000 Normal (fun w => tw_task_id w <> 1000) 30 demo_parked (keyboard_irq 30 demo_parked))
    as (H1 & _ & H3); [done|reflexivity|done|vm_compute; reflexivity|reflexivity|vm_compute; reflexivity|exact Hn|apply rtc_refl|].
  split; [exact H1|exact H3].
Defined.
