(* ===== verification/Platform.v ===== *)
(** * Serial port and interrupts

    Models [SerialWrapper] of [src/kernel/src/arch/x86_64/serial.rs] with the
    [Serial] trait of [src/hal/src/lib.rs], the interrupt numbers of
    [arch/x86_64/pic.rs] and the two hardware interrupt handlers of
    [arch/x86_64/interrupts.rs].  The UART, the chained interrupt controllers and
    the keyboard controller are classes with their documented behaviour. *)

From S2P Require Import Prelude Queue Executor Keyboard.
Open Scope Z_scope.

(** ** Serial port *)

(** [uart_16550::SerialPort]: [uart_open] is [new] followed by [init] on a port
    address; [receive] waits for a byte; [None] when there is none to come.
    [uart_input] is what has arrived and was not read. *)
Class Uart (P : Type) : Type := {
  uart_open : Z -> P;
  uart_send : P -> Z -> P;
  uart_receive : P -> option (Z * P);
  uart_input : P -> list Z;
  uart_receive_cons : forall p b l, uart_input p = b :: l ->
    exists p', uart_receive p = Some (b, p') /\ uart_input p' = l;
  uart_receive_nil : forall p, uart_input p = [] -> uart_receive p = None;
}.

(** A port as the bytes it sent and the bytes that arrived. *)
#[export] Instance log_Uart : Uart (list Z * list Z).
Proof.
  refine {| uart_open := fun _ => ([], []); uart_send := fun p b => (p.1 ++ [b], p.2); uart_input := snd;
            uart_receive := fun p => match p.2 with [] => None | b :: l => Some (b, (p.1, l)) end |}.
  - intros p b l ->. eauto.
  - by intros p ->.
Defined.

(** The [Serial] trait of the HAL; [None] when the call does not return. *)
Class Serial (T : Type) : Type := {
  serial_write_byte : T -> Z -> T;
  serial_read_byte : T -> option (option Z * T);
}.

(** The [InterruptController] and [Timer] traits of the HAL; the kernel talks to its
    controllers and counts its ticks directly and implements neither. *)
Class InterruptController (C : Type) : Type := {
  ic_enable : C -> C;
  ic_disable : C -> C;
  ic_end_of_interrupt : C -> Z -> C;
}.
Class Timer (T : Type) : Type := { current_ticks : T -> Z }.

Section serial.
Context {P : Type} `{UA : Uart P}.

Definition SerialWrapper_write_byte (port : P) (byte : Z) : P := uart_send port byte.

Definition SerialWrapper_read_byte (port : P) : option (option Z * P) :=
  match uart_receive port with
  | None => None
  | Some (b, port) =>
      if negb (b =? 0) then
        match uart_receive port with
        | None => None
        | Some (b, port) => Some (Some b, port)
        end
      else Some (None, port)
  end.

#[export] Instance SerialWrapper_Serial : Serial P :=
  {| serial_write_byte := SerialWrapper_write_byte; serial_read_byte := SerialWrapper_read_byte |}.

(** [n] calls of [read_byte]. *)
Fixpoint read_bytes (n : nat) (port : P) : option (list (option Z) * P) :=
  match n with
  | O => Some ([], port)
  | S n =>
      match serial_read_byte port with
      | None => None
      | Some (b, port) =>
          match read_bytes n port with
          | None => None
          | Some (bs, port) => Some (b :: bs, port)
          end
      end
  end.

(** Every second byte. *)
Fixpoint odd_bytes (l : list Z) : list Z :=
  match l with
  | _ :: b :: l => b :: odd_bytes l
  | _ => []
  end.

Lemma read_byte_pair port b1 b2 l :
  uart_input port = b1 :: b2 :: l -> b1 <> 0 ->
  exists port', serial_read_byte port = Some (Some b2, port') /\ uart_input port' = l.
Proof.
  intros Hi Hb. simpl. unfold SerialWrapper_read_byte.
  destruct (uart_receive_cons _ _ _ Hi) as (p1 & -> & H1). rewrite (proj2 (Z.eqb_neq _ _) Hb). simpl.
  destruct (uart_receive_cons _ _ _ H1) as (p2 & -> & H2). eauto.
Qed.

Lemma read_bytes_odd n port l :
  uart_input port = l -> length l = (2 * n)%nat -> Forall (fun b => b <> 0) l ->
  exists port', read_bytes n port = Some (Some <$> odd_bytes l, port') /\ uart_input port' = [].
Proof.
  revert port l. induction n as [|n IH]; intros port l Hi Hl Hf.
  { destruct l; [|done]. by exists port. }
  destruct l as [|b1 [|b2 l]]; simpl in Hl; try lia.
  apply Forall_cons in Hf as [Hb1 Hf]. apply Forall_cons in Hf as [_ Hf].
  destruct (read_byte_pair port b1 b2 l Hi Hb1) as (p1 & E1 & H1).
  destruct (IH p1 l H1 ltac:(lia) Hf) as (p2 & E2 & H2).
  exists p2. cbn [read_bytes]. rewrite E1, E2. done.
Qed.
End serial.

(** ** Interrupts *)

Definition PIC_1_OFFSET : Z := 32.
Definition PIC_2_OFFSET : Z := PIC_1_OFFSET + 8.

Inductive InterruptIndex : Type := IrqTimer | IrqKeyboard.

Definition InterruptIndex_as_u8 (i : InterruptIndex) : Z :=
  match i with IrqTimer => PIC_1_OFFSET | IrqKeyboard => PIC_1_OFFSET + 1 end.

(** [ChainedPics] and what the controllers do by themselves: [pics_deliver] hands
    an interrupt to the CPU.  [in_service] are the interrupts that were delivered
    and not yet acknowledged. *)
Class Pics (C : Type) : Type := {
  pics_initialize : C -> C;
  pics_deliver : C -> Z -> C;
  notify_end_of_interrupt : C -> Z -> C;
  in_service : C -> gset Z;
  notify_in_service : forall c id, in_service (notify_end_of_interrupt c id) = in_service c ∖ {[ id ]};
  initialize_in_service : forall c, in_service (pics_initialize c) = ∅;
  deliver_in_service : forall c id, in_service (pics_deliver c id) = {[ id ]} ∪ in_service c;
}.

(** A set of vectors is such a controller. *)
#[export] Instance gset_Pics : Pics (gset Z).
Proof.
  by refine {| pics_initialize := fun _ => ∅; pics_deliver := fun c id => {[ id ]} ∪ c;
               notify_end_of_interrupt := fun c id => c ∖ {[ id ]}; in_service := fun c => c |}.
Defined.

(** The data port of the keyboard controller. *)
Class KeyboardPort (K : Type) : Type := { port_0x60_read : K -> Z * K }.

Section interrupts.
Context {Q : Type -> Type} `{AQ : ArrayQueue Q} {A W : Type} `{AW : AtomicWaker A W}.
Context {C K : Type} `{PI : Pics C} `{KP : KeyboardPort K}.

Definition timer_interrupt_handler (pics : C) : C :=
  notify_end_of_interrupt pics (InterruptIndex_as_u8 IrqTimer).

(** The handler returns the waker that [add_scancode] calls. *)
Definition keyboard_interrupt_handler (port : K) (kbd : Keyboard Q A) (pics : C) : option W * K * Keyboard Q A * C :=
  let '(scancode, port) := port_0x60_read port in
  let '(wk, kbd) := add_scancode kbd scancode in
  (wk, port, kbd, notify_end_of_interrupt pics (InterruptIndex_as_u8 IrqKeyboard)).

(** Each handler acknowledges exactly its own interrupt, and the keyboard handler
    appends the scancode it read to a queue with room and calls the stored waker. *)
Theorem interrupts_acknowledged (port : K) (kbd : Keyboard Q A) (pics : C) :
  in_service (timer_interrupt_handler pics) = in_service pics ∖ {[ 32 ]} /\
  let '(wk, _, kbd', pics') := keyboard_interrupt_handler port kbd pics in
  in_service pics' = in_service pics ∖ {[ 33 ]} /\
  forall queue, SCANCODE_QUEUE kbd = Some queue -> (length (q_items queue) < q_cap queue)%nat ->
    wk = aw_stored (WAKER kbd) /\
    exists queue', SCANCODE_QUEUE kbd' = Some queue' /\ q_items queue' = q_items queue ++ [(port_0x60_read port).1].
Proof.
  split; [apply notify_in_service|]. unfold keyboard_interrupt_handler.
  destruct (port_0x60_read port) as [sc port']. destruct (add_scancode kbd sc) as [wk kbd'] eqn:Ea.
  split; [apply notify_in_service|]. intros queue Hq Hroom. unfold add_scancode in Ea. rewrite Hq in Ea.
  destruct (q_push_room _ queue sc Hroom) as [H1 H2]. destruct (q_push queue sc) as [r queue']. simpl in H1, H2. subst r.
  pose proof (aw_wake_stored (WAKER kbd)) as [Hw _]. destruct (aw_wake (WAKER kbd)) as [w a]. simpl in Hw. subst w.
  injection Ea as <- <-. split; [done|]. by exists queue'.
Qed.
End interrupts.

(** ** Properties *)

(** The serial port loses every second byte: each [read_byte] receives one byte
    to see that there is one, throws it away, and returns the next; reading [2n]
    arrived non-zero bytes takes [n] calls and returns the bytes at odd positions. *)
Theorem serial_read_drops_bytes {P : Type} `{UA : Uart P} (port : P) (n : nat) :
  length (uart_input port) = (2 * n)%nat -> Forall (fun b => b <> 0) (uart_input port) ->
  exists port', read_bytes n port = Some (Some <$> odd_bytes (uart_input port), port') /\ uart_input port' = [].
Proof. intros. by apply read_bytes_odd. Qed.

Lemma serial_read_drops_bytes_witness :
  exists port', read_bytes 2 ([], [104; 101; 121; 33]) = Some ([Some 101; Some 33], port').
Proof.
  destruct (serial_read_drops_bytes ([], [104; 101; 121; 33]) 2) as (p & E & _); [reflexivity|repeat constructor; lia|].
  exists p. exact E.
Defined.
