(* ===== verification/Cpu.v ===== *)
(** * The processor under interrupts

    The kernel runs on one processor.  Its code takes spin locks ([spin::Mutex])
    with interrupts enabled, and the handlers of
    [src/kernel/src/arch/x86_64/interrupts.rs] may run between any two accesses.
    Code is the list of its accesses to locks and devices; a stack of frames holds
    the interrupted code.  [cpu_next] executes the top frame, [irq_step] may also
    deliver a hardware interrupt.

    The main lemmas are about code that obeys a lock discipline ([code_ok]): it
    never spins, and what it does to the console and to the serial port is what it
    does without interrupts. *)

From S2P Require Import Prelude Text Vga Queue Keyboard Platform.
Open Scope Z_scope.

(** ** Locks and code *)

(** The spin locks: the statics [SERIAL], [WRITER] and [PICS], and the four shared
    structures of [kernel_main]. *)
Inductive LockId : Type := LSerial | LWriter | LPics | LStack | LDhcp | LDns | LTerminal.

#[export] Instance LockId_eq_dec : EqDecision LockId.
Proof. solve_decision. Defined.

#[export] Instance LockId_countable : Countable LockId.
Proof.
  refine (inj_countable'
    (fun l => match l with LSerial => 0 | LWriter => 1 | LPics => 2 | LStack => 3 | LDhcp => 4 | LDns => 5 | LTerminal => 6 end)
    (fun n => match n with 0 => LSerial | 1 => LWriter | 2 => LPics | 3 => LStack | 4 => LDhcp | 5 => LDns | _ => LTerminal end) _).
  by intros [].
Defined.

Inductive Instr : Type :=
| Acquire (l : LockId)         (** [lock()] *)
| Release (l : LockId)         (** the guard is dropped *)
| SerialInit                   (** [serial::init] *)
| SerialByte (b : Z)           (** one byte of [write_fmt] on the serial port *)
| VgaInit                      (** [vga::init] *)
| VgaByte (b : Z)              (** one byte of [write_str] on the writer *)
| VgaColor (fg bg : Color)     (** [Writer::set_color] *)
| VgaClear                     (** [Writer::clear_screen] *)
| PicInit                      (** [ChainedPics::initialize] *)
| ReadScancode                 (** reads port [0x60] and calls [add_scancode] *)
| EndOfInterrupt (v : Z)       (** [notify_end_of_interrupt] *)
| EnableInterrupts             (** [sti] *)
| HaltLoop.                    (** [halt_loop] *)

Abbreviation Code := (list Instr).

(** COM1. *)
Definition COM1_PORT : Z := 0x3F8.

Record Frame : Type := Frame_mk {
  f_code : Code;        (** what is left to execute *)
  f_saved_if : bool;    (** the interrupt flag [iret] restores *)
}.

Section cpu.
Context {P : Type} `{UA : Uart P} {C : Type} `{PI : Pics C} {K : Type} `{KP : KeyboardPort K}.
Context {Q : Type -> Type} `{AQ : ArrayQueue Q} {A W : Type} `{AW : AtomicWaker A W}.

(** The devices and statics the code works on.  [d_wakes] are the wakers the
    keyboard handler called. *)
Record Devices : Type := Devices_mk {
  d_serial : option P;               (** [SERIAL], a [spin::Once] *)
  d_writer : option (Outcome Writer);(** [WRITER]; [Panic] after an access outside the screen *)
  d_screen : Buffer;                 (** the screen memory before [WRITER] exists *)
  d_pics : C;
  d_port : K;
  d_kbd : Keyboard Q A;
  d_wakes : list W;
}.
Implicit Types d : Devices.

Definition set_serial d (p : option P) : Devices :=
  Devices_mk p (d_writer d) (d_screen d) (d_pics d) (d_port d) (d_kbd d) (d_wakes d).
Definition set_writer d (w : option (Outcome Writer)) : Devices :=
  Devices_mk (d_serial d) w (d_screen d) (d_pics d) (d_port d) (d_kbd d) (d_wakes d).
Definition set_pics d (c : C) : Devices :=
  Devices_mk (d_serial d) (d_writer d) (d_screen d) c (d_port d) (d_kbd d) (d_wakes d).

(** [serial::init] and [vga::init]: [call_once]. *)
Definition serial_init d : Devices :=
  match d_serial d with Some _ => d | None => set_serial d (Some (uart_open COM1_PORT)) end.
Definition vga_init d : Devices :=
  match d_writer d with Some _ => d | None => set_writer d (Some (Return (Writer_new (d_screen d)))) end.

Definition on_writer d (f : Writer -> Outcome Writer) : Devices :=
  set_writer d ((fun w => let! w := w in f w) <$> d_writer d).

(** Port [0x60], then [add_scancode]. *)
Definition read_scancode d : Devices :=
  let '(scancode, port) := port_0x60_read (d_port d) in
  let '(wk, kbd) := add_scancode (d_kbd d) scancode in
  Devices_mk (d_serial d) (d_writer d) (d_screen d) (d_pics d) port kbd (d_wakes d ++ option_list wk).

(** What an access does to the devices. *)
Definition exec_dev d (i : Instr) : Devices :=
  match i with
  | SerialInit => serial_init d
  | SerialByte b => set_serial d ((fun p => uart_send p b) <$> d_serial d)
  | VgaInit => vga_init d
  | VgaByte b => on_writer d (write_byte (shown_byte b))
  | VgaColor fg bg => on_writer d (fun w => Return (Writer_set_color w fg bg))
  | VgaClear => on_writer d clear_screen
  | PicInit => set_pics d (pics_initialize (d_pics d))
  | ReadScancode => read_scancode d
  | EndOfInterrupt v => set_pics d (notify_end_of_interrupt (d_pics d) v)
  | Acquire _ | Release _ | EnableInterrupts | HaltLoop => d
  end.

(** Code that runs alone. *)
Definition run_code (code : Code) d : Devices := foldl exec_dev d code.

(** ** The processor *)

Record Cpu : Type := Cpu_mk {
  c_locks : gset LockId;     (** the locks that are held *)
  c_if : bool;               (** the interrupt flag *)
  c_frames : list Frame;     (** the running code, then the code it interrupted *)
  c_dev : Devices;
}.
Implicit Types s : Cpu.

(** One access of the top frame, whose code is already advanced: [None] when
    [lock()] spins. *)
Definition exec (i : Instr) s : option Cpu :=
  match i with
  | Acquire l =>
      if decide (l ∈ c_locks s) then None
      else Some (Cpu_mk ({[ l ]} ∪ c_locks s) (c_if s) (c_frames s) (c_dev s))
  | Release l => Some (Cpu_mk (c_locks s ∖ {[ l ]}) (c_if s) (c_frames s) (c_dev s))
  | EnableInterrupts => Some (Cpu_mk (c_locks s) true (c_frames s) (c_dev s))
  | HaltLoop => None
  | _ => Some (Cpu_mk (c_locks s) (c_if s) (c_frames s) (exec_dev (c_dev s) i))
  end.

(** The next step of the running code; a handler that is done returns with [iret].
    [None]: the code spins on a lock, halted for ever, or is finished. *)
Definition cpu_next s : option Cpu :=
  match c_frames s with
  | Frame_mk (i :: code) saved :: rest =>
      exec i (Cpu_mk (c_locks s) (c_if s) (Frame_mk code saved :: rest) (c_dev s))
  | Frame_mk [] saved :: f :: rest => Some (Cpu_mk (c_locks s) saved (f :: rest) (c_dev s))
  | _ => None
  end.

Fixpoint cpu_run (n : nat) s : Cpu :=
  match n with
  | O => s
  | S n => match cpu_next s with Some s => cpu_run n s | None => s end
  end.

(** Entry through an interrupt gate: the flag is saved and cleared. *)
Definition cpu_trap (handler : Code) s : Cpu :=
  Cpu_mk (c_locks s) false (Frame_mk handler (c_if s) :: c_frames s) (c_dev s).

(** The two hardware interrupts, handled by [timer_interrupt_handler] and
    [keyboard_interrupt_handler]. *)
Definition irq_code (i : InterruptIndex) : Code :=
  let eoi := [Acquire LPics; EndOfInterrupt (InterruptIndex_as_u8 i); Release LPics] in
  match i with
  | IrqTimer => eoi
  | IrqKeyboard => ReadScancode :: eoi
  end.

Definition cpu_deliver (i : InterruptIndex) s : Cpu :=
  cpu_trap (irq_code i)
    (Cpu_mk (c_locks s) (c_if s) (c_frames s)
       (set_pics (c_dev s) (pics_deliver (d_pics (c_dev s)) (InterruptIndex_as_u8 i)))).

Inductive irq_step s : Cpu -> Prop :=
| StepNext s' : cpu_next s = Some s' -> irq_step s s'
| StepIrq i : c_if s = true -> irq_step s (cpu_deliver i s).

(** ** The lock discipline *)

(** The locks held after [code] started with [held], when it takes no lock twice,
    drops only what it holds, and uses a device under its lock; the interrupt
    controller and the flag are none of its business. *)
Fixpoint locks_after (held : gset LockId) (code : Code) : option (gset LockId) :=
  match code with
  | [] => Some held
  | i :: code =>
      match i with
      | Acquire l => if decide (l ∈ {[ LPics ]} ∪ held) then None else locks_after ({[ l ]} ∪ held) code
      | Release l => if decide (l ∈ held) then locks_after (held ∖ {[ l ]}) code else None
      | SerialByte _ => if decide (LSerial ∈ held) then locks_after held code else None
      | VgaByte _ | VgaColor _ _ | VgaClear => if decide (LWriter ∈ held) then locks_after held code else None
      | SerialInit | VgaInit => locks_after held code
      | PicInit | ReadScancode | EndOfInterrupt _ | EnableInterrupts | HaltLoop => None
      end
  end.

Definition code_ok (code : Code) : bool := bool_decide (locks_after ∅ code = Some ∅).

Lemma locks_after_app held c1 c2 : locks_after held (c1 ++ c2) = locks_after held c1 ≫= fun h => locks_after h c2.
Proof.
  revert held. induction c1 as [|i c1 IH]; intros held; [done|].
  destruct i; simpl; repeat case_decide; rewrite ?IH; done.
Qed.

Lemma locks_after_pics held code held' :
  locks_after held code = Some held' -> LPics ∉ held -> LPics ∉ held'.
Proof.
  revert held. induction code as [|i code IH]; intros held; [by intros [= <-]|].
  destruct i; simpl; repeat case_decide; try done; intros Hl Hn; apply (IH _ Hl); set_solver.
Qed.

Lemma code_ok_app c1 c2 : code_ok c1 -> code_ok c2 -> code_ok (c1 ++ c2).
Proof.
  unfold code_ok. rewrite !bool_decide_spec. intros H1 H2. by rewrite locks_after_app, H1.
Qed.

Lemma code_ok_concat (cs : list Code) : Forall code_ok cs -> code_ok (concat cs).
Proof. induction 1; simpl; [done|]. by apply code_ok_app. Qed.

(** What the discipline allows touches only serial port and console. *)
Lemma locks_after_cons_dev held i code held' d :
  locks_after held (i :: code) = Some held' ->
  d_pics (exec_dev d i) = d_pics d.
Proof. destruct i; simpl; repeat case_decide; try done; unfold serial_init, vga_init; intros _; by case_match. Qed.

(** ** Code under interrupts *)

(** Serial port and console are those of [d]. *)
Definition same_output d d' : Prop :=
  d_serial d = d_serial d' /\ d_writer d = d_writer d' /\ d_screen d = d_screen d'.

Lemma same_output_exec d d' i held code held' :
  locks_after held (i :: code) = Some held' -> same_output d d' -> same_output (exec_dev d i) (exec_dev d' i).
Proof.
  unfold same_output. intros Hl (H1 & H2 & H3).
  destruct i; simpl in *; repeat case_decide; try done;
    unfold serial_init, vga_init, on_writer; rewrite <- ?H1, <- ?H2; repeat case_match; simpl; by rewrite <- ?H1, <- ?H2, <- ?H3.
Qed.

(** Where a handler is: the rest of its code, the locks it holds, what is in service. *)
Inductive handler_at (i : InterruptIndex) : Code -> gset LockId -> gset Z -> Prop :=
| HStart : handler_at i (irq_code i) ∅ {[ InterruptIndex_as_u8 i ]}
| HEoi : handler_at i [Acquire LPics; EndOfInterrupt (InterruptIndex_as_u8 i); Release LPics] ∅ {[ InterruptIndex_as_u8 i ]}
| HLocked : handler_at i [EndOfInterrupt (InterruptIndex_as_u8 i); Release LPics] {[ LPics ]} {[ InterruptIndex_as_u8 i ]}
| HDone : handler_at i [Release LPics] {[ LPics ]} ∅
| HReturn : handler_at i [] ∅ ∅.

Lemma read_scancode_output d : same_output (read_scancode d) d /\ d_pics (read_scancode d) = d_pics d.
Proof. unfold read_scancode, same_output. destruct (port_0x60_read _). by destruct (add_scancode _ _). Qed.

(** A handler takes a step, or returns. *)
Lemma handler_next i hcode hlocks serv s rest held s' :
  handler_at i hcode hlocks serv -> c_frames s = Frame_mk hcode true :: rest -> c_if s = false ->
  c_locks s = hlocks ∪ held -> in_service (d_pics (c_dev s)) = serv -> LPics ∉ held -> rest <> [] ->
  cpu_next s = Some s' ->
  same_output (c_dev s') (c_dev s) /\
  ((exists hcode' hlocks' serv', handler_at i hcode' hlocks' serv' /\ c_frames s' = Frame_mk hcode' true :: rest /\
     c_if s' = false /\ c_locks s' = hlocks' ∪ held /\ in_service (d_pics (c_dev s')) = serv') \/
   (c_frames s' = rest /\ c_if s' = true /\ c_locks s' = held /\ in_service (d_pics (c_dev s')) = ∅)).
Proof.
  intros Hh Hf Hif Hlk Hs Hp Hrest. unfold cpu_next. rewrite Hf. intros Hn.
  destruct Hh; [destruct i|..]; simpl in Hn.
  1,3: rewrite Hlk in Hn; rewrite decide_False in Hn by set_solver; simplify_eq/=;
    split; [done|]; left; eexists _, _, _; split; [apply HLocked|]; split_and!; [done..|set_solver|done].
  - simplify_eq/=. destruct (read_scancode_output (c_dev s)) as [H1 H2]. split; [done|]. left.
    eexists _, _, _. split; [apply (HEoi IrqKeyboard)|]. split_and!; [done..|]. by rewrite H2.
  - simplify_eq/=. split; [done|]. left. eexists _, _, _. split; [apply HDone|]. split_and!; [done..|].
    rewrite notify_in_service, Hs. set_solver.
  - simplify_eq/=. split; [done|]. left. eexists _, _, _. split; [apply HReturn|]. split_and!; [done..| |done].
    rewrite Hlk. set_solver.
  - destruct rest as [|f rest]; [done|]. simplify_eq/=. split; [done|]. right. split_and!; [done..|set_solver|done].
Qed.

(** What is left to execute, [iret] included. *)
Definition cost s : nat := sum_list ((fun f => S (length (f_code f))) <$> c_frames s).

Lemma cpu_next_cost s s' : cpu_next s = Some s' -> S (cost s') = cost s.
Proof.
  unfold cpu_next, cost. destruct (c_frames s) as [|[[|i code] saved] rest]; [done| |].
  - destruct rest as [|f rest]; [done|]. intros [= <-]. done.
  - intros Hn. assert (c_frames s' = Frame_mk code saved :: rest) as ->; [|done].
    destruct i; simpl in Hn; repeat case_decide; by simplify_eq/=.
Qed.

(** The code [k] goes no further with these locks held: it spins, is halted, or is
    at the end of the bottom frame. *)
Definition blocked (held : gset LockId) (k : Code) (rest : list Frame) : Prop :=
  match k with
  | [] => rest = []
  | HaltLoop :: _ => True
  | Acquire l :: _ => l ∈ held
  | _ => False
  end.

(** Code [code] that obeys the discipline, started with the locks [held0], with [k]
    after it in its frame and [rest] below; interrupts are delivered when
    [enabled], and [serv0] is what is in service. *)
Record disciplined (held0 heldf : gset LockId) (code k : Code) (enabled : bool) (rest : list Frame)
    (serv0 : gset Z) : Prop := Disciplined {
  dc_ok : locks_after held0 code = Some heldf;
  dc_pics : enabled = true -> LPics ∉ held0;
  dc_block : blocked heldf k rest;
  dc_serv : enabled = true -> serv0 = ∅;
}.

Section disciplined.
Variables (held0 heldf : gset LockId) (code k : Code) (saved enabled : bool) (rest : list Frame) (d0 : Devices).
Variable serv0 : gset Z.
Hypothesis HD : disciplined held0 heldf code k enabled rest serv0.

(** Somewhere in [code], or in a handler that interrupted it. *)
Record irq_inv s : Prop := IrqInv {
  ii_exists : exists done todo held, code = done ++ todo /\ locks_after held0 done = Some held /\
    same_output (c_dev s) (run_code done d0) /\
    ((c_frames s = Frame_mk (todo ++ k) saved :: rest /\ c_if s = enabled /\ c_locks s = held /\
      in_service (d_pics (c_dev s)) = serv0) \/
     (exists i hcode hlocks serv, enabled = true /\ handler_at i hcode hlocks serv /\
        c_frames s = Frame_mk hcode true :: Frame_mk (todo ++ k) saved :: rest /\ c_if s = false /\
        c_locks s = hlocks ∪ held /\ in_service (d_pics (c_dev s)) = serv));
}.

Lemma irq_inv_start s :
  c_frames s = Frame_mk (code ++ k) saved :: rest -> c_if s = enabled -> c_locks s = held0 ->
  in_service (d_pics (c_dev s)) = serv0 -> c_dev s = d0 -> irq_inv s.
Proof.
  clear HD. intros. constructor. exists [], code, held0. split_and!; [done..| |auto]. by subst.
Qed.

(** The interrupted code takes a step. *)
Lemma irq_inv_task s done todo held s' :
  code = done ++ todo -> locks_after held0 done = Some held ->
  same_output (c_dev s) (run_code done d0) -> c_frames s = Frame_mk (todo ++ k) saved :: rest -> c_if s = enabled ->
  c_locks s = held -> in_service (d_pics (c_dev s)) = serv0 -> cpu_next s = Some s' -> irq_inv s'.
Proof.
  intros Hc Hd Ho Hf Hif Hlk Hs. pose proof (dc_ok _ _ _ _ _ _ _ HD) as Hok'. rewrite Hc, locks_after_app, Hd in Hok'. simpl in Hok'.
  unfold cpu_next. rewrite Hf. destruct todo as [|i todo].
  { simpl in Hok'. injection Hok' as Hh. subst held.
    pose proof (dc_block _ _ _ _ _ _ _ HD) as Hblock. rewrite <- Hh in Hblock. unfold blocked in Hblock. simpl app.
    destruct k as [|[] k']; try done; simpl.
    - intros Hn. by rewrite Hblock in Hn.
    - by rewrite decide_True. }
  intros Hn. constructor.
  pose proof (same_output_exec _ _ _ _ _ _ Hok' Ho) as Ho'. pose proof (locks_after_cons_dev _ _ _ _ (c_dev s) Hok') as Hp.
  assert (exists held', locks_after held [i] = Some held' /\ c_locks s' = held' /\ c_if s' = enabled /\
    c_frames s' = Frame_mk (todo ++ k) saved :: rest /\ c_dev s' = exec_dev (c_dev s) i) as (held' & H1 & H2 & H3 & H4 & H5).
  { subst held. destruct i; simpl in Hok', Hn |- *; repeat case_decide; simplify_eq/=; eauto 10. }
  exists (done ++ [i]), todo, held'. rewrite <- app_assoc, locks_after_app, Hd. unfold run_code. rewrite foldl_app, H5.
  split_and!; [done..|]. left. split_and!; [done..|]. by rewrite Hp.
Qed.

Lemma irq_inv_step s s' : irq_inv s -> irq_step s s' -> irq_inv s'.
Proof.
  intros [(done & todo & held & Hc & Hd & Ho & [(Hf & Hif & Hlk & Hs)|(i & hc & hl & sv & He & Hh & Hf & Hif & Hlk & Hs)])] Hst.
  - destruct Hst as [s' Hn|i Hi]; [by eapply irq_inv_task|]. constructor. exists done, todo, held.
    split_and!; [done..|]. right. exists i, (irq_code i), ∅, {[ InterruptIndex_as_u8 i ]}. rewrite Hi in Hif.
    split; [done|]. split; [apply HStart|]. unfold cpu_deliver, cpu_trap; simpl.
    rewrite Hf, Hi, deliver_in_service, Hs, (dc_serv _ _ _ _ _ _ _ HD (eq_sym Hif)), Hlk. split_and!; [done..|set_solver|set_solver].
  - destruct Hst as [s' Hn|j Hj]; [|congruence].
    pose proof (locks_after_pics _ _ _ Hd (dc_pics _ _ _ _ _ _ _ HD He)) as Hp.
    destruct (handler_next _ _ _ _ _ _ _ _ Hh Hf Hif Hlk Hs Hp ltac:(done) Hn) as [Ho' Hr].
    constructor. exists done, todo, held. split_and!; [done..| |].
    { destruct Ho as (?&?&?), Ho' as (?&?&?). split_and!; congruence. }
    destruct Hr as [(hc' & hl' & sv' & ?)|(?&?&?&?)]; [right; by exists i, hc', hl', sv'|].
    left. split_and!; [done|congruence|done|]. rewrite (dc_serv _ _ _ _ _ _ _ HD He). done.
Qed.

Lemma irq_inv_rtc s s' : irq_inv s -> rtc irq_step s s' -> irq_inv s'.
Proof. intros Hi. apply rtc_invariant; [exact irq_inv_step|done]. Qed.

(** The code is over: [k] is next. *)
Definition at_end s : Prop :=
  c_frames s = Frame_mk k saved :: rest /\ c_if s = enabled /\ c_locks s = heldf /\ same_output (c_dev s) (run_code code d0).

(** Under the invariant the processor does not spin before the end of the code. *)
Lemma irq_inv_next s : irq_inv s -> (exists s', cpu_next s = Some s') \/ at_end s.
Proof.
  intros [(done & todo & held & Hc & Hd & Ho & [(Hf & Hif & Hlk & Hs)|(i & hc & hl & sv & He & Hh & Hf & Hif & Hlk & Hs)])].
  - destruct todo as [|j todo].
    { right. rewrite app_nil_r in Hc. subst done. unfold at_end. rewrite Hf, Hif, Hlk. split_and!; [done..| |done].
      rewrite (dc_ok _ _ _ _ _ _ _ HD) in Hd. congruence. }
    left. unfold cpu_next. rewrite Hf. simpl. pose proof (dc_ok _ _ _ _ _ _ _ HD) as Hok'.
    rewrite Hc, locks_after_app, Hd in Hok'. simpl in Hok'. destruct j; simpl in *; try (repeat case_decide; eauto; done).
    rewrite Hlk. case_decide as H1; [done|]. rewrite decide_False by set_solver. eauto.
  - left. pose proof (locks_after_pics _ _ _ Hd (dc_pics _ _ _ _ _ _ _ HD He)) as Hp. unfold cpu_next. rewrite Hf.
    destruct Hh; [destruct i|..]; simpl; try rewrite decide_False by (rewrite Hlk; set_solver); eauto.
Qed.

Definition end_cost : nat := sum_list ((fun f => S (length (f_code f))) <$> (Frame_mk k saved :: rest)).

Lemma irq_inv_cost s : irq_inv s -> (end_cost <= cost s)%nat.
Proof.
  intros [(done & todo & held & _ & _ & _ & [(Hf & _)|(i & hc & hl & sv & _ & _ & Hf & _)])];
    unfold cost, end_cost; rewrite Hf; simpl; rewrite length_app; lia.
Qed.

(** Left alone, the processor finishes the code with the output of an undisturbed run. *)
Lemma irq_inv_finishes n s :
  irq_inv s -> (cost s <= n + end_cost)%nat -> irq_inv (cpu_run n s) /\ at_end (cpu_run n s).
Proof.
  revert s. induction n as [|n IH]; intros s Hi Hc; simpl;
    destruct (irq_inv_next _ Hi) as [[s' Hn]|He]; try done.
  - pose proof (irq_inv_step _ _ Hi (StepNext _ _ Hn)) as Hi'%irq_inv_cost. apply cpu_next_cost in Hn. lia.
  - rewrite Hn. apply IH; [by eapply irq_inv_step, StepNext|]. apply cpu_next_cost in Hn. lia.
  - destruct (cpu_next s) as [s'|] eqn:Hn; [|done].
    apply IH; [by eapply irq_inv_step, StepNext|]. apply cpu_next_cost in Hn. lia.
Qed.

(** The steps of an undisturbed run are steps. *)
Lemma cpu_run_steps n s : rtc irq_step s (cpu_run n s).
Proof.
  revert s. induction n as [|n IH]; intros s; simpl; [done|].
  destruct (cpu_next s) as [s'|] eqn:Hn; [|done]. eapply rtc_l; [by apply StepNext|apply IH].
Qed.
End disciplined.
End cpu.
