(* ===== verification/Shell.v ===== *)
(** * The terminal shell

    Models [src/kernel/src/terminal/shell.rs] and [Command::parse] of
    [terminal/commands.rs].  The line buffer only ever holds printable ASCII, so
    a character is one byte and the cursor a byte index; [String::insert],
    [String::remove] and the history indexing panic out of range and are
    modelled with that outcome.  Each operation also returns the console
    operations it performs ([print!], [set_color]), in order. *)

From S2P Require Import Prelude Text Vga.
From Stdlib Require Import Ascii.
Open Scope Z_scope.

Definition MAX_LINE_LENGTH : nat := 256.
Definition MAX_HISTORY : nat := 16.

(** ** Commands *)

Inductive DhcpAction : Type := ActStatus | ActRenew | ActRelease.

Inductive Command : Type :=
| Help
| Clear
| Ifconfig
| Dhcp (action : DhcpAction)
| Dns (hostname : string)
| Connect (host : string) (port : Z)
| Echo (text : string)
| Ping (host : string)
| Sysinfo
| WasmTest (file : string)
| Unknown (cmd : string).

(** [str::to_lowercase] and the white space of ASCII text. *)
Definition lower_char (c : ascii) : ascii :=
  let n := nat_of_ascii c in
  if ((65 <=? n) && (n <=? 90))%nat then ascii_of_nat (n + 32) else c.

Fixpoint to_lowercase (s : string) : string :=
  match s with EmptyString => EmptyString | String c s => String (lower_char c) (to_lowercase s) end.

Definition is_space (c : ascii) : bool :=
  let n := nat_of_ascii c in ((9 <=? n) && (n <=? 13) || (n =? 32))%nat.

(** [split_whitespace]: the maximal runs of other characters; [cur] is the run so
    far, reversed. *)
Fixpoint words_from (cur : string) (s : string) : list string :=
  match s with
  | EmptyString => if is_empty_str cur then [] else [cur]
  | String c s =>
      if is_space c
      then (if is_empty_str cur then words_from EmptyString s else cur :: words_from EmptyString s)
      else words_from (cur ++ String c EmptyString)%string s
  end.

Definition split_whitespace (s : string) : list string := words_from EmptyString s.

(** [Command::parse], with the usage message it prints for missing or malformed
    arguments. *)
Definition Command_parse (cmd : string) (args : list string) : option Command * list ConsoleOp :=
  let c := to_lowercase cmd in
  if bool_decide (c ∈ ["help"; "?"])%string then (Some Help, [])
  else if bool_decide (c ∈ ["clear"; "cls"])%string then (Some Clear, [])
  else if bool_decide (c ∈ ["ifconfig"; "ip"])%string then (Some Ifconfig, [])
  else if bool_decide (c = "dhcp")%string then
    let action := to_lowercase <$> head args in
    (Some (Dhcp (if bool_decide (action = Some "renew"%string) then ActRenew
                 else if bool_decide (action = Some "release"%string) then ActRelease else ActStatus)), [])
  else if bool_decide (c ∈ ["dns"; "nslookup"; "resolve"])%string then
    match args with
    | hostname :: _ => (Some (Dns hostname), [])
    | [] => (None, [Println "Usage: dns <hostname>"])
    end
  else if bool_decide (c ∈ ["connect"; "nc"])%string then
    match args with
    | host :: port :: _ =>
        match parse_uint 16 port with
        | Some port => (Some (Connect host port), [])
        | None => (None, [Println "Invalid port number"])
        end
    | _ => (None, [Println "Usage: connect <host> <port>"])
    end
  else if bool_decide (c = "echo")%string then (Some (Echo (join " " args)), [])
  else if bool_decide (c = "ping")%string then
    match args with
    | host :: _ => (Some (Ping host), [])
    | [] => (None, [Println "Usage: ping <host>"])
    end
  else if bool_decide (c ∈ ["sysinfo"; "info"])%string then (Some Sysinfo, [])
  else if bool_decide (c ∈ ["wasm-test"; "wasm"])%string then
    (Some (WasmTest (default "hello.wasm"%string (head args))), [])
  else if is_empty_str c then (None, [])
  else (Some (Unknown cmd), []).

(** ** The line editor *)

(** [DecodedKey]: a character by its code point, or a raw key. *)
Inductive KeyCode : Type := ArrowUp | ArrowDown | ArrowLeft | ArrowRight | Home | End_ | Delete | OtherKey.
Inductive DecodedKey : Type := Unicode (c : Z) | RawKey (k : KeyCode).

Record Terminal : Type := Terminal_mk {
  input_buffer : list ascii;
  cursor : nat;
  history : list (list ascii);
  history_index : option nat;
  saved_input : list ascii;
}.

Definition Terminal_new : Terminal := Terminal_mk [] 0 [] None [].

Definition set_line (t : Terminal) (line : list ascii) (cur : nat) : Terminal :=
  Terminal_mk line cur (history t) (history_index t) (saved_input t).

(** [String::insert] and [String::remove]. *)
Definition string_insert (s : list ascii) (i : nat) (c : ascii) : Outcome (list ascii) :=
  if decide (i <= length s)%nat then Return (take i s ++ c :: drop i s) else Panic.
Definition string_remove (s : list ascii) (i : nat) : Outcome (list ascii) :=
  if decide (i < length s)%nat then Return (delete i s) else Panic.

Definition add_to_history (h : list (list ascii)) (cmd : list ascii) : list (list ascii) :=
  if decide (last h = Some cmd) then h
  else (if decide (MAX_HISTORY <= length h)%nat then tail h else h) ++ [cmd].

Definition line_str (l : list ascii) : string := String.string_of_list_ascii l.

Definition parse_command (t : Terminal) : option Command * list ConsoleOp :=
  match split_whitespace (line_str (input_buffer t)) with
  | [] => (None, [])
  | cmd :: args => Command_parse cmd args
  end.

(** [Terminal::prompt], and [Terminal::clear]. *)
Definition prompt : list ConsoleOp :=
  [SetColor LightGreen Black; Print "sovelma"; SetColor White Black; Print "> "].
Definition Terminal_clear : list ConsoleOp := [ClearScreen].

(** The control characters of the redraw and cursor sequences. *)
Definition CR : string := String (ascii_of_nat 13) EmptyString.
Definition ESC : string := String (ascii_of_nat 27) EmptyString.

Definition redraw_line (line : list ascii) : list ConsoleOp :=
  [Print CR; SetColor LightGreen Black; Print "sovelma"; SetColor White Black;
   Print ("> " ++ line_str line); Print ("  " ++ CR);
   SetColor LightGreen Black; Print "sovelma"; SetColor White Black;
   Print ("> " ++ line_str line)].

(** The printable characters: ASCII and not a control character. *)
Definition printable (c : Z) : bool := (32 <=? c) && (c <=? 126).

Definition char_ascii (c : Z) : ascii := ascii_of_nat (Z.to_nat c).

Definition handle_char (t : Terminal) (c : Z) : Outcome (option Command * list ConsoleOp * Terminal) :=
  if (c =? 10) || (c =? 13) then
    let '(command, out) := parse_command t in
    let h := match input_buffer t with [] => history t | line => add_to_history (history t) line end in
    let after := match command with Some _ => [] | None => prompt end in
    Return (command, Println "" :: out ++ after, Terminal_mk [] 0 h None (saved_input t))
  else if (c =? 8) || (c =? 127) then
    if decide (0 < cursor t)%nat then
      let! line := string_remove (input_buffer t) (cursor t - 1) in
      Return (None, redraw_line line, set_line t line (cursor t - 1))
    else Return (None, [], t)
  else if c =? 9 then Return (None, [], t)
  else if printable c then
    if decide (length (input_buffer t) < MAX_LINE_LENGTH)%nat then
      let! line := string_insert (input_buffer t) (cursor t) (char_ascii c) in
      let cur := S (cursor t) in
      let out := if decide (cur = length line) then [Print (line_str [char_ascii c])] else redraw_line line in
      Return (None, out, set_line t line cur)
    else Return (None, [], t)
  else Return (None, [], t).

(** Recalls entry [i] of the history. *)
Definition recall (t : Terminal) (i : nat) (saved : list ascii) : Outcome (list ConsoleOp * Terminal) :=
  let! line := or_panic (history t !! i) in
  Return (redraw_line line, Terminal_mk line (length line) (history t) (Some i) saved).

Definition history_up (t : Terminal) : Outcome (list ConsoleOp * Terminal) :=
  match history t with
  | [] => Return ([], t)
  | _ =>
      match history_index t with
      | None => recall t (length (history t) - 1) (input_buffer t)
      | Some 0%nat => Return ([], t)
      | Some (S i) => recall t i (saved_input t)
      end
  end.

Definition history_down (t : Terminal) : Outcome (list ConsoleOp * Terminal) :=
  match history_index t with
  | None => Return ([], t)
  | Some i =>
      if decide (length (history t) <= i + 1)%nat then
        Return (redraw_line (saved_input t),
          Terminal_mk (saved_input t) (length (saved_input t)) (history t) None (saved_input t))
      else recall t (i + 1) (saved_input t)
  end.

Definition handle_raw_key (t : Terminal) (k : KeyCode) : Outcome (list ConsoleOp * Terminal) :=
  let line := input_buffer t in
  match k with
  | ArrowUp => history_up t
  | ArrowDown => history_down t
  | ArrowLeft =>
      Return (if decide (0 < cursor t)%nat
              then ([Print (ESC ++ "[D")], set_line t line (cursor t - 1)) else ([], t))
  | ArrowRight =>
      Return (if decide (cursor t < length line)%nat
              then ([Print (ESC ++ "[C")], set_line t line (S (cursor t))) else ([], t))
  | Home => Return (redraw_line line, set_line t line 0)
  | End_ => Return (redraw_line line, set_line t line (length line))
  | Delete =>
      if decide (cursor t < length line)%nat then
        let! line := string_remove line (cursor t) in
        Return (redraw_line line, set_line t line (cursor t))
      else Return ([], t)
  | OtherKey => Return ([], t)
  end.

Definition handle_key (t : Terminal) (key : DecodedKey) : Outcome (option Command * list ConsoleOp * Terminal) :=
  match key with
  | Unicode c => handle_char t c
  | RawKey raw => let! (out, t) := handle_raw_key t raw in Return (None, out, t)
  end.

(** A sequence of keys: the commands it produces, its console operations and the
    terminal after it. *)
Fixpoint handle_keys (t : Terminal) (keys : list DecodedKey)
    : Outcome (list Command * list ConsoleOp * Terminal) :=
  match keys with
  | [] => Return ([], [], t)
  | key :: keys =>
      let! (cmd, out, t) := handle_key t key in
      let! (cmds, outs, t) := handle_keys t keys in
      Return (option_list cmd ++ cmds, out ++ outs, t)
  end.

(** ** Invariant *)

Definition line_ok (l : list ascii) : Prop :=
  (length l <= MAX_LINE_LENGTH)%nat /\ Forall (fun c => printable (Z.of_nat (nat_of_ascii c)) = true) l.

Record terminal_wf (t : Terminal) : Prop := {
  tw_line : line_ok (input_buffer t);
  tw_cursor : (cursor t <= length (input_buffer t))%nat;
  tw_history : (length (history t) <= MAX_HISTORY)%nat /\ Forall line_ok (history t);
  tw_index : forall i, history_index t = Some i -> (i < length (history t))%nat;
  tw_saved : line_ok (saved_input t);
}.

Lemma terminal_new_wf : terminal_wf Terminal_new.
Proof. by repeat constructor; simpl; try lia. Qed.

Lemma line_ok_insert l i c :
  line_ok l -> (length l < MAX_LINE_LENGTH)%nat -> printable c = true ->
  line_ok (take i l ++ ascii_of_nat (Z.to_nat c) :: drop i l).
Proof.
  intros [_ Hp] Hl Hc. split.
  - rewrite length_app. simpl. rewrite length_take, length_drop. unfold MAX_LINE_LENGTH in *. lia.
  - apply Forall_app. split; [by apply Forall_take|]. constructor; [|by apply Forall_drop].
    unfold printable in *. apply andb_true_iff in Hc as [H1%Z.leb_le H2%Z.leb_le].
    rewrite nat_ascii_embedding, Z2Nat.id by lia. lia.
Qed.

Lemma line_ok_delete l i : line_ok l -> line_ok (delete i l).
Proof.
  intros [Hl Hp]. split.
  - rewrite delete_take_drop, length_app, length_take, length_drop. unfold MAX_LINE_LENGTH in *. lia.
  - by apply Forall_delete.
Qed.

Lemma history_ok_add h cmd :
  (length h <= MAX_HISTORY)%nat /\ Forall line_ok h -> line_ok cmd ->
  (length (add_to_history h cmd) <= MAX_HISTORY)%nat /\ Forall line_ok (add_to_history h cmd).
Proof.
  intros [Hl Hf] Hc. unfold add_to_history. case_decide; [done|]. rewrite length_app. simpl. split.
  - unfold MAX_HISTORY in *. case_decide; [destruct h; simpl in *; lia|lia].
  - apply Forall_app. split; [|by constructor]. case_decide; [by apply Forall_tail|done].
Qed.

(** What every key does: it returns, and leaves the terminal well formed. *)
Definition keeps_wf {A} (o : Outcome (A * Terminal)) : Prop :=
  exists r t', o = Return (r, t') /\ terminal_wf t'.

Lemma keeps_wf_return {A} (r : A) t : terminal_wf t -> keeps_wf (Return (r, t)).
Proof. unfold keeps_wf. eauto. Qed.
#[local] Hint Resolve keeps_wf_return : core.

Lemma recall_wf t i saved :
  terminal_wf t -> (i < length (history t))%nat -> line_ok saved -> keeps_wf (recall t i saved).
Proof.
  intros [Hl Hc [Hh Hf] Hi Hs] Hlt Hsv. unfold recall.
  destruct (lookup_lt_is_Some_2 _ _ Hlt) as [line E]. rewrite E. apply keeps_wf_return.
  split; simpl; try done.
  - by eapply Forall_lookup_1.
  - intros j [= <-]. done.
Qed.

Lemma set_line_wf t line c :
  terminal_wf t -> line_ok line -> (c <= length line)%nat -> terminal_wf (set_line t line c).
Proof. intros [] ??. by split. Qed.

Lemma handle_raw_key_wf t k : terminal_wf t -> keeps_wf (handle_raw_key t k).
Proof.
  intros Hwf. pose proof Hwf as [Hl Hc [Hh Hf] Hi Hs]. destruct k; simpl; auto.
  - unfold history_up. destruct (history t) as [|x h] eqn:Eh; [auto|]. rewrite <- Eh in *.
    destruct (history_index t) as [[|i]|] eqn:Ei; [auto| |].
    + apply recall_wf; [done| |done]. specialize (Hi _ eq_refl). lia.
    + apply recall_wf; [done| |done]. rewrite Eh. simpl. lia.
  - unfold history_down. destruct (history_index t) as [i|] eqn:Ei; [|auto]. case_decide.
    + apply keeps_wf_return. by split.
    + apply recall_wf; [done|lia|done].
  - case_decide; apply keeps_wf_return; [apply set_line_wf; auto; lia|done].
  - case_decide; apply keeps_wf_return; [apply set_line_wf; auto; lia|done].
  - apply keeps_wf_return, set_line_wf; auto; lia.
  - by apply keeps_wf_return, set_line_wf.
  - case_decide as Hd; [|auto]. unfold string_remove. rewrite decide_True by done. simpl.
    apply keeps_wf_return, set_line_wf; [done|by apply line_ok_delete|].
    rewrite length_delete by (by apply lookup_lt_is_Some). lia.
Qed.

Lemma handle_char_wf t c : terminal_wf t -> keeps_wf (handle_char t c).
Proof.
  intros Hwf. pose proof Hwf as [Hl Hc Hh Hi Hs]. unfold handle_char.
  destruct (_ || _); [|destruct (_ || _); [|destruct (_ =? _); [auto|destruct (printable c) eqn:Ep; [|auto]]]].
  - destruct (parse_command t) as [command out]. apply keeps_wf_return.
    split; simpl; try done; [by split; [simpl; lia|]|].
    destruct (input_buffer t) eqn:E; [done|]. rewrite <- E. by apply history_ok_add; rewrite ?E.
  - case_decide as Hd; [|auto]. unfold string_remove. rewrite decide_True by lia. simpl.
    apply keeps_wf_return, set_line_wf; [done|by apply line_ok_delete|].
    rewrite length_delete by (apply lookup_lt_is_Some; lia). lia.
  - case_decide as Hd; [|auto]. unfold string_insert. rewrite decide_True by done. simpl.
    apply keeps_wf_return, set_line_wf; [done|by apply line_ok_insert|].
    rewrite length_app. simpl. rewrite length_take, length_drop. lia.
Qed.

Lemma handle_key_wf t key : terminal_wf t -> keeps_wf (handle_key t key).
Proof.
  intros Hwf. destruct key; simpl; [by apply handle_char_wf|].
  destruct (handle_raw_key_wf t k Hwf) as (out & t' & -> & ?). by apply keeps_wf_return.
Qed.

Lemma handle_keys_wf keys t : terminal_wf t -> keeps_wf (handle_keys t keys).
Proof.
  revert t. induction keys as [|key keys IH]; intros t Hwf; simpl; [auto|].
  destruct (handle_key_wf t key Hwf) as ([r out] & t1 & -> & H1). simpl.
  destruct (IH _ H1) as ([cmds outs] & t' & -> & H'). by apply keeps_wf_return.
Qed.

(** ** Typing *)

Definition type_char (c : ascii) : DecodedKey := Unicode (Z.of_nat (nat_of_ascii c)).

(** The console operations of typing [l] at the end of the line. *)
Definition echo_ops (l : list ascii) : list ConsoleOp := (fun c => Print (line_str [c])) <$> l.

Lemma char_ascii_of c : char_ascii (Z.of_nat (nat_of_ascii c)) = c.
Proof. unfold char_ascii. by rewrite Nat2Z.id, ascii_nat_embedding. Qed.

Lemma type_line t l :
  cursor t = length (input_buffer t) -> Forall (fun c => printable (Z.of_nat (nat_of_ascii c)) = true) l ->
  (length (input_buffer t) + length l <= MAX_LINE_LENGTH)%nat ->
  handle_keys t (type_char <$> l) =
    Return ([], echo_ops l, set_line t (input_buffer t ++ l) (length (input_buffer t ++ l))).
Proof.
  intros Hc Hl. revert t Hc. induction Hl as [|c l Hp Hl IH]; intros t Hc Hlen; simpl.
  { rewrite app_nil_r. rewrite <- Hc. by destruct t. }
  unfold handle_char. pose proof Hp as [H1%Z.leb_le H2%Z.leb_le]%andb_true_iff.
  rewrite (proj2 (Z.eqb_neq _ 10)), (proj2 (Z.eqb_neq _ 13)), (proj2 (Z.eqb_neq _ 8)),
    (proj2 (Z.eqb_neq _ 127)), (proj2 (Z.eqb_neq _ 9)), Hp by lia. cbn [orb].
  simpl in Hlen. rewrite decide_True by lia. unfold string_insert. rewrite decide_True by lia.
  rewrite char_ascii_of, Hc, firstn_all, drop_all. cbn [outcome_bind].
  rewrite decide_True by (rewrite length_app; simpl; lia). cbn [outcome_bind].
  rewrite IH; simpl; rewrite ?length_app; simpl; [|lia..].
  rewrite <- app_assoc. simpl. unfold set_line. simpl. rewrite ?length_app. simpl.
  do 3 f_equal. lia.
Qed.

(** ** Properties *)

(** No sequence of keys panics the terminal: the cursor stays inside the line,
    the line holds at most 256 printable characters, the history at most 16 lines,
    and the history position always names an entry. *)
Theorem terminal_never_panics (keys : list DecodedKey) :
  exists cmds out t, handle_keys Terminal_new keys = Return (cmds, out, t) /\ terminal_wf t.
Proof.
  destruct (handle_keys_wf keys _ terminal_new_wf) as ([cmds out] & t & ? & ?). eauto.
Qed.

(** Typing a printable line of at most 256 characters echoes it; Enter then ends the
    line on the screen, runs exactly that line's command and leaves an empty line. *)
Theorem terminal_types_line (h : list (list ascii)) (l : list ascii) (saved : list ascii) :
  Forall (fun c => printable (Z.of_nat (nat_of_ascii c)) = true) l ->
  (length l <= MAX_LINE_LENGTH)%nat ->
  let t := Terminal_mk [] 0 h None saved in
  let '(command, usage) := match split_whitespace (line_str l) with
                           | [] => (None, []) | cmd :: args => Command_parse cmd args end in
  exists t', handle_keys t (type_char <$> l) = Return ([], echo_ops l, t') /\
    handle_key t' (Unicode 10) =
      Return (command, Println "" :: usage ++ match command with Some _ => [] | None => prompt end,
              Terminal_mk [] 0 (match l with [] => h | _ => add_to_history h l end) None saved).
Proof.
  intros Hl Hlen t. rewrite (type_line t l) by (try done; simpl; lia).
  destruct (match split_whitespace _ with [] => _ | _ => _ end) as [command usage] eqn:E.
  eexists. split; [done|].
  simpl. unfold handle_char, parse_command. simpl. rewrite E. repeat f_equal. by destruct l.
Qed.
