(* ===== verification/ShellSpec.v ===== *)
(** * What the terminal shows

    Relates the console operations of [Shell] to the text on the screen, through
    the scrollback of [Vga] that the VGA driver refines: all cells printed so far,
    in order. *)

From S2P Require Import Prelude Text Vga VgaSpec Shell.
From Stdlib Require Import Ascii.
Open Scope Z_scope.

(** ** The printed cells *)

(** Everything printed since the screen was cleared, without the line structure. *)
Definition sb_cells (s : Scrollback) : list ScreenChar := sb_lines s ≫= ln_cells.

(** The cells a string prints in a colour: line feeds print none. *)
Definition byte_cells (color b : Z) : list ScreenChar :=
  if b =? 10 then [] else [ScreenChar_mk (shown_byte b) color].
Definition str_cells (color : Z) (str : string) : list ScreenChar := str_bytes str ≫= byte_cells color.

(** The colour after a list of operations, and the cells they print. *)
Definition op_color (color : Z) (op : ConsoleOp) : Z :=
  match op with SetColor fg bg => ColorCode_new fg bg | _ => color end.

Fixpoint ops_cells (color : Z) (ops : list ConsoleOp) : list ScreenChar :=
  match ops with
  | [] => []
  | op :: ops =>
      (match op with Print str => str_cells color str | _ => [] end) ++ ops_cells (op_color color op) ops
  end.

Definition no_clear (op : ConsoleOp) : Prop := op <> ClearScreen.

Section cells.
Implicit Types s : Scrollback.

Lemma sb_start_line_cells s : sb_cells (sb_start_line s) = sb_cells s.
Proof.
  unfold sb_cells, sb_lines, sb_start_line. cbn [sb_above sb_current ln_cells].
  rewrite !bind_app. cbn. by rewrite !app_nil_r.
Qed.

Lemma sb_put_cells s b : sb_cells (sb_put s b) = sb_cells s ++ [ScreenChar_mk b (sb_color s)].
Proof.
  unfold sb_cells, sb_lines, sb_put. cbn [sb_above sb_current].
  rewrite !bind_app. cbn. by rewrite !app_nil_r, app_assoc.
Qed.

Lemma sb_byte_appends s b :
  sb_cells (sb_byte s b) = sb_cells s ++ byte_cells (sb_color s) b /\ sb_color (sb_byte s b) = sb_color s.
Proof.
  unfold sb_byte, byte_cells. destruct (b =? 10); [by rewrite sb_start_line_cells, app_nil_r|].
  rewrite sb_put_cells. case_decide; simpl; by rewrite ?sb_start_line_cells.
Qed.

Lemma sb_bytes_append bs s :
  sb_cells (foldl sb_byte s bs) = sb_cells s ++ (bs ≫= byte_cells (sb_color s)) /\
  sb_color (foldl sb_byte s bs) = sb_color s.
Proof.
  revert s. induction bs as [|b bs IH]; intros s; [by rewrite app_nil_r|]. cbn [foldl].
  destruct (sb_byte_appends s b) as [Hc Hk]. destruct (IH (sb_byte s b)) as [Hc' Hk'].
  rewrite bind_cons, Hc', Hk', Hc, Hk, app_assoc. done.
Qed.

(** Without a [ClearScreen], operations only append. *)
Lemma sb_ops_append ops s :
  Forall no_clear ops -> sb_cells (foldl sb_op s ops) = sb_cells s ++ ops_cells (sb_color s) ops.
Proof.
  intros H. revert s. induction H as [|op ops Hop _ IH]; intros s; [by rewrite app_nil_r|].
  cbn [foldl ops_cells]. rewrite IH. destruct op as [str|fg bg|]; [|done|by destruct Hop].
  destruct (sb_bytes_append (str_bytes str) s) as [Hc Hk]. cbn [sb_op op_color].
  rewrite Hc, Hk, app_assoc. done.
Qed.
End cells.

(** ** The operations of the terminal *)

#[local] Ltac ops_done := repeat (apply Forall_cons; split; [done|]); try done.

Lemma redraw_no_clear line : Forall no_clear (redraw_line line).
Proof. ops_done. Qed.
Lemma prompt_no_clear : Forall no_clear prompt.
Proof. ops_done. Qed.
#[local] Hint Resolve redraw_no_clear prompt_no_clear : rust.

Lemma Command_parse_no_clear cmd args : Forall no_clear (Command_parse cmd args).2.
Proof. unfold Command_parse. repeat case_match; ops_done. Qed.

Lemma parse_command_no_clear t : Forall no_clear (parse_command t).2.
Proof. unfold parse_command. destruct (split_whitespace _); [done|apply Command_parse_no_clear]. Qed.

Lemma handle_char_no_clear t c r out t' :
  handle_char t c = Return (r, out, t') -> Forall no_clear out.
Proof.
  unfold handle_char, outcome_bind. pose proof (parse_command_no_clear t) as Hp. intros H.
  repeat case_match; simplify_eq/=; auto with rust; ops_done; apply Forall_app; auto with rust.
Qed.

Lemma handle_raw_key_no_clear t k out t' :
  handle_raw_key t k = Return (out, t') -> Forall no_clear out.
Proof.
  unfold handle_raw_key, history_up, history_down, recall, outcome_bind, or_panic. intros H.
  repeat case_match; simplify_eq/=; auto with rust; by ops_done.
Qed.

Lemma handle_keys_no_clear keys t cmds out t' :
  handle_keys t keys = Return (cmds, out, t') -> Forall no_clear out.
Proof.
  revert t cmds out t'. induction keys as [|key keys IH]; intros t cmds out t' H; simpl in H.
  { by simplify_eq/=. }
  destruct (handle_key t key) as [[[r o] t1]|] eqn:Ek; [|done]. cbn [outcome_bind] in H.
  destruct (handle_keys t1 keys) as [[[cs os] t2]|] eqn:Eks; [|done]. simplify_eq/=.
  apply Forall_app. split; [|by eapply IH].
  destruct key as [c|k]; simpl in Ek; [by eapply handle_char_no_clear|].
  destruct (handle_raw_key t k) as [[o' t3]|] eqn:Er; simplify_eq/=. by eapply handle_raw_key_no_clear.
Qed.

(** ** Properties *)

Definition white : Z := ColorCode_new White Black.
Definition green : Z := ColorCode_new LightGreen Black.

(** The characters of a line in a colour. *)
Definition line_cells (color : Z) (l : list ascii) : list ScreenChar :=
  (fun c => ScreenChar_mk (Z.of_nat (nat_of_ascii c)) color) <$> l.

Definition prompt_cells : list ScreenChar := str_cells green "sovelma" ++ str_cells white "> ".

Definition printable_line (l : list ascii) : Prop :=
  Forall (fun c => printable (Z.of_nat (nat_of_ascii c)) = true) l.

Lemma str_bytes_app a b : str_bytes (a ++ b) = str_bytes a ++ str_bytes b.
Proof.
  induction a as [|c a IH]; [done|]. unfold str_bytes in *.
  change (String c a +:+ b) with (String c (a +:+ b)). cbn. f_equal. exact IH.
Qed.

Lemma str_cells_app color a b : str_cells color (a ++ b) = str_cells color a ++ str_cells color b.
Proof. unfold str_cells. by rewrite str_bytes_app, bind_app. Qed.

Lemma line_str_cells color l : printable_line l -> str_cells color (line_str l) = line_cells color l.
Proof.
  induction 1 as [|c l Hc _ IH]; [done|]. unfold str_cells. cbn.
  apply andb_true_iff in Hc as [H1%Z.leb_le H2%Z.leb_le].
  unfold byte_cells at 1, shown_byte. rewrite (proj2 (Z.eqb_neq _ 10)) by lia.
  rewrite (proj2 (Z.leb_le _ _) H1), (proj2 (Z.leb_le _ _) H2). cbn. f_equal. exact IH.
Qed.

Lemma echo_ops_cells color l : printable_line l -> ops_cells color (echo_ops l) = line_cells color l.
Proof.
  induction 1 as [|c l Hc Hl IH]; [done|]. cbn [echo_ops fmap list_fmap ops_cells op_color].
  rewrite line_str_cells by (by constructor). simpl. f_equal. exact IH.
Qed.

Lemma redraw_cells color line : printable_line line ->
  ops_cells color (redraw_line line) =
    [ScreenChar_mk 0xfe color] ++ prompt_cells ++ line_cells white line ++
    str_cells white "  " ++ [ScreenChar_mk 0xfe white] ++ prompt_cells ++ line_cells white line.
Proof.
  intros Hl. unfold redraw_line, prompt_cells. cbn [ops_cells op_color]. fold white green.
  rewrite !str_cells_app, line_str_cells by done. rewrite !app_nil_r, <- !app_assoc. done.
Qed.

(** The terminal never takes anything off the screen: whatever keys are
    pressed, everything printed before stays in front of what the keys print.  In
    particular each key that redraws the line (here Home) appends a placeholder for
    the carriage return, the prompt and the line, two blanks, and all of it a second
    time, instead of overwriting the line. *)
Theorem terminal_redraw_appends (t : Terminal) (keys : list DecodedKey) (s : Scrollback) :
  terminal_wf t ->
  exists cmds out t', handle_keys t keys = Return (cmds, out, t') /\
    (sb_cells s `prefix_of` sb_cells (foldl sb_op s out)) /\
    (forall redraw t'', handle_key t' (RawKey Home) = Return (None, redraw, t'') ->
      sb_cells (foldl sb_op s (out ++ redraw)) =
        sb_cells (foldl sb_op s out) ++ [ScreenChar_mk 0xfe (sb_color (foldl sb_op s out))] ++
        prompt_cells ++ line_cells white (input_buffer t') ++ str_cells white "  " ++
        [ScreenChar_mk 0xfe white] ++ prompt_cells ++ line_cells white (input_buffer t')).
Proof.
  intros Hwf. destruct (handle_keys_wf keys t Hwf) as ([cmds out] & t' & E & Hwf').
  exists cmds, out, t'. split; [done|]. pose proof (handle_keys_no_clear _ _ _ _ _ E) as Hno. split.
  - rewrite sb_ops_append by done. by exists (ops_cells (sb_color s) out).
  - intros redraw t'' H. simplify_eq/=. rewrite foldl_app, sb_ops_append by auto with rust.
    rewrite redraw_cells by apply Hwf'. done.
Qed.

Lemma terminal_redraw_appends_witness :
  exists out t', handle_keys Terminal_new [Unicode 104; Unicode 105] = Return ([], out, t') /\
    input_buffer t' = ["h"; "i"]%char /\
    forall redraw t'', handle_key t' (RawKey Home) = Return (None, redraw, t'') ->
      length (sb_cells (foldl sb_op (sb_empty white) (out ++ redraw))) = 28%nat.
Proof.
  destruct (terminal_redraw_appends Terminal_new [Unicode 104; Unicode 105] (sb_empty white) terminal_new_wf)
    as (cmds & out & t' & E & _ & H).
  vm_compute in E. simplify_eq. exists [Print "h"; Print "i"], (Terminal_mk ["h"; "i"]%char 2 [] None []).
  split; [reflexivity|]. split; [reflexivity|]. intros redraw t'' Hr. rewrite (H redraw t'' Hr). vm_compute. reflexivity.
Defined.

(** Typing a line on a fresh prompt echoes it: the screen gains exactly the typed
    characters. *)
Theorem terminal_echo (h : list (list ascii)) (l saved : list ascii) (s : Scrollback) :
  printable_line l -> (length l <= MAX_LINE_LENGTH)%nat ->
  exists out t', handle_keys (Terminal_mk [] 0 h None saved) (type_char <$> l) = Return ([], out, t') /\
    input_buffer t' = l /\ sb_cells (foldl sb_op s out) = sb_cells s ++ line_cells (sb_color s) l.
Proof.
  intros Hl Hlen. exists (echo_ops l). eexists. rewrite type_line by (try done; simpl; lia).
  split_and!; [done|done|]. rewrite sb_ops_append, echo_ops_cells; [done|done|].
  apply Forall_fmap, Forall_true. done.
Qed.
