(* ===== verification/Boot.v ===== *)
(** * The boot log

    Models [src/kernel/src/boot/mod.rs] and [boot/banner.rs] as lists of console
    operations, and the number formats the kernel prints with.  The theorems say
    what a log line looks like on the screen. *)

From S2P Require Import Prelude Text Vga VgaSpec Shell ShellSpec.
From Stdlib Require Import Ascii.
Open Scope Z_scope.

(** ** Formatting *)

(** [{:02x}] of a byte. *)
Definition hex_digit (d : Z) : ascii :=
  ascii_of_nat (Z.to_nat (if d <? 10 then 48 + d else 87 + d)).
Definition show_hex2 (n : Z) : string :=
  String (hex_digit (n / 16)) (String (hex_digit (n mod 16)) EmptyString).

(** The six bytes of a hardware address, separated by colons. *)
Definition show_mac (mac : list Z) : string := join ":" (show_hex2 <$> mac).

(** ** [boot/mod.rs] *)

Inductive Status : Type := StOk | StFail | StWarn | StInfo.

Definition print_status (status : Status) : list ConsoleOp :=
  let '(text, color) :=
    match status with
    | StOk => ("[ OK ]", LightGreen)
    | StFail => ("[FAIL]", LightRed)
    | StWarn => ("[WARN]", Yellow)
    | StInfo => ("[INFO]", LightCyan)
    end%string in
  [SetColor color Black; Print text; SetColor White Black].

Definition log (status : Status) (message : string) : list ConsoleOp :=
  print_status status ++ [Println (" " ++ message)].

Definition log_detail (message : string) : list ConsoleOp := [Println ("       " ++ message)].

(** U+2500, the horizontal box line, in UTF-8. *)
Definition box_line : string := String.string_of_list_byte [Byte.xe2; Byte.x94; Byte.x80].

Definition log_section (name : string) : list ConsoleOp :=
  [Println ""; SetColor LightCyan Black;
   Println (box_line ++ box_line ++ " " ++ name ++ " " ++ box_line ++ box_line);
   SetColor White Black].

(** ** [boot/banner.rs] *)

Definition print_banner : list ConsoleOp :=
  [SetColor Cyan Black;
   Println "  ____                 _              ___  ____  ";
   Println " / ___|  _____   _____| |_ __ ___   / _ \/ ___| ";
   Println " \___ \ / _ \ \ / / _ \ | '_ ` _ \ | | | \___ \ ";
   Println "  ___) | (_) \ V /  __/ | | | | | || |_| |___) |";
   Println " |____/ \___/ \_/ \___|_|_| |_| |_| \___/|____/ ";
   Println "";
   SetColor White Black;
   Println " SovelmaOS v0.1.0";
   Println ""].

(** ** What the lines look like *)

(** The colour after a list of operations. *)
Definition ops_color (color : Z) (ops : list ConsoleOp) : Z := foldl op_color color ops.

Lemma ops_color_app color a b : ops_color color (a ++ b) = ops_color (ops_color color a) b.
Proof. apply foldl_app. Qed.

Lemma ops_cells_app color a b :
  ops_cells color (a ++ b) = ops_cells color a ++ ops_cells (ops_color color a) b.
Proof. revert color. induction a as [|op a IH]; intros color; simpl; [done|]. by rewrite IH, app_assoc. Qed.

Lemma str_cells_nl color : str_cells color NL = [].
Proof. done. Qed.

Lemma println_cells color s : ops_cells color [Println s] = str_cells color s.
Proof. simpl. by rewrite app_nil_r, str_cells_app, str_cells_nl, app_nil_r. Qed.

Definition status_text (status : Status) : string :=
  match status with StOk => "[ OK ]" | StFail => "[FAIL]" | StWarn => "[WARN]" | StInfo => "[INFO]" end.
Definition status_color (status : Status) : Color :=
  match status with StOk => LightGreen | StFail => LightRed | StWarn => Yellow | StInfo => LightCyan end.

(** A log line is its status in the status colour, then the message in white. *)
Lemma log_cells color status message :
  ops_cells color (log status message) =
    str_cells (ColorCode_new (status_color status) Black) (status_text status) ++
    str_cells white (" " ++ message).
Proof.
  unfold log. rewrite ops_cells_app, println_cells.
  destruct status; cbn [print_status ops_cells op_color ops_color foldl]; by rewrite !app_nil_r.
Qed.

(** A section header shows twelve placeholders: each byte of the four box lines is
    one. *)
Lemma log_section_cells color name :
  let cyan := ColorCode_new LightCyan Black in
  ops_cells color (log_section name) =
    replicate 6 (ScreenChar_mk 0xfe cyan) ++ str_cells cyan (" " ++ name ++ " ") ++
    replicate 6 (ScreenChar_mk 0xfe cyan).
Proof.
  intros cyan. unfold log_section. cbn [ops_cells op_color]. fold cyan. unfold Println.
  rewrite !str_cells_app. cbn. rewrite <- !app_assoc. done.
Qed.
