(* ===== verification/Traps.v ===== *)
(** * Exceptions, panics and kernel output

    Models the output functions of [src/kernel/src/arch/x86_64/serial.rs] and
    [vga.rs], the exception handlers and the interrupt descriptor table of
    [interrupts.rs], the descriptor tables of [gdt.rs], the panic handler of
    [main.rs] and [init] of [lib.rs], as code of the processor model.  Formatted
    values of other crates (the stack frame, error codes, [PanicInfo]) are
    arguments.  The table types of the [x86_64] crate are classes. *)

From S2P Require Import Prelude Text Memory Vga VgaSpec Queue Keyboard Platform Cpu Shell ShellSpec Boot.
Open Scope Z_scope.

(** ** Output *)

(** [serial::_print]: [get_serial] initialises the port, the bytes are sent under
    the lock. *)
Definition serial_print (s : string) : Code :=
  [SerialInit; Acquire LSerial] ++ (SerialByte <$> str_bytes s) ++ [Release LSerial].
Definition serial_println (s : string) : Code := serial_print (s ++ NL).

(** [vga::_print], [vga::set_color] and [vga::clear_screen]. *)
Definition console_code (op : ConsoleOp) : Code :=
  [VgaInit; Acquire LWriter] ++
  match op with
  | Print s => VgaByte <$> str_bytes s
  | SetColor fg bg => [VgaColor fg bg]
  | ClearScreen => [VgaClear]
  end ++ [Release LWriter].

(** What kernel code prints. *)
Inductive Output : Type :=
| ToConsole (op : ConsoleOp)
| ToSerial (s : string).     (** [serial_println!] *)

Definition output_code (o : Output) : Code :=
  match o with ToConsole op => console_code op | ToSerial s => serial_println s end.

Definition outputs_code (os : list Output) : Code := os ≫= output_code.

Definition console_part (os : list Output) : list ConsoleOp :=
  omap (fun o => match o with ToConsole op => Some op | ToSerial _ => None end) os.
Definition serial_part (os : list Output) : list Z :=
  os ≫= fun o => match o with ToSerial s => str_bytes (s ++ NL) | ToConsole _ => [] end.

(** A section of code under locks. *)
Definition with_locks (ls : list LockId) (body : Code) : Code :=
  (Acquire <$> ls) ++ body ++ (Release <$> reverse ls).

(** ** The locks of the three tasks *)

(** What one poll of a task of [kernel_main] prints, and where: the network task
    polls the stack; the DHCP task polls the client and may handle an event; the
    terminal task prints its first prompt, and handles a key, which may execute a
    command. *)
Inductive TaskRun : Type :=
| RunNet (out : list Output)
| RunDhcp (out : list Output) (event : option (list Output))
| RunTerminalStart (out : list Output)
| RunTerminalIdle
| RunTerminalKey (out : list Output) (command : option (list Output)).

(** Guards are dropped in the reverse order of their declaration. *)
Definition task_run_code (r : TaskRun) : Code :=
  match r with
  | RunNet out => with_locks [LStack] (outputs_code out)
  | RunDhcp out event =>
      with_locks [LStack; LDhcp] (outputs_code out) ++
      match event with Some out => with_locks [LDns; LStack] (outputs_code out) | None => [] end
  | RunTerminalStart out => with_locks [LTerminal] (outputs_code out)
  | RunTerminalIdle => []
  | RunTerminalKey out command =>
      with_locks [LTerminal]
        (outputs_code out ++
         match command with Some out => with_locks [LStack; LDhcp; LDns] (outputs_code out) | None => [] end)
  end.

Definition task_run_outputs (r : TaskRun) : list Output :=
  match r with
  | RunNet out | RunTerminalStart out => out
  | RunTerminalIdle => []
  | RunDhcp out more | RunTerminalKey out more => out ++ default [] more
  end.

(** ** Exception handlers *)

(** What a handler is given: the interrupt stack frame, its [Debug] text, and the
    texts of the error code and of [Cr2::read()]. *)
Record TrapInfo : Type := TrapInfo_mk {
  instruction_pointer : Z;
  ti_frame : string;
  ti_error_hex : string;      (** [{:#x}] of a numeric error code *)
  ti_error_debug : string;    (** [{:?}] of a page fault's error code *)
  ti_cr2 : string;
}.

(** [{:#x}] of a [u64]. *)
Fixpoint hex_digits (fuel : nat) (n : Z) (acc : string) : string :=
  let acc := String (hex_digit (n mod 16)) acc in
  match fuel with
  | O => acc
  | S fuel => if n <? 16 then acc else hex_digits fuel (n / 16) acc
  end.
Definition show_hex (n : Z) : string := "0x" ++ hex_digits 15 n EmptyString.

(** The panic handler. *)
Definition panic_outputs (info : string) : list Output :=
  [ToSerial ("KERNEL PANIC: " ++ info);
   ToConsole (SetColor LightRed Black); ToConsole (Println (NL ++ "!!! KERNEL PANIC !!!"));
   ToConsole (SetColor White Black); ToConsole (Println info)].
Definition panic_handler (info : string) : Code := outputs_code (panic_outputs info) ++ [HaltLoop].

Inductive Handler : Type :=
| BreakpointHandler | DoubleFaultHandler | PageFaultHandler | GeneralProtectionHandler | DivideErrorHandler
| TimerHandler | KeyboardHandler.

#[export] Instance Handler_eq_dec : EqDecision Handler.
Proof. solve_decision. Defined.

Definition breakpoint_outputs (ti : TrapInfo) : list Output :=
  [ToSerial ("EXCEPTION: BREAKPOINT at " ++ show_hex (instruction_pointer ti))].
Definition breakpoint_handler (ti : TrapInfo) : Code := outputs_code (breakpoint_outputs ti).

(** [panic_info] formats a panic message with its location. *)
Definition double_fault_message (ti : TrapInfo) : string := "EXCEPTION: DOUBLE FAULT" ++ NL ++ ti_frame ti.
Definition double_fault_handler (panic_info : string -> string) (ti : TrapInfo) : Code :=
  panic_handler (panic_info (double_fault_message ti)).

Definition page_fault_outputs (ti : TrapInfo) : list Output :=
  ToConsole <$> [Println "EXCEPTION: PAGE FAULT"; Println ("Accessed Address: " ++ ti_cr2 ti);
                 Println ("Error Code: " ++ ti_error_debug ti); Println (ti_frame ti)].
Definition page_fault_handler (ti : TrapInfo) : Code := outputs_code (page_fault_outputs ti) ++ [HaltLoop].

Definition general_protection_outputs (ti : TrapInfo) : list Output :=
  ToConsole <$> [Println "EXCEPTION: GENERAL PROTECTION FAULT"; Println ("Error Code: " ++ ti_error_hex ti);
                 Println (ti_frame ti)].
Definition general_protection_fault_handler (ti : TrapInfo) : Code :=
  outputs_code (general_protection_outputs ti) ++ [HaltLoop].

Definition divide_error_outputs (ti : TrapInfo) : list Output :=
  [ToConsole (Println ("EXCEPTION: DIVIDE ERROR" ++ NL ++ ti_frame ti))].
Definition divide_error_handler (ti : TrapInfo) : Code := outputs_code (divide_error_outputs ti) ++ [HaltLoop].

Definition handler_code (panic_info : string -> string) (ti : TrapInfo) (h : Handler) : Code :=
  match h with
  | BreakpointHandler => breakpoint_handler ti
  | DoubleFaultHandler => double_fault_handler panic_info ti
  | PageFaultHandler => page_fault_handler ti
  | GeneralProtectionHandler => general_protection_fault_handler ti
  | DivideErrorHandler => divide_error_handler ti
  | TimerHandler => irq_code IrqTimer
  | KeyboardHandler => irq_code IrqKeyboard
  end.

(** What a handler reports, and whether it halts. *)
Definition handler_outputs (panic_info : string -> string) (ti : TrapInfo) (h : Handler) : list Output :=
  match h with
  | BreakpointHandler => breakpoint_outputs ti
  | DoubleFaultHandler => panic_outputs (panic_info (double_fault_message ti))
  | PageFaultHandler => page_fault_outputs ti
  | GeneralProtectionHandler => general_protection_outputs ti
  | DivideErrorHandler => divide_error_outputs ti
  | TimerHandler | KeyboardHandler => []
  end.

Definition fatal (h : Handler) : bool :=
  match h with BreakpointHandler | TimerHandler | KeyboardHandler => false | _ => true end.

(** ** Descriptor tables *)

Definition DOUBLE_FAULT_IST_INDEX : Z := 0.
Definition STACK_SIZE : Z := 4096 * 5.

(** A gate: its handler and, if it switches stacks, the index into the interrupt
    stack table. *)
Record Gate : Type := Gate_mk { gate_handler : Handler; gate_ist : option Z }.

(** [InterruptDescriptorTable]; the named entries are the vectors the processor
    gives their exceptions. *)
Class Idt (T : Type) : Type := {
  idt_new : T;
  idt_set : T -> Z -> Gate -> T;
  idt_get : T -> Z -> option Gate;
  idt_new_get : forall v, idt_get idt_new v = None;
  idt_set_get : forall t v g v', idt_get (idt_set t v g) v' = if decide (v = v') then Some g else idt_get t v';
}.

#[export] Instance gmap_Idt : Idt (gmap Z Gate).
Proof.
  refine {| idt_new := ∅; idt_set := fun t v g => <[v := g]> t; idt_get := fun t v => t !! v |}.
  - intros. apply lookup_empty.
  - intros. apply lookup_insert.
Defined.

Definition DIVIDE_ERROR_VECTOR : Z := 0.
Definition BREAKPOINT_VECTOR : Z := 3.
Definition DOUBLE_FAULT_VECTOR : Z := 8.
Definition GENERAL_PROTECTION_VECTOR : Z := 13.
Definition PAGE_FAULT_VECTOR : Z := 14.

(** The task state segment: the seven stacks of its interrupt stack table. *)
Record TaskStateSegment : Type := TSS_mk { interrupt_stack_table : list Z }.

Inductive Descriptor : Type := KernelCodeSegment | TssSegment (t : TaskStateSegment).

(** [GlobalDescriptorTable]: [gdt_add] is [add_entry]. *)
Class Gdt (G : Type) : Type := {
  gdt_new : G;
  gdt_add : G -> Descriptor -> Z * G;
  gdt_get : G -> Z -> option Descriptor;
  gdt_add_get : forall g d, gdt_get (gdt_add g d).2 (gdt_add g d).1 = Some d;
  gdt_add_keep : forall g d sel d', gdt_get g sel = Some d' -> gdt_get (gdt_add g d).2 sel = Some d';
}.

(** A list of descriptors; the null descriptor is first, a selector counts bytes. *)
#[export] Instance list_Gdt : Gdt (list Descriptor).
Proof.
  refine {| gdt_new := []; gdt_add := fun g d => (8 * Z.of_nat (S (length g)), g ++ [d]);
            gdt_get := fun g sel => g !! Z.to_nat (sel / 8 - 1) |}.
  - intros g d. simpl fst. rewrite Z.mul_comm, Z.div_mul by done.
    replace (Z.to_nat (Z.of_nat (S (length g)) - 1)) with (length g) by lia. simpl. by apply list_lookup_middle.
  - intros g d sel d' H. simpl. by apply lookup_app_l_Some.
Defined.

Section tables.
Context {T : Type} `{ID : Idt T} {G : Type} `{GD : Gdt G}.

(** [IDT]. *)
Definition IDT : T :=
  let idt := idt_new in
  let idt := idt_set idt BREAKPOINT_VECTOR (Gate_mk BreakpointHandler None) in
  let idt := idt_set idt DOUBLE_FAULT_VECTOR (Gate_mk DoubleFaultHandler (Some DOUBLE_FAULT_IST_INDEX)) in
  let idt := idt_set idt PAGE_FAULT_VECTOR (Gate_mk PageFaultHandler None) in
  let idt := idt_set idt GENERAL_PROTECTION_VECTOR (Gate_mk GeneralProtectionHandler None) in
  let idt := idt_set idt DIVIDE_ERROR_VECTOR (Gate_mk DivideErrorHandler None) in
  let idt := idt_set idt (InterruptIndex_as_u8 IrqTimer) (Gate_mk TimerHandler None) in
  idt_set idt (InterruptIndex_as_u8 IrqKeyboard) (Gate_mk KeyboardHandler None).

(** [TSS], given the address of the static [STACK]. *)
Definition TSS (stack_start : Z) : Outcome TaskStateSegment :=
  let tss := TSS_mk (replicate 7 0) in
  let! stack_end := virt_add stack_start STACK_SIZE in
  Return (TSS_mk (<[Z.to_nat DOUBLE_FAULT_IST_INDEX := stack_end]> (interrupt_stack_table tss))).

Record Selectors : Type := Selectors_mk { code_selector : Z; tss_selector : Z }.

(** [GDT]. *)
Definition GDT (stack_start : Z) : Outcome (G * Selectors) :=
  let gdt := gdt_new in
  let '(code_selector, gdt) := gdt_add gdt KernelCodeSegment in
  let! tss := TSS stack_start in
  let '(tss_selector, gdt) := gdt_add gdt (TssSegment tss) in
  Return (gdt, Selectors_mk code_selector tss_selector).

(** The table registers of the processor. *)
Record Registers : Type := Registers_mk { r_gdt : option G; r_idt : option T; r_cs : Z; r_tr : Z }.

(** [gdt::init]. *)
Definition gdt_init (stack_start : Z) (r : Registers) : Outcome Registers :=
  let! (gdt, sels) := GDT stack_start in
  Return (Registers_mk (Some gdt) (r_idt r) (code_selector sels) (tss_selector sels)).

(** [init_idt]: the table is loaded, the controllers are initialised under their
    lock, and then interrupts are enabled. *)
Definition init_idt_code : Code := [Acquire LPics; PicInit; Release LPics; EnableInterrupts].
Definition init_idt (r : Registers) : Registers * Code :=
  (Registers_mk (r_gdt r) (Some IDT) (r_cs r) (r_tr r), init_idt_code).

(** [sovelma_kernel::init]. *)
Definition kernel_init (stack_start : Z) (r : Registers) : Outcome (Registers * Code) :=
  let serial := [SerialInit] in
  let vga := [VgaInit] in
  let! r := gdt_init stack_start r in
  let '(r, idt) := init_idt r in
  Return (r, serial ++ vga ++ idt).

(** The gate of a vector; a vector without one ends in a double fault. *)
Definition dispatch (r : Registers) (v : Z) : option Gate :=
  r_idt r ≫= fun t => match idt_get t v with Some g => Some g | None => idt_get t DOUBLE_FAULT_VECTOR end.

(** An exception during [s], and a panic of the running code: the panic handler
    takes over its stack, no guard is dropped. *)
Section raise.
Context {P C K A W : Type} {Q : Type -> Type}.
Abbreviation cpu := (Cpu (P:=P) (C:=C) (K:=K) (Q:=Q) (A:=A) (W:=W)).

Definition cpu_exception (panic_info : string -> string) (ti : TrapInfo) (r : Registers) (v : Z) (s : cpu) : cpu :=
  match dispatch r v with
  | Some g => cpu_trap (handler_code panic_info ti (gate_handler g)) s
  | None => s
  end.

Definition cpu_panic (info : string) (s : cpu) : cpu :=
  match c_frames s with
  | Frame_mk _ saved :: rest => Cpu_mk (c_locks s) (c_if s) (Frame_mk (panic_handler info) saved :: rest) (c_dev s)
  | [] => s
  end.
End raise.

(** The stack a gate switches to. *)
Definition gate_stack (r : Registers) (g : Gate) : option Z :=
  i ← gate_ist g; gdt ← r_gdt r; d ← gdt_get gdt (r_tr r);
  match d with TssSegment t => interrupt_stack_table t !! Z.to_nat i | _ => None end.

Lemma IDT_get v : idt_get IDT v =
  if decide (v = 33) then Some (Gate_mk KeyboardHandler None)
  else if decide (v = 32) then Some (Gate_mk TimerHandler None)
  else if decide (v = 0) then Some (Gate_mk DivideErrorHandler None)
  else if decide (v = 13) then Some (Gate_mk GeneralProtectionHandler None)
  else if decide (v = 14) then Some (Gate_mk PageFaultHandler None)
  else if decide (v = 8) then Some (Gate_mk DoubleFaultHandler (Some 0))
  else if decide (v = 3) then Some (Gate_mk BreakpointHandler None)
  else None.
Proof.
  unfold IDT. rewrite !idt_set_get, idt_new_get.
  unfold InterruptIndex_as_u8, PIC_1_OFFSET, DIVIDE_ERROR_VECTOR, GENERAL_PROTECTION_VECTOR, PAGE_FAULT_VECTOR,
    DOUBLE_FAULT_VECTOR, BREAKPOINT_VECTOR. repeat case_decide; subst; done.
Qed.
End tables.
