(* ===== verification/TrapsSpec.v ===== *)
(** * Kernel output under interrupts, exceptions and panics

    Shows that what the kernel prints is not disturbed by hardware interrupts,
    what a fatal exception or a panic leaves on screen and serial port, and that
    nothing is left of it when it strikes inside [print!]. *)

From S2P Require Import Prelude Text Memory Vga VgaSpec Queue Keyboard Platform Cpu Shell ShellSpec Boot Traps.
Open Scope Z_scope.

(** ** Locks of the output functions *)

Definition output_lock (o : Output) : LockId := match o with ToConsole _ => LWriter | ToSerial _ => LSerial end.

Lemma locks_after_serial held bs : LSerial ∈ held -> locks_after held (SerialByte <$> bs) = Some held.
Proof. intros H. induction bs as [|b bs IH]; simpl; [done|]. by rewrite decide_True. Qed.

Lemma locks_after_vga held bs : LWriter ∈ held -> locks_after held (VgaByte <$> bs) = Some held.
Proof. intros H. induction bs as [|b bs IH]; simpl; [done|]. by rewrite decide_True. Qed.

Lemma locks_after_output held o : output_lock o ∉ held -> locks_after held (output_code o) = Some held.
Proof.
  intros Hn. destruct o as [op|s]; simpl in *.
  - rewrite decide_False by set_solver. rewrite locks_after_app.
    assert (locks_after ({[LWriter]} ∪ held) match op with
      | Print s => VgaByte <$> str_bytes s | SetColor fg bg => [VgaColor fg bg] | ClearScreen => [VgaClear] end
      = Some ({[LWriter]} ∪ held)) as ->.
    { destruct op; simpl; [apply locks_after_vga; set_solver|by rewrite decide_True by set_solver..]. }
    simpl. rewrite decide_True by set_solver. f_equal. set_solver.
  - rewrite decide_False by set_solver. rewrite locks_after_app, locks_after_serial by set_solver. simpl.
    rewrite decide_True by set_solver. f_equal. set_solver.
Qed.

Lemma locks_after_outputs held os :
  Forall (fun o => output_lock o ∉ held) os -> locks_after held (outputs_code os) = Some held.
Proof.
  induction 1 as [|o os Ho _ IH]; [done|]. unfold outputs_code. rewrite bind_cons, locks_after_app, locks_after_output by done.
  exact IH.
Qed.

Lemma locks_after_free held os :
  LWriter ∉ held -> LSerial ∉ held -> locks_after held (outputs_code os) = Some held.
Proof. intros. apply locks_after_outputs, Forall_forall. by intros [] _. Qed.

Lemma locks_after_with_locks held ls body :
  NoDup ls -> LPics ∉ ls -> (forall l, l ∈ ls -> l ∉ held) ->
  locks_after (list_to_set ls ∪ held) body = Some (list_to_set ls ∪ held) ->
  locks_after held (with_locks ls body) = Some held.
Proof.
  unfold with_locks. revert held body. induction ls as [|l ls IH]; intros held body Hd Hp Hn Hb.
  { rewrite app_nil_r. assert (list_to_set ([] : list LockId) ∪ held = held) as E by set_solver. rewrite E in Hb. exact Hb. }
  apply NoDup_cons in Hd as [Hl Hd]. rewrite reverse_cons, fmap_app, fmap_cons. simpl.
  rewrite decide_False by set_solver. rewrite !app_assoc, locks_after_app, <- !app_assoc.
  rewrite IH; [|done|set_solver|set_solver|].
  - simpl. rewrite decide_True by set_solver. f_equal. set_solver.
  - assert (list_to_set ls ∪ ({[l]} ∪ held) = list_to_set (l :: ls) ∪ held) as -> by set_solver. done.
Qed.

(** Printing under locks other than those of the output functions. *)
Lemma locks_after_print held ls os :
  NoDup ls -> LPics ∉ ls -> (forall l, l ∈ ls -> l ∉ held) ->
  LWriter ∉ list_to_set ls ∪ held -> LSerial ∉ list_to_set ls ∪ held ->
  locks_after held (with_locks ls (outputs_code os)) = Some held.
Proof. intros. apply locks_after_with_locks; [done..|]. by apply locks_after_free. Qed.

Ltac locks := first [by_compute | set_solver].

Lemma task_run_ok r : locks_after ∅ (task_run_code r) = Some ∅.
Proof.
  destruct r as [out|out ev|out| |out cmd]; unfold task_run_code;
    [apply locks_after_print; locks| |apply locks_after_print; locks|done|].
  - rewrite locks_after_app, locks_after_print by locks. destruct ev; [|done]. apply locks_after_print; locks.
  - apply locks_after_with_locks; [locks..|]. rewrite locks_after_app, locks_after_free by locks.
    destruct cmd; [|done]. apply locks_after_print; locks.
Qed.

Lemma tasks_ok (runs : list TaskRun) : locks_after ∅ (runs ≫= task_run_code) = Some ∅.
Proof. induction runs as [|r runs IH]; [done|]. rewrite bind_cons, locks_after_app, task_run_ok. exact IH. Qed.

(** ** What code prints *)

Section output.
Context {P : Type} `{UA : Uart P} {C : Type} `{PI : Pics C} {K : Type} `{KP : KeyboardPort K}.
Context {Q : Type -> Type} `{AQ : ArrayQueue Q} {A W : Type} `{AW : AtomicWaker A W}.
Abbreviation devices := (Devices (P:=P) (C:=C) (K:=K) (Q:=Q) (A:=A) (W:=W)).
Abbreviation cpu := (Cpu (P:=P) (C:=C) (K:=K) (Q:=Q) (A:=A) (W:=W)).
Implicit Types (d : devices) (s : cpu).

(** The console and the serial port, as they are once initialised. *)
Definition writer_of d : Outcome Writer :=
  match d_writer d with Some w => w | None => Return (Writer_new (d_screen d)) end.
Definition serial_of d : P := default (uart_open COM1_PORT) (d_serial d).

(** [d'] is [d] after these outputs and nothing else on console and serial port. *)
Definition printed (os : list Output) d d' : Prop :=
  writer_of d' = (let! w := writer_of d in console_run (console_part os) w) /\
  serial_of d' = foldl uart_send (serial_of d) (serial_part os).

Lemma same_output_printed os d0 d d' : same_output d' d -> printed os d0 d -> printed os d0 d'.
Proof. unfold same_output, printed, writer_of, serial_of. intros (-> & -> & ->). done. Qed.

Lemma printed_app os1 os2 d0 d1 d2 : printed os1 d0 d1 -> printed os2 d1 d2 -> printed (os1 ++ os2) d0 d2.
Proof.
  unfold printed, console_part, serial_part. intros [H1 H2] [H3 H4]. rewrite omap_app, bind_app, foldl_app, H3, H4, H1, H2.
  split; [|done]. destruct (writer_of d0); simpl; [|done]. unfold console_run. by rewrite for_each_app.
Qed.

Lemma run_bytes_vga bs d w :
  d_writer d = Some w -> run_code (VgaByte <$> bs) d = set_writer d (Some (let! w := w in write_bytes bs w)).
Proof.
  unfold run_code. revert d w. induction bs as [|b bs IH]; intros d w Hw; simpl.
  { destruct d; simpl in *. rewrite Hw. unfold set_writer. simpl. by destruct w. }
  rewrite (IH _ (let! w := w in write_byte (shown_byte b) w)); [|unfold on_writer; simpl; by rewrite Hw].
  unfold on_writer, set_writer. simpl. by destruct w.
Qed.

Lemma run_bytes_serial bs d p :
  d_serial d = Some p -> run_code (SerialByte <$> bs) d = set_serial d (Some (foldl uart_send p bs)).
Proof.
  unfold run_code. revert d p. induction bs as [|b bs IH]; intros d p Hp; simpl.
  { destruct d; simpl in *. by rewrite Hp. }
  rewrite (IH _ (uart_send p b)); [done|]. simpl. by rewrite Hp.
Qed.

Lemma run_output o d : printed [o] d (run_code (output_code o) d).
Proof.
  destruct o as [op|str]; simpl output_code; unfold run_code; simpl; rewrite foldl_app; simpl.
  - assert (d_writer (vga_init d) = Some (writer_of d) /\ d_serial (vga_init d) = d_serial d) as [Hw Hs]
      by (unfold vga_init, writer_of; by destruct (d_writer d) eqn:E).
    unfold printed, serial_of. simpl. rewrite <- Hs. unfold console_run. simpl.
    destruct op as [str|fg bg|]; simpl; rewrite ?app_nil_r.
    + fold (run_code (VgaByte <$> str_bytes str) (vga_init d)). rewrite (run_bytes_vga _ _ _ Hw).
      unfold writer_of at 1. simpl. split; [|done]. destruct (writer_of d); simpl; [|done].
      unfold Writer_write_str. by destruct (write_bytes _ _).
    + unfold on_writer, writer_of at 1. simpl. rewrite Hw. simpl. split; [|done]. by destruct (writer_of d).
    + unfold on_writer, writer_of at 1. simpl. rewrite Hw. simpl. split; [|done]. destruct (writer_of d); simpl; [|done].
      by destruct (clear_screen _).
  - assert (d_serial (serial_init d) = Some (serial_of d) /\ writer_of (serial_init d) = writer_of d) as [Hs Hw]
      by (unfold serial_init, serial_of, writer_of; by destruct (d_serial d) eqn:E).
    fold (run_code (SerialByte <$> str_bytes (str ++ NL)) (serial_init d)). rewrite (run_bytes_serial _ _ _ Hs).
    unfold printed, serial_of at 1. simpl. rewrite app_nil_r. split; [|done].
    unfold writer_of in Hw |- *. simpl. rewrite Hw. by destruct (match d_writer d with Some _ => _ | None => _ end).
Qed.

Lemma run_outputs os d : printed os d (run_code (outputs_code os) d).
Proof.
  revert d. induction os as [|o os IH]; intros d.
  { split; simpl; [|done]. by destruct (writer_of d). }
  unfold outputs_code, run_code. rewrite bind_cons, foldl_app.
  apply (printed_app [o] os _ (run_code (output_code o) d)); [apply run_output|apply IH].
Qed.

(** Taking and dropping locks prints nothing. *)
Lemma run_with_locks ls body d : run_code (with_locks ls body) d = run_code body d.
Proof.
  assert (Hl : forall (f : LockId -> Instr) ls d, (forall d l, exec_dev d (f l) = d) -> foldl exec_dev d (f <$> ls) = d).
  { intros f l. induction l as [|x l IH]; intros d' Hf; [done|]. simpl. rewrite Hf. by apply IH. }
  unfold with_locks, run_code. rewrite !foldl_app. by rewrite !Hl.
Qed.

(** ** Power on *)

Lemma cpu_run_add n m s : cpu_run (n + m) s = cpu_run m (cpu_run n s).
Proof.
  revert s. induction n as [|n IH]; intros s; simpl; [done|]. destruct (cpu_next s) as [s'|] eqn:E; [apply IH|].
  destruct m; simpl; [done|]. by rewrite E.
Qed.

(** With interrupts disabled a step is the next access. *)
Lemma irq_step_off s s' : c_if s = false -> irq_step s s' -> cpu_next s = Some s'.
Proof. intros Hif [|]; congruence. Qed.

(** While a run has interrupts disabled it is the only one. *)
Lemma irq_steps_off n s s' :
  (forall m, (m < n)%nat -> c_if (cpu_run m s) = false) -> rtc irq_step s s' ->
  (exists m, (m < n)%nat /\ s' = cpu_run m s) \/ rtc irq_step (cpu_run n s) s'.
Proof.
  revert s. induction n as [|n IH]; intros s Hoff Hr; [by right|].
  destruct Hr as [|s s1 s2 Hst Hr]; [left; exists 0%nat; split; [lia|done]|].
  pose proof (irq_step_off s s1 (Hoff 0%nat ltac:(lia)) Hst) as Hn.
  destruct (IH s1) as [(m & Hm & ->)|H'].
  - intros m Hm. specialize (Hoff (S m) ltac:(lia)). simpl in Hoff. by rewrite Hn in Hoff.
  - done.
  - left. exists (S m). simpl. rewrite Hn. split; [lia|done].
  - right. simpl. by rewrite Hn.
Qed.

(** The boot loader enters the kernel with interrupts disabled. *)
Definition power_on (code : Code) d : cpu := Cpu_mk ∅ false [Frame_mk code false] d.

(** The running code is not waiting for a lock. *)
Definition never_spins s : Prop :=
  forall l code saved rest, c_frames s = Frame_mk (Acquire l :: code) saved :: rest -> l ∉ c_locks s.

Lemma next_never_spins s s' : cpu_next s = Some s' -> never_spins s.
Proof. unfold cpu_next. intros Hn l code saved rest Hf. rewrite Hf in Hn. simpl in Hn. by case_decide. Qed.

(** The accesses of [sovelma_kernel::init]. *)
Definition init_code : Code := [SerialInit; VgaInit] ++ init_idt_code.

Lemma init_run m code d : (m <= 6)%nat ->
  let s := cpu_run m (power_on (init_code ++ code) d) in
  c_frames s = [Frame_mk (drop m init_code ++ code) false] /\ c_dev s = run_code (take m init_code) d /\
  c_if s = bool_decide (m = 6)%nat /\
  c_locks s = (if decide (2 < m < 5)%nat then {[ LPics ]} else ∅) /\
  (m < 6 -> exists s', cpu_next s = Some s')%nat /\
  (m = 6%nat -> in_service (d_pics (c_dev s)) = ∅).
Proof.
  intros Hm. simpl. do 7 (destruct m as [|m]; [simpl; rewrite ?(decide_False (P := LPics ∈ ∅)) by set_solver; simpl;
    repeat first [rewrite decide_True by lia | rewrite decide_False by lia];
    split_and!; try done; try set_solver; intros; try done; rewrite ?(decide_False (P := LPics ∈ ∅)) by set_solver; eauto;
    try (by apply initialize_in_service)|]); lia.
Qed.

Lemma run_task r d : printed (task_run_outputs r) d (run_code (task_run_code r) d).
Proof.
  assert (Happ : forall c1 c2 d, run_code (c1 ++ c2) d = run_code c2 (run_code c1 d)) by (intros; apply foldl_app).
  destruct r as [out|out [ev|]|out| |out [cmd|]]; simpl;
    rewrite ?app_nil_r, ?Happ, ?run_with_locks, ?Happ, ?run_with_locks; try apply run_outputs;
    try (eapply printed_app; apply run_outputs).
Qed.

Lemma run_tasks (runs : list TaskRun) d : printed (runs ≫= task_run_outputs) d (run_code (runs ≫= task_run_code) d).
Proof.
  revert d. induction runs as [|r runs IH]; intros d; [apply (run_outputs [])|].
  rewrite !bind_cons. unfold run_code. rewrite foldl_app. eapply printed_app; [apply run_task|apply IH].
Qed.

(** The whole of the kernel's code: its initialisation, the boot log, the tasks. *)
Definition kernel_code (init : Code) (log : list Output) (runs : list TaskRun) : Code :=
  init ++ outputs_code log ++ (runs ≫= task_run_code).

Lemma init_run_output d : printed [] d (run_code init_code d).
Proof.
  unfold printed, run_code, init_code. simpl. unfold serial_of, writer_of. simpl. unfold vga_init, serial_init.
  destruct (d_serial d) eqn:Es, (d_writer d) as [[w|]|] eqn:Ew; simpl; rewrite ?Es, ?Ew; simpl; rewrite ?Ew; done.
Qed.
End output.

(** ** Properties *)

Section properties.
Context {P : Type} `{UA : Uart P} {C : Type} `{PI : Pics C} {K : Type} `{KP : KeyboardPort K}.
Context {Q : Type -> Type} `{AQ : ArrayQueue Q} {A W : Type} `{AW : AtomicWaker A W}.
Context {T : Type} `{ID : Idt T} {G : Type} `{GD : Gdt G}.
Abbreviation devices := (Devices (P:=P) (C:=C) (K:=K) (Q:=Q) (A:=A) (W:=W)).
Abbreviation cpu := (Cpu (P:=P) (C:=C) (K:=K) (Q:=Q) (A:=A) (W:=W)).
Implicit Types (d : devices) (s : cpu).

Lemma kernel_init_code stack_start (r r' : Registers (T:=T) (G:=G)) init :
  kernel_init stack_start r = Return (r', init) -> init = init_code /\ r_idt r' = Some IDT.
Proof.
  unfold kernel_init. destruct (gdt_init stack_start r) as [r1|]; [|done]. simpl. intros [= <- <-]. done.
Qed.

Lemma kernel_code_ok log runs : locks_after ∅ (outputs_code log ++ (runs ≫= task_run_code)) = Some ∅.
Proof. rewrite locks_after_app, locks_after_free by set_solver. apply tasks_ok. Qed.

Lemma kernel_disciplined code : locks_after ∅ code = Some ∅ -> disciplined ∅ ∅ code [] true [] ∅.
Proof. intros. split; [done|set_solver|done..]. Qed.

(** A state of the booting or running kernel. *)
Definition kernel_inv (code : Code) d s : Prop :=
  (exists m, (m < 6)%nat /\ s = cpu_run m (power_on (init_code ++ code) d)) \/
  irq_inv ∅ code [] false true [] (run_code init_code d) ∅ s.

Lemma kernel_reachable code d s :
  locks_after ∅ code = Some ∅ -> rtc irq_step (power_on (init_code ++ code) d) s -> kernel_inv code d s.
Proof.
  intros Hok Hr. apply (irq_steps_off 6) in Hr as [(m & Hm & ->)|Hr'].
  - left. eauto.
  - right. eapply irq_inv_rtc; [by apply kernel_disciplined| |exact Hr'].
    destruct (init_run 6 code d) as (H1 & H2 & H3 & H4 & _ & H6); [lia|].
    apply irq_inv_start; [by rewrite H1, app_nil_r|done|done|by apply H6|done].
  - intros m Hm. destruct (init_run m code d) as (_ & _ & -> & _); [lia|]. apply bool_decide_eq_false. lia.
Qed.

(** From a state of the booting or running kernel the code runs to its end. *)
Lemma kernel_inv_finishes code d s :
  locks_after ∅ code = Some ∅ -> kernel_inv code d s ->
  exists n, c_frames (cpu_run n s) = [Frame_mk [] false] /\ c_locks (cpu_run n s) = ∅ /\
    same_output (c_dev (cpu_run n s)) (run_code (init_code ++ code) d).
Proof.
  intros Hok Hi.
  assert (exists n, irq_inv ∅ code [] false true [] (run_code init_code d) ∅ (cpu_run n s)) as [n Hn].
  { destruct Hi as [(m & Hm & ->)|Hi]; [|by exists 0%nat]. exists (6 - m)%nat. rewrite <- cpu_run_add.
    replace (m + (6 - m))%nat with 6%nat by lia. destruct (init_run 6 code d) as (H1 & H2 & H3 & H4 & _ & H6); [lia|].
    apply irq_inv_start; [by rewrite H1, app_nil_r|done|done|by apply H6|done]. }
  destruct (irq_inv_finishes _ _ _ _ _ _ _ _ _ (kernel_disciplined _ Hok) (cost (cpu_run n s)) _ Hn ltac:(lia))
    as [_ (H1 & _ & H3 & H4)].
  exists (n + cost (cpu_run n s))%nat. rewrite cpu_run_add. split_and!; [done..|].
  unfold run_code in *. by rewrite foldl_app.
Qed.

(** Kernel code from power on, under interrupts. *)
Lemma output_undisturbed (stack_start : Z) (r r' : Registers (T:=T) (G:=G)) (init : Code)
    (log : list Output) (runs : list TaskRun) d s :
  kernel_init stack_start r = Return (r', init) ->
  rtc irq_step (power_on (kernel_code init log runs) d) s ->
  never_spins s /\ (c_if s = true -> in_service (d_pics (c_dev s)) = ∅) /\
  exists n, c_frames (cpu_run n s) = [Frame_mk [] false] /\ c_locks (cpu_run n s) = ∅ /\
    printed (log ++ (runs ≫= task_run_outputs)) d (c_dev (cpu_run n s)).
Proof.
  intros [-> _]%kernel_init_code Hr. pose proof (kernel_code_ok log runs) as Hok.
  pose proof (kernel_reachable _ _ _ Hok Hr) as Hi. split_and!.
  - destruct Hi as [(m & Hm & ->)|Hi].
    + destruct (init_run m (outputs_code log ++ (runs ≫= task_run_code)) d) as (_ & _ & _ & _ & H5 & _); [lia|].
      destruct (H5 Hm) as [s' Hn]. by eapply next_never_spins.
    + destruct (irq_inv_next _ _ _ _ _ _ _ _ _ (kernel_disciplined _ Hok) _ Hi) as [[s' Hn]|[Hf _]]; [by eapply next_never_spins|].
      intros l code saved rest. by rewrite Hf.
  - destruct Hi as [(m & Hm & ->)|Hi].
    + destruct (init_run m (outputs_code log ++ (runs ≫= task_run_code)) d) as (_ & _ & -> & _); [lia|].
      rewrite bool_decide_eq_false_2 by lia. done.
    + destruct Hi as [(?&?&?&_&_&_&[(_&_&_&->)|(?&?&?&?&_&_&_&->&_)])]; done.
  - destruct (kernel_inv_finishes _ _ _ Hok Hi) as (n & H1 & H2 & H3). exists n. split_and!; [done..|].
    eapply same_output_printed; [exact H3|]. unfold run_code. rewrite !foldl_app.
    apply (printed_app [] _ _ (run_code init_code d)); [apply init_run_output|].
    eapply printed_app; [apply run_outputs|apply run_tasks].
Qed.

(** C19: What the kernel prints is not disturbed by interrupts.  Take any boot log
    and any sequence of task polls, each printing under the locks of its task, and
    deliver timer and keyboard interrupts between any two accesses.  The kernel
    never waits for a lock, interrupts are only enabled while none is in service,
    and from every state it reaches the end of its code with all locks free, the
    console and the serial port holding exactly the sequential output. *)
Theorem kernel_output_undisturbed (stack_start : Z) (r r' : Registers (T:=T) (G:=G)) (init : Code)
    (log : list Output) (runs : list TaskRun) d s :
  kernel_init stack_start r = Return (r', init) ->
  rtc irq_step (power_on (kernel_code init log runs) d) s ->
  never_spins s /\ (c_if s = true -> in_service (d_pics (c_dev s)) = ∅) /\
  exists n, c_frames (cpu_run n s) = [Frame_mk [] false] /\ c_locks (cpu_run n s) = ∅ /\
    printed (log ++ (runs ≫= task_run_outputs)) d (c_dev (cpu_run n s)).
Proof. apply output_undisturbed. Qed.

(** ** Reports *)

(** The locks of a list of outputs are free. *)
Definition output_free (os : list Output) s : Prop := Forall (fun o => output_lock o ∉ c_locks s) os.

(** Fatal code: a report, then [halt_loop]. *)
Lemma report_halts os saved enabled rest s :
  c_frames s = Frame_mk (outputs_code os ++ [HaltLoop]) saved :: rest -> c_if s = enabled ->
  (enabled = true -> in_service (d_pics (c_dev s)) = ∅ /\ LPics ∉ c_locks s) -> output_free os s ->
  forall s', rtc irq_step s s' -> exists s'', rtc irq_step s' s'' /\
    c_frames s'' = Frame_mk [HaltLoop] saved :: rest /\ c_if s'' = enabled /\ c_locks s'' = c_locks s /\
    printed os (c_dev s) (c_dev s'').
Proof.
  intros Hf Hif Hserv Hfree s' Hr.
  assert (HD : disciplined (c_locks s) (c_locks s) (outputs_code os) [HaltLoop] enabled rest (in_service (d_pics (c_dev s))))
    by (split; [by apply locks_after_outputs|naive_solver..]).
  assert (Hi : irq_inv (c_locks s) (outputs_code os) [HaltLoop] saved enabled rest (c_dev s) (in_service (d_pics (c_dev s))) s)
    by (by apply irq_inv_start).
  eapply irq_inv_rtc in Hi; [|exact HD|exact Hr].
  destruct (irq_inv_finishes _ _ _ _ _ _ _ _ _ HD (cost s') _ Hi ltac:(lia)) as [_ (H1 & H2 & H3 & H4)].
  eexists. split; [apply (cpu_run_steps (cost s'))|]. split_and!; [done..|].
  eapply same_output_printed; [exact H4|apply run_outputs].
Qed.

Lemma handler_code_fatal panic_info ti h :
  fatal h = true -> handler_code panic_info ti h = outputs_code (handler_outputs panic_info ti h) ++ [HaltLoop].
Proof. by destruct h. Qed.

(** A report that meets a held lock stops there: what came before it is printed. *)
Definition output_init (o : Output) : Instr := match o with ToConsole _ => VgaInit | ToSerial _ => SerialInit end.

Lemma output_code_lock o : exists c, output_code o = output_init o :: Acquire (output_lock o) :: c.
Proof. destruct o; simpl; eauto. Qed.

Lemma report_blocks pre o post tl saved enabled rest s :
  c_frames s = Frame_mk (outputs_code (pre ++ o :: post) ++ tl) saved :: rest -> c_if s = enabled ->
  (enabled = true -> in_service (d_pics (c_dev s)) = ∅ /\ LPics ∉ c_locks s) ->
  output_free pre s -> output_lock o ∈ c_locks s ->
  forall s', rtc irq_step s s' ->
    (exists done, done `prefix_of` outputs_code pre ++ [output_init o] /\ same_output (c_dev s') (run_code done (c_dev s))) /\
    exists s'' c, rtc irq_step s' s'' /\ c_frames s'' = Frame_mk (Acquire (output_lock o) :: c) saved :: rest /\
      c_if s'' = enabled /\ c_locks s'' = c_locks s.
Proof.
  intros Hf Hif Hserv Hfree Hheld s' Hr. destruct (output_code_lock o) as [c Ho].
  set (code := outputs_code pre ++ [output_init o]). set (k := Acquire (output_lock o) :: c ++ outputs_code post ++ tl).
  assert (HD : disciplined (c_locks s) (c_locks s) code k enabled rest (in_service (d_pics (c_dev s)))).
  { split; [|naive_solver|done|naive_solver]. unfold code. rewrite locks_after_app, locks_after_outputs by done. by destruct o. }
  assert (Hi : irq_inv (c_locks s) code k saved enabled rest (c_dev s) (in_service (d_pics (c_dev s))) s).
  { apply irq_inv_start; try done. rewrite Hf. unfold code, k, outputs_code. rewrite bind_app, bind_cons, Ho.
    rewrite <- !app_assoc. simpl. by rewrite <- ?app_assoc. }
  eapply irq_inv_rtc in Hi; [|exact HD|exact Hr]. split.
  - destruct Hi as [(done & todo & held & Hc & _ & Hs & _)]. exists done. split; [by exists todo|done].
  - destruct (irq_inv_finishes _ _ _ _ _ _ _ _ _ HD (cost s') _ Hi ltac:(lia)) as [_ (H1 & H2 & H3 & _)].
    eexists _, _. split; [apply (cpu_run_steps (cost s'))|]. done.
Qed.

(** Code without console accesses leaves the console alone, and so for the serial port. *)
Definition console_access (i : Instr) : bool := match i with VgaByte _ | VgaColor _ _ | VgaClear => true | _ => false end.
Definition serial_access (i : Instr) : bool := match i with SerialByte _ => true | _ => false end.

Lemma quiet_console code d : Forall (fun i => console_access i = false) code -> writer_of (run_code code d) = writer_of d.
Proof.
  unfold run_code. intros Hq. revert d. induction Hq as [|i code Hi _ IH]; intros d; [done|]. simpl. rewrite IH.
  unfold writer_of. destruct i; try done; simpl; unfold vga_init, serial_init, read_scancode.
  - by destruct (d_serial d).
  - by destruct (d_writer d) eqn:E; simpl; rewrite ?E.
  - destruct (port_0x60_read _). by destruct (add_scancode _ _).
Qed.

Lemma quiet_serial code d : Forall (fun i => serial_access i = false) code -> serial_of (run_code code d) = serial_of d.
Proof.
  unfold run_code. intros Hq. revert d. induction Hq as [|i code Hi _ IH]; intros d; [done|]. simpl. rewrite IH.
  unfold serial_of. destruct i; try done; simpl; unfold vga_init, serial_init, read_scancode.
  - by destruct (d_serial d) eqn:E; simpl; rewrite ?E.
  - by destruct (d_writer d).
  - destruct (port_0x60_read _). by destruct (add_scancode _ _).
Qed.

Lemma same_output_views d d' : same_output d d' -> writer_of d = writer_of d' /\ serial_of d = serial_of d'.
Proof. unfold same_output, writer_of, serial_of. by intros (-> & -> & ->). Qed.

Lemma quiet_prefix pre code d d' :
  pre `prefix_of` code -> same_output d' (run_code pre d) ->
  (Forall (fun i => console_access i = false) code -> writer_of d' = writer_of d) /\
  (Forall (fun i => serial_access i = false) code -> serial_of d' = serial_of d).
Proof.
  intros [todo ->] [-> ->]%same_output_views.
  split; intros [Hq _]%Forall_app; [by apply quiet_console|by apply quiet_serial].
Qed.

Lemma serial_println_quiet str : Forall (fun i => console_access i = false) (serial_println str).
Proof.
  unfold serial_println, serial_print. repeat (apply Forall_app; split); [by repeat constructor| |by repeat constructor].
  by apply Forall_fmap, Forall_true.
Qed.

Lemma spinning_stuck l c saved rest s :
  c_frames s = Frame_mk (Acquire l :: c) saved :: rest -> l ∈ c_locks s -> c_if s = false -> nf irq_step s.
Proof.
  intros Hf Hl Hif [s' Hst]. pose proof (irq_step_off _ _ Hif Hst) as Hn. unfold cpu_next in Hn. rewrite Hf in Hn.
  simpl in Hn. by rewrite decide_True in Hn.
Qed.

Lemma halted_stuck c saved rest s : c_frames s = Frame_mk (HaltLoop :: c) saved :: rest -> c_if s = false -> nf irq_step s.
Proof. intros Hf Hif [s' Hst]. pose proof (irq_step_off _ _ Hif Hst) as Hn. unfold cpu_next in Hn. by rewrite Hf in Hn. Qed.

(** The handler a vector ends in once the kernel is initialised. *)
Definition vector_handler (v : Z) : Handler :=
  if decide (v = 33) then KeyboardHandler else if decide (v = 32) then TimerHandler
  else if decide (v = 0) then DivideErrorHandler else if decide (v = 13) then GeneralProtectionHandler
  else if decide (v = 14) then PageFaultHandler else if decide (v = 3) then BreakpointHandler
  else DoubleFaultHandler.

Lemma dispatch_handler stack_start (r r' : Registers (T:=T) (G:=G)) init v :
  kernel_init stack_start r = Return (r', init) -> gate_handler <$> dispatch r' v = Some (vector_handler v).
Proof.
  intros [_ Hi]%kernel_init_code. unfold dispatch. rewrite Hi. simpl. rewrite !IDT_get.
  unfold DOUBLE_FAULT_VECTOR, vector_handler. repeat case_decide; subst; done.
Qed.

Lemma exception_trap stack_start (r r' : Registers (T:=T) (G:=G)) init v panic_info ti s :
  kernel_init stack_start r = Return (r', init) ->
  cpu_exception panic_info ti r' v s = cpu_trap (handler_code panic_info ti (vector_handler v)) s.
Proof.
  intros Hi. pose proof (dispatch_handler _ _ _ _ v Hi) as Hd. unfold cpu_exception.
  destruct (dispatch r' v) as [g|]; simplify_eq/=. by rewrite Hd.
Qed.

(** C22: A fatal exception is reported and stops the machine.  Any vector but
    those of the breakpoint and the two hardware interrupts, the ones without a
    gate included, stops the machine for good with the report of its handler on
    console and serial port, whatever was running, when the locks of the devices the
    report goes to are free. *)
Theorem exception_reports (stack_start : Z) (r r' : Registers (T:=T) (G:=G)) (init : Code) (v : Z)
    (panic_info : string -> string) (ti : TrapInfo) s s' :
  kernel_init stack_start r = Return (r', init) -> fatal (vector_handler v) = true ->
  output_free (handler_outputs panic_info ti (vector_handler v)) s ->
  rtc irq_step (cpu_exception panic_info ti r' v s) s' ->
  exists s'', rtc irq_step s' s'' /\ nf irq_step s'' /\ c_locks s'' = c_locks s /\
    printed (handler_outputs panic_info ti (vector_handler v)) (c_dev s) (c_dev s'').
Proof.
  intros Hi Hfat Hfree. rewrite (exception_trap _ _ _ _ _ _ _ _ Hi), handler_code_fatal by done. intros Hr.
  eapply report_halts in Hr as (s'' & H1 & H2 & H3 & H4 & H5); [|done|done|done|exact Hfree].
  exists s''. split_and!; [done|by eapply halted_stuck|done|done].
Qed.

(** C23: Inside [print!] or [serial_print!] an exception is not reported.  When an
    exception strikes while the lock of the first output of its report is held, as it
    is all through the write of the same device, its handler waits for the code it
    interrupted: nothing is ever printed, and the machine hangs. *)
Theorem exception_in_print_hangs (stack_start : Z) (r r' : Registers (T:=T) (G:=G)) (init : Code) (v : Z)
    (panic_info : string -> string) (ti : TrapInfo) (o : Output) (os : list Output) s s' :
  kernel_init stack_start r = Return (r', init) ->
  handler_outputs panic_info ti (vector_handler v) = o :: os -> output_lock o ∈ c_locks s ->
  rtc irq_step (cpu_exception panic_info ti r' v s) s' ->
  printed [] (c_dev s) (c_dev s') /\ exists s'', rtc irq_step s' s'' /\ nf irq_step s''.
Proof.
  intros Hi Hos Hheld. rewrite (exception_trap _ _ _ _ _ _ _ _ Hi). intros Hr.
  assert (exists tl, handler_code panic_info ti (vector_handler v) = outputs_code (o :: os) ++ tl) as [tl Hc].
  { rewrite <- Hos. destruct (vector_handler v);
      [exists []; by rewrite app_nil_r|by exists [HaltLoop]..|by exists (irq_code IrqTimer)|by exists (irq_code IrqKeyboard)]. }
  rewrite Hc in Hr. eapply (report_blocks [] o os tl) in Hr as [(pre & Hd & Ho) (s'' & c & H1 & H2 & H3 & H4)];
    [|done|done|done|constructor|done].
  split; [|exists s''; split; [done|]; eapply spinning_stuck; [exact H2| |done]; by rewrite H4].
  destruct (quiet_prefix _ _ _ _ Hd Ho) as [Hw Hs].
  unfold printed. rewrite Hw, Hs by (constructor; [by destruct o|done]). simpl. split; [|done]. by destruct (writer_of (c_dev s)).
Qed.

(** A panic inside [print!] never reaches the screen.  The guard of the
    writer is still held when [write_fmt] panics or its [expect] fails: the panic
    handler sends its first line to the serial port (nothing if that port is locked
    too) and then waits for the screen for ever, while interrupts go on. *)
Theorem panic_in_print_silent (info : string) s s' saved code rest :
  c_frames s = Frame_mk code saved :: rest -> LWriter ∈ c_locks s ->
  (c_if s = true -> in_service (d_pics (c_dev s)) = ∅ /\ LPics ∉ c_locks s) ->
  rtc irq_step (cpu_panic info s) s' ->
  writer_of (c_dev s') = writer_of (c_dev s) /\
  (LSerial ∈ c_locks s -> serial_of (c_dev s') = serial_of (c_dev s)) /\
  exists s'' l c, rtc irq_step s' s'' /\ l ∈ c_locks s'' /\ c_frames s'' = Frame_mk (Acquire l :: c) saved :: rest.
Proof.
  intros Hf Hw Hserv. unfold cpu_panic. rewrite Hf. unfold panic_handler, panic_outputs. intros Hr.
  destruct (decide (LSerial ∈ c_locks s)) as [Hs|Hs].
  - eapply (report_blocks []) in Hr as [(pre & Hd & Ho) (s'' & c & H1 & H2 & H3 & H4)];
      [|done|done|done|constructor|exact Hs].
    destruct (quiet_prefix _ _ _ _ Hd Ho) as [Ew Es]. rewrite Ew, Es by (by repeat constructor).
    split_and!; [done..|]. exists s'', LSerial, c. by rewrite H4.
  - eapply (report_blocks [ToSerial _] (ToConsole _)) in Hr as [(pre & Hd & Ho) (s'' & c & H1 & H2 & H3 & H4)];
      [|done|done|done|by constructor|exact Hw].
    destruct (quiet_prefix _ _ _ _ Hd Ho) as [Ew _]. split_and!; [|done|exists s'', LWriter, c; rewrite H4; done].
    apply Ew, Forall_app. split; [|by repeat constructor]. unfold outputs_code.
    rewrite bind_cons, app_nil_r. apply serial_println_quiet.
Qed.

(** The double fault handler has a stack of its own.  After [init] the gate of
    the double fault is the only one that switches stacks, and through the loaded
    task segment it finds the end of the static array of five pages. *)
Theorem double_fault_stack (stack_start : Z) (r : Registers (T:=T) (G:=G)) :
  canonical (stack_start + STACK_SIZE) = true ->
  exists r' init, kernel_init stack_start r = Return (r', init) /\
    (forall v g, dispatch r' v = Some g ->
       gate_stack r' g = if decide (gate_handler g = DoubleFaultHandler) then Some (stack_start + 4096 * 5) else None) /\
    r_gdt r' ≫= (fun g => gdt_get g (r_cs r')) = Some KernelCodeSegment.
Proof.
  intros Hc. unfold kernel_init, gdt_init, GDT, TSS, virt_add, virt_new. rewrite Hc. cbn [outcome_bind].
  pose proof (gdt_add_get gdt_new KernelCodeSegment) as H1. destruct (gdt_add gdt_new KernelCodeSegment) as [cs g1].
  cbn [outcome_bind]. set (t := TSS_mk _).
  pose proof (gdt_add_get g1 (TssSegment t)) as H2. pose proof (gdt_add_keep g1 (TssSegment t) cs _ H1) as H3.
  destruct (gdt_add g1 (TssSegment t)) as [ts g2]. simpl in H1, H2, H3. cbn [outcome_bind].
  eexists _, _. split; [reflexivity|]. split; [|exact H3]. intros v g. unfold dispatch. simpl. rewrite !IDT_get.
  unfold DOUBLE_FAULT_VECTOR. intros Hg.
  repeat (case_decide; [subst v; injection Hg as <-; unfold gate_stack; simpl; rewrite ?H2; done|]).
  injection Hg as <-. unfold gate_stack. simpl. by rewrite H2.
Qed.
End properties.

(** ** Witnesses *)

#[local] Instance const_KeyboardPort : KeyboardPort Z := {| port_0x60_read := fun k => (k, k) |}.

Definition demo_devices : Devices (P:=list Z * list Z) (C:=gset Z) (K:=Z) (Q:=ListQueue) (A:=option nat) (W:=nat) :=
  Devices_mk None None [] ∅ 30 keyboard_boot [].
Definition demo_registers : Registers (T:=gmap Z Gate) (G:=list Descriptor) := Registers_mk None None 0 0.
Definition demo_trap : TrapInfo := TrapInfo_mk 0x1000 "frame" "0x0" "PROTECTION_VIOLATION" "VirtAddr(0x0)".

Lemma demo_init : exists r' init, kernel_init 0x200000 demo_registers = Return (r', init).
Proof. eexists _, _. reflexivity. Defined.

(** The network task logs a packet. *)
Definition demo_log : list TaskRun := [RunNet [ToSerial "[e1000] Received 60 bytes"]].

Lemma kernel_output_undisturbed_witness :
  exists init s n,
    rtc irq_step (power_on (kernel_code init [] demo_log) demo_devices) s /\
    c_frames (cpu_run n s) = [Frame_mk [] false] /\
    serial_of (c_dev (cpu_run n s)) = (str_bytes ("[e1000] Received 60 bytes" ++ NL), []).
Proof.
  destruct demo_init as (r' & init & Hi).
  exists init. pose proof (kernel_init_code _ _ _ _ Hi) as [-> _].
  set (s0 := power_on (kernel_code init_code [] demo_log) demo_devices).
  assert (Hr : rtc irq_step s0 (cpu_deliver IrqTimer (cpu_run 12 s0))).
  { eapply rtc_r; [apply (cpu_run_steps 12)|]. apply StepIrq. vm_compute. reflexivity. }
  destruct (kernel_output_undisturbed 0x200000 demo_registers r' init_code [] demo_log demo_devices _ Hi Hr)
    as (_ & _ & n & H1 & _ & _ & H3).
  exists (cpu_deliver IrqTimer (cpu_run 12 s0)), n. split_and!; [exact Hr|exact H1|]. rewrite H3. vm_compute. reflexivity.
Defined.

(** The machine with a blank screen. *)
Definition demo_screen : Devices (P:=list Z * list Z) (C:=gset Z) (K:=Z) (Q:=ListQueue) (A:=option nat) (W:=nat) :=
  vga_init (Devices_mk None None (replicate BUFFER_HEIGHT (replicate BUFFER_WIDTH (ScreenChar_mk 32 0))) ∅ 30 keyboard_boot []).

(** A page fault is reported on it. *)
Lemma exception_reports_witness :
  exists r' init (s'' : Cpu (P:=list Z * list Z) (C:=gset Z) (K:=Z) (Q:=ListQueue) (A:=option nat) (W:=nat)) w,
    kernel_init 0x200000 demo_registers = Return (r', init) /\ nf irq_step s'' /\
    writer_of (c_dev s'') = Return w /\
    take 21 <$> ((fun row => ascii_character <$> row) <$> buffer w !! 20%nat) = Some (str_bytes "EXCEPTION: PAGE FAULT").
Proof.
  destruct demo_init as (r' & init & Hi).
  destruct (exception_reports 0x200000 demo_registers r' init 14 (fun m => m) demo_trap
    (power_on [] demo_screen) _ Hi eq_refl ltac:(repeat constructor; set_solver) (rtc_refl _ _)) as (s'' & _ & H2 & _ & H4 & _).
  assert (Hw : exists w, console_run (console_part (page_fault_outputs demo_trap)) (Writer_new (d_screen demo_screen)) = Return w /\
    take 21 <$> ((fun row => ascii_character <$> row) <$> buffer w !! 20%nat) = Some (str_bytes "EXCEPTION: PAGE FAULT")).
  { eexists. split; vm_compute; reflexivity. }
  destruct Hw as (w & Ew & Hrow).
  exists r', init, s'', w. split_and!; [exact Hi|exact H2| |exact Hrow]. rewrite H4. exact Ew.
Defined.

Lemma exception_in_print_hangs_witness :
  exists (r' : Registers (T:=gmap Z Gate) (G:=list Descriptor)) s'', nf irq_step s'' /\
    rtc irq_step (cpu_exception (fun m => m) demo_trap r' 14 (Cpu_mk {[ LWriter ]} true [Frame_mk [VgaByte 65] true] demo_devices)) s''.
Proof.
  destruct demo_init as (r' & init & Hi).
  destruct (exception_in_print_hangs 0x200000 demo_registers r' init 14 (fun m => m) demo_trap
    (ToConsole (Println "EXCEPTION: PAGE FAULT")) (tail (page_fault_outputs demo_trap))
    (Cpu_mk {[ LWriter ]} true [Frame_mk [VgaByte 65] true] demo_devices) _ Hi eq_refl ltac:(set_solver) (rtc_refl _ _))
    as [_ (s'' & H1 & H2)].
  exists r', s''. split; [exact H2|exact H1].
Defined.

Lemma panic_in_print_silent_witness :
  exists s'' l c, rtc irq_step (cpu_panic "vga write failed"
      (Cpu_mk {[ LWriter ]} true [Frame_mk [VgaByte 65] true] demo_devices)) s'' /\
    l ∈ c_locks s'' /\ c_frames s'' = [Frame_mk (Acquire l :: c) true].
Proof.
  destruct (panic_in_print_silent "vga write failed" (Cpu_mk {[ LWriter ]} true [Frame_mk [VgaByte 65] true] demo_devices) _ true
    [VgaByte 65] [] eq_refl ltac:(set_solver) ltac:(intros _; split; [reflexivity|set_solver]) (rtc_refl _ _))
    as (_ & _ & s'' & l & c & H1 & H2 & H3).
  exists s'', l, c. split_and!; [exact H1|exact H2|exact H3].
Defined.

Lemma double_fault_stack_witness :
  canonical (0x200000 + STACK_SIZE) = true /\
  exists r' init, kernel_init 0x200000 demo_registers = Return (r', init).
Proof.
  split; [reflexivity|].
  destruct (double_fault_stack 0x200000 demo_registers eq_refl) as (r' & init & Hi & _). exists r', init. exact Hi.
Defined.
