(* ===== verification/Sockets.v ===== *)
(** * Sockets

    Models the rest of [net/stack.rs] and the socket wrappers of [net/socket.rs].
    The socket set of [smoltcp] hands out handles and looks sockets up by handle
    and type, panicking when either is wrong ([SocketSet::get_mut]).  It is the
    class [SocketSet] below, over the classes of [Net]; the methods the kernel
    calls on a socket are the signature [SockOp].  The buffers of new sockets come
    from the kernel heap, an oracle as in [Host]: [alloc_ok n] tells whether the
    allocator serves the requests of [n] bytes an operation makes; when it does not,
    the kernel panics. *)

From S2P Require Import Prelude Text E1000 Device Net Vga Shell Boot.
Open Scope Z_scope.

Definition TCP_RX_BUFFER_SIZE : nat := 4096.
Definition TCP_TX_BUFFER_SIZE : nat := 4096.
Definition UDP_RX_META_SIZE : nat := 8.
Definition UDP_TX_META_SIZE : nat := 8.
Definition UDP_BUFFER_SIZE : nat := 2048.

(** ** The socket set of [smoltcp] *)

Inductive SocketKind : Type := KTcp | KUdp | KIcmp | KDhcp | KDns.

#[export] Instance SocketKind_eq_dec : EqDecision SocketKind.
Proof. solve_decision. Defined.

(** [IpEndpoint]; only IPv4 is compiled in. *)
Record IpEndpoint : Type := IpEndpoint_new { ep_addr : Ipv4Address; ep_port : Z }.

Inductive Icmpv4Repr : Type :=
| EchoRequest (ident seq_no : Z) (data : list byte)
| EchoReply (ident seq_no : Z) (data : list byte)
| OtherIcmp.

Inductive IcmpSendError : Type := Unaddressable | IcmpBufferFull.

(** The methods the kernel calls, by the type they return; errors the kernel
    discards are [unit], and a buffer that is filled is returned. *)
Inductive SockOp : Type -> Type :=
| OpTcpConnect (remote : IpEndpoint) (local_port : Z) : SockOp (Result unit unit)
| OpTcpListen (port : Z) : SockOp (Result unit unit)
| OpTcpClose : SockOp unit
| OpTcpIsActive : SockOp bool
| OpTcpCanSend : SockOp bool
| OpTcpCanRecv : SockOp bool
| OpTcpSendSlice (data : list byte) : SockOp (Result nat unit)
| OpTcpRecvSlice (buf : list byte) : SockOp (Result nat unit * list byte)
| OpUdpBind (port : Z) : SockOp (Result unit unit)
| OpUdpSendSlice (data : list byte) (remote : IpEndpoint) : SockOp (Result unit unit)
| OpUdpRecvSlice (buf : list byte) : SockOp (Result (nat * IpEndpoint) unit * list byte)
| OpUdpCanSend : SockOp bool
| OpUdpCanRecv : SockOp bool
| OpIcmpCanRecv : SockOp bool
| OpIcmpRecvSlice (buf : list byte) : SockOp (Result (nat * Ipv4Address) unit * list byte)
| OpIcmpSendSlice (data : list byte) (dst : Ipv4Address) : SockOp (Result unit IcmpSendError).

Definition op_kind {R} (o : SockOp R) : SocketKind :=
  match o with
  | OpTcpConnect _ _ | OpTcpListen _ | OpTcpClose | OpTcpIsActive | OpTcpCanSend | OpTcpCanRecv
  | OpTcpSendSlice _ | OpTcpRecvSlice _ => KTcp
  | OpUdpBind _ | OpUdpSendSlice _ _ | OpUdpRecvSlice _ | OpUdpCanSend | OpUdpCanRecv => KUdp
  | OpIcmpCanRecv | OpIcmpRecvSlice _ | OpIcmpSendSlice _ _ => KIcmp
  end.

(** What the kernel relies on of a socket: its type, and whether an ICMP socket is
    bound to an endpoint. *)
Record SockView : Type := SockView_mk { sv_kind : SocketKind; sv_bound : bool }.

(** [alloc::vec![x; len]] for elements of [len] bytes in all. *)
Definition vec_alloc (alloc_ok : Z -> bool) (len : Z) : Outcome unit :=
  if decide (len = 0) then Return tt
  else if (isize_max <? len) || negb (alloc_ok len) then Panic else Return tt.

Class SocketSet (I SS H QH D Sock : Type) {SI : Smoltcp I SS H QH} : Type := {
  sock_view : Sock -> SockView;
  (** Constructors, by buffer and metadata sizes. *)
  tcp_new : nat -> nat -> Sock;
  udp_new : nat -> nat -> nat -> nat -> Sock;
  icmp_new : nat -> nat -> nat -> nat -> Sock;
  (** [size_of::<PacketMetadata>()] of both kinds. *)
  udp_meta_bytes : Z;
  icmp_meta_bytes : Z;
  (** The slots of the set, writing through a reference into one, [SocketSet::add],
      and the handles in the order of [iter_mut]. *)
  sock_get : SS -> H -> option Sock;
  sock_put : SS -> H -> Sock -> SS;
  sock_add : SS -> Sock -> H * SS;
  sock_handles : SS -> list H;
  (** A method, given the interface's context. *)
  sock_op : forall {R}, SockOp R -> I -> Sock -> R * I * Sock;
  (** [Interface::poll]; it panics when the device does. *)
  iface_poll : I -> Z -> D -> SS -> Outcome (I * D * SS);
  (** Whether the slot of a query of a DNS socket is in use. *)
  dns_busy : SS -> H -> QH -> bool;
  icmpv4_parse : list byte -> option Icmpv4Repr;
  icmpv4_emit : Icmpv4Repr -> list byte -> list byte;
  #[global] handle_eq_dec :: EqDecision H;
  #[global] query_eq_dec :: EqDecision QH;
  udp_meta_small : 0 <= udp_meta_bytes < 2 ^ 32;
  icmp_meta_small : 0 <= icmp_meta_bytes < 2 ^ 32;
  tcp_new_kind : forall a b, sv_kind (sock_view (tcp_new a b)) = KTcp;
  udp_new_kind : forall a b c d, sv_kind (sock_view (udp_new a b c d)) = KUdp;
  icmp_new_view : forall a b c d, sock_view (icmp_new a b c d) = SockView_mk KIcmp false;
  sockets_new_empty : forall h, sock_get sockets_new h = None;
  sock_add_fresh : forall s x, sock_get s (sock_add s x).1 = None;
  sock_add_get : forall s x h,
    sock_get (sock_add s x).2 h = if decide (h = (sock_add s x).1) then Some x else sock_get s h;
  sock_put_get : forall s h x y h', sock_get s h = Some x ->
    sock_get (sock_put s h y) h' = if decide (h' = h) then Some y else sock_get s h';
  sock_handles_get : forall s h, h ∈ sock_handles s <-> is_Some (sock_get s h);
  (** A method keeps the type of its socket, none above binds an ICMP socket, and
      none changes the interface's addresses or routes. *)
  sock_op_view : forall R (o : SockOp R) i x, sock_view (sock_op o i x).2 = sock_view x;
  sock_op_addrs : forall R (o : SockOp R) i x, ip_addrs (sock_op o i x).1.2 = ip_addrs i;
  sock_op_route : forall R (o : SockOp R) i x, default_route (sock_op o i x).1.2 = default_route i;
  (** An ICMP socket that is not bound accepts no packets. *)
  icmp_unbound_empty : forall i x, sock_view x = SockView_mk KIcmp false ->
    (sock_op OpIcmpCanRecv i x).1.1 = false;
  (** [recv_slice] returns at most the buffer's length and keeps the buffer's size. *)
  icmp_recv_len : forall i x buf len src buf',
    (sock_op (OpIcmpRecvSlice buf) i x).1.1 = (Ok (len, src), buf') ->
    (len <= length buf)%nat /\ length buf' = length buf;
  (** Polling the interface, and the DHCP and DNS sockets' methods, keep every
      socket's type and binding, and the interface's addresses and routes. *)
  iface_poll_view : forall i t d s i' d' s' h, iface_poll i t d s = Return (i', d', s') ->
    sock_view <$> sock_get s' h = sock_view <$> sock_get s h;
  iface_poll_addrs : forall i t d s i' d' s', iface_poll i t d s = Return (i', d', s') -> ip_addrs i' = ip_addrs i;
  iface_poll_route : forall i t d s i' d' s', iface_poll i t d s = Return (i', d', s') ->
    default_route i' = default_route i;
  add_dhcp_is_add : forall s, exists x, sock_view x = SockView_mk KDhcp false /\ add_dhcp_socket s = sock_add s x;
  add_dns_is_add : forall s l, exists x, sock_view x = SockView_mk KDns false /\ add_dns_socket s l = sock_add s x;
  dhcp_poll_view : forall s h ev s' h', dhcp_socket_poll s h = Return (ev, s') ->
    sock_view <$> sock_get s' h' = sock_view <$> sock_get s h';
  dhcp_reset_view : forall s h s' h', dhcp_socket_reset s h = Return s' ->
    sock_view <$> sock_get s' h' = sock_view <$> sock_get s h';
  dns_start_view : forall s h name r s' h', dns_start_query s h name = Return (r, s') ->
    sock_view <$> sock_get s' h' = sock_view <$> sock_get s h';
  dns_result_view : forall s h q r s' h', dns_get_result s h q = Return (r, s') ->
    sock_view <$> sock_get s' h' = sock_view <$> sock_get s h';
  (** They return when the handle names a socket of the type; [get_query_result] also
      needs the slot to be in use, and frees it unless the query is pending. *)
  dhcp_poll_ok : forall s h x, sock_get s h = Some x -> sv_kind (sock_view x) = KDhcp ->
    exists r, dhcp_socket_poll s h = Return r;
  dhcp_reset_ok : forall s h x, sock_get s h = Some x -> sv_kind (sock_view x) = KDhcp ->
    exists r, dhcp_socket_reset s h = Return r;
  dns_get_mut_ok : forall s h x, sock_get s h = Some x -> sv_kind (sock_view x) = KDns ->
    dns_get_mut s h = Return tt;
  dns_start_ok : forall s h x name, sock_get s h = Some x -> sv_kind (sock_view x) = KDns ->
    exists r, dns_start_query s h name = Return r;
  dns_result_ok : forall s h x q, sock_get s h = Some x -> sv_kind (sock_view x) = KDns ->
    dns_busy s h q = true -> exists r, dns_get_result s h q = Return r;
  dns_result_free : forall s h q, dns_busy s h q = false -> dns_get_result s h q = Panic;
  dns_start_busy : forall s h name r s' q, dns_start_query s h name = Return (r, s') ->
    match r with
    | Ok q0 => dns_busy s h q0 = false /\ dns_busy s' h q = bool_decide (q = q0) || dns_busy s h q
    | Err _ => dns_busy s' h q = dns_busy s h q
    end;
  iface_poll_busy : forall i t d s i' d' s' h q, iface_poll i t d s = Return (i', d', s') ->
    dns_busy s' h q = dns_busy s h q;
  dns_result_busy : forall s h q0 r s' q, dns_get_result s h q0 = Return (r, s') ->
    dns_busy s' h q =
      match r with Err QueryPending => dns_busy s h q | _ => negb (bool_decide (q = q0)) && dns_busy s h q end;
}.

Section sockets.
Context {M I SS H QH Sock : Type} `{SI : Smoltcp I SS H QH} {SK : SocketSet I SS H QH (NetworkDevice M) Sock}.
Abbreviation stack := (NetworkStack (M:=M) (I:=I) (S:=SS)).

(** ** [net/stack.rs] *)

(** [SocketSet::get_mut::<T>]: panics for an unknown handle or another type. *)
Definition get_mut (s : stack) (handle : H) (k : SocketKind) : Outcome Sock :=
  match sock_get (ns_sockets s) handle with
  | Some x => if decide (sv_kind (sock_view x) = k) then Return x else Panic
  | None => Panic
  end.

(** A method call through [get_mut]. *)
Definition socket_call {R} (s : stack) (handle : H) (o : SockOp R) : Outcome (R * stack) :=
  let! x := get_mut s handle (op_kind o) in
  let '(r, i, x) := sock_op o (ns_interface s) x in
  Return (r, with_sockets (with_interface s i) (sock_put (ns_sockets s) handle x)).

Definition map_err {A E E'} (e : E') (r : Result A E) : Result A E' :=
  match r with Ok a => Ok a | Err _ => Err e end.

Definition stack_poll (s : stack) (timestamp : Z) : Outcome stack :=
  let! (i, d, so) := iface_poll (ns_interface s) timestamp (ns_device s) (ns_sockets s) in
  Return (NetworkStack_mk d i so (ns_config s) (ns_dns_servers s)).

Definition ip_address (s : stack) : option Ipv4Address := cidr_ip <$> head (ip_addrs (ns_interface s)).

Definition add_socket (s : stack) (x : Sock) : H * stack :=
  let '(h, so) := sock_add (ns_sockets s) x in (h, with_sockets s so).

Definition tcp_socket (alloc_ok : Z -> bool) (s : stack) : Outcome (H * stack) :=
  let! _ := vec_alloc alloc_ok (Z.of_nat TCP_RX_BUFFER_SIZE) in
  let! _ := vec_alloc alloc_ok (Z.of_nat TCP_TX_BUFFER_SIZE) in
  Return (add_socket s (tcp_new TCP_RX_BUFFER_SIZE TCP_TX_BUFFER_SIZE)).

Definition udp_socket (alloc_ok : Z -> bool) (s : stack) : Outcome (H * stack) :=
  let! _ := vec_alloc alloc_ok (Z.of_nat UDP_RX_META_SIZE * udp_meta_bytes) in
  let! _ := vec_alloc alloc_ok (Z.of_nat UDP_BUFFER_SIZE) in
  let! _ := vec_alloc alloc_ok (Z.of_nat UDP_TX_META_SIZE * udp_meta_bytes) in
  let! _ := vec_alloc alloc_ok (Z.of_nat UDP_BUFFER_SIZE) in
  Return (add_socket s (udp_new UDP_RX_META_SIZE UDP_BUFFER_SIZE UDP_TX_META_SIZE UDP_BUFFER_SIZE)).

Definition icmp_socket (alloc_ok : Z -> bool) (s : stack) : Outcome (H * stack) :=
  let! _ := vec_alloc alloc_ok (4 * icmp_meta_bytes) in
  let! _ := vec_alloc alloc_ok 1024 in
  let! _ := vec_alloc alloc_ok (4 * icmp_meta_bytes) in
  let! _ := vec_alloc alloc_ok 1024 in
  Return (add_socket s (icmp_new 4 1024 4 1024)).

Definition tcp_connect (s : stack) (handle : H) (remote : IpEndpoint) (local_port : Z)
    : Outcome (Result unit NetError * stack) :=
  let! (r, s) := socket_call s handle (OpTcpConnect remote local_port) in
  Return (map_err ConnectionRefused r, s).

Definition tcp_listen (s : stack) (handle : H) (port : Z) : Outcome (Result unit NetError * stack) :=
  let! (r, s) := socket_call s handle (OpTcpListen port) in Return (map_err IoError r, s).

Definition tcp_close (s : stack) (handle : H) : Outcome stack :=
  let! (_, s) := socket_call s handle OpTcpClose in Return s.

Definition udp_bind (s : stack) (handle : H) (port : Z) : Outcome (Result unit NetError * stack) :=
  let! (r, s) := socket_call s handle (OpUdpBind port) in Return (map_err IoError r, s).

(** [check_icmp]: one socket of the loop; the buffer is shared by all of them. *)
Definition check_icmp_socket (h : H) (st : list byte * list ConsoleOp * stack)
    : Outcome (list byte * list ConsoleOp * stack) :=
  let '(buffer, out, s) := st in
  match sock_get (ns_sockets s) h with
  | Some x =>
      if decide (sv_kind (sock_view x) = KIcmp) then
        let! (can_recv, s) := socket_call s h OpIcmpCanRecv in
        if can_recv : bool then
          let! (r, s) := socket_call s h (OpIcmpRecvSlice buffer) in
          let '(received, buffer) := r in
          match received with
          | Ok (len, source) =>
              if decide (len <= length buffer)%nat then
                match icmpv4_parse (take len buffer) with
                | Some (EchoReply ident seq_no _) =>
                    Return (buffer,
                      out ++ [Println (NL ++ "[Network] Ping reply from " ++ show_ipv4 source ++ ": ident="
                                       ++ show_uint ident ++ ", seq=" ++ show_uint seq_no)], s)
                | _ => Return (buffer, out, s)
                end
              else Panic
          | Err _ => Return (buffer, out, s)
          end
        else Return (buffer, out, s)
      else Return (buffer, out, s)
  | None => Return (buffer, out, s)
  end.

Definition check_icmp (s : stack) : Outcome (list ConsoleOp * stack) :=
  let! (_, out, s) :=
    for_each (sock_handles (ns_sockets s)) check_icmp_socket (replicate 1024 Byte.x00, [], s) in
  Return (out, s).

(** ** [net/socket.rs] *)

Record TcpSocket : Type := TcpSocket_mk { tcp_handle : H; tcp_local_port : Z }.
Record UdpSocket : Type := UdpSocket_mk { udp_handle : H; udp_local_port : Z }.

Definition TcpSocket_new (alloc_ok : Z -> bool) (s : stack) : Outcome (TcpSocket * stack) :=
  let! (h, s) := tcp_socket alloc_ok s in Return (TcpSocket_mk h 0, s).

(** [connect] takes its local port from the static counter. *)
Definition TcpSocket_connect (t : TcpSocket) (s : stack) (counter : Z) (addr : Ipv4Address) (port : Z)
    : Outcome (Result unit NetError * TcpSocket * stack * Z) :=
  let '(local_port, counter) := ephemeral_port counter in
  let t := TcpSocket_mk (tcp_handle t) local_port in
  let! (r, s) := tcp_connect s (tcp_handle t) (IpEndpoint_new addr port) (tcp_local_port t) in
  Return (r, t, s, counter).

Definition TcpSocket_listen (t : TcpSocket) (s : stack) (port : Z)
    : Outcome (Result unit NetError * TcpSocket * stack) :=
  let t := TcpSocket_mk (tcp_handle t) port in
  let! (r, s) := tcp_listen s (tcp_handle t) port in Return (r, t, s).

Definition TcpSocket_is_connected (t : TcpSocket) (s : stack) : Outcome (bool * stack) :=
  socket_call s (tcp_handle t) OpTcpIsActive.
Definition TcpSocket_can_send (t : TcpSocket) (s : stack) : Outcome (bool * stack) :=
  socket_call s (tcp_handle t) OpTcpCanSend.
Definition TcpSocket_can_recv (t : TcpSocket) (s : stack) : Outcome (bool * stack) :=
  socket_call s (tcp_handle t) OpTcpCanRecv.

Definition TcpSocket_send (t : TcpSocket) (s : stack) (data : list byte) : Outcome (Result nat NetError * stack) :=
  let! (r, s) := socket_call s (tcp_handle t) (OpTcpSendSlice data) in Return (map_err BufferFull r, s).

Definition TcpSocket_recv (t : TcpSocket) (s : stack) (buf : list byte)
    : Outcome (Result nat NetError * list byte * stack) :=
  let! (r, s) := socket_call s (tcp_handle t) (OpTcpRecvSlice buf) in Return (map_err IoError r.1, r.2, s).

Definition TcpSocket_close (t : TcpSocket) (s : stack) : Outcome stack := tcp_close s (tcp_handle t).

Definition UdpSocket_new (alloc_ok : Z -> bool) (s : stack) : Outcome (UdpSocket * stack) :=
  let! (h, s) := udp_socket alloc_ok s in Return (UdpSocket_mk h 0, s).

Definition UdpSocket_bind (u : UdpSocket) (s : stack) (port : Z)
    : Outcome (Result unit NetError * UdpSocket * stack) :=
  let u := UdpSocket_mk (udp_handle u) port in
  let! (r, s) := udp_bind s (udp_handle u) port in Return (r, u, s).

Definition UdpSocket_send_to (u : UdpSocket) (s : stack) (data : list byte) (remote : IpEndpoint)
    : Outcome (Result unit NetError * stack) :=
  let! (r, s) := socket_call s (udp_handle u) (OpUdpSendSlice data remote) in Return (map_err BufferFull r, s).

Definition UdpSocket_recv_from (u : UdpSocket) (s : stack) (buf : list byte)
    : Outcome (Result (nat * IpEndpoint) NetError * list byte * stack) :=
  let! (r, s) := socket_call s (udp_handle u) (OpUdpRecvSlice buf) in Return (map_err IoError r.1, r.2, s).

Definition UdpSocket_can_send (u : UdpSocket) (s : stack) : Outcome (bool * stack) :=
  socket_call s (udp_handle u) OpUdpCanSend.
Definition UdpSocket_can_recv (u : UdpSocket) (s : stack) : Outcome (bool * stack) :=
  socket_call s (udp_handle u) OpUdpCanRecv.
End sockets.
