(* ===== verification/SocketsSpec.v ===== *)
(** * Socket handles stay valid

    The lookups of the socket set panic for a stale or mistyped handle.  The
    kernel keeps handles in the socket wrappers, the DHCP client and the resolver;
    this file shows that over every history of their operations each of these
    handles names a socket of its own type, so that no lookup panics. *)

From S2P Require Import Prelude Text E1000 Device Net NetSpec Vga Shell Boot Sockets.
Open Scope Z_scope.

Section spec.
Context {M I SS H QH Sock : Type} `{SI : Smoltcp I SS H QH} {SK : SocketSet I SS H QH (NetworkDevice M) Sock}.
Abbreviation stack := (NetworkStack (M:=M) (I:=I) (S:=SS)).
Implicit Types s : stack.

Definition view_of s (h : H) : option SockView := sock_view <$> sock_get (ns_sockets s) h.

(** Every socket of the first stack is in the second one, unchanged in its view. *)
Definition views_le s s' : Prop := forall h v, view_of s h = Some v -> view_of s' h = Some v.

#[global] Instance views_le_preorder : PreOrder views_le.
Proof. split; [by intros s h v|]. intros s1 s2 s3 H1 H2 h v Hv. by apply H2, H1. Qed.

Lemma views_eq_le s s' : (forall h, view_of s' h = view_of s h) -> views_le s s'.
Proof. intros E h v. by rewrite E. Qed.

(** The configuration of the stack: what socket traffic does not change. *)
Definition same_config s s' : Prop :=
  ip_addrs (ns_interface s') = ip_addrs (ns_interface s) /\
  ns_dns_servers s' = ns_dns_servers s /\ ns_device s' = ns_device s.

#[global] Instance same_config_equiv : Equivalence same_config.
Proof.
  split; [done|intros s1 s2 (? & ? & ?); by split_and!|].
  intros s1 s2 s3 (? & ? & ?) (? & ? & ?). split_and!; congruence.
Qed.

(** ** The stack's operations *)

Lemma get_mut_view s h v : view_of s h = Some v -> exists x, get_mut s h (sv_kind v) = Return x /\ sock_view x = v.
Proof.
  unfold view_of, get_mut. destruct (sock_get _ h) as [x|]; simpl; [|done]. intros [= <-].
  rewrite decide_True by done. eauto.
Qed.

(** A method call on a socket of its type returns and keeps every view, the
    configuration of the stack. *)
Lemma socket_call_ok {R} (o : SockOp R) s h v :
  view_of s h = Some v -> sv_kind v = op_kind o ->
  exists r s', socket_call s h o = Return (r, s') /\
    (forall h', view_of s' h' = view_of s h') /\ same_config s s'.
Proof.
  intros Hv Hk. destruct (get_mut_view s h v Hv) as (x & Hx & Exv). rewrite Hk in Hx.
  unfold socket_call. rewrite Hx. cbn [outcome_bind].
  pose proof (sock_op_view R o (ns_interface s) x) as Ho.
  pose proof (sock_op_addrs R o (ns_interface s) x) as Ha.
  destruct (sock_op o (ns_interface s) x) as [[r i] x']. simpl in Ho, Ha.
  eexists _, _. split; [done|]. split; [|done]. intros h'. unfold view_of. cbn.
  unfold view_of in Hv. destruct (sock_get (ns_sockets s) h) as [x0|] eqn:Eg; [|done].
  rewrite (sock_put_get _ _ x0) by done. case_decide; [|done]. subst h'. rewrite Eg. cbn.
  unfold get_mut in Hx. rewrite Eg in Hx. case_decide; [|done]. simplify_eq. by rewrite Ho.
Qed.

(** A call that returned found its socket. *)
Lemma socket_call_inv {R} (o : SockOp R) s h r s' :
  socket_call s h o = Return (r, s') ->
  (forall h', view_of s' h' = view_of s h') /\ same_config s s'.
Proof.
  intros E. destruct (view_of s h) as [v|] eqn:Hv.
  - destruct (decide (sv_kind v = op_kind o)) as [Hk|Hk].
    + destruct (socket_call_ok o s h v Hv Hk) as (r' & s'' & E' & ?). rewrite E in E'. by injection E' as <- <-.
    + unfold view_of in Hv. unfold socket_call, get_mut in E. destruct (sock_get _ h); [|done].
      simplify_eq/=. by rewrite decide_False in E.
  - unfold view_of in Hv. unfold socket_call, get_mut in E. by destruct (sock_get _ h).
Qed.

Lemma add_socket_spec s x h s' :
  add_socket s x = (h, s') ->
  view_of s h = None /\ view_of s' h = Some (sock_view x) /\ views_le s s' /\
  (forall h', h' <> h -> view_of s' h' = view_of s h') /\ ns_interface s' = ns_interface s.
Proof.
  unfold add_socket. pose proof (sock_add_fresh (ns_sockets s) x) as Hf.
  pose proof (sock_add_get (ns_sockets s) x) as Hg.
  destruct (sock_add (ns_sockets s) x) as [h0 so]. intros [= <- <-]. simpl in Hf, Hg.
  unfold view_of, views_le, view_of. cbn. split_and!.
  - by rewrite Hf.
  - by rewrite Hg, decide_True.
  - intros h' v. rewrite Hg. case_decide; [subst; by rewrite Hf|done].
  - intros h' Hne. by rewrite Hg, decide_False.
  - done.
Qed.

(** A new socket is the one its constructor makes, when the heap has its buffers. *)
Lemma vec_alloc_ok alloc_ok len : len <= isize_max -> alloc_ok len = true -> vec_alloc alloc_ok len = Return tt.
Proof. intros Hl Ha. unfold vec_alloc. case_decide; [done|]. by rewrite Ha, (proj2 (Z.ltb_ge _ _) Hl). Qed.

#[local] Ltac allocated :=
  repeat match goal with |- context [vec_alloc ?a ?n] => destruct (vec_alloc a n); [|done] end; cbn [outcome_bind].

Lemma tcp_socket_add alloc_ok s h s' :
  tcp_socket alloc_ok s = Return (h, s') -> add_socket s (tcp_new TCP_RX_BUFFER_SIZE TCP_TX_BUFFER_SIZE) = (h, s').
Proof. unfold tcp_socket. allocated. congruence. Qed.

Lemma udp_socket_add alloc_ok s h s' :
  udp_socket alloc_ok s = Return (h, s') ->
  add_socket s (udp_new UDP_RX_META_SIZE UDP_BUFFER_SIZE UDP_TX_META_SIZE UDP_BUFFER_SIZE) = (h, s').
Proof. unfold udp_socket. allocated. congruence. Qed.

Lemma icmp_socket_add alloc_ok s h s' :
  icmp_socket alloc_ok s = Return (h, s') -> add_socket s (icmp_new 4 1024 4 1024) = (h, s').
Proof. unfold icmp_socket. allocated. congruence. Qed.

Lemma stack_poll_views s t s' h : stack_poll s t = Return s' -> view_of s' h = view_of s h.
Proof.
  unfold stack_poll. destruct (iface_poll _ _ _ _) as [[[i d] so]|] eqn:E; [|done]. intros [= <-].
  by eapply (iface_poll_view _ _ _ _ _ _ _ h) in E.
Qed.

(** [check_icmp] only receives. *)
Lemma check_icmp_socket_views h b o s b' o' s' :
  check_icmp_socket h (b, o, s) = Return (b', o', s') ->
  (forall h', view_of s' h' = view_of s h') /\ same_config s s'.
Proof.
  unfold check_icmp_socket. destruct (sock_get _ h) as [x|]; [|by intros [= <- <- <-]].
  case_decide; [|by intros [= <- <- <-]].
  destruct (socket_call s h OpIcmpCanRecv) as [[[] s1]|] eqn:E1; [..|done]; cbn [outcome_bind];
    apply socket_call_inv in E1 as [V1 A1]; [|by intros [= <- <- <-]].
  destruct (socket_call s1 h (OpIcmpRecvSlice b)) as [[[rc b1] s2]|] eqn:E2; [|done]. cbn [outcome_bind].
  apply socket_call_inv in E2 as [V2 A2].
  assert (Hs2 : (forall h', view_of s2 h' = view_of s h') /\ same_config s s2).
  { split; [intros h'; by rewrite V2|by rewrite A1]. }
  destruct rc as [[len src]|]; [|by intros [= <- <- <-]]. case_decide; [|done].
  destruct (icmpv4_parse _) as [[]|]; by intros [= <- <- <-].
Qed.

Lemma check_icmp_loop hs b o s b' o' s' :
  for_each hs check_icmp_socket (b, o, s) = Return (b', o', s') ->
  (forall h', view_of s' h' = view_of s h') /\ same_config s s'.
Proof.
  revert b o s. induction hs as [|h hs IH]; intros b o s; cbn [for_each]; [by intros [= <- <- <-]|].
  destruct (check_icmp_socket h (b, o, s)) as [[[b1 o1] s1]|] eqn:E; [|done]. cbn [outcome_bind].
  intros Hl. apply check_icmp_socket_views in E as [V A]. apply IH in Hl as [V' A'].
  split; [intros h'; by rewrite V', V|by rewrite A].
Qed.

Lemma check_icmp_views s out s' :
  check_icmp s = Return (out, s') ->
  (forall h', view_of s' h' = view_of s h') /\ same_config s s'.
Proof.
  unfold check_icmp. destruct (for_each _ _ _) as [[[b o] s1]|] eqn:E; [|done]. intros [= <- <-].
  by eapply check_icmp_loop.
Qed.

(** No ICMP socket is bound. *)
Definition icmp_unbound s : Prop := forall h b, view_of s h = Some (SockView_mk KIcmp b) -> b = false.

Lemma check_icmp_socket_silent h b o s :
  icmp_unbound s -> exists s', check_icmp_socket h (b, o, s) = Return (b, o, s') /\ icmp_unbound s'.
Proof.
  intros Hu. unfold check_icmp_socket. destruct (sock_get (ns_sockets s) h) as [x|] eqn:E; [|eauto].
  case_decide as Hk; [|eauto].
  assert (Hv : view_of s h = Some (sock_view x)) by (unfold view_of; by rewrite E).
  assert (Hx : sock_view x = SockView_mk KIcmp false).
  { destruct (sock_view x) as [k bd] eqn:Ex. simpl in Hk. subst k. f_equal. by apply (Hu h). }
  destruct (socket_call_ok OpIcmpCanRecv s h _ Hv ltac:(by rewrite Hx)) as (r & s' & Ec & Vc & _).
  rewrite Ec. cbn [outcome_bind].
  assert (r = false) as ->.
  { unfold socket_call, get_mut in Ec. rewrite E, decide_True in Ec by (by rewrite Hx). cbn [outcome_bind] in Ec.
    pose proof (icmp_unbound_empty (ns_interface s) x Hx) as He.
    destruct (sock_op OpIcmpCanRecv (ns_interface s) x) as [[r0 i0] x0]. by simplify_eq/=. }
  exists s'. split; [done|]. intros h' b'. rewrite Vc. apply Hu.
Qed.

Lemma check_icmp_silent s : icmp_unbound s -> exists s', check_icmp s = Return ([], s') /\ icmp_unbound s'.
Proof.
  intros Hu. unfold check_icmp. generalize (sock_handles (ns_sockets s)) as hs.
  generalize (replicate 1024 Byte.x00) as b. intros b hs.
  assert (Hl : exists s', for_each hs check_icmp_socket (b, [], s) = Return (b, [], s') /\ icmp_unbound s').
  { revert s Hu. induction hs as [|h hs IH]; intros s Hu; cbn [for_each]; [eauto|].
    destruct (check_icmp_socket_silent h b [] s Hu) as (s1 & -> & H1). cbn [outcome_bind]. by apply IH. }
  destruct Hl as (s' & -> & H'). cbn [outcome_bind]. eauto.
Qed.

Lemma icmp_unbound_views s s' : icmp_unbound s -> (forall h, view_of s' h = view_of s h) -> icmp_unbound s'.
Proof. intros Hu Hv h b. rewrite Hv. apply Hu. Qed.

Lemma icmp_unbound_add s x h s' :
  icmp_unbound s -> add_socket s x = (h, s') ->
  (sv_kind (sock_view x) <> KIcmp \/ sv_bound (sock_view x) = false) -> icmp_unbound s'.
Proof.
  intros Hu Ha Hx h' b Hb. apply add_socket_spec in Ha as (_ & Hh & _ & Ho & _).
  destruct (decide (h' = h)) as [->|Hne].
  - rewrite Hh in Hb. injection Hb as Hb. rewrite Hb in Hx. simpl in Hx. by destruct Hx.
  - rewrite Ho in Hb by done. by eapply Hu.
Qed.

(** ** Histories *)

Inductive TcpCall : Type :=
| TcConnect (addr : Ipv4Address) (port : Z)
| TcListen (port : Z)
| TcIsConnected
| TcCanSend
| TcCanRecv
| TcSend (data : list byte)
| TcRecv (buf : list byte)
| TcClose.

Inductive UdpCall : Type :=
| UcBind (port : Z)
| UcSendTo (data : list byte) (remote : IpEndpoint)
| UcRecvFrom (buf : list byte)
| UcCanSend
| UcCanRecv.

(** A method of a wrapper, without its result: the wrapper, the stack and the port
    counter after it. *)
Definition tcp_run (c : TcpCall) (t : TcpSocket) s (counter : Z) : Outcome (TcpSocket * stack * Z) :=
  match c with
  | TcConnect addr port =>
      let! (_, t, s, counter) := TcpSocket_connect t s counter addr port in Return (t, s, counter)
  | TcListen port => let! (_, t, s) := TcpSocket_listen t s port in Return (t, s, counter)
  | TcIsConnected => let! (_, s) := TcpSocket_is_connected t s in Return (t, s, counter)
  | TcCanSend => let! (_, s) := TcpSocket_can_send t s in Return (t, s, counter)
  | TcCanRecv => let! (_, s) := TcpSocket_can_recv t s in Return (t, s, counter)
  | TcSend data => let! (_, s) := TcpSocket_send t s data in Return (t, s, counter)
  | TcRecv buf => let! (_, _, s) := TcpSocket_recv t s buf in Return (t, s, counter)
  | TcClose => let! s := TcpSocket_close t s in Return (t, s, counter)
  end.

Definition udp_run (c : UdpCall) (u : UdpSocket) s : Outcome (UdpSocket * stack) :=
  match c with
  | UcBind port => let! (_, u, s) := UdpSocket_bind u s port in Return (u, s)
  | UcSendTo data remote => let! (_, s) := UdpSocket_send_to u s data remote in Return (u, s)
  | UcRecvFrom buf => let! (_, _, s) := UdpSocket_recv_from u s buf in Return (u, s)
  | UcCanSend => let! (_, s) := UdpSocket_can_send u s in Return (u, s)
  | UcCanRecv => let! (_, s) := UdpSocket_can_recv u s in Return (u, s)
  end.

(** Everything that holds a handle, around one stack. *)
Record SockWorld : Type := SockWorld_mk {
  w_stack : stack;
  w_dhcp : DhcpClient (H:=H);
  w_dns : DnsResolver (H:=H) (QH:=QH);
  w_tcp : list (TcpSocket (H:=H));
  w_udp : list (UdpSocket (H:=H));
  w_ports : Z;
}.
Implicit Types w : SockWorld.

Definition sock_start s : SockWorld :=
  SockWorld_mk s DhcpClient_new DnsResolver_new [] [] EPHEMERAL_PORT_COUNTER.

Inductive sock_step w : SockWorld -> Prop :=
| ss_tcp_new alloc_ok t s : TcpSocket_new alloc_ok (w_stack w) = Return (t, s) ->
    sock_step w (SockWorld_mk s (w_dhcp w) (w_dns w) (t :: w_tcp w) (w_udp w) (w_ports w))
| ss_udp_new alloc_ok u s : UdpSocket_new alloc_ok (w_stack w) = Return (u, s) ->
    sock_step w (SockWorld_mk s (w_dhcp w) (w_dns w) (w_tcp w) (u :: w_udp w) (w_ports w))
| ss_tcp k t c t' s n : w_tcp w !! k = Some t -> tcp_run c t (w_stack w) (w_ports w) = Return (t', s, n) ->
    sock_step w (SockWorld_mk s (w_dhcp w) (w_dns w) (<[k := t']> (w_tcp w)) (w_udp w) n)
| ss_udp k u c u' s : w_udp w !! k = Some u -> udp_run c u (w_stack w) = Return (u', s) ->
    sock_step w (SockWorld_mk s (w_dhcp w) (w_dns w) (w_tcp w) (<[k := u']> (w_udp w)) (w_ports w))
| ss_ping alloc_ok h s data dst r s' : icmp_socket alloc_ok (w_stack w) = Return (h, s) ->
    socket_call s h (OpIcmpSendSlice data dst) = Return (r, s') ->
    sock_step w (SockWorld_mk s' (w_dhcp w) (w_dns w) (w_tcp w) (w_udp w) (w_ports w))
| ss_check_icmp out s : check_icmp (w_stack w) = Return (out, s) ->
    sock_step w (SockWorld_mk s (w_dhcp w) (w_dns w) (w_tcp w) (w_udp w) (w_ports w))
| ss_poll t s : stack_poll (w_stack w) t = Return s ->
    sock_step w (SockWorld_mk s (w_dhcp w) (w_dns w) (w_tcp w) (w_udp w) (w_ports w))
| ss_dhcp_start t d s : DhcpClient_start (w_dhcp w) (w_stack w) t = (d, s) ->
    sock_step w (SockWorld_mk s d (w_dns w) (w_tcp w) (w_udp w) (w_ports w))
| ss_dhcp_poll t ev d s : DhcpClient_poll (w_dhcp w) (w_stack w) t = Return (ev, d, s) ->
    sock_step w (SockWorld_mk s d (w_dns w) (w_tcp w) (w_udp w) (w_ports w))
| ss_dhcp_renew d s : DhcpClient_renew (w_dhcp w) (w_stack w) = Return (d, s) ->
    sock_step w (SockWorld_mk s d (w_dns w) (w_tcp w) (w_udp w) (w_ports w))
| ss_dns_init r s : DnsResolver_init (w_dns w) (w_stack w) = (r, s) ->
    sock_step w (SockWorld_mk s (w_dhcp w) r (w_tcp w) (w_udp w) (w_ports w))
| ss_dns_resolve name q r s : DnsResolver_resolve (w_dns w) (w_stack w) name = Return (q, r, s) ->
    sock_step w (SockWorld_mk s (w_dhcp w) r (w_tcp w) (w_udp w) (w_ports w))
| ss_dns_poll rs r s : DnsResolver_poll (w_dns w) (w_stack w) = Some (Return (rs, r, s)) ->
    sock_step w (SockWorld_mk s (w_dhcp w) r (w_tcp w) (w_udp w) (w_ports w))
| ss_dns_result q x r s : DnsResolver_get_result (w_dns w) (w_stack w) q = Return (x, r, s) ->
    sock_step w (SockWorld_mk s (w_dhcp w) r (w_tcp w) (w_udp w) (w_ports w)).

(** The handles held, with the type each holder expects. *)
Definition held (d : DhcpClient (H:=H)) (r : DnsResolver (H:=H) (QH:=QH)) (ts : list TcpSocket) (us : list UdpSocket)
    : list (H * SocketKind) :=
  ((fun h => (h, KDhcp)) <$> option_list (dhcp_socket d)) ++ ((fun h => (h, KDns)) <$> option_list (dns_socket r)) ++
  ((fun t => (tcp_handle t, KTcp)) <$> ts) ++ ((fun u => (udp_handle u, KUdp)) <$> us).

Definition w_held w : list (H * SocketKind) := held (w_dhcp w) (w_dns w) (w_tcp w) (w_udp w).

Definition typed_in s (hk : H * SocketKind) : Prop := sv_kind <$> view_of s hk.1 = Some hk.2.

Lemma typed_get_mut s h k : typed_in s (h, k) -> exists x, get_mut s h k = Return x.
Proof.
  unfold typed_in. simpl. destruct (view_of s h) as [v|] eqn:Ev; simpl; [|done]. intros [= <-].
  destruct (get_mut_view s h v Ev) as (x & ? & _). eauto.
Qed.

Lemma typed_get s h k :
  typed_in s (h, k) -> exists x, sock_get (ns_sockets s) h = Some x /\ sv_kind (sock_view x) = k.
Proof.
  unfold typed_in, view_of. simpl. destruct (sock_get _ h) as [x|]; simpl; [|done]. intros [= <-]. eauto.
Qed.

(** With sockets of their types, the DHCP client and the resolver return. *)
Lemma dhcp_poll_returns (d : DhcpClient (H:=H)) s t :
  (forall h, dhcp_socket d = Some h -> typed_in s (h, KDhcp)) -> exists r, DhcpClient_poll d s t = Return r.
Proof.
  unfold DhcpClient_poll. destruct (dhcp_socket d) as [h|]; [|by eexists]. intros Hd.
  destruct (timed_out d t); [unfold fallback_to_link_local; by eexists|].
  destruct (typed_get _ _ _ (Hd h eq_refl)) as (x & Hx & Hk). destruct (dhcp_poll_ok _ _ _ Hx Hk) as [[ev so] ->].
  cbn [outcome_bind]. destruct ev as [[]|]; by eexists.
Qed.

Lemma dhcp_renew_returns (d : DhcpClient (H:=H)) s :
  (forall h, dhcp_socket d = Some h -> typed_in s (h, KDhcp)) -> exists r, DhcpClient_renew d s = Return r.
Proof.
  unfold DhcpClient_renew. destruct (dhcp_socket d) as [h|]; [|by eexists]. intros Hd.
  destruct (typed_get _ _ _ (Hd h eq_refl)) as (x & Hx & Hk). destruct (dhcp_reset_ok _ _ _ Hx Hk) as [so ->].
  by eexists.
Qed.

Lemma dns_resolve_returns (r : DnsResolver (H:=H) (QH:=QH)) s name :
  (forall h, dns_socket r = Some h -> typed_in s (h, KDns)) -> exists x, DnsResolver_resolve r s name = Return x.
Proof.
  unfold DnsResolver_resolve, start_dns_query. destruct (dns_socket r) as [h|]; [|by eexists]. intros Hd.
  destruct (typed_get _ _ _ (Hd h eq_refl)) as (x & Hx & Hk). destruct (dns_start_ok _ _ _ name Hx Hk) as [[q so] ->].
  cbn [outcome_bind]. destruct q as [|[]]; by eexists.
Qed.

Record sock_inv w : Prop := {
  si_nodup : NoDup (w_held w).*1;
  si_typed : Forall (typed_in (w_stack w)) (w_held w);
  si_unbound : icmp_unbound (w_stack w);
}.

(** ** The wrappers *)

#[local] Ltac unfold_wrappers :=
  unfold TcpSocket_connect, TcpSocket_listen, TcpSocket_is_connected, TcpSocket_can_send, TcpSocket_can_recv,
    TcpSocket_send, TcpSocket_recv, TcpSocket_close, UdpSocket_bind, UdpSocket_send_to, UdpSocket_recv_from,
    UdpSocket_can_send, UdpSocket_can_recv, tcp_connect, tcp_listen, tcp_close, udp_bind, ephemeral_port.

Lemma tcp_run_inv c t s n t' s' n' :
  tcp_run c t s n = Return (t', s', n') ->
  tcp_handle t' = tcp_handle t /\ forall h, view_of s' h = view_of s h.
Proof.
  destruct c; cbn [tcp_run]; unfold_wrappers; cbn [tcp_handle tcp_local_port];
    (destruct (socket_call s (tcp_handle t) _) as [[r s1]|] eqn:E; [|done]); cbn [outcome_bind];
    intros [= <- <- <-]; (split; [done|apply (socket_call_inv _ _ _ _ _ E)]).
Qed.

Lemma udp_run_inv c u s u' s' :
  udp_run c u s = Return (u', s') -> udp_handle u' = udp_handle u /\ forall h, view_of s' h = view_of s h.
Proof.
  destruct c; cbn [udp_run]; unfold_wrappers; cbn [udp_handle udp_local_port];
    (destruct (socket_call s (udp_handle u) _) as [[r s1]|] eqn:E; [|done]); cbn [outcome_bind];
    intros [= <- <-]; (split; [done|apply (socket_call_inv _ _ _ _ _ E)]).
Qed.

(** With a handle of its type, no method of a wrapper panics. *)
Lemma tcp_run_returns c t s n : typed_in s (tcp_handle t, KTcp) -> exists r, tcp_run c t s n = Return r.
Proof.
  unfold typed_in. simpl. destruct (view_of s (tcp_handle t)) as [v|] eqn:Ev; simpl; [|done]. intros [= Hk].
  destruct c; cbn [tcp_run]; unfold_wrappers; cbn [tcp_handle tcp_local_port];
    match goal with |- context [socket_call s (tcp_handle t) ?o] =>
      destruct (socket_call_ok o s (tcp_handle t) v Ev Hk) as (r & s' & -> & _) end; cbn [outcome_bind]; eauto.
Qed.

Lemma udp_run_returns c u s : typed_in s (udp_handle u, KUdp) -> exists r, udp_run c u s = Return r.
Proof.
  unfold typed_in. simpl. destruct (view_of s (udp_handle u)) as [v|] eqn:Ev; simpl; [|done]. intros [= Hk].
  destruct c; cbn [udp_run]; unfold_wrappers; cbn [udp_handle udp_local_port];
    match goal with |- context [socket_call s (udp_handle u) ?o] =>
      destruct (socket_call_ok o s (udp_handle u) v Ev Hk) as (r & s' & -> & _) end; cbn [outcome_bind]; eauto.
Qed.

(** ** Preservation *)

Lemma inv_same w w' :
  sock_inv w -> w_held w' = w_held w -> (forall h, view_of (w_stack w') h = view_of (w_stack w) h) -> sock_inv w'.
Proof.
  intros [Hn Ht Hu] Eh Ev. split; rewrite ?Eh; [done| |by eapply icmp_unbound_views].
  eapply Forall_impl; [exact Ht|]. intros hk. unfold typed_in. by rewrite Ev.
Qed.

(** A new socket, whose handle may be held in place of an older one. *)
Lemma inv_add w w' x h k :
  sock_inv w -> add_socket (w_stack w) x = (h, w_stack w') -> sv_kind (sock_view x) = k ->
  (k <> KIcmp \/ sv_bound (sock_view x) = false) -> w_held w' ⊆+ (h, k) :: w_held w -> sock_inv w'.
Proof.
  intros [Hn Ht Hu] Ea Hk Hb Hsub. pose proof (icmp_unbound_add _ _ _ _ Hu Ea) as Hu'.
  apply add_socket_spec in Ea as (Hfresh & Hnew & Hle & _). split.
  - apply (submseteq_NoDup _ (((h, k) :: w_held w).*1)); [by apply fmap_submseteq|].
    simpl. constructor; [|done]. intros ([h' k'] & E & Hin)%list_elem_of_fmap. simpl in E. subst h'.
    rewrite Forall_forall in Ht. specialize (Ht _ Hin). unfold typed_in in Ht. simpl in Ht. by rewrite Hfresh in Ht.
  - eapply submseteq_Forall; [exact Hsub|]. constructor.
    + unfold typed_in. simpl. rewrite Hnew. simpl. by rewrite Hk.
    + eapply Forall_impl; [exact Ht|]. intros [h' k']. unfold typed_in. simpl.
      destruct (view_of (w_stack w) h') as [v|] eqn:Ev; [|done]. by rewrite (Hle _ _ Ev).
  - apply Hu'. subst k. done.
Qed.

(** The DHCP client and the resolver change a socket only through its methods. *)
Lemma dhcp_poll_views d s t ev d' s' :
  DhcpClient_poll d s t = Return (ev, d', s') ->
  dhcp_socket d' = dhcp_socket d /\ forall h, view_of s' h = view_of s h.
Proof.
  unfold DhcpClient_poll. destruct (dhcp_socket d) as [h0|] eqn:Ed; [|by intros [= <- <- <-]].
  destruct (timed_out d t); [unfold fallback_to_link_local; by intros [= <- <- <-]|].
  destruct (dhcp_socket_poll (ns_sockets s) h0) as [[ev' so]|] eqn:E; [|done]. cbn [outcome_bind].
  pose proof (fun h => dhcp_poll_view _ _ _ _ h E) as Hv.
  destruct ev' as [[c|]|]; intros [= <- <- <-]; (split; [done|exact Hv]).
Qed.

Lemma dhcp_renew_views d s d' s' :
  DhcpClient_renew d s = Return (d', s') -> dhcp_socket d' = dhcp_socket d /\ forall h, view_of s' h = view_of s h.
Proof.
  unfold DhcpClient_renew. destruct (dhcp_socket d) as [h0|] eqn:Ed; [|by intros [= <- <-]].
  destruct (dhcp_socket_reset _ h0) as [so|] eqn:E; [|done]. intros [= <- <-].
  split; [done|]. intros h. unfold view_of. simpl. by eapply dhcp_reset_view.
Qed.

Lemma dns_resolve_views r s name q r' s' :
  DnsResolver_resolve r s name = Return (q, r', s') ->
  dns_socket r' = dns_socket r /\ forall h, view_of s' h = view_of s h.
Proof.
  unfold DnsResolver_resolve, start_dns_query. destruct (dns_socket r) as [h0|] eqn:Er; [|by intros [= <- <- <-]].
  destruct (dns_start_query (ns_sockets s) h0 name) as [[qr so]|] eqn:E; [|done]. cbn [outcome_bind].
  pose proof (fun h => dns_start_view _ _ _ _ _ h E) as Hv.
  destruct qr as [qh|[]]; intros [= <- <- <-]; (split; [done|exact Hv]).
Qed.

Lemma dns_loop_views fuel h0 i ps rs so rs' ps' so' h :
  dns_poll_loop fuel h0 i ps rs so = Some (Return (rs', ps', so')) ->
  sock_view <$> sock_get so' h = sock_view <$> sock_get so h.
Proof.
  revert i ps rs so. induction fuel as [|fuel IH]; intros i ps rs so; [done|]. cbn [dns_poll_loop].
  destruct (ps !! i) as [[[id q] name]|]; [|by intros [= <- <- <-]].
  destruct (dns_get_result so h0 q) as [[qr so1]|] eqn:Eq; [|done]. apply (dns_result_view _ _ _ _ _ h) in Eq.
  destruct qr as [|[]]; intros E; by rewrite (IH _ _ _ _ E).
Qed.

Lemma dns_poll_views r s rs r' s' :
  DnsResolver_poll r s = Some (Return (rs, r', s')) ->
  dns_socket r' = dns_socket r /\ forall h, view_of s' h = view_of s h.
Proof.
  unfold DnsResolver_poll. destruct (dns_socket r) as [h0|] eqn:Er; [|by intros [= <- <- <-]].
  destruct (dns_get_mut _ h0); [|done].
  destruct (dns_poll_loop _ _ _ _ _ _) as [[[[rs1 ps1] so1]|]|] eqn:E; [|done..]. intros [= <- <- <-].
  split; [done|]. intros h. by apply (dns_loop_views _ _ _ _ _ _ _ _ _ h E).
Qed.

Lemma dns_result_views r s q x r' s' :
  DnsResolver_get_result r s q = Return (x, r', s') ->
  dns_socket r' = dns_socket r /\ forall h, view_of s' h = view_of s h.
Proof.
  unfold DnsResolver_get_result. destruct (dns_socket r) as [h0|] eqn:Er; [|by intros [= <- <- <-]].
  destruct (dns_get_mut _ h0); [|done]. cbn [outcome_bind].
  destruct (dns_get_result (ns_sockets s) h0 (dq_handle q)) as [[qr so]|] eqn:E; [|done]. cbn [outcome_bind].
  pose proof (fun h => dns_result_view _ _ _ _ _ h E) as Hv.
  destruct qr as [|[]]; try (destruct (position (dns_pending r) (dq_id q)) as [pos|]; [destruct (dns_pending r !! pos) as [[[??]?]|]|]);
    intros [= <- <- <-]; (split; [done|exact Hv]).
Qed.

Lemma sock_step_dhcp_start w t d s :
  sock_inv w -> DhcpClient_start (w_dhcp w) (w_stack w) t = (d, s) ->
  sock_inv (SockWorld_mk s d (w_dns w) (w_tcp w) (w_udp w) (w_ports w)).
Proof.
  intros Hi. unfold DhcpClient_start. destruct (add_dhcp_is_add (ns_sockets (w_stack w))) as (x & Hx & ->).
  destruct (sock_add _ x) as [h so] eqn:Ea. intros [= <- <-]. eapply (inv_add w _ x h KDhcp Hi).
  - unfold add_socket. by rewrite Ea.
  - by rewrite Hx.
  - by left.
  - unfold w_held, held. simpl. apply submseteq_skip, submseteq_inserts_l. done.
Qed.

Lemma sock_step_dns_init w r s :
  sock_inv w -> DnsResolver_init (w_dns w) (w_stack w) = (r, s) ->
  sock_inv (SockWorld_mk s (w_dhcp w) r (w_tcp w) (w_udp w) (w_ports w)).
Proof.
  intros Hi. unfold DnsResolver_init. destruct (dns_socket (w_dns w)) as [h0|] eqn:Ed.
  { intros [= <- <-]. by apply (inv_same w). }
  destruct (ns_dns_servers (w_stack w)) as [|a l]; [intros [= <- <-]; by apply (inv_same w)|].
  destruct (add_dns_is_add (ns_sockets (w_stack w)) (a :: l)) as (x & Hx & ->).
  destruct (sock_add _ x) as [h so] eqn:Ea. intros [= <- <-]. eapply (inv_add w _ x h KDns Hi).
  - unfold add_socket. by rewrite Ea.
  - by rewrite Hx.
  - by left.
  - unfold w_held, held. simpl. rewrite Ed. simpl.
    apply Permutation_submseteq. symmetry. apply Permutation_middle.
Qed.

Lemma sock_step_inv w w' : sock_inv w -> sock_step w w' -> sock_inv w'.
Proof.
  intros Hi Hs. destruct Hs as [al t s E|al u s E|k t c t' s n Ek E|k u c u' s Ek E|al h s data dst r s' Ea E|out s E|t s E
    |t d s E|t ev d s E|d s E|r s E|name q r s E|rs r s E|q x r s E].
  - unfold TcpSocket_new in E. destruct (tcp_socket _ _) as [[h s1]|] eqn:Ea; [|done]. injection E as <- <-.
    apply tcp_socket_add in Ea.
    eapply (inv_add w _ _ h KTcp Hi); [exact Ea|apply tcp_new_kind|by left|].
    apply Permutation_submseteq. unfold w_held, held. simpl. solve_Permutation.
  - unfold UdpSocket_new in E. destruct (udp_socket _ _) as [[h s1]|] eqn:Ea; [|done]. injection E as <- <-.
    apply udp_socket_add in Ea.
    eapply (inv_add w _ _ h KUdp Hi); [exact Ea|apply udp_new_kind|by left|].
    apply Permutation_submseteq. unfold w_held, held. simpl. solve_Permutation.
  - apply tcp_run_inv in E as [Eh Ev]. apply (inv_same w); [done| |done].
    unfold w_held, held. simpl. rewrite list_fmap_insert, Eh. do 2 f_equal.
    rewrite list_insert_id; [done|]. by rewrite list_lookup_fmap, Ek.
  - apply udp_run_inv in E as [Eh Ev]. apply (inv_same w); [done| |done].
    unfold w_held, held. simpl. rewrite list_fmap_insert, Eh. do 3 f_equal.
    rewrite list_insert_id; [done|]. by rewrite list_lookup_fmap, Ek.
  - apply icmp_socket_add in Ea. apply socket_call_inv in E as [Ev _].
    apply (inv_same (SockWorld_mk s (w_dhcp w) (w_dns w) (w_tcp w) (w_udp w) (w_ports w))); [|done|done].
    eapply (inv_add w _ _ h KIcmp Hi); [exact Ea|by rewrite icmp_new_view|right; by rewrite icmp_new_view|].
    by apply submseteq_cons.
  - apply check_icmp_views in E as [Ev _]. by apply (inv_same w).
  - apply (inv_same w); [done|done|]. intros h. by apply (stack_poll_views _ _ _ h E).
  - by eapply sock_step_dhcp_start.
  - apply dhcp_poll_views in E as [Ed Ev]. apply (inv_same w); [done| |done]. unfold w_held, held. simpl. by rewrite Ed.
  - apply dhcp_renew_views in E as [Ed Ev]. apply (inv_same w); [done| |done]. unfold w_held, held. simpl. by rewrite Ed.
  - by eapply sock_step_dns_init.
  - apply dns_resolve_views in E as [Ed Ev]. apply (inv_same w); [done| |done]. unfold w_held, held. simpl. by rewrite Ed.
  - apply dns_poll_views in E as [Ed Ev]. apply (inv_same w); [done| |done]. unfold w_held, held. simpl. by rewrite Ed.
  - apply dns_result_views in E as [Ed Ev]. apply (inv_same w); [done| |done]. unfold w_held, held. simpl. by rewrite Ed.
Qed.

Lemma sock_start_inv device config :
  sock_inv (sock_start (NetworkStack_new device config)).
Proof.
  split; [constructor|constructor|]. intros h b. unfold view_of.
  assert (ns_sockets (w_stack (sock_start (NetworkStack_new device config))) = sockets_new) as ->.
  { by destruct config as [|ip [g|] dns]. }
  by rewrite sockets_new_empty.
Qed.

Lemma reachable_inv device config w :
  rtc sock_step (sock_start (NetworkStack_new device config)) w -> sock_inv w.
Proof. intros Hr. eapply rtc_invariant; [apply sock_step_inv|apply sock_start_inv|exact Hr]. Qed.
End spec.

(** ** Properties *)

(** C15: socket handles are typed: after any history of operations of the wrappers,
    the DHCP client, the resolver and the network, the handles held are pairwise
    distinct and each names a socket of the type its holder expects; so no method of
    a TCP or UDP wrapper and no lookup of the DHCP client or the resolver panics:
    polling and renewing a lease and starting a lookup return. *)
Theorem socket_handles_typed {M I SS H QH Sock : Type} `{SI : Smoltcp I SS H QH}
    {SK : SocketSet I SS H QH (NetworkDevice M) Sock} (device : NetworkDevice M) (config : NetConfig) (w : SockWorld) :
  rtc sock_step (sock_start (NetworkStack_new device config)) w ->
  NoDup (w_held w).*1 /\
  (forall t c, t ∈ w_tcp w -> exists r, tcp_run c t (w_stack w) (w_ports w) = Return r) /\
  (forall u c, u ∈ w_udp w -> exists r, udp_run c u (w_stack w) = Return r) /\
  (forall h, dhcp_socket (w_dhcp w) = Some h -> exists x, get_mut (w_stack w) h KDhcp = Return x) /\
  (forall h, dns_socket (w_dns w) = Some h -> exists x, get_mut (w_stack w) h KDns = Return x) /\
  (forall t, exists r, DhcpClient_poll (w_dhcp w) (w_stack w) t = Return r) /\
  (exists r, DhcpClient_renew (w_dhcp w) (w_stack w) = Return r) /\
  (forall name, exists r, DnsResolver_resolve (w_dns w) (w_stack w) name = Return r).
Proof.
  intros [Hn Ht _]%reachable_inv. split; [done|]. unfold w_held, held in Ht.
  rewrite !Forall_app, !Forall_fmap in Ht. destruct Ht as (Hd & Hr & Htcp & Hudp). split_and!.
  - intros t c Hin. apply tcp_run_returns. rewrite Forall_forall in Htcp. exact (Htcp _ Hin).
  - intros u c Hin. apply udp_run_returns. rewrite Forall_forall in Hudp. exact (Hudp _ Hin).
  - intros h E. rewrite E in Hd. simpl in Hd. exact (typed_get_mut _ _ _ (Forall_inv Hd)).
  - intros h E. rewrite E in Hr. simpl in Hr. exact (typed_get_mut _ _ _ (Forall_inv Hr)).
  - intros t. apply dhcp_poll_returns. intros h E. rewrite E in Hd. exact (Forall_inv Hd).
  - apply dhcp_renew_returns. intros h E. rewrite E in Hd. exact (Forall_inv Hd).
  - intros name. apply dns_resolve_returns. intros h E. rewrite E in Hr. exact (Forall_inv Hr).
Qed.

(** Ping replies are never shown: the ping command leaves its ICMP socket
    unbound and an unbound socket receives nothing, so in every history the loop that
    prints replies prints nothing, and it does not panic. *)
Theorem ping_reply_never_shown {M I SS H QH Sock : Type} `{SI : Smoltcp I SS H QH}
    {SK : SocketSet I SS H QH (NetworkDevice M) Sock} (device : NetworkDevice M) (config : NetConfig) (w : SockWorld) :
  rtc sock_step (sock_start (NetworkStack_new device config)) w ->
  exists s, check_icmp (w_stack w) = Return ([], s).
Proof. intros [_ _ Hu]%reachable_inv. destruct (check_icmp_silent _ Hu) as (s & E & _). eauto. Qed.

(** ** A concrete socket set *)

(** Sockets in a list, handles as positions; every method succeeds without effect,
    nothing is ever received and no query is ever accepted. *)
Module Demo.
Definition iface : Type := list IpCidr * option Ipv4Address.
Definition set : Type := list SockView.

Definition add (s : set) (x : SockView) : nat * set := (length s, s ++ [x]).

Definition lookup (s : set) (h : nat) (k : SocketKind) : Outcome unit :=
  match s !! h with
  | Some x => if decide (sv_kind x = k) then Return tt else Panic
  | None => Panic
  end.

Lemma lookup_ok s h x k : s !! h = Some x -> sv_kind x = k -> lookup s h k = Return tt.
Proof. intros E Hk. unfold lookup. by rewrite E, decide_True. Qed.

#[global] Instance demo_net : Smoltcp iface set nat nat.
Proof.
  refine {| iface_new := fun _ _ => ([], None); sockets_new := [];
            ip_addrs := fst; default_route := snd;
            push_ip_addr := fun i c => (i.1 ++ [c], i.2);
            replace_ip_addr := fun i c => ([c], i.2);
            add_default_ipv4_route := fun i g => (i.1, Some g);
            add_dhcp_socket := fun s => add s (SockView_mk KDhcp false);
            dhcp_socket_poll := fun s h => let! _ := lookup s h KDhcp in Return (Some (SockConfigured demo_lease), s);
            dhcp_socket_reset := fun s h => let! _ := lookup s h KDhcp in Return s;
            add_dns_socket := fun s _ => add s (SockView_mk KDns false);
            dns_get_mut := fun s h => lookup s h KDns;
            dns_start_query := fun s h _ => let! _ := lookup s h KDns in Return (Err NoFreeSlot, s);
            dns_get_result := fun s h _ => Panic;
            instant_sub := Z.sub |}; try done. by intros [] c ->.
Defined.

Definition answer {R} (o : SockOp R) : R :=
  match o with
  | OpTcpConnect _ _ | OpTcpListen _ | OpUdpBind _ | OpUdpSendSlice _ _ => Ok tt
  | OpIcmpSendSlice _ _ => Ok tt
  | OpTcpClose => tt
  | OpTcpIsActive | OpTcpCanSend | OpTcpCanRecv | OpUdpCanSend | OpUdpCanRecv | OpIcmpCanRecv => false
  | OpTcpSendSlice data => Ok (length data)
  | OpTcpRecvSlice buf => (Ok 0%nat, buf)
  | OpUdpRecvSlice buf => (Err tt, buf)
  | OpIcmpRecvSlice buf => (Err tt, buf)
  end.

#[global] Instance demo_sockets (D : Type) : SocketSet iface set nat nat D SockView.
Proof.
  refine {| sock_view := fun x => x;
            tcp_new := fun _ _ => SockView_mk KTcp false;
            udp_new := fun _ _ _ _ => SockView_mk KUdp false;
            icmp_new := fun _ _ _ _ => SockView_mk KIcmp false;
            sock_get := fun (s : set) h => s !! h;
            sock_put := fun (s : set) h x => <[h := x]> s;
            sock_add := add; sock_handles := fun s => seq 0 (length s);
            sock_op := fun R o i x => (answer o, i, x);
            iface_poll := fun i _ d s => Return (i, d, s);
            udp_meta_bytes := 32; icmp_meta_bytes := 32; dns_busy := fun _ _ _ => false;
            icmpv4_parse := fun _ => None; icmpv4_emit := fun _ b => b |};
    try done.
  - intros s x. by apply lookup_ge_None.
  - intros s x h. unfold add. cbn [fst snd]. case_decide as Hd.
    + subst h. apply list_lookup_middle. done.
    + destruct (decide (h < length s)%nat) as [Hl|Hl]; [by apply lookup_app_l|].
      transitivity (@None SockView); [|symmetry]; apply lookup_ge_None_2; rewrite ?length_app; simpl; lia.
  - intros s h x y h' Hh. case_decide as Hd.
    + subst h'. apply list_lookup_insert_eq. by eapply lookup_lt_Some.
    + by apply list_lookup_insert_ne.
  - intros s h. rewrite elem_of_seq, lookup_lt_is_Some. lia.
  - intros i t d s i' d' s' h. by intros [= <- <- <-].
  - intros i t d s i' d' s'. by intros [= <- <- <-].
  - intros i t d s i' d' s'. by intros [= <- <- <-].
  - intros s. by exists (SockView_mk KDhcp false).
  - intros s l. by exists (SockView_mk KDns false).
  - intros s h ev s' h'. cbn. destruct (lookup s h KDhcp); [|done]. by intros [= <- <-].
  - intros s h s' h'. cbn. destruct (lookup s h KDhcp); [|done]. by intros [= <-].
  - intros s h name r s' h'. cbn. destruct (lookup s h KDns); [|done]. by intros [= <- <-].
  - intros s h x E Hk. cbn. rewrite (lookup_ok _ _ _ _ E Hk). by eexists.
  - intros s h x E Hk. cbn. rewrite (lookup_ok _ _ _ _ E Hk). by eexists.
  - intros s h x E Hk. by apply (lookup_ok _ _ x).
  - intros s h x name E Hk. cbn. rewrite (lookup_ok _ _ _ _ E Hk). by eexists.
  - intros s h name r s' q. cbn. destruct (lookup s h KDns); [|done]. by intros [= <- <-].
Defined.

Definition stack0 : NetworkStack (M:=unit) (I:=iface) (S:=set) :=
  NetworkStack_new (DevLoopback QemuE1000_new) CfgDhcp.

(** A TCP socket, then the DHCP client. *)
Definition world : SockWorld (M:=unit) (I:=iface) (SS:=set) (H:=nat) (QH:=nat) :=
  SockWorld_mk (NetworkStack_mk (DevLoopback QemuE1000_new) ([], None) [SockView_mk KTcp false; SockView_mk KDhcp false] CfgDhcp [])
    (DhcpClient_mk (Some 1%nat) Discovering None (Some 0)) DnsResolver_new [TcpSocket_mk 0%nat 0] [] EPHEMERAL_PORT_COUNTER.

Lemma world_reachable : rtc sock_step (sock_start stack0) world.
Proof.
  eapply rtc_l; [eapply (ss_tcp_new _ (fun _ => true)); reflexivity|].
  eapply rtc_l; [eapply (ss_dhcp_start _ 0); reflexivity|]. apply rtc_refl.
Qed.
End Demo.

Lemma socket_handles_typed_witness :
  (w_held Demo.world).*1 = [1%nat; 0%nat] /\
  exists r, tcp_run (QH:=nat) (Sock:=SockView) TcClose (TcpSocket_mk 0%nat 0) (w_stack Demo.world) 49152 = Return r.
Proof.
  split; [reflexivity|].
  destruct (socket_handles_typed (DevLoopback QemuE1000_new) CfgDhcp Demo.world Demo.world_reachable) as (_ & Ht & _).
  destruct (Ht (TcpSocket_mk 0%nat 0) TcClose) as [r Hr]; [by left|]. exists r. exact Hr.
Defined.

Lemma ping_reply_never_shown_witness :
  exists s, check_icmp (QH:=nat) (Sock:=SockView) (w_stack Demo.world) = Return ([], s).
Proof. exact (ping_reply_never_shown (DevLoopback QemuE1000_new) CfgDhcp Demo.world Demo.world_reachable). Defined.
