(* ===== verification/Commands.v ===== *)
(** * The execution of shell commands

    Models [Command::execute] and the [cmd_*] functions of
    [src/kernel/src/terminal/commands.rs].  A command works on the network stack,
    the DHCP client, the resolver and the root filesystem, and returns the console
    operations it performs. *)

From S2P Require Import Prelude Text Vga Capability FileSystem RamFs Queue Executor Host Wasm.
From S2P Require Import E1000 Device Net Shell Boot Sockets.
Open Scope Z_scope.

(** ** Formats *)

(** The derived [Debug] of the enums the commands print. *)
Definition DhcpState_debug (st : DhcpState) : string :=
  match st with
  | DhcpIdle => "Idle" | Discovering => "Discovering" | Requesting => "Requesting"
  | Configured => "Configured" | LinkLocal => "LinkLocal"
  end.
Definition FsError_debug (e : FsError) : string :=
  match e with
  | FsNotFound => "NotFound" | FsPermissionDenied => "PermissionDenied" | FsInvalidHandle => "InvalidHandle"
  end.
Definition IcmpSendError_debug (e : IcmpSendError) : string :=
  match e with Unaddressable => "Unaddressable" | IcmpBufferFull => "BufferFull" end.

Definition show_port (p : Z) : string := show_uint p.

(** A line in a colour, and back to white. *)
Definition colored_line (c : Color) (s : string) : list ConsoleOp :=
  [SetColor c Black; Println s; SetColor White Black].

(** The loop that prints a list separated by commas. *)
Fixpoint print_list (first : bool) (l : list Ipv4Address) : list ConsoleOp :=
  match l with
  | [] => []
  | a :: l => (if first then [] else [Print ", "]) ++ Print (show_ipv4 a) :: print_list false l
  end.

Section commands.
Context {M I SS H QH Sock : Type} `{SI : Smoltcp I SS H QH} {SK : SocketSet I SS H QH (NetworkDevice M) Sock}.
Context {Store Instance Func Inv Error : Type} `{WI : Wasmi Store Instance Func Inv Error}.
Abbreviation stack := (NetworkStack (M:=M) (I:=I) (S:=SS)).

(** What a command can reach. *)
Record Env : Type := Env_mk {
  e_stack : stack;
  e_dhcp : DhcpClient (H:=H);
  e_dns : DnsResolver (H:=H) (QH:=QH);
  e_fs : RamFs;
}.
Implicit Types e : Env.

Definition with_stack e (s : stack) : Env := Env_mk s (e_dhcp e) (e_dns e) (e_fs e).
Definition with_dhcp e (d : DhcpClient) (s : stack) : Env := Env_mk s d (e_dns e) (e_fs e).
Definition with_dns e (r : DnsResolver) (s : stack) : Env := Env_mk s (e_dhcp e) r (e_fs e).
Definition with_fs e (f : RamFs) : Env := Env_mk (e_stack e) (e_dhcp e) (e_dns e) f.

Definition cmd_help : list ConsoleOp :=
  [Println ""; SetColor Cyan Black; Println "SovelmaOS Shell Commands"; Println "========================";
   SetColor White Black; Println "";
   Println "  help          Show this help message";
   Println "  clear         Clear the screen";
   Println "  ifconfig      Show network configuration";
   Println "  dhcp [renew]  Show DHCP status or request new lease";
   Println "  dns <host>    Resolve hostname to IP address";
   Println "  connect <host> <port>  Open TCP connection";
   Println "  ping <host>   Send ICMP Echo Request";
   Println "  echo <text>   Echo text to console";
   Println "  sysinfo       Show system information";
   Println "  wasm-test     Run a simple WASM module test";
   Println ""].

Definition cmd_ifconfig (s : stack) (d : DhcpClient (H:=H)) : list ConsoleOp :=
  [Println ""; SetColor Cyan Black; Println "Network Configuration"; Println "---------------------";
   SetColor White Black;
   Print "  MAC:     "; SetColor Yellow Black; Println (show_mac (NetworkDevice_mac_address (ns_device s)));
   SetColor White Black;
   Print "  IP:      "] ++
  (match ip_address s with
   | Some ip => [SetColor LightGreen Black; Println (show_ipv4 ip)]
   | None => [SetColor LightRed Black; Println "Not configured"]
   end) ++
  [SetColor White Black; Print "  Gateway: "] ++
  (match dhcp_config d with
   | Some config =>
       match dc_gateway config with
       | Some gw => [SetColor Yellow Black; Println (show_ipv4 gw)]
       | None => [Println "None"]
       end
   | None => [Println "None"]
   end) ++
  [SetColor White Black; Print "  DNS:     "] ++
  (match ns_dns_servers s with
   | [] => [Println "None"]
   | servers => SetColor Yellow Black :: print_list true servers ++ [Println ""]
   end) ++
  [SetColor White Black; Print "  DHCP:    "; SetColor Yellow Black; Println (DhcpState_debug (dhcp_state d));
   SetColor White Black; Println ""].

Definition cmd_dhcp (action : DhcpAction) e : Outcome (list ConsoleOp * Env) :=
  match action with
  | ActStatus =>
      Return (Println ("DHCP State: " ++ DhcpState_debug (dhcp_state (e_dhcp e))) ::
       match dhcp_config (e_dhcp e) with
       | None => []
       | Some config =>
           Println ("  IP: " ++ show_ipv4 (dc_ip config) ++ "/" ++ show_uint (dc_prefix_len config)) ::
           (match dc_gateway config with Some gw => [Println ("  Gateway: " ++ show_ipv4 gw)] | None => [] end) ++
           (match dc_dns_servers config with
            | [] => []
            | servers => Print "  DNS: " :: print_list true servers ++ [Println ""]
            end)
       end, e)
  | ActRenew =>
      let! (d, s) := DhcpClient_renew (e_dhcp e) (e_stack e) in
      Return ([Println "Requesting DHCP renewal..."], with_dhcp e d s)
  | ActRelease => Return ([Println "DHCP release not yet implemented"], e)
  end.

Definition cmd_dns (hostname : string) e : Outcome (list ConsoleOp * Env) :=
  match parse_ipv4 hostname with
  | Some ip => Return ([Println (hostname ++ " -> " ++ show_ipv4 ip)], e)
  | None =>
      let e := if is_ready (e_dns e) then e
               else let '(r, s) := DnsResolver_init (e_dns e) (e_stack e) in with_dns e r s in
      if negb (is_ready (e_dns e)) then
        Return (colored_line LightRed "DNS resolver not ready (no DNS servers configured)", e)
      else
        let start := Print ("Resolving " ++ hostname ++ "... ") in
        let! (q, r, s) := DnsResolver_resolve (e_dns e) (e_stack e) hostname in
        let e := with_dns e r s in
        match q with
        | Ok _ =>
            Return ([start; Println "(query started)"; Println "Use the main loop to poll for DNS results."], e)
        | Err err => Return (start :: colored_line LightRed ("Failed: " ++ NetError_fmt err), e)
        end
  end.

Definition cmd_connect (alloc_ok : Z -> bool) (host : string) (port : Z) e : Outcome (list ConsoleOp * Env) :=
  match parse_ipv4 host with
  | None =>
      Return ([SetColor LightRed Black; Println "DNS resolution for connect not yet implemented.";
               Println "Please use an IP address directly."; SetColor White Black], e)
  | Some ip =>
      let target := (show_ipv4 ip ++ ":" ++ show_port port)%string in
      let! (handle, s) := tcp_socket alloc_ok (e_stack e) in
      let local_port := as_u16 (49152 + ip_d ip mod 1000) in
      let! (r, s) := tcp_connect s handle (IpEndpoint_new ip port) local_port in
      Return (Println ("Connecting to " ++ target ++ "...") ::
              match r with
              | Ok _ => colored_line LightGreen ("Connection initiated to " ++ target) ++
                        [Println "Use the main loop to check connection state."]
              | Err err => colored_line LightRed ("Connection failed: " ++ NetError_fmt err)
              end, with_stack e s)
  end.

Definition cmd_sysinfo : list ConsoleOp :=
  [Println ""; SetColor Cyan Black; Println "SovelmaOS System Information"; Println "============================";
   SetColor White Black; Println "  Version:    0.1.0"; Println "  Arch:       x86_64"; Println "  Platform:   QEMU";
   Println ""].

(** The file is closed after a successful read only.  The process gets no
    capabilities and no host fuel, so the call acts on its own store and prints. *)
Definition cmd_wasm_test (alloc_ok : Z -> bool) (filename : string) e : Outcome (list ConsoleOp * Env) :=
  let head := [Println ""; SetColor Cyan Black; Println ("WASM Runtime Test executing '" ++ filename ++ "'");
               Println "-----------------"; SetColor White Black] in
  let '(opened, fs) := RamFs_open (e_fs e) filename in
  match opened with
  | Err err => Return (head ++ colored_line LightRed ("Failed to open file: " ++ FsError_debug err), with_fs e fs)
  | Ok handle =>
      let size := match RamFs_size fs handle with Ok size => size | Err _ => 0 end in
      let! _ := vec_alloc alloc_ok size in
      let! read := RamFs_read fs handle (replicate (Z.to_nat size) x00) 0 in
      match read with
      | Err err => Return (head ++ colored_line LightRed ("Failed to read file: " ++ FsError_debug err), with_fs e fs)
      | Ok (_, buffer) =>
          let fs := RamFs_close fs handle in
          let body :=
            let '(spawn_out, spawned) := spawn_process_with_caps buffer [] in
            spawn_out ++
            match spawned with
            | Err err => [SetColor LightRed Black; Println ("WASM test failed: " ++ wasm_error_debug err)]
            | Ok process =>
                colored_line LightGreen "WASM process spawned successfully!" ++
                Println "Executing _start..." ::
                let '(call_out, result, _) := WasmProcess_call process "_start" [] in
                call_out ++
                match result with
                | Ok _ => [SetColor LightGreen Black; Println "_start completed successfully!"]
                | Err err => [SetColor LightRed Black; Println ("Execution failed: " ++ wasm_error_debug err)]
                end
            end in
          Return (head ++ body ++ [SetColor White Black; Println ""], with_fs e fs)
      end
  end.

Definition cmd_ping (alloc_ok : Z -> bool) (host : string) e : Outcome (list ConsoleOp * Env) :=
  match parse_ipv4 host with
  | None => Return ([Println "Invalid IP address. Hostname resolution in ping not yet implemented."], e)
  | Some ip =>
      let! (handle, s) := icmp_socket alloc_ok (e_stack e) in
      let buffer := icmpv4_emit (EchoRequest 0x1234 1 (replicate 8 xff)) (replicate 16 x00) in
      let! (r, s) := socket_call s handle (OpIcmpSendSlice buffer ip) in
      Return (Println ("Pinging " ++ show_ipv4 ip ++ "...") ::
              match r with
              | Ok _ => [Println "  Echo request sent. Waiting for reply..."]
              | Err err => colored_line LightRed ("  Failed to send: " ++ IcmpSendError_debug err)
              end, with_stack e s)
  end.

Definition execute (alloc_ok : Z -> bool) (c : Command) e : Outcome (list ConsoleOp * Env) :=
  match c with
  | Help => Return (cmd_help, e)
  | Clear => Return (Terminal_clear, e)
  | Ifconfig => Return (cmd_ifconfig (e_stack e) (e_dhcp e), e)
  | Dhcp action => cmd_dhcp action e
  | Dns hostname => cmd_dns hostname e
  | Connect host port => cmd_connect alloc_ok host port e
  | Echo text => Return ([Println text], e)
  | Ping host => cmd_ping alloc_ok host e
  | Sysinfo => Return (cmd_sysinfo, e)
  | WasmTest file => cmd_wasm_test alloc_ok file e
  | Unknown cmd =>
      Return (colored_line LightRed ("Unknown command: " ++ cmd) ++ [Println "Type 'help' for available commands."], e)
  end.
End commands.
