(* ===== verification/CommandsSpec.v ===== *)
(** * What shell commands do

    Every command returns, leaves the console in the shell's colours, touches
    nothing but what it is about, and adds the one socket it should; plus what the
    WASM test command does with modules and handles. *)

From S2P Require Import Prelude Text Memory Vga VgaSpec Capability FileSystem RamFs Queue Executor Host Wasm.
From S2P Require Import E1000 Device Net NetSpec Shell ShellSpec Boot Sockets SocketsSpec Commands.
Open Scope Z_scope.

Lemma ops_color_print_list color first l : ops_color color (print_list first l) = color.
Proof. revert first. induction l as [|a l IH]; intros [|]; simpl; auto. Qed.

Section spec.
Context {M I SS H QH Sock : Type} `{SI : Smoltcp I SS H QH} {SK : SocketSet I SS H QH (NetworkDevice M) Sock}.
Context {Store Instance Func Inv Error : Type} `{WI : Wasmi Store Instance Func Inv Error}.
Abbreviation stack := (NetworkStack (M:=M) (I:=I) (S:=SS)).
Abbreviation env := (Env (M:=M) (I:=I) (SS:=SS) (H:=H) (QH:=QH)).
Implicit Types (s : stack) (e : env).

(** The socket a command opens. *)
Definition new_socket (c : Command) e : option SocketKind :=
  match c with
  | Connect host _ => (fun _ => KTcp) <$> parse_ipv4 host
  | Ping host => (fun _ => KIcmp) <$> parse_ipv4 host
  | Dns host =>
      match parse_ipv4 host, dns_socket (e_dns e), ns_dns_servers (e_stack e) with
      | None, None, _ :: _ => Some KDns
      | _, _, _ => None
      end
  | _ => None
  end.

(** Exactly the given socket is new. *)
Definition sockets_grow s s' (k : option SocketKind) : Prop :=
  match k with
  | None => forall h, view_of s' h = view_of s h
  | Some k => exists h, view_of s h = None /\ sv_kind <$> view_of s' h = Some k /\
                        forall h', h' <> h -> view_of s' h' = view_of s h'
  end.

(** The heap can hold a second copy of every file. *)
Definition files_fit (alloc_ok : Z -> bool) (fs : RamFs) : Prop :=
  forall l content, nodes fs !! l = Some (File content) ->
    Z.of_nat (length content) <= isize_max /\ alloc_ok (Z.of_nat (length content)) = true.

(** The heap serves the buffers a command asks for: the copy of a file, those of a
    TCP socket, those of an ICMP socket. *)
Record heap_serves (alloc_ok : Z -> bool) (fs : RamFs) : Prop := {
  hs_files : files_fit alloc_ok fs;
  hs_tcp_rx : alloc_ok (Z.of_nat TCP_RX_BUFFER_SIZE) = true;
  hs_tcp_tx : alloc_ok (Z.of_nat TCP_TX_BUFFER_SIZE) = true;
  hs_icmp_meta : alloc_ok (4 * icmp_meta_bytes) = true;
  hs_icmp : alloc_ok 1024 = true;
}.

(** The sockets of the DHCP client and of the resolver are in the set, of their type. *)
Definition env_typed e : Prop :=
  (forall h, dhcp_socket (e_dhcp e) = Some h -> typed_in (e_stack e) (h, KDhcp)) /\
  (forall h, dns_socket (e_dns e) = Some h -> typed_in (e_stack e) (h, KDns)).

Record command_post (c : Command) e (out : list ConsoleOp) (e' : env) : Prop := {
  cp_color : ops_color white out = white;
  cp_config : same_config (e_stack e) (e_stack e');
  cp_sockets : sockets_grow (e_stack e) (e_stack e') (new_socket c e);
  cp_dhcp : c <> Dhcp ActRenew -> e_dhcp e' = e_dhcp e;
  cp_dns : (forall host, c <> Dns host) -> e_dns e' = e_dns e;
  cp_files : nodes (e_fs e') = nodes (e_fs e) /\ root (e_fs e') = root (e_fs e);
  cp_typed : env_typed e';
}.

Lemma sockets_grow_typed s s' k hk : sockets_grow s s' k -> typed_in s hk -> typed_in s' hk.
Proof.
  unfold typed_in. destruct k as [k|]; simpl; [|by intros ->]. intros (h & Hn & _ & Ho) Ht.
  rewrite Ho; [done|]. intros E. rewrite E, Hn in Ht. done.
Qed.

Lemma env_typed_grow e e' k :
  env_typed e -> sockets_grow (e_stack e) (e_stack e') k ->
  dhcp_socket (e_dhcp e') = dhcp_socket (e_dhcp e) -> dns_socket (e_dns e') = dns_socket (e_dns e) -> env_typed e'.
Proof.
  intros [Hd Hn] Hg E1 E2. unfold env_typed. rewrite E1, E2.
  split; intros h Hh; eapply sockets_grow_typed; [exact Hg|by apply Hd|exact Hg|by apply Hn].
Qed.

Lemma sockets_grow_views s s1 s2 k :
  (forall h, view_of s2 h = view_of s1 h) -> sockets_grow s s1 k -> sockets_grow s s2 k.
Proof.
  intros Hv. destruct k as [k|]; simpl.
  - intros (h & Hn & Hk & Ho). exists h. rewrite Hv. split_and!; [done..|]. intros h' Hh. rewrite Hv. auto.
  - intros Ho h. by rewrite Hv.
Qed.

Lemma same_config_refl s : same_config s s.
Proof. done. Qed.
#[local] Hint Resolve same_config_refl : core.

(** A method call on a fresh socket. *)
Lemma fresh_call {R} (o : SockOp R) s x h s1 :
  add_socket s x = (h, s1) -> sv_kind (sock_view x) = op_kind o ->
  exists r s', socket_call s1 h o = Return (r, s') /\ same_config s s' /\ sockets_grow s s' (Some (op_kind o)).
Proof.
  intros Ea Hk. pose proof Ea as (Hn & Hv & _ & Hne & Hi)%add_socket_spec.
  unfold add_socket in Ea. destruct (sock_add (ns_sockets s) x) as [h0 so]. injection Ea as <- <-.
  destruct (socket_call_ok o _ _ _ Hv Hk) as (r & s' & E & Hvs & Ha). exists r, s'. split; [done|].
  split; [exact Ha|]. exists h0. split; [done|].
  split; [rewrite Hvs, Hv; simpl; by f_equal|]. intros h' Hh. rewrite Hvs. by apply Hne.
Qed.

Lemma tcp_socket_serves alloc_ok fs s :
  heap_serves alloc_ok fs ->
  tcp_socket alloc_ok s = Return (add_socket s (tcp_new TCP_RX_BUFFER_SIZE TCP_TX_BUFFER_SIZE)).
Proof. intros []. unfold tcp_socket. by rewrite !vec_alloc_ok by (done || (unfold isize_max; simpl; lia)). Qed.

Lemma icmp_socket_serves alloc_ok fs s :
  heap_serves alloc_ok fs -> icmp_socket alloc_ok s = Return (add_socket s (icmp_new 4 1024 4 1024)).
Proof.
  intros []. unfold icmp_socket. pose proof icmp_meta_small.
  by rewrite !vec_alloc_ok by (done || (unfold isize_max; lia)).
Qed.

Lemma cmd_connect_post alloc_ok host port e :
  heap_serves alloc_ok (e_fs e) -> env_typed e ->
  exists out e', cmd_connect alloc_ok host port e = Return (out, e') /\ command_post (Connect host port) e out e'.
Proof.
  intros Hh Ht. unfold cmd_connect. destruct (parse_ipv4 host) as [ip|] eqn:Ep.
  - rewrite (tcp_socket_serves _ _ _ Hh). destruct (add_socket _ _) as [h s1] eqn:Ea. cbn [outcome_bind]. unfold tcp_connect.
    destruct (fresh_call (OpTcpConnect (IpEndpoint_new ip port) (as_u16 (49152 + ip_d ip mod 1000))) (e_stack e) _ h s1 Ea)
      as (r & s' & -> & Hc & Hs); [apply tcp_new_kind|].
    cbn [outcome_bind]. eexists _, _. split; [done|]. split; simpl; try done; [by destruct r|by rewrite Ep|].
    by eapply env_typed_grow.
  - eexists _, _. split; [done|]. split; simpl; try done. by rewrite Ep.
Qed.

Lemma cmd_ping_post alloc_ok host e :
  heap_serves alloc_ok (e_fs e) -> env_typed e ->
  exists out e', cmd_ping alloc_ok host e = Return (out, e') /\ command_post (Ping host) e out e'.
Proof.
  intros Hh Ht. unfold cmd_ping. destruct (parse_ipv4 host) as [ip|] eqn:Ep.
  - rewrite (icmp_socket_serves _ _ _ Hh). destruct (add_socket _ _) as [h s1] eqn:Ea. cbn [outcome_bind].
    destruct (fresh_call (OpIcmpSendSlice (icmpv4_emit (EchoRequest 0x1234 1 (replicate 8 xff)) (replicate 16 x00)) ip)
      (e_stack e) _ h s1 Ea) as (r & s' & -> & Hc & Hs); [by rewrite icmp_new_view|].
    cbn [outcome_bind]. eexists _, _. split; [done|]. split; simpl; try done; [by destruct r|by rewrite Ep|].
    by eapply env_typed_grow.
  - eexists _, _. split; [done|]. split; simpl; try done. by rewrite Ep.
Qed.

Lemma dns_init_post e r s :
  DnsResolver_init (e_dns e) (e_stack e) = (r, s) -> dns_socket (e_dns e) = None ->
  same_config (e_stack e) s /\
  sockets_grow (e_stack e) s (match ns_dns_servers (e_stack e) with [] => None | _ => Some KDns end) /\
  (is_ready r = true <-> ns_dns_servers (e_stack e) <> []) /\
  (forall h, dns_socket r = Some h -> typed_in s (h, KDns)).
Proof.
  intros E Hd. unfold DnsResolver_init in E. rewrite Hd in E.
  destruct (ns_dns_servers (e_stack e)) as [|a l] eqn:Es.
  { simplify_eq. unfold is_ready. rewrite Hd. split_and!; [done|done|naive_solver|done]. }
  destruct (add_dns_is_add (ns_sockets (e_stack e)) (a :: l)) as (x & Hx & Ha).
  destruct (add_dns_socket (ns_sockets (e_stack e)) (a :: l)) as [h so] eqn:Ea. simplify_eq.
  destruct (add_socket_spec (e_stack e) x h (with_sockets (e_stack e) so)) as (Hn & Hv & _ & Hne & _).
  { unfold add_socket. by rewrite <- Ha. }
  split_and!; [done| |done|].
  - exists h. split_and!; [done| |done]. by rewrite Hv, Hx.
  - intros h' [= <-]. unfold typed_in. simpl. by rewrite Hv, Hx.
Qed.

Lemma resolve_config r s name q r' s' :
  DnsResolver_resolve r s name = Return (q, r', s') -> same_config s s'.
Proof.
  unfold DnsResolver_resolve, start_dns_query. destruct (dns_socket r); [|by intros [= <- <- <-]].
  destruct (dns_start_query _ _ _) as [[[|[]] so]|]; [..|done]; by intros [= <- <- <-].
Qed.

Lemma cmd_dns_post host e :
  env_typed e -> exists out e', cmd_dns host e = Return (out, e') /\ command_post (Dns host) e out e'.
Proof.
  intros Ht. unfold cmd_dns. destruct (parse_ipv4 host) as [ip|] eqn:Ep.
  { eexists _, _. split; [done|]. split; simpl; try done. by rewrite Ep. }
  set (e1 := if is_ready (e_dns e) then e else _).
  assert (H1 : same_config (e_stack e) (e_stack e1) /\ sockets_grow (e_stack e) (e_stack e1) (new_socket (Dns host) e) /\
    e_dhcp e1 = e_dhcp e /\ e_fs e1 = e_fs e /\ env_typed e1).
  { subst e1. simpl. rewrite Ep. unfold is_ready. destruct (dns_socket (e_dns e)) as [h|] eqn:Ed; [done|].
    destruct (DnsResolver_init (e_dns e) (e_stack e)) as [r s] eqn:Ei.
    destruct (dns_init_post _ _ _ Ei Ed) as (Hc & Hg & _ & Hd). split_and!; [done| |done|done|].
    - by destruct (ns_dns_servers (e_stack e)).
    - split; [|exact Hd]. intros h Hh. eapply sockets_grow_typed; [exact Hg|]. by apply (proj1 Ht). }
  clearbody e1. destruct H1 as (Hc & Hg & Hd & Hf & Ht1). destruct (negb (is_ready (e_dns e1))).
  { eexists _, _. split; [done|]. split; try done; [naive_solver|by rewrite Hf]. }
  destruct (dns_resolve_returns (e_dns e1) (e_stack e1) host (proj2 Ht1)) as [[[q r] s] Er]. rewrite Er. cbn [outcome_bind].
  pose proof (resolve_config _ _ _ _ _ _ Er) as (Ha & Hs & Hdev).
  apply dns_resolve_views in Er as [Hsock Hv]. destruct Hc as (Ha' & Hs' & Hdev').
  assert (Hpost : forall o, ops_color white o = white -> command_post (Dns host) e o (with_dns e1 r s)).
  { intros o Ho. split; [done|split_and!; simpl; congruence| |done|naive_solver|simpl; by rewrite Hf|].
    - by apply (sockets_grow_views _ (e_stack e1)).
    - by apply (env_typed_grow e1 _ None). }
  destruct q; (eexists _, _; split; [done|]); by apply Hpost.
Qed.

(** ** The WASM test *)

(** Opening, sizing and reading a whole file. *)
Lemma open_file fs path node content :
  RamFs_resolve_path fs path = Ok node -> nodes fs !! node = Some (File content) ->
  Z.of_nat (length content) <= isize_max ->
  exists fs', RamFs_open fs path = (Ok (next_handle fs), fs') /\ nodes fs' = nodes fs /\ root fs' = root fs /\
    open_handles fs' = <[next_handle fs := node]> (open_handles fs) /\
    RamFs_size fs' (next_handle fs) = Ok (Z.of_nat (length content)) /\
    RamFs_read fs' (next_handle fs) (replicate (Z.to_nat (Z.of_nat (length content))) x00) 0 =
      Return (Ok (Z.of_nat (length content), content)).
Proof.
  intros Hr Hn Hlen. unfold RamFs_open. rewrite Hr. eexists. split; [done|]. split_and!; [done..| |].
  - unfold RamFs_size. simpl. by rewrite lookup_insert_eq, Hn.
  - unfold RamFs_read. simpl. rewrite lookup_insert_eq, Hn, length_replicate, !Nat2Z.id.
    case_decide as Hz; [by destruct content|]. unfold isize_max in Hlen.
    rewrite wrap_small by (split; lia). rewrite Z.min_id, decide_False, Z.sub_0_r, Nat2Z.id by lia.
    rewrite drop_0, firstn_all, drop_ge, app_nil_r by (by rewrite length_replicate). done.
Qed.

(** What is no file opens but does not read. *)
Lemma open_other fs path node :
  RamFs_resolve_path fs path = Ok node -> (forall content, nodes fs !! node <> Some (File content)) ->
  exists fs' size, RamFs_open fs path = (Ok (next_handle fs), fs') /\ nodes fs' = nodes fs /\ root fs' = root fs /\
    open_handles fs' = <[next_handle fs := node]> (open_handles fs) /\
    match RamFs_size fs' (next_handle fs) with Ok size => size | Err _ => 0 end = size /\ size = 0 /\
    forall buf, RamFs_read fs' (next_handle fs) buf 0 = Return (Err FsInvalidHandle).
Proof.
  intros Hr Hn. unfold RamFs_open. rewrite Hr. eexists _, _. split; [done|]. split_and!; [done..| |].
  - unfold RamFs_size. simpl. rewrite lookup_insert_eq.
    destruct (nodes fs !! node) as [[content|]|]; [by destruct (Hn content)|done|done].
  - intros buf. unfold RamFs_read. simpl. rewrite lookup_insert_eq.
    destruct (nodes fs !! node) as [[content|]|]; [by destruct (Hn content)|done|done].
Qed.

Definition wasm_head (filename : string) : list ConsoleOp :=
  [Println ""; SetColor Cyan Black; Println ("WASM Runtime Test executing '" ++ filename ++ "'");
   Println "-----------------"; SetColor White Black].

(** A readable file is read, closed and run. *)
Lemma cmd_wasm_file alloc_ok file e node content :
  files_fit alloc_ok (e_fs e) ->
  RamFs_resolve_path (e_fs e) file = Ok node -> nodes (e_fs e) !! node = Some (File content) ->
  exists fs', cmd_wasm_test alloc_ok file e =
    Return (wasm_head file ++
      ((spawn_process_with_caps content []).1 ++
      match (spawn_process_with_caps content []).2 with
      | Err err => [SetColor LightRed Black; Println ("WASM test failed: " ++ wasm_error_debug err)]
      | Ok process =>
          colored_line LightGreen "WASM process spawned successfully!" ++
          Println "Executing _start..." ::
          (WasmProcess_call process "_start" []).1.1 ++
          match (WasmProcess_call process "_start" []).1.2 with
          | Ok _ => [SetColor LightGreen Black; Println "_start completed successfully!"]
          | Err err => [SetColor LightRed Black; Println ("Execution failed: " ++ wasm_error_debug err)]
          end
      end) ++ [SetColor White Black; Println ""], with_fs e fs') /\
    nodes fs' = nodes (e_fs e) /\ root fs' = root (e_fs e) /\
    open_handles fs' = delete (next_handle (e_fs e)) (open_handles (e_fs e)).
Proof.
  intros Hh Hr Hn. destruct (Hh _ _ Hn) as [Hlen Ha].
  destruct (open_file _ _ _ _ Hr Hn Hlen) as (fs' & Eo & En & Er & Eh & Es & Erd).
  unfold cmd_wasm_test. rewrite Eo, Es, (vec_alloc_ok _ _ Hlen Ha). cbn [outcome_bind]. rewrite Erd. cbn [outcome_bind]. exists (RamFs_close fs' (next_handle (e_fs e))).
  destruct (spawn_process_with_caps content []) as [so [process|err]];
    cbn [fst snd]; [destruct (WasmProcess_call process "_start" []) as [[co cr] p']|];
    (split; [done|]; simpl; by rewrite En, Er, Eh, delete_insert_eq).
Qed.

(** Anything else that resolves keeps its handle open. *)
Lemma cmd_wasm_other alloc_ok file e node :
  RamFs_resolve_path (e_fs e) file = Ok node -> (forall content, nodes (e_fs e) !! node <> Some (File content)) ->
  exists fs', cmd_wasm_test alloc_ok file e =
    Return (wasm_head file ++ colored_line LightRed "Failed to read file: InvalidHandle", with_fs e fs') /\
    nodes fs' = nodes (e_fs e) /\ root fs' = root (e_fs e) /\
    open_handles fs' = <[next_handle (e_fs e) := node]> (open_handles (e_fs e)).
Proof.
  intros Hr Hn. destruct (open_other _ _ _ Hr Hn) as (fs' & size & Eo & En & Er & Eh & Es & -> & Erd).
  unfold cmd_wasm_test. rewrite Eo, Es. change (vec_alloc alloc_ok 0) with (Return tt). cbn [outcome_bind]. rewrite Erd. cbn [outcome_bind].
  exists fs'. by rewrite En, Er, Eh.
Qed.

Lemma ops_color_line color str l : ops_color color (Println str :: l) = ops_color color l.
Proof. done. Qed.

(** Modules only print lines: neither loading nor running one changes the colour. *)
Lemma ops_color_prints color n : ops_color color (host_prints n) = color.
Proof. induction n; [done|exact IHn]. Qed.

Lemma spawn_out_color color content : ops_color color (spawn_process_with_caps content []).1 = color.
Proof.
  unfold spawn_process_with_caps, add_fuel. destruct (wasm_instantiate _ _) as [[[st ins]|] n]; simpl; [|apply ops_color_prints].
  destruct (wasm_add_fuel st FUEL_PER_SLICE) as [[] st']; simpl; by rewrite ops_color_app, ops_color_prints.
Qed.

Lemma call_out_color color process name ps : ops_color color (WasmProcess_call process name ps).1.1 = color.
Proof.
  unfold WasmProcess_call. destruct (wasm_get_func _ _ _) as [f|]; [|done].
  destruct (wasm_call _ _ _ _) as [[r st] n]. apply ops_color_prints.
Qed.

Lemma cmd_wasm_test_post alloc_ok file e :
  files_fit alloc_ok (e_fs e) -> env_typed e ->
  exists out e', cmd_wasm_test alloc_ok file e = Return (out, e') /\ command_post (WasmTest file) e out e'.
Proof.
  intros Hh Ht. destruct (RamFs_resolve_path (e_fs e) file) as [node|err] eqn:Er.
  - destruct (nodes (e_fs e) !! node) as [[content|map]|] eqn:En.
    + destruct (cmd_wasm_file alloc_ok file e node content Hh Er En) as (fs' & -> & E1 & E2 & _).
      eexists _, _. split; [done|]. split; try done.
      rewrite !ops_color_app, spawn_out_color. destruct (spawn_process_with_caps content []) as [so [process|]]; [|done].
      cbn [snd]. rewrite ops_color_app, ops_color_line, ops_color_app, call_out_color. by destruct (WasmProcess_call _ _ _).1.2.
    + destruct (cmd_wasm_other alloc_ok file e node Er) as (fs' & -> & E1 & E2 & _); [by rewrite En|].
      eexists _, _. split; [done|]. by split.
    + destruct (cmd_wasm_other alloc_ok file e node Er) as (fs' & -> & E1 & E2 & _); [by rewrite En|].
      eexists _, _. split; [done|]. by split.
  - unfold cmd_wasm_test, RamFs_open. rewrite Er. eexists _, _. split; [done|]. by split.
Qed.

Lemma cmd_ifconfig_color s (d : DhcpClient (H:=H)) : ops_color white (cmd_ifconfig s d) = white.
Proof.
  unfold cmd_ifconfig. rewrite !ops_color_app. done.
Qed.

Lemma cmd_dhcp_post action e :
  env_typed e -> exists out e', cmd_dhcp action e = Return (out, e') /\ command_post (Dhcp action) e out e'.
Proof.
  intros Ht. destruct action; simpl.
  - eexists _, _. split; [done|]. split; try done. simpl. destruct (dhcp_config (e_dhcp e)) as [c|]; [|done]. simpl.
    unfold ops_color. cbn [foldl op_color Println]. rewrite foldl_app.
    destruct (dc_gateway c), (dc_dns_servers c) as [|a l]; try done; cbn [foldl op_color];
      rewrite foldl_app; exact (ops_color_print_list white true (a :: l)).
  - destruct (dhcp_renew_returns (e_dhcp e) (e_stack e) (proj1 Ht)) as [[d s] E]. rewrite E. cbn [outcome_bind].
    eexists _, _. split; [done|]. pose proof (dhcp_renew_views _ _ _ _ E) as [Hs Hv].
    split; try done; [|by apply (env_typed_grow e _ None)].
    unfold DhcpClient_renew in E. destruct (dhcp_socket (e_dhcp e)) as [h|]; [|by simplify_eq].
    destruct (dhcp_socket_reset _ h) as [so|]; [|done]. by injection E as <- <-.
  - eexists _, _. split; [done|]. by split.
Qed.

Lemma execute_post alloc_ok c e :
  heap_serves alloc_ok (e_fs e) -> env_typed e ->
  exists out e', execute alloc_ok c e = Return (out, e') /\ command_post c e out e'.
Proof.
  intros Hh Ht. destruct c; cbn [execute].
  - eexists _, _. split; [done|]. by split.
  - eexists _, _. split; [done|]. by split.
  - eexists _, _. split; [done|]. split; try done. apply cmd_ifconfig_color.
  - by apply cmd_dhcp_post.
  - by apply cmd_dns_post.
  - by apply cmd_connect_post.
  - eexists _, _. split; [done|]. by split.
  - by apply cmd_ping_post.
  - eexists _, _. split; [done|]. by split.
  - apply cmd_wasm_test_post; [apply Hh|done].
  - eexists _, _. split; [done|]. by split.
Qed.

(** ** Repeated connections *)

(** The command [connect host port], once for each state of the heap. *)
Fixpoint connects (heaps : list (Z -> bool)) (host : string) (port : Z) e : Outcome env :=
  match heaps with
  | [] => Return e
  | alloc_ok :: heaps =>
      let! (_, e) := execute alloc_ok (Connect host port) e in connects heaps host port e
  end.

(** [alloc_ok] answers for a heap with [used] bytes in use. *)
Definition heap_used (used : Z) (alloc_ok : Z -> bool) : Prop :=
  forall n, alloc_ok n = true -> used + n <= HEAP_SIZE.

Lemma vec_alloc_full alloc_ok used n :
  heap_used used alloc_ok -> 0 < n -> HEAP_SIZE < used + n -> vec_alloc alloc_ok n = Panic.
Proof.
  intros Hu Hn Hl. unfold vec_alloc. rewrite decide_False by lia. destruct (alloc_ok n) eqn:E; [apply Hu in E; lia|].
  by rewrite orb_true_r.
Qed.

Lemma connect_full alloc_ok used host port ip e :
  parse_ipv4 host = Some ip -> heap_used used alloc_ok -> HEAP_SIZE <= used ->
  execute alloc_ok (Connect host port) e = Panic.
Proof.
  intros Hp Hu Hl. cbn [execute]. unfold cmd_connect, tcp_socket. rewrite Hp.
  rewrite (vec_alloc_full _ _ _ Hu); [done|by compute|]. unfold TCP_RX_BUFFER_SIZE. lia.
Qed.

Lemma connects_full heaps (n : nat) host port ip e :
  parse_ipv4 host = Some ip ->
  (forall i alloc_ok, heaps !! i = Some alloc_ok -> heap_used (8192 * Z.of_nat (n + i)) alloc_ok) ->
  (n <= 128 < n + length heaps)%nat -> connects heaps host port e = Panic.
Proof.
  intros Hp. revert n e. induction heaps as [|alloc_ok heaps IH]; intros n e Hu Hl; simpl in Hl; [lia|]. cbn [connects].
  destruct (decide (n = 128)%nat) as [->|Hn].
  - rewrite (connect_full alloc_ok (8192 * 128) host port ip e Hp); [done| |unfold HEAP_SIZE; lia].
    exact (Hu 0%nat alloc_ok eq_refl).
  - destruct (execute alloc_ok (Connect host port) e) as [[out e']|]; [|done]. cbn [outcome_bind].
    apply (IH (S n)); [|lia]. intros i a Hi. specialize (Hu (S i) a Hi). by rewrite Nat.add_succ_r in Hu.
Qed.
End spec.

(** ** Properties *)


(** [connect] leaks its socket, buffers included: nothing in the kernel removes a
    socket from the set.  With the 8 KiB of every earlier connection in use, the heap
    of 1 MiB has no room for the buffers of the 129th at the latest, and the command
    panics the kernel. *)
Theorem connect_exhausts_heap {M I SS H QH Sock : Type} `{SI : Smoltcp I SS H QH}
    {SK : SocketSet I SS H QH (NetworkDevice M) Sock}
    {Store Instance Func Inv Error : Type} `{WI : Wasmi Store Instance Func Inv Error}
    (heaps : list (Z -> bool)) (host : string) (port : Z) (ip : Ipv4Address)
    (e : Env (M:=M) (I:=I) (SS:=SS) (H:=H) (QH:=QH)) :
  parse_ipv4 host = Some ip ->
  (forall i alloc_ok, heaps !! i = Some alloc_ok -> heap_used (8192 * Z.of_nat i) alloc_ok) ->
  (128 < length heaps)%nat -> connects heaps host port e = Panic.
Proof. intros Hp Hu Hl. by apply (connects_full heaps 0 host port ip e Hp Hu); lia. Qed.

(** The WASM test can never complete a module built like the example
    application: [call] always passes one result slot, so an exported [_start]
    without results (the only kind the toolchain exports under that name) is refused
    by the interpreter and the command reports a failed execution. *)
Theorem wasm_start_never_completes {M I SS H QH Sock : Type} `{SI : Smoltcp I SS H QH}
    {SK : SocketSet I SS H QH (NetworkDevice M) Sock}
    {Store Instance Func Inv Error : Type} `{WI : Wasmi Store Instance Func Inv Error}
    (alloc_ok : Z -> bool) (file : string) (e : Env (M:=M) (I:=I) (SS:=SS) (H:=H) (QH:=QH))
    (node : nat) (content : list byte) (process : WasmProcess) (func : Func) :
  files_fit alloc_ok (e_fs e) ->
  RamFs_resolve_path (e_fs e) file = Ok node -> nodes (e_fs e) !! node = Some (File content) ->
  (spawn_process_with_caps content []).2 = Ok process ->
  wasm_get_func (wp_instance process) (wp_store process) "_start" = Some func ->
  wasm_func_results func = 0%nat ->
  exists err e', execute alloc_ok (WasmTest file) e =
    Return (wasm_head file ++ (spawn_process_with_caps content []).1 ++
      colored_line LightGreen "WASM process spawned successfully!" ++
      [Println "Executing _start..."; SetColor LightRed Black;
       Println ("Execution failed: " ++ wasm_error_debug err); SetColor White Black; Println ""], e').
Proof.
  intros Hh Hr Hn Hs Hf H0. destruct (cmd_wasm_file alloc_ok file e node content Hh Hr Hn) as (fs' & E & _).
  cbn [execute]. rewrite E, Hs. unfold WasmProcess_call. rewrite Hf.
  destruct (wasm_call_arity func (wp_store process) [] [0]) as (err & st & He); [by rewrite H0|].
  rewrite He. eexists err, _. by rewrite <- app_assoc.
Qed.

(** The WASM test leaks a handle for everything that opens but is no file: each run
    on a directory leaves one more entry in the table of open handles. *)
Theorem wasm_command_leaks_handle {M I SS H QH Sock : Type} `{SI : Smoltcp I SS H QH}
    {SK : SocketSet I SS H QH (NetworkDevice M) Sock}
    {Store Instance Func Inv Error : Type} `{WI : Wasmi Store Instance Func Inv Error}
    (alloc_ok : Z -> bool) (path : string) (e : Env (M:=M) (I:=I) (SS:=SS) (H:=H) (QH:=QH)) (node : nat)
    (map : gmap string nat) :
  RamFs_resolve_path (e_fs e) path = Ok node -> nodes (e_fs e) !! node = Some (Directory map) ->
  exists out e', execute alloc_ok (WasmTest path) e = Return (out, e') /\
    open_handles (e_fs e') = <[next_handle (e_fs e) := node]> (open_handles (e_fs e)).
Proof.
  intros Hr Hn. destruct (cmd_wasm_other alloc_ok path e node Hr) as (fs' & E & _ & _ & Eh); [by rewrite Hn|].
  eexists _, _. split; [exact E|exact Eh].
Qed.

(** ** Witnesses *)

(** An interpreter that loads everything; [_start] has no result. *)
#[global] Instance start_Wasmi : Wasmi HostState unit unit unit unit.
Proof.
  refine {| wasm_instantiate := fun _ h => (Ok (h, tt), 0%nat); wasm_imports := fun _ => [];
            wasm_add_fuel := fun s _ => (Ok tt, s);
            wasm_data := fun s => s; wasm_set_data := fun _ h => h;
            wasm_get_func := fun _ _ name => if decide (name = "_start"%string) then Some tt else None;
            wasm_call := fun _ s _ rs => (if decide (length rs = 0%nat) then Ok [] else Err tt, s, 0%nat);
            wasm_func_results := fun _ => 0%nat; wasm_error_debug := fun _ => "Results"%string;
            wasm_call_resumable := fun _ s _ rs => (if decide (length rs = 0%nat) then Ok Finished else Err tt, s, 0%nat);
            wasm_resume := fun _ s vs _ => (if decide (length vs = 0%nat) then Ok Finished else Err tt, s, 0%nat);
            wasm_unreachable := tt; wasm_results := fun _ => 0%nat |}; [done|..].
  - intros inv s vs rs H. exists tt, s. by case_decide.
  - intros f s ps rs H. exists tt, s. by case_decide.
  - intros bytes h name ft H. by apply elem_of_nil in H.
  - intros f s ps rs H. exists tt, s. by case_decide.
Defined.

Definition demo_fs : RamFs := RamFs_add_file RamFs_new "hello.wasm" [x00; x61; x73; x6d; x01; x00; x00; x00].

Definition demo_env : Env (M:=unit) (I:=Demo.iface) (SS:=Demo.set) (H:=nat) (QH:=nat) :=
  Env_mk Demo.stack0 DhcpClient_new DnsResolver_new demo_fs.

Lemma demo_files_fit : files_fit (fun _ => true) (e_fs demo_env).
Proof.
  assert (Hall : map_Forall (fun _ n => (match n with File c => Z.of_nat (length c) <=? isize_max | _ => true end) = true)
    (nodes demo_fs)) by by_compute.
  intros l content Hl. split; [|done]. apply Z.leb_le. exact (Hall l _ Hl).
Qed.

Lemma demo_heap_serves : heap_serves (SK:=Demo.demo_sockets (NetworkDevice unit)) (fun _ => true) (e_fs demo_env).
Proof. split; [apply demo_files_fit|done..]. Qed.


Lemma connect_exhausts_heap_witness :
  connects ((fun (i : nat) n => 8192 * Z.of_nat i + n <=? HEAP_SIZE) <$> seq 0 129) "10.0.2.2" 80 demo_env = Panic.
Proof.
  apply (connect_exhausts_heap _ "10.0.2.2" 80 (Ipv4Address_new 10 0 2 2) demo_env); [reflexivity| |by compute].
  intros i a Hi n. apply list_lookup_fmap_Some in Hi as (j & -> & [-> _]%lookup_seq). apply Z.leb_le.
Defined.

Lemma wasm_start_never_completes_witness :
  exists err e', execute (fun _ => true) (WasmTest "hello.wasm") demo_env =
    Return (wasm_head "hello.wasm" ++ colored_line LightGreen "WASM process spawned successfully!" ++
      [Println "Executing _start..."; SetColor LightRed Black;
       Println ("Execution failed: " ++ wasm_error_debug err); SetColor White Black; Println ""], e').
Proof.
  destruct (wasm_start_never_completes (fun _ => true) "hello.wasm" demo_env 1%nat
    [x00; x61; x73; x6d; x01; x00; x00; x00] (WasmProcess_mk (HostState_with_capabilities []) tt) tt demo_files_fit)
    as (err & e' & E); [vm_compute; reflexivity..|].
  exists err, e'. rewrite E. reflexivity.
Defined.
