(* ===== verification/SelfTest.v ===== *)
(** * The kernel's self tests

    Models [src/kernel/src/tests.rs]: the tests [kernel_main] runs at boot, as
    programs over the models of the capability table and of a process's host
    state.  A failed assertion panics the kernel.  The two static counters of
    capability ids are threaded through. *)

From S2P Require Import Prelude Capability Text FileSystem Queue Mutex Semaphore Registry Host.
Open Scope Z_scope.

(** [assert!]. *)
Definition rassert (b : bool) : Outcome unit := if b then Return tt else Panic.

Section tests.
Context `{BF : Bitflags}.

Definition test_allocation : Outcome unit :=
  let x := 42 in
  let! _ := rassert (x =? 42) in
  let v := foldl (fun v i => v ++ [Z.of_nat i]) [] (seq 0 100) in
  let! _ := rassert (length v =? 100)%nat in
  let! y := or_panic (v !! 50%nat) in
  rassert (y =? 50).

Definition test_capabilities (next_cap_id : Z) : Outcome Z :=
  let table := CapabilityTable_new next_cap_id in
  let '(id, table) := CapabilityTable_grant table (CtSerial 0x3F8) (Some 101) in
  let! _ := rassert (CapabilityTable_has_access table 101 id) in
  let! _ := rassert (negb (CapabilityTable_has_access table 102 id)) in
  let '(r, table) := CapabilityTable_revoke table id in
  let! _ := match r with Ok _ => Return tt | Err _ => Panic end in
  let! _ := rassert (negb (CapabilityTable_has_access table 101 id)) in
  Return (next_cap_index table).

Definition test_task_id : Outcome unit := Return tt.

Definition is_some {A} (o : option A) : bool := match o with Some _ => true | None => false end.

Definition test_capability_generation_revocation (next_cap : Z) : Outcome Z :=
  let host_state := HostState_new in
  let '(file_cap, next_cap) := Capability_new (CtFile 42) (rights_or RIGHT_READ RIGHT_WRITE) next_cap in
  let id := cap_id file_cap in
  let '(_, host_state) := HostState_add_capability host_state file_cap in
  let! _ := rassert (is_some (HostState_get_capability host_state id)) in
  let! cap := or_panic (HostState_get_capability host_state id) in
  let! _ := rassert (rights_contains (cap_rights cap) RIGHT_READ) in
  let! _ := rassert (rights_contains (cap_rights cap) RIGHT_WRITE) in
  let host_state := HostState_revoke host_state id in
  let! _ := rassert (negb (is_some (HostState_get_capability host_state id))) in
  let '(new_cap, next_cap) := Capability_new (CtFile 100) RIGHT_READ next_cap in
  let new_id := cap_id new_cap in
  let '(_, host_state) := HostState_add_capability host_state new_cap in
  let wrong_gen_id := CapId_new (capid_index new_id) (as_u32 (capid_generation new_id + 1)) in
  let! _ := rassert (negb (is_some (HostState_get_capability host_state wrong_gen_id))) in
  let! _ := rassert (is_some (HostState_get_capability host_state new_id)) in
  Return next_cap.

(** [run_all] with the counters of [CapId::next] and [Capability::new]. *)
Definition run_all (counters : Z * Z) : Outcome (Z * Z) :=
  let! _ := test_allocation in
  let! c1 := test_capabilities counters.1 in
  let! _ := test_task_id in
  let! c2 := test_capability_generation_revocation counters.2 in
  Return (c1, c2).

Lemma test_capabilities_ok n : test_capabilities n = Return (as_u32 (n + 1)).
Proof.
  unfold test_capabilities, CapabilityTable_has_access, CapabilityTable_revoke. simpl.
  rewrite !lookup_insert_eq. simpl. by rewrite lookup_delete_eq.
Qed.

Lemma generation_revocation_ok n :
  test_capability_generation_revocation n = Return (as_u32 (as_u32 (n + 1) + 1)).
Proof.
  assert (Hr : rights_contains (rights_or RIGHT_READ RIGHT_WRITE) RIGHT_READ = true)
    by (by rewrite rights_contains_bits, rights_or_bits).
  assert (Hw : rights_contains (rights_or RIGHT_READ RIGHT_WRITE) RIGHT_WRITE = true)
    by (by rewrite rights_contains_bits, rights_or_bits).
  unfold test_capability_generation_revocation, HostState_get_capability. simpl.
  rewrite !lookup_insert_eq. simpl. rewrite Hr, Hw. simpl. rewrite lookup_delete_eq. simpl.
  rewrite lookup_insert_ne, lookup_delete_ne, lookup_insert_ne, lookup_empty by done. done.
Qed.

Lemma run_all_ok (counters : Z * Z) :
  run_all counters = Return (as_u32 (counters.1 + 1), as_u32 (as_u32 (counters.2 + 1) + 1)).
Proof.
  unfold run_all. assert (test_allocation = Return tt) as -> by (vm_compute; reflexivity).
  cbn [outcome_bind]. rewrite test_capabilities_ok. cbn [outcome_bind test_task_id].
  by rewrite generation_revocation_ok.
Qed.

Lemma run_all_returns (counters : Z * Z) : exists c, run_all counters = Return c.
Proof. eexists. apply run_all_ok. Qed.
End tests.
