(* ===== verification/TestUtil.v ===== *)
(** * The test infrastructure

    Models [src/kernel/src/testutil/mod.rs], the test binary
    [src/kernel/tests/basic_boot.rs] and the unit tests of
    [src/kernel/src/sync].  A test is a function that returns or panics; a run of a
    test binary is the list of what it sends to the serial port and to the debug
    exit device of QEMU, which ends the run. *)

From S2P Require Import Prelude Text Vga Queue Mutex Semaphore Registry Capability FileSystem Host SelfTest Shell ShellSpec Boot.
Open Scope Z_scope.

(** ** [testutil/mod.rs] *)

Inductive QemuExitCode : Type := Success | Failed.

Definition exit_code_u32 (c : QemuExitCode) : Z := match c with Success => 0x10 | Failed => 0x11 end.

Inductive TestEvent : Type :=
| SerialLine (s : string)          (** [serial_println!] *)
| PortWrite (port value : Z).

Definition exit_qemu (exit_code : QemuExitCode) : list TestEvent := [PortWrite 0xf4 (exit_code_u32 exit_code)].

(** A test with its [type_name]; the serial output of the test itself is empty. *)
Record Test : Type := Test_mk { test_name : string; test_fn : Outcome unit }.

(** [Testable::run]; the events, and whether the test returned. *)
Definition Testable_run (t : Test) : list TestEvent * Outcome unit :=
  match test_fn t with
  | Return _ => ([SerialLine ("test " ++ test_name t ++ " ... "); SerialLine "[ok]"], Return tt)
  | Panic => ([SerialLine ("test " ++ test_name t ++ " ... ")], Panic)
  end.

Fixpoint run_tests (tests : list Test) : list TestEvent * Outcome unit :=
  match tests with
  | [] => ([], Return tt)
  | t :: tests =>
      match Testable_run t with
      | (ev, Panic) => (ev, Panic)
      | (ev, Return _) => let '(ev', r) := run_tests tests in (ev ++ ev', r)
      end
  end.

Definition test_runner (tests : list Test) : list TestEvent * Outcome unit :=
  let header := SerialLine ("Running " ++ show_uint (Z.of_nat (length tests)) ++ " tests") in
  match run_tests tests with
  | (ev, Return _) => (header :: ev ++ exit_qemu Success, Return tt)
  | (ev, Panic) => (header :: ev, Panic)
  end.

(** [test_panic_handler]; then it halts. *)
Definition test_panic_handler (info : string) : list TestEvent :=
  [SerialLine "[failed]"; SerialLine ("Error: " ++ info)] ++ exit_qemu Failed.

(** ** [basic_boot.rs] *)

(** [_start] with the binary's panic handler; [info] is the [PanicInfo] of a panic. *)
Definition test_start (tests : list Test) (info : string) : list TestEvent :=
  match test_runner tests with
  | (ev, Return _) => ev ++ exit_qemu Success
  | (ev, Panic) => ev ++ test_panic_handler info
  end.

Definition trivial_assertion : Outcome unit := rassert (1 =? 1).

(** What QEMU shows of a run: the first write to the device ends it with status
    [(value << 1) | 1]. *)
Fixpoint qemu_run (ev : list TestEvent) : list string * option Z :=
  match ev with
  | [] => ([], None)
  | SerialLine s :: ev => let '(out, st) := qemu_run ev in (s :: out, st)
  | PortWrite port v :: ev => if port =? 0xf4 then ([], Some (Z.lor (Z.shiftl v 1) 1)) else qemu_run ev
  end.

(** ** The unit tests of [sync] *)

Section sync_tests.
Context {Q : Type -> Type} `{AQ : ArrayQueue Q} {W : Type}.

(** [try_lock().expect(..)]. *)
Definition expect_lock {T} (m : AsyncMutex Q W T) : Outcome (AsyncMutex Q W T) :=
  match AsyncMutex_try_lock m with (true, m) => Return m | (false, _) => Panic end.

Definition test_mutex_uncontended : Outcome unit :=
  let mutex := AsyncMutex_new 42 in
  let! mutex := expect_lock mutex in
  let! _ := rassert (AsyncMutexGuard_deref mutex =? 42) in
  let '(_, mutex) := AsyncMutexGuard_drop mutex in
  let! mutex := expect_lock mutex in
  rassert (AsyncMutexGuard_deref mutex =? 42).

Definition test_mutex_try_lock_fails_when_locked : Outcome unit :=
  let mutex := AsyncMutex_new 42 in
  let! mutex := expect_lock mutex in
  rassert (negb (AsyncMutex_try_lock mutex).1).

Definition test_mutex_guard_deref_mut : Outcome unit :=
  let mutex := AsyncMutex_new 0 in
  let! mutex := expect_lock mutex in
  let mutex := AsyncMutexGuard_deref_mut mutex 100 in
  let '(_, mutex) := AsyncMutexGuard_drop mutex in
  let! mutex := expect_lock mutex in
  rassert (AsyncMutexGuard_deref mutex =? 100).

(** [f] is the number of spurious failures each loop meets. *)
Variable f : nat.
Abbreviation try_acquire := (Semaphore_try_acquire f).
Abbreviation release s := (Semaphore_release f s).2.

Definition test_semaphore_try_acquire : Outcome unit :=
  let sem : Semaphore Q W := Semaphore_new 2 in
  let '(ok, sem) := try_acquire sem in
  let! _ := rassert ok in
  let '(ok, sem) := try_acquire sem in
  let! _ := rassert ok in
  rassert (negb (try_acquire sem).1).

Definition test_semaphore_release : Outcome unit :=
  let sem : Semaphore Q W := Semaphore_new 1 in
  let '(ok, sem) := try_acquire sem in
  let! _ := rassert ok in
  let '(ok, sem) := try_acquire sem in
  let! _ := rassert (negb ok) in
  let sem := release sem in
  rassert (try_acquire sem).1.

Definition test_semaphore_max_permits : Outcome unit :=
  let sem : Semaphore Q W := Semaphore_new 2 in
  let sem := release (release (release sem)) in
  rassert (Semaphore_available_permits sem =? 2).

Definition test_semaphore_with_max : Outcome unit :=
  let! sem := (Semaphore_with_max true 1 5 : Outcome (Semaphore Q W)) in
  let! _ := rassert (Semaphore_available_permits sem =? 1) in
  let '(ok, sem) := try_acquire sem in
  let! _ := rassert ok in
  let '(ok, sem) := try_acquire sem in
  let! _ := rassert (negb ok) in
  let sem := release (release (release sem)) in
  rassert (Semaphore_available_permits sem =? 4).

(** The tests of the registries work on the statics. *)
Definition test_mutex_registry (r : SyncRegistry Q W) : Outcome (SyncRegistry Q W) :=
  let '(h1, r) := create_mutex r in
  let '(h2, r) := create_mutex r in
  let! _ := rassert (negb (h1 =? h2)) in
  let '(m, r) := get_mutex r h1 in
  let! _ := rassert (is_some m) in
  let '(m, r) := get_mutex r h2 in
  let! _ := rassert (is_some m) in
  let '(m, r) := get_mutex r 9999 in
  let! _ := rassert (negb (is_some m)) in
  let '(b, r) := destroy_mutex r h1 in
  let! _ := rassert b in
  let '(m, r) := get_mutex r h1 in
  let! _ := rassert (negb (is_some m)) in
  let '(b, r) := destroy_mutex r h1 in
  let! _ := rassert (negb b) in
  Return r.

Definition test_semaphore_registry (r : SyncRegistry Q W) : Outcome (SyncRegistry Q W) :=
  let '(h1, r) := create_semaphore r 3 in
  let '(h2, r) := create_semaphore r 1 in
  let! _ := rassert (negb (h1 =? h2)) in
  let '(a1, r) := get_semaphore r h1 in
  let! sem1 := or_panic (a1 ≫= fun a => sem_arcs r !! a) in
  let! _ := rassert (Semaphore_available_permits sem1 =? 3) in
  let '(a2, r) := get_semaphore r h2 in
  let! sem2 := or_panic (a2 ≫= fun a => sem_arcs r !! a) in
  let! _ := rassert (Semaphore_available_permits sem2 =? 1) in
  let '(b, r) := destroy_semaphore r h1 in
  let! _ := rassert b in
  let '(a1, r) := get_semaphore r h1 in
  let! _ := rassert (negb (is_some a1)) in
  Return r.
End sync_tests.

(** ** Runs *)

Definition passes (t : Test) : Prop := test_fn t = Return tt.

(** The serial lines of tests that pass. *)
Definition passed_lines (tests : list Test) : list string :=
  tests ≫= fun t => ["test " ++ test_name t ++ " ... "; "[ok]"]%string.

Definition header_line (tests : list Test) : string :=
  "Running " ++ show_uint (Z.of_nat (length tests)) ++ " tests".

Lemma run_tests_app ok rest :
  Forall passes ok ->
  run_tests (ok ++ rest) = ((SerialLine <$> passed_lines ok) ++ (run_tests rest).1, (run_tests rest).2).
Proof.
  induction 1 as [|t ok Ht _ IH]; simpl; [by destruct (run_tests rest)|]. unfold Testable_run. rewrite Ht, IH. done.
Qed.

Lemma run_tests_pass tests :
  Forall passes tests -> run_tests tests = (SerialLine <$> passed_lines tests, Return tt).
Proof. intros Ht. rewrite <- (app_nil_r tests) at 1. rewrite run_tests_app by done. simpl. by rewrite app_nil_r. Qed.

Lemma qemu_run_lines lines ev :
  qemu_run ((SerialLine <$> lines) ++ ev) = (lines ++ (qemu_run ev).1, (qemu_run ev).2).
Proof.
  induction lines as [|l lines IH]; [by simpl; destruct (qemu_run ev)|]. rewrite fmap_cons. cbn [app qemu_run].
  by rewrite IH.
Qed.

Section sync_results.
Context {Q : Type -> Type} `{AQ : ArrayQueue Q} {W : Type}.

(** [n] releases of a semaphore in range. *)
Lemma releases_spec n f (s : Semaphore Q W) :
  sem_wf s -> let s' := Nat.iter n (fun s => (Semaphore_release f s).2) s in
  sem_wf s' /\ max_permits s' = max_permits s /\ permits s' = Z.min (permits s + Z.of_nat n) (max_permits s).
Proof.
  intros Hwf. induction n as [|n IH]; simpl in *; [destruct Hwf; split_and!; [done..|lia]|].
  destruct IH as (H1 & H2 & H3). destruct (release_spec f _ H1) as (H4 & H5 & _). unfold sem_wf in *.
  rewrite H5, H4, H3, H2 in *. split_and!; lia.
Qed.

Lemma three_releases f (s : Semaphore Q W) :
  sem_wf s ->
  Semaphore_available_permits (Semaphore_release f (Semaphore_release f (Semaphore_release f s).2).2).2 =
  Z.min (permits s + 3) (max_permits s).
Proof. intros Hwf. by destruct (releases_spec 3 f s Hwf) as (_ & _ & H). Qed.

Lemma mutex_tests_pass :
  test_mutex_uncontended (Q:=Q) (W:=W) = Return tt /\
  test_mutex_try_lock_fails_when_locked (Q:=Q) (W:=W) = Return tt /\
  test_mutex_guard_deref_mut (Q:=Q) (W:=W) = Return tt.
Proof.
  unfold test_mutex_uncontended, test_mutex_try_lock_fails_when_locked, test_mutex_guard_deref_mut, AsyncMutexGuard_drop,
    AsyncMutex_wake_next. simpl. split_and!; try done; by destruct (q_pop _).
Qed.

Lemma semaphore_tests_pass f :
  test_semaphore_try_acquire (Q:=Q) (W:=W) f = Return tt /\ test_semaphore_release (Q:=Q) (W:=W) f = Return tt /\
  test_semaphore_max_permits (Q:=Q) (W:=W) f = Return tt.
Proof.
  unfold test_semaphore_try_acquire, test_semaphore_release, test_semaphore_max_permits. split_and!.
  - rewrite !try_acquire_spec. simpl. rewrite try_acquire_spec. simpl. by rewrite try_acquire_spec.
  - rewrite !try_acquire_spec. simpl. rewrite try_acquire_spec. simpl.
    match goal with |- context [Semaphore_release f ?s] => destruct (release_spec f s) as (H & _); [by split|] end.
    rewrite try_acquire_spec, H. done.
  - rewrite three_releases; [done|by split].
Qed.

Lemma registry_tests_pass :
  (exists r, test_mutex_registry (registry_boot : SyncRegistry Q W) = Return r) /\
  (exists r, test_semaphore_registry (registry_boot : SyncRegistry Q W) = Return r).
Proof. split; eexists; vm_compute; reflexivity. Qed.

Lemma with_max_test_fails f : test_semaphore_with_max (Q:=Q) (W:=W) f = Panic.
Proof.
  unfold test_semaphore_with_max. simpl. rewrite !try_acquire_spec. simpl. rewrite try_acquire_spec. simpl.
  rewrite three_releases; [done|by split].
Qed.
End sync_results.

(** ** Properties *)

(** C39: The exit status of a test binary tells whether its tests pass.  When
    every test returns, the serial log lists all of them with [[ok]] and QEMU exits
    with 33; when one panics, the log ends with that test and the panic message, the
    later tests do not run, and QEMU exits with 35. *)
Theorem test_binary_status (tests : list Test) (info : string) :
  (Forall passes tests ->
     qemu_run (test_start tests info) = (header_line tests :: passed_lines tests, Some 33)) /\
  (forall ok t rest, tests = ok ++ t :: rest -> Forall passes ok -> test_fn t = Panic ->
     qemu_run (test_start tests info) =
       (header_line tests :: passed_lines ok ++ ["test " ++ test_name t ++ " ... "; "[failed]"; "Error: " ++ info]%string,
        Some 35)).
Proof.
  unfold test_start, test_runner. split.
  - intros Ht. rewrite run_tests_pass by done. rewrite <- app_comm_cons, <- app_assoc. cbn [qemu_run].
    rewrite qemu_run_lines. simpl. by rewrite app_nil_r.
  - intros ok t rest -> Hok Ht. rewrite run_tests_app by done. cbn [run_tests]. unfold Testable_run. rewrite Ht.
    cbn [fst snd]. rewrite <- app_comm_cons, <- app_assoc. cbn [qemu_run]. rewrite qemu_run_lines. done.
Qed.

Lemma test_binary_status_witness :
  qemu_run (test_start [Test_mk "basic_boot::trivial_assertion" trivial_assertion] "") =
    (["Running 1 tests"; "test basic_boot::trivial_assertion ... "; "[ok]"]%string, Some 33) /\
  (qemu_run (test_start [Test_mk "a" (Return tt); Test_mk "b" Panic; Test_mk "c" (Return tt)] "boom")).2 = Some 35.
Proof.
  split.
  - rewrite (proj1 (test_binary_status [Test_mk "basic_boot::trivial_assertion" trivial_assertion] "")); [reflexivity|].
    repeat constructor.
  - rewrite (proj2 (test_binary_status [Test_mk "a" (Return tt); Test_mk "b" Panic; Test_mk "c" (Return tt)] "boom")
      [Test_mk "a" (Return tt)] (Test_mk "b" Panic) [Test_mk "c" (Return tt)]); [reflexivity|reflexivity|repeat constructor|reflexivity].
Defined.

(** The unit tests of [sync], in the order of their files. *)
Definition forget {A} (o : Outcome A) : Outcome unit := let! _ := o in Return tt.

Section suite.
Context {Q : Type -> Type} `{AQ : ArrayQueue Q} {W : Type}.

Definition sync_tests (f : nat) : list Test :=
  [Test_mk "test_mutex_uncontended" (test_mutex_uncontended (Q:=Q) (W:=W));
   Test_mk "test_mutex_try_lock_fails_when_locked" (test_mutex_try_lock_fails_when_locked (Q:=Q) (W:=W));
   Test_mk "test_mutex_guard_deref_mut" (test_mutex_guard_deref_mut (Q:=Q) (W:=W));
   Test_mk "test_mutex_registry" (forget (test_mutex_registry (registry_boot : SyncRegistry Q W)));
   Test_mk "test_semaphore_registry" (forget (test_semaphore_registry (registry_boot : SyncRegistry Q W)));
   Test_mk "test_semaphore_try_acquire" (test_semaphore_try_acquire (Q:=Q) (W:=W) f);
   Test_mk "test_semaphore_release" (test_semaphore_release (Q:=Q) (W:=W) f);
   Test_mk "test_semaphore_max_permits" (test_semaphore_max_permits (Q:=Q) (W:=W) f);
   Test_mk "test_semaphore_with_max" (test_semaphore_with_max (Q:=Q) (W:=W) f)].

(** However often the weak compare-and-exchange fails, all unit tests of [sync] pass
    but one: [test_semaphore_with_max] takes the only permit, gives three back and
    expects four, so a run of the tests exits with 35. *)
Theorem sync_tests_outcome (f : nat) (info : string) :
  Forall passes (take 8 (sync_tests f)) /\ test_semaphore_with_max (Q:=Q) (W:=W) f = Panic /\
  (qemu_run (test_start (sync_tests f) info)).2 = Some 35.
Proof.
  destruct (mutex_tests_pass (Q:=Q) (W:=W)) as (H1 & H2 & H3).
  destruct (registry_tests_pass (Q:=Q) (W:=W)) as [[r1 H4] [r2 H5]].
  destruct (semaphore_tests_pass (Q:=Q) (W:=W) f) as (H6 & H7 & H8). pose proof (with_max_test_fails (Q:=Q) (W:=W) f) as H9.
  split_and!; [|done|].
  - unfold sync_tests, forget. rewrite H1, H2, H3, H4, H5, H6, H7, H8. repeat constructor.
  - unfold sync_tests, forget. rewrite H1, H2, H3, H4, H5, H6, H7, H8, H9. reflexivity.
Qed.
End suite.
