(* ===== verification/KernelMain.v ===== *)
(** * The kernel entry point

    Models [src/kernel/src/main.rs] and [decode_scancode] of
    [src/kernel/src/terminal/mod.rs]: the boot sequence that composes all
    components, and the three tasks it leaves to the executor.  The statics and
    shared structures of the kernel are one record; a panic anywhere is the world
    [Panic], in which nothing runs any more.  The spin locks around the shared
    structures are released before every [yield_now], so no task ever finds one
    taken; [Traps] gives each poll as processor code, with its locks and its serial
    output, which is not part of the record here. *)

From S2P Require Import Prelude Text Pci Memory Vga VgaSpec Capability FileSystem RamFs Queue Executor Host Wasm.
From S2P Require Import E1000 Device Net Keyboard Shell ShellSpec Boot Platform Cpu Traps Sockets Commands SelfTest.
Open Scope Z_scope.

(** The decoder of the [pc_keyboard] crate. *)
Class PcKeyboard (KB Ev : Type) : Type := {
  kb_new : KB;
  kb_add_byte : KB -> Z -> Result (option Ev) unit * KB;
  kb_process_keyevent : KB -> Ev -> option DecodedKey * KB;
}.

Definition decode_scancode {KB Ev} `{PK : PcKeyboard KB Ev} (keyboard : KB) (scancode : Z) : option DecodedKey * KB :=
  match kb_add_byte keyboard scancode with
  | (Ok (Some key_event), keyboard) => kb_process_keyevent keyboard key_event
  | (_, keyboard) => (None, keyboard)
  end.

(** [now] and [tick]: the counter is a [u64], an [Instant] an [i64] of milliseconds. *)
Definition now (tick_count : Z) : Z := as_i64 tick_count.
Definition tick (tick_count : Z) : Z := (fetch_add 64 tick_count).2.

Definition WASM_MAGIC : list byte := [x00; x61; x73; x6d; x01; x00; x00; x00].

Section kernel.
Context {M I SS H QH Sock : Type} `{NI : Nic M} `{SI : Smoltcp I SS H QH}
  {SK : SocketSet I SS H QH (NetworkDevice M) Sock}.
Context {Store Instance Func Inv Error : Type} `{WI : Wasmi Store Instance Func Inv Error}.
Context {Q : Type -> Type} `{AQ : ArrayQueue Q} {A : Type} `{AW : AtomicWaker A TaskWaker}.
Context {KB Ev : Type} `{PK : PcKeyboard KB Ev} `{BF : Bitflags}.
Abbreviation env := (Env (M:=M) (I:=I) (SS:=SS) (H:=H) (QH:=QH)).
Abbreviation stack := (NetworkStack (M:=M) (I:=I) (S:=SS)).

Record KState : Type := KState_mk {
  kn_tick : Z;                      (** [TICK_COUNT] *)
  kn_env : env;                     (** the stack, the DHCP client, the resolver, [ROOT_FS] *)
  kn_terminal : Terminal;
  kn_kbd : Keyboard Q A;            (** [SCANCODE_QUEUE] and its waker *)
  kn_decoder : KB;                  (** [KEYBOARD] *)
  kn_console : list ConsoleOp;      (** all console operations so far *)
}.
Implicit Types k : KState.

Definition set_tick k (t : Z) : KState :=
  KState_mk t (kn_env k) (kn_terminal k) (kn_kbd k) (kn_decoder k) (kn_console k).
Definition set_env k (e : env) : KState :=
  KState_mk (kn_tick k) e (kn_terminal k) (kn_kbd k) (kn_decoder k) (kn_console k).
Definition set_terminal k (t : Terminal) : KState :=
  KState_mk (kn_tick k) (kn_env k) t (kn_kbd k) (kn_decoder k) (kn_console k).
Definition set_keyboard k (kb : Keyboard Q A) : KState :=
  KState_mk (kn_tick k) (kn_env k) (kn_terminal k) kb (kn_decoder k) (kn_console k).
Definition set_decoder k (d : KB) : KState :=
  KState_mk (kn_tick k) (kn_env k) (kn_terminal k) (kn_kbd k) d (kn_console k).
Definition print_ops k (ops : list ConsoleOp) : KState :=
  KState_mk (kn_tick k) (kn_env k) (kn_terminal k) (kn_kbd k) (kn_decoder k) (kn_console k ++ ops).

(** ** The tasks *)

(** [handle_dhcp_event]. *)
Definition handle_dhcp_event (event : DhcpEvent) (dns : DnsResolver (H:=H) (QH:=QH)) (s : stack)
    : list Output * DnsResolver (H:=H) (QH:=QH) * stack :=
  match event with
  | EvConfigured config =>
      let out :=
        Println "" ::
        log StOk ("DHCP: Acquired " ++ show_ipv4 (dc_ip config) ++ "/" ++ show_uint (dc_prefix_len config)) ++
        (match dc_gateway config with Some gw => log_detail ("Gateway: " ++ show_ipv4 gw) | None => [] end) ++
        (match dc_dns_servers config with
         | [] => []
         | servers => log_detail ("DNS: " ++ join ", " (show_ipv4 <$> servers))
         end) in
      let '(dns, s) := DnsResolver_init dns s in
      ((ToConsole <$> out) ++ [ToSerial ("[DHCP] Configured: " ++ show_ipv4 (dc_ip config))], dns, s)
  | EvDeconfigured => ([ToSerial "[DHCP] Deconfigured"], dns, s)
  | EvLinkLocalFallback ip =>
      let out := Println "" :: log StWarn ("DHCP: No server, using link-local " ++ show_ipv4 ip) in
      ((ToConsole <$> out) ++ [ToSerial ("[DHCP] Link-local fallback: " ++ show_ipv4 ip)], dns, s)
  end.

(** One iteration of the network task: tick, poll the stack, look for pings. *)
Definition net_iteration k : Outcome KState :=
  let k := set_tick k (tick (kn_tick k)) in
  let! s := stack_poll (e_stack (kn_env k)) (now (kn_tick k)) in
  let! (out, s) := check_icmp s in
  Return (print_ops (set_env k (with_stack (kn_env k) s)) out).

(** One iteration of the DHCP task. *)
Definition dhcp_iteration k : Outcome KState :=
  let e := kn_env k in
  let! (event, d, s) := DhcpClient_poll (e_dhcp e) (e_stack e) (now (kn_tick k)) in
  let k := set_env k (with_dhcp e d s) in
  match event with
  | None => Return k
  | Some ev =>
      let e := kn_env k in
      let '(out, dns, s) := handle_dhcp_event ev (e_dns e) (e_stack e) in
      Return (print_ops (set_env k (with_dns e dns s)) (console_part out))
  end.

(** One iteration of the terminal task. *)
Definition terminal_iteration (alloc_ok : Z -> bool) k : Outcome KState :=
  let '(scancode, kb) := get_scancode (kn_kbd k) in
  let k := set_keyboard k kb in
  match scancode with
  | None => Return k
  | Some scancode =>
      let '(key, decoder) := decode_scancode (kn_decoder k) scancode in
      let k := set_decoder k decoder in
      match key with
      | None => Return k
      | Some key =>
          let! (command, out, t) := handle_key (kn_terminal k) key in
          let k := print_ops (set_terminal k t) out in
          match command with
          | None => Return k
          | Some command =>
              let! (out, e) := execute alloc_ok command (kn_env k) in
              Return (print_ops (set_env k e) (out ++ prompt))
          end
      end
  end.

(** The three async blocks; the terminal task prints the prompt when it starts. *)
Inductive KTask : Type := NetTask | DhcpTask | TerminalTask (started : bool).

Definition task_body (alloc_ok : Z -> bool) (f : KTask) k : Outcome KState :=
  match f with
  | NetTask => net_iteration k
  | DhcpTask => dhcp_iteration k
  | TerminalTask started => terminal_iteration alloc_ok (if started then k else print_ops k prompt)
  end.

(** The async block after its next [yield_now]. *)
Definition next_task (f : KTask) : KTask := match f with TerminalTask _ => TerminalTask true | _ => f end.

(** A poll runs one iteration and ends in [yield_now], which wakes the task.  When the
    iteration panics the machine is halted: the poll does not get to [yield_now], and
    nothing of the world [Panic] runs any more. *)
Definition kernel_poll (alloc_ok : Z -> bool) (f : KTask) (wk : TaskWaker) (w : Outcome KState)
    : Poll unit * KTask * Outcome KState * list TaskWaker :=
  match (let! k := w in task_body alloc_ok f k) with
  | Return k => (Pending, next_task f, Return k, [wk])
  | Panic => (Pending, f, Panic, [])
  end.

(** ** [kernel_main] *)

Section boot.
Context {MP D T G : Type} `{MI : Mapper MP} `{PH : PciHost D} `{ID : Idt T} `{GD : Gdt G}.

(** The console operations of the boot log; the network part depends on the device. *)
Definition boot_log (device : NetworkDevice M) : list ConsoleOp :=
  ClearScreen :: print_banner ++
  log StOk "Serial port initialized" ++ log StOk "GDT loaded" ++ log StOk "IDT configured" ++
  log StOk "Memory manager initialized" ++ log StOk "Kernel heap ready (1 MiB)" ++
  log StOk "RAM filesystem mounted" ++
  log StOk ("Heap verified (boxed=" ++ show_uint 42 ++ ", vec_len=" ++ show_uint 10 ++ ")") ++
  log StOk "Kernel self-tests passed" ++
  log_section "Network" ++
  (if is_real device then log StOk "Intel e1000 PCI NIC detected"
   else log StWarn "No NIC found, using loopback") ++
  log_detail ("MAC: " ++ show_mac (NetworkDevice_mac_address device)) ++
  log StOk "Network stack initialized" ++ log StInfo "DHCP discovery started..." ++
  log_section "Services" ++ log StOk "Terminal initialized" ++ log StOk "WASM engine ready" ++
  [Println ""] ++ log StOk "Boot complete!" ++
  [Println ""; SetColor Cyan Black; Println "Type 'help' for available commands."; SetColor White Black; Println ""].

Definition spawn_tasks (fs : list KTask) (ex : Executor Q KTask) (next_id : Z) : Executor Q KTask * Z :=
  foldl (fun '(ex, next_id) f => let '(t, next_id) := Task_new next_id f in ((Executor_spawn ex t).2, next_id))
    (ex, next_id) fs.

(** What the machine and the boot loader hand to [kernel_main]: the boot
    information, [Cr3], [OffsetPageTable::new], the address of the double-fault
    stack, the table registers, the PCI bus and the device memory. *)
Record BootInfo : Type := BootInfo_mk {
  bi_memory_map : list MemoryRegion;
  bi_offset : Z;                      (** [physical_memory_offset] *)
  bi_cr3 : Z;
  bi_page_table : Z -> Z -> MP;
  bi_stack : Z;
  bi_registers : Registers (T:=T) (G:=G);
  bi_mmio : Z -> M;
  bi_boxes : Boxes;
  bi_pci : D;
}.

(** What [kernel_main] leaves when it enters [executor.run]: the table registers and
    the accesses of [init], the executor, and the world.  [counters] and [next_id]
    are the counters of capability and task ids. *)
Definition kernel_main (boot_info : BootInfo) (counters : Z * Z) (next_id : Z)
    : Outcome (Registers (T:=T) (G:=G) * Code * Executor Q KTask * KState) :=
  let! (registers, init) := kernel_init (bi_stack boot_info) (bi_registers boot_info) in
  let! phys_mem_offset := virt_new (bi_offset boot_info) in
  let! mapper := init_mapper (bi_page_table boot_info) (bi_cr3 boot_info) phys_mem_offset in
  match init_heap mapper (BootInfoFrameAllocator_init (bi_memory_map boot_info)) with
  | (Err _, _) => Panic
  | (Ok _, _) =>
      let fs := RamFs_add_file RamFs_new "hello.wasm" WASM_MAGIC in
      let! _ := run_all counters in
      let '(device, _) := NetworkDevice_probe (bi_mmio boot_info) (bi_boxes boot_info) (bi_offset boot_info) (bi_pci boot_info) in
      let net_stack := NetworkStack_new device CfgDhcp in
      let '(_, net_stack) := DhcpClient_start DhcpClient_new net_stack (now 0) in
      let dhcp := DhcpClient_new in
      let dns := DnsResolver_new in
      let '(ex, _) := spawn_tasks [NetTask; DhcpTask; TerminalTask false] Executor_new next_id in
      Return (registers, init, ex, KState_mk 0 (Env_mk net_stack dhcp dns fs) Terminal_new keyboard_boot kb_new (boot_log device))
  end.
End boot.
End kernel.
