(* ===== verification/KernelSpec.v ===== *)
(** * The booted kernel

    What the composition of [KernelMain] does: boot leaves three tasks that yield
    forever; from there the executor serves them in turn, and nothing else can
    happen.  The second half looks at the terminal task in any environment: no key
    can panic it. *)

From S2P Require Import Prelude Text Pci Memory Vga VgaSpec Capability FileSystem RamFs Queue Executor Host Wasm.
From S2P Require Import E1000 E1000Spec Device Net NetSpec Keyboard Shell ShellSpec Boot Sockets SocketsSpec Commands CommandsSpec.
From S2P Require Import Platform Cpu Traps SelfTest KernelMain.
From stdpp Require Import functions.
Open Scope Z_scope.

Section spec.
Context {M I SS H QH Sock : Type} `{NI : Nic M} `{SI : Smoltcp I SS H QH}
  {SK : SocketSet I SS H QH (NetworkDevice M) Sock}.
Context {Store Instance Func Inv Error : Type} `{WI : Wasmi Store Instance Func Inv Error}.
Context {Q : Type -> Type} `{AQ : ArrayQueue Q} {A : Type} `{AW : AtomicWaker A TaskWaker}.
Context {KB Ev : Type} `{PK : PcKeyboard KB Ev} `{BF : Bitflags}.
Abbreviation kstate := (KState (M:=M) (I:=I) (SS:=SS) (H:=H) (QH:=QH) (Q:=Q) (A:=A) (KB:=KB)).
Abbreviation stack := (NetworkStack (M:=M) (I:=I) (S:=SS)).
Abbreviation exec := (Executor Q KTask).
Implicit Types k : kstate.

(** ** Executing *)

(** What can happen to the running kernel: a drain loop polls a task, or the
    keyboard interrupt delivers a scancode and wakes whoever waits for it.  After a
    panic nothing happens. *)
Inductive kernel_step (alloc_ok : Z -> bool) : exec * Outcome kstate -> exec * Outcome kstate -> Prop :=
| ks_poll ex k p id ex' w' :
    level_step (kernel_poll alloc_ok) p ex (Return k) = Some (id, ex', w') ->
    kernel_step alloc_ok (ex, Return k) (ex', w')
| ks_key ex k scancode wk kb :
    add_scancode (kn_kbd k) scancode = (wk, kb) ->
    kernel_step alloc_ok (ex, Return k) (foldl wake_by_ref ex (option_list wk), Return (set_keyboard k kb)).

(** A poll runs the body of the popped task, and moves the task on unless it
    panicked. *)
Lemma level_step_body alloc_ok p ex k id ex' w' :
  level_step (kernel_poll alloc_ok) p ex (Return k) = Some (id, ex', w') ->
  match tasks ex !! id with
  | Some t =>
      w' = task_body alloc_ok (task_future t) k /\
      tasks ex' = <[id := Task_mk (task_id t) (task_priority t)
                      (match w' with Return _ => next_task (task_future t) | Panic => task_future t end)]> (tasks ex)
  | None => w' = Return k /\ tasks ex' = tasks ex
  end.
Proof.
  unfold level_step. destruct (q_pop (task_queues ex p)) as [[i|] q]; [|done]. unfold poll_popped, kernel_poll. simpl.
  destruct (tasks ex !! i) as [t|] eqn:E; [|intros [= <- <- <-]; by rewrite E].
  destruct (task_body alloc_ok (task_future t) k) as [k1|] eqn:Eb; intros [= <- <- <-]; rewrite E; simpl; by rewrite Eb.
Qed.

(** ** After boot *)

(** Nothing but the prompt can have happened since boot: the DHCP client and the
    resolver are untouched, no address is configured, no key was ever read. *)
Record quiescent (fs : RamFs) k : Prop := {
  qs_dhcp : e_dhcp (kn_env k) = DhcpClient_new;
  qs_dns : e_dns (kn_env k) = DnsResolver_new;
  qs_fs : e_fs (kn_env k) = fs;
  qs_addrs : ip_addrs (ns_interface (e_stack (kn_env k))) = [];
  qs_servers : ns_dns_servers (e_stack (kn_env k)) = [];
  qs_icmp : icmp_unbound (e_stack (kn_env k));
  qs_terminal : kn_terminal k = Terminal_new;
  qs_queue : SCANCODE_QUEUE (kn_kbd k) = None;
}.

(** What an iteration of a task does to such a state. *)
Record calm_step (f : KTask) (fs : RamFs) k (k' : kstate) : Prop := {
  cs_quiescent : quiescent fs k';
  cs_console : kn_console k' = kn_console k ++ match f with TerminalTask false => prompt | _ => [] end;
  cs_tick : kn_tick k' = match f with NetTask => tick (kn_tick k) | _ => kn_tick k end;
}.

Lemma calm_net fs k k' : quiescent fs k -> net_iteration k = Return k' -> calm_step NetTask fs k k'.
Proof.
  intros [H1 H2 H3 H4 H5 H6 H7 H8]. unfold net_iteration. simpl.
  destruct (stack_poll _ _) as [s|] eqn:E; [|done]. cbn [outcome_bind].
  assert (Hu : icmp_unbound s).
  { eapply icmp_unbound_views; [exact H6|]. intros h. by apply (stack_poll_views _ _ _ h E). }
  destruct (check_icmp_silent s Hu) as (s' & Ec & Hu'). rewrite Ec. cbn [outcome_bind]. intros [= <-].
  pose proof (check_icmp_views _ _ _ Ec) as [_ (Ha & Hs & _)].
  unfold stack_poll in E. destruct (iface_poll _ _ _ _) as [[[i d] so]|] eqn:Ep; [|done]. injection E as <-.
  apply iface_poll_addrs in Ep. simpl in *.
  split; simpl; [|done..]. split; simpl; try done; [by rewrite Ha, Ep|by rewrite Hs].
Qed.

(** The network task returns when the interface does. *)
Lemma net_returns fs k :
  (forall i t (d : NetworkDevice M) (so : SS), exists r, iface_poll i t d so = Return r) ->
  quiescent fs k -> exists k', net_iteration k = Return k'.
Proof.
  intros Hp Hq. unfold net_iteration, stack_poll. simpl.
  destruct (iface_poll _ _ _ _) as [[[i d] so]|] eqn:E.
  2:{ edestruct Hp as [r Hr]. rewrite E in Hr. done. }
  cbn [outcome_bind]. match goal with |- context [check_icmp ?s] => destruct (check_icmp_silent s) as (s' & -> & _) end.
  - eapply icmp_unbound_views; [apply (qs_icmp _ _ Hq)|]. intros h. unfold view_of. simpl.
    by eapply (iface_poll_view _ _ _ _ _ _ _ h) in E.
  - cbn [outcome_bind]. eauto.
Qed.

Lemma calm_dhcp fs k : quiescent fs k -> exists k', dhcp_iteration k = Return k' /\ calm_step DhcpTask fs k k'.
Proof.
  intros Hq. pose proof Hq as [H1 H2 H3 H4 H5 H6 H7 H8]. unfold dhcp_iteration. rewrite H1.
  eexists. split; [done|]. split; simpl; [by split|by rewrite app_nil_r|done].
Qed.

Lemma calm_terminal alloc_ok started fs k :
  quiescent fs k ->
  exists k', task_body alloc_ok (TerminalTask started) k = Return k' /\ calm_step (TerminalTask started) fs k k'.
Proof.
  intros Hq. pose proof Hq as [H1 H2 H3 H4 H5 H6 H7 H8].
  unfold task_body, terminal_iteration, get_scancode, queue_pop.
  destruct started; simpl; rewrite H8; (eexists; split; [done|]); (split; simpl; [by split| |done]).
  - by rewrite app_nil_r.
  - done.
Qed.

Lemma calm_body alloc_ok f fs k k' : quiescent fs k -> task_body alloc_ok f k = Return k' -> calm_step f fs k k'.
Proof.
  intros Hq. destruct f as [| |started].
  - by apply calm_net.
  - destruct (calm_dhcp fs k Hq) as (k1 & E & Hc). simpl. rewrite E. by intros [= <-].
  - destruct (calm_terminal alloc_ok started fs k Hq) as (k1 & E & Hc). rewrite E. by intros [= <-].
Qed.

(** An interrupt before the queue exists drops its scancode. *)
Lemma quiescent_key fs k sc :
  quiescent fs k -> quiescent fs (set_keyboard k (add_scancode (kn_kbd k) sc).2).
Proof.
  intros Hq. pose proof (qs_queue _ _ Hq) as H8. unfold add_scancode. rewrite H8. simpl. by destruct k, Hq.
Qed.

(** The table of tasks, by whether the terminal task has printed its prompt. *)
Definition boot_tasks (started : bool) : gmap Z (Task KTask) :=
  <[2 := Task_mk 2 Normal (TerminalTask started)]>
    (<[1 := Task_mk 1 Normal DhcpTask]> (<[0 := Task_mk 0 Normal NetTask]> ∅)).

Definition started_by (f : KTask) (started : bool) : bool := match f with TerminalTask _ => true | _ => started end.

Lemma boot_tasks_lookup started id t :
  boot_tasks started !! id = Some t ->
  t = Task_mk id Normal (task_future t) /\
  <[id := Task_mk (task_id t) (task_priority t) (next_task (task_future t))]> (boot_tasks started) =
    boot_tasks (started_by (task_future t) started) /\
  <[id := Task_mk (task_id t) (task_priority t) (task_future t)]> (boot_tasks started) = boot_tasks started /\
  (task_future t = TerminalTask false -> started = false) /\ (task_future t = TerminalTask true -> started = true).
Proof.
  unfold boot_tasks. intros [[<- <-]|[_ [[<- <-]|[_ [[<- <-]|[_ H0]]%lookup_insert_Some]]%lookup_insert_Some]]%lookup_insert_Some;
    [..|by apply lookup_empty_Some in H0]; split_and!; try done; simpl; naive_solver.
Qed.

(** All that a history leaves behind. *)
Definition prompted (dev : NetworkDevice M) (fs : RamFs) (s : exec * Outcome kstate) : Prop :=
  exists started, tasks s.1 = boot_tasks started /\
  match s.2 with
  | Return k => quiescent fs k /\ kn_console k = boot_log dev ++ (if started then prompt else [])
  | Panic => True
  end.

Lemma prompted_step alloc_ok dev fs s s' : prompted dev fs s -> kernel_step alloc_ok s s' -> prompted dev fs s'.
Proof.
  intros (started & Ht & Hs) Hst. destruct Hst as [ex k p id ex' w' E|ex k sc wk kb E]; simpl in *; destruct Hs as [Hq Hc].
  - apply level_step_body in E. rewrite Ht in E. destruct (boot_tasks started !! id) as [t|] eqn:Et.
    2:{ destruct E as [-> E]. exists started. simpl. by rewrite E. }
    destruct (boot_tasks_lookup _ _ _ Et) as (_ & Hnext & Hsame & Hf & Htr). destruct E as [Ew E].
    destruct w' as [k'|]; [|exists started; simpl; split; [by rewrite E|done]].
    pose proof (calm_body alloc_ok (task_future t) fs k k' Hq (eq_sym Ew)) as [Hq' Hc' _].
    exists (started_by (task_future t) started). simpl. split; [by rewrite E|]. split; [done|]. rewrite Hc', Hc.
    generalize (boot_log dev) as log, prompt as pr. intros log pr.
    destruct (task_future t) as [| |[|]]; simpl; rewrite ?app_nil_r; [done|done|by rewrite Htr|by rewrite Hf, app_nil_r].
  - exists started. simpl. destruct (wakes_tasks (option_list wk) ex) as [-> _]. split; [done|]. split; [|done].
    pose proof (quiescent_key fs k sc Hq) as Hk. by rewrite E in Hk.
Qed.

Lemma prompted_history alloc_ok dev fs s s' :
  prompted dev fs s -> rtc (kernel_step alloc_ok) s s' -> prompted dev fs s'.
Proof. intros Hp Hr. refine (rtc_invariant _ (prompted dev fs) _ _ _ Hp Hr). intros. by eapply prompted_step. Qed.

(** ** The executor after boot *)

(** An executor with the tasks of boot queued in the order of their ids at the priority
    [Normal]; cached wakers are those of the tasks. *)
Record serving (ex : exec) (started : bool) : Prop := {
  sv_items : q_items (task_queues ex Normal) = [0; 1; 2];
  sv_tasks : tasks ex = boot_tasks started;
  sv_cache : forall id wk, waker_cache ex !! id = Some wk -> wk = TaskWaker_mk id Normal;
}.

(** One turn of every task. *)
Definition kernel_round (alloc_ok : Z -> bool) (started : bool) k : Outcome kstate :=
  let! k := net_iteration k in
  let! k := dhcp_iteration k in
  task_body alloc_ok (TerminalTask started) k.

Fixpoint kernel_rounds (alloc_ok : Z -> bool) (n : nat) (started : bool) k : Outcome kstate :=
  match n with
  | O => Return k
  | S n => let! k := kernel_round alloc_ok started k in kernel_rounds alloc_ok n true k
  end.

(** The drain loop polls the head of the queue, whose iteration returns. *)
Lemma serve_step alloc_ok (ex : exec) k id l t k' :
  q_items (task_queues ex Normal) = id :: l -> tasks ex !! id = Some t ->
  (forall id wk, waker_cache ex !! id = Some wk -> wk = TaskWaker_mk id Normal) ->
  task_body alloc_ok (task_future t) k = Return k' ->
  exists ex', level_step (kernel_poll alloc_ok) Normal ex (Return k) = Some (id, ex', Return k') /\
    q_items (task_queues ex' Normal) = l ++ [id] /\
    tasks ex' = <[id := Task_mk (task_id t) (task_priority t) (next_task (task_future t))]> (tasks ex) /\
    (forall id wk, waker_cache ex' !! id = Some wk -> wk = TaskWaker_mk id Normal).
Proof.
  intros Hl Ht Hc Hb.
  destruct (yield_step (kernel_poll alloc_ok) Normal ex (Return k) id l t (next_task (task_future t)) (Return k') Hl Ht (Hc id))
    as (ex' & E & Hi & Hts & Hch & _).
  { unfold kernel_poll. cbn [outcome_bind]. by rewrite Hb. }
  exists ex'. split_and!; [done..|]. intros j wk. rewrite Hch, lookup_insert_Some. intros [[<- <-]|[_ Hj]]; [done|by apply Hc].
Qed.

(** A round of the loop is a turn of every task. *)
Lemma serve_round alloc_ok (ex : exec) started k k' :
  serving ex started -> kernel_round alloc_ok started k = Return k' ->
  exists ex', level_trace (kernel_poll alloc_ok) 3 Normal ex (Return k) = ([0; 1; 2], ex', Return k') /\ serving ex' true.
Proof.
  intros [Hi Ht Hc]. unfold kernel_round. destruct (net_iteration k) as [k1|] eqn:E1; [|done]. cbn [outcome_bind].
  destruct (dhcp_iteration k1) as [k2|] eqn:E2; [|done]. cbn [outcome_bind]. intros E3.
  destruct (serve_step alloc_ok ex k 0 [1; 2] (Task_mk 0 Normal NetTask) k1 Hi ltac:(by rewrite Ht) Hc E1) as (exa & Ea & Ia & Ta & Ca).
  destruct (serve_step alloc_ok exa k1 1 [2; 0] (Task_mk 1 Normal DhcpTask) k2 Ia ltac:(by rewrite Ta, Ht) Ca E2)
    as (exb & Eb & Ib & Tb & Cb).
  destruct (serve_step alloc_ok exb k2 2 [0; 1] (Task_mk 2 Normal (TerminalTask started)) k' Ib ltac:(by rewrite Tb, Ta, Ht) Cb E3)
    as (exc & Ec & Ic & Tc & Cc).
  exists exc. cbn [level_trace]. rewrite Ea, Eb, Ec. split; [done|]. split; [done| |done]. by rewrite Tc, Tb, Ta, Ht.
Qed.

Lemma serve_rounds alloc_ok n (ex : exec) started k k' :
  serving ex started -> kernel_rounds alloc_ok n started k = Return k' ->
  exists ex', level_trace (kernel_poll alloc_ok) (n * 3) Normal ex (Return k) =
    (concat (replicate n [0; 1; 2]), ex', Return k').
Proof.
  revert ex started k. induction n as [|n IH]; intros ex started k Hs; cbn [kernel_rounds].
  { intros [= <-]. by exists ex. }
  destruct (kernel_round alloc_ok started k) as [k1|] eqn:E; [|done]. cbn [outcome_bind]. intros Hn.
  destruct (serve_round alloc_ok ex started k k1 Hs E) as (ex1 & E1 & H1). destruct (IH ex1 true k1 H1 Hn) as (ex' & E').
  exists ex'. change (S n * 3)%nat with (3 + n * 3)%nat. rewrite level_trace_add by (by rewrite E1). by rewrite E1, E'.
Qed.

(** After boot every turn returns, and each one is a tick. *)
Lemma rounds_return alloc_ok fs n started k :
  (forall i t (d : NetworkDevice M) (so : SS), exists r, iface_poll i t d so = Return r) ->
  quiescent fs k -> fits 64 (kn_tick k) ->
  exists k', kernel_rounds alloc_ok n started k = Return k' /\ quiescent fs k' /\
    kn_tick k' = wrap 64 (kn_tick k + Z.of_nat n).
Proof.
  intros Hp. revert started k. induction n as [|n IH]; intros started k Hq Hf; cbn [kernel_rounds].
  { exists k. split_and!; [done..|]. by rewrite Z.add_0_r, wrap_small. }
  unfold kernel_round. destruct (net_returns fs k Hp Hq) as [k1 E1]. rewrite E1. cbn [outcome_bind].
  destruct (calm_net fs k k1 Hq E1) as [Q1 _ T1]. destruct (calm_dhcp fs k1 Q1) as (k2 & -> & [Q2 _ T2]). cbn [outcome_bind].
  destruct (calm_terminal alloc_ok started fs k2 Q2) as (k3 & -> & [Q3 _ T3]). cbn [outcome_bind].
  assert (Ht : kn_tick k3 = wrap 64 (kn_tick k + 1)) by (rewrite T3, T2, T1; done).
  destruct (IH true k3 Q3) as (k' & E & Q' & T'); [rewrite Ht; apply wrap_range; lia|].
  exists k'. split_and!; [done..|]. rewrite T', Ht. unfold wrap. rewrite Z.add_mod_idemp_l by lia. f_equal. lia.
Qed.

(** A fresh executor with the given tasks, all at the priority [Normal]. *)
Record spawned (ex : exec) (ids : list Z) (ts : gmap Z (Task KTask)) : Prop := {
  sp_items : q_items (task_queues ex Normal) = ids;
  sp_cap : q_cap (task_queues ex Normal) = QUEUE_CAPACITY;
  sp_cache : waker_cache ex = ∅;
  sp_tasks : tasks ex = ts;
}.

Lemma spawned_new : spawned Executor_new [] ∅.
Proof.
  destruct (q_new_items (Q:=Q) Z QUEUE_CAPACITY ltac:(unfold QUEUE_CAPACITY; lia)) as [H1 H2]. by split.
Qed.

Lemma spawned_spawn ex ids ts id f :
  spawned ex ids ts -> ts !! id = None -> (length ids < QUEUE_CAPACITY)%nat ->
  spawned (Executor_spawn ex (Task_mk id Normal f)).2 (ids ++ [id]) (<[id := Task_mk id Normal f]> ts).
Proof.
  intros [Hi Hc Hw Ht] Hid Hlen. unfold Executor_spawn. simpl. rewrite Ht, Hid.
  destruct (q_push_room Z (task_queues ex Normal) id) as [H1 H2]; [by rewrite Hi, Hc|].
  pose proof (q_push_cap Z (task_queues ex Normal) id) as H3.
  destruct (q_push (task_queues ex Normal) id) as [r q]. simpl in H1, H2, H3. subst r.
  split; simpl; rewrite ?fn_lookup_insert; [by rewrite H2, Hi|by rewrite H3|done|done].
Qed.

Lemma boot_serving : serving (spawn_tasks [NetTask; DhcpTask; TerminalTask false] Executor_new 0).1 false.
Proof.
  assert (Hs : spawned (spawn_tasks [NetTask; DhcpTask; TerminalTask false] Executor_new 0).1 ([0; 1] ++ [2]) (boot_tasks false)).
  { change (spawned ((Executor_spawn (Executor_spawn (Executor_spawn Executor_new (Task_mk 0 Normal NetTask)).2
      (Task_mk 1 Normal DhcpTask)).2 (Task_mk 2 Normal (TerminalTask false))).2) ([0; 1] ++ [2]) (boot_tasks false)).
    apply spawned_spawn; [|done|unfold QUEUE_CAPACITY; simpl; lia]. change [0; 1] with ([0] ++ [1]).
    apply spawned_spawn; [|done|unfold QUEUE_CAPACITY; simpl; lia]. change [0] with ([] ++ [0]).
    apply spawned_spawn; [apply spawned_new|done|unfold QUEUE_CAPACITY; simpl; lia]. }
  destruct Hs as [Hi _ Hw Ht]. split; [done|done|]. intros id wk. by rewrite Hw.
Qed.

(** ** [kernel_main] *)

Section boot.
Context {MP D T G : Type} `{MI : Mapper MP} `{PH : PciHost D} `{ID : Idt T} `{GD : Gdt G}.
Implicit Types b : BootInfo (M:=M) (MP:=MP) (D:=D) (T:=T) (G:=G).

(** The network device boot finds. *)
Definition boot_device b : NetworkDevice M := (NetworkDevice_probe (bi_mmio b) (bi_boxes b) (bi_offset b) (bi_pci b)).1.

(** The boot loader's addresses are valid and there is memory for the heap. *)
Definition bootable b : Prop :=
  canonical (bi_offset b) = true /\ canonical (bi_offset b + bi_cr3 b) = true /\
  canonical (bi_stack b + STACK_SIZE) = true /\
  exists mp', (init_heap (bi_page_table b (bi_offset b + bi_cr3 b) (bi_offset b))
                 (BootInfoFrameAllocator_init (bi_memory_map b))).1 = Ok mp'.

Context (b : BootInfo (M:=M) (MP:=MP) (D:=D) (T:=T) (G:=G)) (counters : Z * Z).
Abbreviation device := (boot_device b).

(** Boot succeeds on a bootable machine. *)
Lemma kernel_main_spec :
  bootable b ->
  exists registers init (ex : exec) k,
    kernel_main (Ev:=Ev) b counters 0 = Return (registers, init, ex, k) /\
    serving ex false /\ quiescent (RamFs_add_file RamFs_new "hello.wasm" WASM_MAGIC) k /\
    kn_console k = boot_log device /\ kn_tick k = 0.
Proof.
  intros (Ho & Hc & Hst & mp' & Hh). unfold kernel_main, init_mapper, active_level_4_table, kernel_init, gdt_init, GDT, TSS,
    boot_device, virt_add, virt_new. pose proof boot_serving as Hsp. rewrite Hst. cbn [outcome_bind].
  destruct (gdt_add _ KernelCodeSegment) as [cs g1]. cbn [outcome_bind]. destruct (gdt_add g1 _) as [ts g2].
  cbn [outcome_bind init_idt]. rewrite Ho. cbn [outcome_bind]. rewrite Hc. cbn [outcome_bind].
  destruct (init_heap _ _) as [[mp|e] fa]; [|done]. destruct (run_all_returns counters) as [c ->]. cbn [outcome_bind].
  destruct (NetworkDevice_probe _ _ _ _) as [dev d']. simpl fst.
  unfold DhcpClient_start. destruct (add_dhcp_is_add (ns_sockets (NetworkStack_new dev CfgDhcp))) as (x & Hx & Ha).
  destruct (add_dhcp_socket _) as [h so]. destruct (spawn_tasks _ _ _) as [ex n]. eexists _, _, _, _. split; [done|].
  split; [exact Hsp|]. split; [|done]. split; simpl; try done; [apply iface_new_addrs|].
  eapply (icmp_unbound_add (NetworkStack_new dev CfgDhcp) x h).
  - intros h' bound. unfold view_of. simpl. by rewrite sockets_new_empty.
  - unfold add_socket. by rewrite <- Ha.
  - left. by rewrite Hx.
Qed.

(** Whatever happens after boot. *)
Lemma boot_history alloc_ok (ex ex' : exec) k k' fs :
  serving ex false -> quiescent fs k -> kn_console k = boot_log device ->
  rtc (kernel_step alloc_ok) (ex, Return k) (ex', Return k') ->
  exists started : bool, quiescent fs k' /\ kn_console k' = boot_log device ++ (if started then prompt else []).
Proof.
  intros Hs Hq Hc Hr. assert (Hp : prompted device fs (ex, Return k)).
  { exists false. split; [apply (sv_tasks _ _ Hs)|]. cbn [fst snd]. by rewrite app_nil_r. }
  destruct (prompted_history alloc_ok device fs _ _ Hp Hr) as (started & _ & Hk). by exists started.
Qed.

(** The accesses boot starts with are those of [init]. *)
Lemma kernel_main_init registers init (ex : exec) k :
  kernel_main (Ev:=Ev) b counters 0 = Return (registers, init, ex, k) ->
  kernel_init (bi_stack b) (bi_registers b) = Return (registers, init).
Proof.
  unfold kernel_main. destruct (kernel_init _ _) as [[r i]|]; [|done]. cbn [outcome_bind].
  destruct (virt_new _) as [o|]; [|done]. cbn [outcome_bind]. destruct (init_mapper _ _ _) as [mp|]; [|done]. cbn [outcome_bind].
  destruct (init_heap _ _) as [[mp'|] fa]; [|done]. destruct (run_all _); [|done]. cbn [outcome_bind].
  destruct (NetworkDevice_probe _ _ _ _). destruct (DhcpClient_start _ _ _). destruct (spawn_tasks _ _ _). congruence.
Qed.
End boot.

(** ** The terminal task in any environment *)

Lemma redraw_color color line : ops_color color (redraw_line line) = white.
Proof. done. Qed.

Lemma handle_key_color t key r out t' : handle_key t key = Return (r, out, t') -> ops_color white out = white.
Proof.
  destruct key as [c|raw]; simpl.
  - unfold handle_char, outcome_bind. destruct (parse_command t) as [cmd usage] eqn:Ep.
    assert (Hu : ops_color white usage = white).
    { revert Ep. unfold parse_command, Command_parse. repeat case_match; by intros [= <- <-]. }
    intros Hk. repeat case_match; simplify_eq/=; try done; unfold ops_color in *; cbn [foldl op_color Println];
      rewrite ?foldl_app, ?Hu; done.
  - unfold handle_raw_key, history_up, history_down, recall, outcome_bind, or_panic. intros Hk.
    by repeat case_match; simplify_eq/=.
Qed.

(** What the terminal task keeps, from the state it started in. *)
Record term_ok (k0 : kstate) k : Prop := {
  to_wf : terminal_wf (kn_terminal k);
  to_config : same_config (e_stack (kn_env k0)) (e_stack (kn_env k));
  to_files : nodes (e_fs (kn_env k)) = nodes (e_fs (kn_env k0)) /\ root (e_fs (kn_env k)) = root (e_fs (kn_env k0));
  to_typed : env_typed (kn_env k);
  to_color : ops_color white (kn_console k) = white;
}.

Lemma heap_serves_nodes alloc_ok fs fs' : nodes fs' = nodes fs -> heap_serves alloc_ok fs -> heap_serves alloc_ok fs'.
Proof. intros E [Hf ? ? ? ?]. split; try done. intros l c. rewrite E. apply Hf. Qed.

Lemma terminal_iteration_ok alloc_ok k0 k :
  heap_serves alloc_ok (e_fs (kn_env k0)) -> term_ok k0 k ->
  exists k', terminal_iteration alloc_ok k = Return k' /\ term_ok k0 k'.
Proof.
  intros Hh [Hwf Hc Hf Ht Hw]. unfold terminal_iteration. destruct (get_scancode (kn_kbd k)) as [[sc|] kb].
  2: { eexists. split; [done|]. by split. }
  destruct (decode_scancode _ sc) as [[key|] dec]; [|eexists; split; [done|]; by split].
  destruct (handle_key_wf (kn_terminal k) key Hwf) as ([r out] & t & E & Htw). simpl. rewrite E. cbn [outcome_bind].
  pose proof (handle_key_color _ _ _ _ _ E) as Ho.
  assert (Hcol : ops_color white (kn_console k ++ out) = white) by (by rewrite ops_color_app, Hw).
  destruct r as [cmd|]; [|eexists; split; [done|]; by split].
  apply (heap_serves_nodes _ _ _ (proj1 Hf)) in Hh.
  destruct (execute_post alloc_ok cmd (kn_env k) Hh Ht) as (o & e & Ee & [P1 P2 P3 P4 P5 [P6 P7] P8]).
  cbn [kn_env print_ops set_terminal]. rewrite Ee. cbn [outcome_bind]. eexists. split; [done|]. split; simpl.
  - done.
  - by rewrite Hc.
  - by rewrite P6, P7.
  - done.
  - by rewrite ops_color_app, Hcol, ops_color_app, P1.
Qed.

(** The terminal task between interrupts, on a heap that serves each of its commands
    (another one at every iteration); the queue may be created at any time. *)
Inductive term_step k : kstate -> Prop :=
| tm_poll alloc_ok k' :
    heap_serves alloc_ok (e_fs (kn_env k)) -> terminal_iteration alloc_ok k = Return k' -> term_step k k'
| tm_key scancode : term_step k (set_keyboard k (add_scancode (kn_kbd k) scancode).2)
| tm_queue : term_step k (set_keyboard k (ScancodeStream_new (kn_kbd k))).

Lemma term_step_ok k0 k k' : term_ok k0 k -> term_step k k' -> term_ok k0 k'.
Proof.
  intros Hk Hs. destruct Hs as [alloc_ok k' Hh E|sc|]; [|by destruct Hk; split|by destruct Hk; split].
  apply (heap_serves_nodes _ _ (e_fs (kn_env k0))) in Hh; [|by destruct (to_files _ _ Hk)].
  destruct (terminal_iteration_ok alloc_ok k0 k Hh Hk) as (k1 & E1 & H1). rewrite E in E1. by injection E1 as <-.
Qed.
End spec.

(** ** Properties *)

Section claims.
Context {M I SS H QH Sock : Type} `{NI : Nic M} `{SI : Smoltcp I SS H QH}
  {SK : SocketSet I SS H QH (NetworkDevice M) Sock}.
Context {Store Instance Func Inv Error : Type} `{WI : Wasmi Store Instance Func Inv Error}.
Context {Q : Type -> Type} `{AQ : ArrayQueue Q} {A : Type} `{AW : AtomicWaker A TaskWaker}.
Context {KB Ev : Type} `{PK : PcKeyboard KB Ev} `{BF : Bitflags} {MP D T G : Type} `{MI : Mapper MP}
  `{PH : PciHost D} `{ID : Idt T} `{GD : Gdt G}.
Abbreviation kstate := (KState (M:=M) (I:=I) (SS:=SS) (H:=H) (QH:=QH) (Q:=Q) (A:=A) (KB:=KB)).

(** C24: the booted kernel never gets on the network and never runs a command.  When
    the boot addresses are valid and the heap can be mapped, boot succeeds; but it hands the tasks a second DHCP
    client that was never started, and no code creates the scancode queue.  So in
    every history of polls and key presses (short of a panic of the network device)
    the client stays idle, no address is configured, no DNS server is known, the
    terminal has seen no key, and the screen shows the boot log and, once the terminal
    task has started, one prompt. *)
Theorem kernel_boot_stays_offline (b : BootInfo (M:=M) (MP:=MP) (D:=D) (T:=T) (G:=G)) (counters : Z * Z)
    (alloc_ok : Z -> bool) :
  bootable b ->
  exists registers init (ex : Executor Q KTask) (k : kstate),
    kernel_main (Ev:=Ev) b counters 0 = Return (registers, init, ex, k) /\
    forall ex' k', rtc (kernel_step alloc_ok) (ex, Return k) (ex', Return k') ->
      dhcp_state (e_dhcp (kn_env k')) = DhcpIdle /\ has_ip (e_stack (kn_env k')) = false /\
      is_ready (e_dns (kn_env k')) = false /\ kn_terminal k' = Terminal_new /\
      exists started : bool, kn_console k' = boot_log (boot_device b) ++ (if started then prompt else []).
Proof.
  intros Hh. destruct (kernel_main_spec (Ev:=Ev) (Q:=Q) (A:=A) (Sock:=Sock) (H:=H) (QH:=QH) (I:=I) (SS:=SS)
    b counters Hh) as (r & init & ex & k & E & Hs & Hq & Hc & _).
  exists r, init, ex, k. split; [done|]. intros ex' k' Hr.
  destruct (boot_history _ _ _ _ _ _ _ Hs Hq Hc Hr) as (started & [H1 H2 H3 H4 H5 H6 H7 H8] & H9).
  unfold has_ip, is_ready. rewrite H1, H2, H4. split_and!; [done..|]. by exists started.
Qed.

(** C25: after boot the executor serves the network, the DHCP and the terminal task in
    turn, for ever, as long as the network interface does not panic: for any number of
    rounds the drain loop polls them cyclically, and the world it gets to is the one
    after that many turns of the three task bodies, none of which panics, with the
    clock advanced by one tick per round; the loop never ends and the CPU is never
    halted. *)
Theorem kernel_tasks_forever (b : BootInfo (M:=M) (MP:=MP) (D:=D) (T:=T) (G:=G)) (counters : Z * Z)
    (alloc_ok : Z -> bool) (rounds : nat) :
  bootable b ->
  (forall i t (d : NetworkDevice M) (so : SS), exists r, iface_poll i t d so = Return r) ->
  exists registers init (ex ex' : Executor Q KTask) (k k' : kstate),
    kernel_main (Ev:=Ev) b counters 0 = Return (registers, init, ex, k) /\
    level_trace (kernel_poll alloc_ok) (rounds * 3) Normal ex (Return k) =
      (concat (replicate rounds [0; 1; 2]), ex', Return k') /\
    kernel_rounds alloc_ok rounds false k = Return k' /\ kn_tick k' = wrap 64 (Z.of_nat rounds) /\
    run_level (kernel_poll alloc_ok) (rounds * 3) Normal ex (Return k) = None.
Proof.
  intros Hh Hp. destruct (kernel_main_spec (Ev:=Ev) (Q:=Q) (A:=A) (Sock:=Sock) (H:=H) (QH:=QH) (I:=I) (SS:=SS)
    b counters Hh) as (r & init & ex & k & E & Hs & Hq & _ & Ht).
  destruct (rounds_return alloc_ok _ rounds false k Hp Hq) as (k' & Ek & _ & Hk); [rewrite Ht; split; lia|].
  destruct (serve_rounds alloc_ok rounds ex false k k' Hs Ek) as (ex' & El).
  exists r, init, ex, ex', k, k'. split_and!; [done..|by rewrite Hk, Ht|].
  apply run_level_trace. rewrite El. simpl. by rewrite length_concat_replicate.
Qed.

End claims.

(** ** Witnesses: the demonstration devices of the other files, and a keyboard that
    sends characters. *)

#[global] Instance plain_keyboard : PcKeyboard unit Z :=
  {| kb_new := tt; kb_add_byte := fun kb b => (Ok (Some b), kb); kb_process_keyevent := fun kb ev => (Some (Unicode ev), kb) |}.

#[local] Existing Instance Z_Bitflags.

Abbreviation demo_kstate :=
  (KState (M:=gmap Z Z) (I:=Demo.iface) (SS:=Demo.set) (H:=nat) (QH:=nat) (Q:=ListQueue) (A:=option TaskWaker) (KB:=unit)).

Definition demo_boot : BootInfo (M:=gmap Z Z) (MP:=gmap Z Z) (T:=gmap Z Gate) (G:=list Descriptor) :=
  BootInfo_mk demo_map 0x18000000000 0x1000 (fun _ _ => ∅) 0x240000 (Registers_mk None None 0 0) (fun _ => ∅) demo_boxes
    demo_space.

Definition demo_main : Outcome (Registers (T:=gmap Z Gate) (G:=list Descriptor) * Code * Executor ListQueue KTask * demo_kstate) :=
  kernel_main (Ev:=Z) demo_boot (100, 1) 0.

Lemma demo_bootable : bootable demo_boot.
Proof.
  split_and!; [done..|]. pose proof demo_heap_ok as Hok. simpl. destruct (init_heap _ _).1; [eauto|done].
Qed.

Lemma kernel_boot_stays_offline_witness :
  exists r init ex k, demo_main = Return (r, init, ex, k) /\ has_ip (e_stack (kn_env k)) = false /\
    kn_terminal k = Terminal_new.
Proof.
  destruct (kernel_boot_stays_offline (Sock:=SockView) (SK:=Demo.demo_sockets _) (Ev:=Z) (A:=option TaskWaker) (Q:=ListQueue)
    demo_boot (100, 1) (fun _ => true) demo_bootable) as (r & init & ex & k & E & Hr).
  exists r, init, ex, k. split; [exact E|]. destruct (Hr ex k (rtc_refl _ _)) as (_ & H1 & _ & H2 & _).
  split; [exact H1|exact H2].
Defined.

Lemma kernel_tasks_forever_witness :
  exists r init ex k ex' k', demo_main = Return (r, init, ex, k) /\
    level_trace (kernel_poll (SK:=Demo.demo_sockets _) (Ev:=Z) (fun _ => true)) 6 Normal ex (Return k) =
      ([0; 1; 2; 0; 1; 2], ex', Return k') /\ kn_tick k' = 2.
Proof.
  destruct (kernel_tasks_forever (Sock:=SockView) (SK:=Demo.demo_sockets _) (Ev:=Z) (A:=option TaskWaker) (Q:=ListQueue)
    demo_boot (100, 1) (fun _ => true) 2 demo_bootable) as (r & init & ex & ex' & k & k' & E & Hl & _ & Ht & _).
  { intros i t d so. by eexists. }
  exists r, init, ex, k, ex', k'. split; [exact E|]. split; [exact Hl|exact Ht].
Defined.

(** A terminal with a queue that holds the keys of [?] and Enter. *)
Definition demo_terminal : demo_kstate :=
  let kb := ScancodeStream_new (keyboard_boot (Q:=ListQueue) (A:=option TaskWaker)) in
  KState_mk 0 (Env_mk (NetworkStack_new (DevLoopback QemuE1000_new) CfgDhcp) DhcpClient_new DnsResolver_new demo_fs)
    Terminal_new (add_scancode (add_scancode kb 63).2 10).2 tt [].

Definition demo_iterate (k : demo_kstate) : demo_kstate :=
  match terminal_iteration (SK:=Demo.demo_sockets _) (Ev:=Z) (fun _ => true) k with Return k => k | Panic => k end.

(** Both keys are read; the second one makes the terminal execute the command [?], then
    a third key arrives. *)
Definition demo_typed : demo_kstate :=
  let k := demo_iterate (demo_iterate demo_terminal) in set_keyboard k (add_scancode (kn_kbd k) 63).2.

Lemma demo_serves (fs : RamFs) :
  nodes fs = nodes demo_fs -> heap_serves (SK:=Demo.demo_sockets (NetworkDevice (gmap Z Z))) (fun _ => true) fs.
Proof. intros E. eapply heap_serves_nodes; [exact E|]. split; [apply demo_files_fit|done..]. Qed.

Lemma demo_typed_reachable : rtc (term_step (SK:=Demo.demo_sockets _) (Ev:=Z)) demo_terminal demo_typed.
Proof.
  eapply rtc_l; [apply (tm_poll _ (fun _ => true) (demo_iterate demo_terminal)); [by apply demo_serves|vm_compute; reflexivity]|].
  eapply rtc_l; [apply (tm_poll _ (fun _ => true) (demo_iterate (demo_iterate demo_terminal)));
    [by apply demo_serves|vm_compute; reflexivity]|].
  apply rtc_once, tm_key.
Qed.

