(* ===== verification/KernelCpu.v ===== *)
(** * The booted kernel under interrupts

    Joins the two views of the running kernel: [KernelMain], in which an iteration of
    a task is one step, and the processor of [Cpu], which executes the accesses of
    its output one by one while interrupts arrive.  [kernel_runs] relates a history
    of polls to processor code: each poll prints what [KernelMain] says, under the
    locks of its task, mixed with any output to the serial port. *)

From S2P Require Import Prelude Text Pci Memory Vga VgaSpec Capability FileSystem RamFs Queue Executor Host Wasm.
From S2P Require Import E1000 E1000Spec Device Net NetSpec Keyboard Shell ShellSpec Boot Platform Cpu Traps TrapsSpec.
From S2P Require Import Sockets SocketsSpec Commands CommandsSpec SelfTest KernelMain KernelSpec.
Open Scope Z_scope.

(** The sections of code one poll of a task executes. *)
Inductive poll_shape : KTask -> list TaskRun -> Prop :=
| ps_net out : poll_shape NetTask [RunNet out]
| ps_dhcp out event : poll_shape DhcpTask [RunDhcp out event]
| ps_idle : poll_shape (TerminalTask true) [RunTerminalIdle]
| ps_key out command : poll_shape (TerminalTask true) [RunTerminalKey out command]
| ps_start out rs : poll_shape (TerminalTask true) rs -> poll_shape (TerminalTask false) (RunTerminalStart out :: rs).

Section runs.
Context {M I SS H QH Sock : Type} `{NI : Nic M} `{SI : Smoltcp I SS H QH}
  {SK : SocketSet I SS H QH (NetworkDevice M) Sock}.
Context {Store Instance Func Inv Error : Type} `{WI : Wasmi Store Instance Func Inv Error}.
Context {Q : Type -> Type} `{AQ : ArrayQueue Q} {A : Type} `{AW : AtomicWaker A TaskWaker}.
Context {KB Ev : Type} `{PK : PcKeyboard KB Ev} `{BF : Bitflags}.
Abbreviation kstate := (KState (M:=M) (I:=I) (SS:=SS) (H:=H) (QH:=QH) (Q:=Q) (A:=A) (KB:=KB)).
Abbreviation exec := (Executor Q KTask).
Implicit Types k : kstate.

(** The console operations of these sections are what a poll added to the console. *)
Definition run_prints (rs : list TaskRun) k k' : Prop :=
  kn_console k' = kn_console k ++ console_part (rs ≫= task_run_outputs).

Inductive kernel_runs (alloc_ok : Z -> bool) : exec * kstate -> list TaskRun -> exec * kstate -> Prop :=
| kr_nil s : kernel_runs alloc_ok s [] s
| kr_poll ex k p id t ex1 k1 rs rs' s :
    level_step (kernel_poll alloc_ok) p ex (Return k) = Some (id, ex1, Return k1) -> tasks ex !! id = Some t ->
    poll_shape (task_future t) rs -> run_prints rs k k1 -> kernel_runs alloc_ok (ex1, k1) rs' s ->
    kernel_runs alloc_ok (ex, k) (rs ++ rs') s
| kr_stale ex k p id ex1 k1 rs s :
    level_step (kernel_poll alloc_ok) p ex (Return k) = Some (id, ex1, Return k1) -> tasks ex !! id = None ->
    kernel_runs alloc_ok (ex1, k1) rs s -> kernel_runs alloc_ok (ex, k) rs s
| kr_key ex k scancode wk kb rs s :
    add_scancode (kn_kbd k) scancode = (wk, kb) ->
    kernel_runs alloc_ok (foldl wake_by_ref ex (option_list wk), set_keyboard k kb) rs s ->
    kernel_runs alloc_ok (ex, k) rs s.

Lemma console_part_app os1 os2 : console_part (os1 ++ os2) = console_part os1 ++ console_part os2.
Proof. apply omap_app. Qed.

Lemma console_part_console ops : console_part (ToConsole <$> ops) = ops.
Proof. induction ops as [|op ops IH]; [done|]. rewrite <- IH at 2. done. Qed.

Lemma runs_console alloc_ok s rs s' :
  kernel_runs alloc_ok s rs s' -> run_prints rs s.2 s'.2.
Proof.
  unfold run_prints. induction 1 as [s|ex k p id t ex1 k1 rs rs' s E Et Hs Hp _ IH|ex k p id ex1 k1 rs s E Et _ IH|ex k sc wk kb rs s E _ IH];
    simpl in *.
  - by rewrite app_nil_r.
  - by rewrite IH, Hp, bind_app, console_part_app, app_assoc.
  - pose proof (level_step_body _ _ _ _ _ _ _ E) as Hb. rewrite Et in Hb. destruct Hb as [[= ->] _]. done.
  - done.
Qed.

(** ** Every history has such runs *)

Lemma terminal_prints alloc_ok k k1 :
  terminal_iteration alloc_ok k = Return k1 -> exists ops, kn_console k1 = kn_console k ++ ops.
Proof.
  unfold terminal_iteration. destruct (get_scancode (kn_kbd k)) as [[sc|] kb]; [|intros [= <-]; exists []; by rewrite app_nil_r].
  destruct (decode_scancode _ sc) as [[key|] dec]; [|intros [= <-]; exists []; by rewrite app_nil_r].
  simpl. destruct (handle_key _ key) as [[[[cmd|] out] t]|]; simpl; [|intros [= <-]; by exists out|done].
  destruct (execute alloc_ok cmd _) as [[o e]|]; simpl; [|done]. intros [= <-]. exists (out ++ o ++ prompt). simpl.
  by rewrite !app_assoc.
Qed.

Lemma body_shape alloc_ok f k k1 :
  task_body alloc_ok f k = Return k1 -> exists rs, poll_shape f rs /\ run_prints rs k k1.
Proof.
  unfold run_prints. destruct f as [| |started]; simpl.
  - unfold net_iteration. destruct (stack_poll _ _) as [s|]; simpl; [|done].
    destruct (check_icmp s) as [[out s']|]; simpl; [|done]. intros [= <-].
    exists [RunNet (ToConsole <$> out)]. split; [constructor|]. simpl. by rewrite app_nil_r, console_part_console.
  - unfold dhcp_iteration. destruct (DhcpClient_poll _ _ _) as [[[[ev|] d] s]|]; simpl; [| |done].
    + destruct (handle_dhcp_event _ _ _) as [[out dns] s']. intros [= <-].
      exists [RunDhcp [] (Some out)]. split; [constructor|]. simpl. by rewrite app_nil_r.
    + intros [= <-]. exists [RunDhcp [] None]. split; [constructor|]. simpl. by rewrite app_nil_r.
  - intros (ops & E)%terminal_prints.
    assert (Hk : poll_shape (TerminalTask true) [RunTerminalKey (ToConsole <$> ops) None]) by constructor.
    destruct started; simpl in E.
    + exists [RunTerminalKey (ToConsole <$> ops) None]. split; [done|]. simpl. by rewrite !app_nil_r, console_part_console.
    + exists [RunTerminalStart (ToConsole <$> prompt); RunTerminalKey (ToConsole <$> ops) None]. split; [by constructor|].
      rewrite E. cbn [mbind list_bind task_run_outputs default]. rewrite !app_nil_r, console_part_app, !console_part_console.
      by rewrite app_assoc.
Qed.

Lemma runs_exist alloc_ok s s' :
  rtc (kernel_step alloc_ok) s s' -> forall k k', s.2 = Return k -> s'.2 = Return k' ->
  exists rs, kernel_runs alloc_ok (s.1, k) rs (s'.1, k').
Proof.
  induction 1 as [s|s s1 s' Hst Hr IH]; intros k k' E E'; [exists []; rewrite E in E'; injection E' as <-; constructor|].
  destruct Hst as [ex k0 p id ex1 w1 El|ex k0 sc wk kb Ek]; simpl in *; injection E as <-.
  - destruct w1 as [k1|].
    2: { inversion Hr as [|? ? ? Hst _]; subst; [done|]. inversion Hst. }
    destruct (IH k1 k' eq_refl E') as [rs Hrs].
    pose proof (level_step_body _ _ _ _ _ _ _ El) as Hb. destruct (tasks ex !! id) as [t|] eqn:Et.
    + destruct Hb as [Hb _]. destruct (body_shape _ _ _ _ (eq_sym Hb)) as (rs0 & Hs & Hp). exists (rs0 ++ rs). by eapply kr_poll.
    + exists rs. by eapply kr_stale.
  - destruct (IH _ k' eq_refl E') as [rs Hrs]. exists rs. by eapply kr_key.
Qed.

(** After a panic the drain loop gets nowhere. *)
Lemma trace_panic alloc_ok n p (ex : exec) :
  (level_trace (kernel_poll (KB:=KB) (A:=A) alloc_ok) n p ex Panic).2 = Panic.
Proof.
  revert ex. induction n as [|n IH]; intros ex; [done|]. cbn [level_trace]. unfold level_step, poll_popped.
  destruct (q_pop _) as [[i|] q]; [|done]. simpl. destruct (tasks ex !! i) as [t|]; simpl;
    match goal with |- context [level_trace _ n p ?e _] => specialize (IH e) end;
    destruct (level_trace _ n p _ Panic) as [[? ?] ?]; done.
Qed.

(** The polls of a drain loop that did not panic are such a history. *)
Lemma trace_history alloc_ok n p (ex ex' : exec) k k' l :
  level_trace (kernel_poll alloc_ok) n p ex (Return k) = (l, ex', Return k') ->
  rtc (kernel_step alloc_ok) (ex, Return k) (ex', Return k').
Proof.
  revert ex k l. induction n as [|n IH]; intros ex k l; cbn [level_trace]; [intros [= _ <- <-]; apply rtc_refl|].
  destruct (level_step _ p ex (Return k)) as [[[id ex1] w1]|] eqn:E; [|intros [= _ <- <-]; apply rtc_refl].
  destruct (level_trace _ n p ex1 w1) as [[l1 ex2] w2] eqn:El. intros [= _ <- ->].
  eapply rtc_l; [by eapply ks_poll|]. destruct w1 as [k1|]; [by eapply IH|]. exfalso.
  pose proof (trace_panic alloc_ok n p ex1) as Hp. by rewrite El in Hp.
Qed.
End runs.

(** A screen that is cleared first shows the output, whatever was on it. *)
Lemma cleared_shows ops w :
  buffer_ok (buffer w) ->
  exists w', console_run (ClearScreen :: ops) w = Return w' /\ shows w' (foldl sb_op (sb_empty (color_code w)) ops).
Proof.
  intros Hb. destruct (clear_shows w Hb) as (w1 & E & Hs). unfold console_run. cbn [for_each]. change (console_op ClearScreen w) with (clear_screen w).
  rewrite E. cbn [outcome_bind]. by apply console_run_shows.
Qed.

(** ** Properties *)

Section claims.
Context {M I SS H QH Sock : Type} `{NI : Nic M} `{SI : Smoltcp I SS H QH}
  {SK : SocketSet I SS H QH (NetworkDevice M) Sock}.
Context {Store Instance Func Inv Error : Type} `{WI : Wasmi Store Instance Func Inv Error}.
Context {Q : Type -> Type} `{AQ : ArrayQueue Q} {A : Type} `{AW : AtomicWaker A TaskWaker}.
Context {KB Ev : Type} `{PK : PcKeyboard KB Ev} `{BF : Bitflags} {MP D T G : Type} `{MI : Mapper MP}
  `{PH : PciHost D} `{ID : Idt T} `{GD : Gdt G}.
Context {P : Type} `{UA : Uart P} {C : Type} `{PI : Pics C} {K : Type} `{KP : KeyboardPort K}.
Abbreviation kstate := (KState (M:=M) (I:=I) (SS:=SS) (H:=H) (QH:=QH) (Q:=Q) (A:=A) (KB:=KB)).

(** C18: the screen of the booted kernel.  On a bootable machine with any content of
    the screen memory, in every history of the executor, and with timer and keyboard
    interrupts at any access of the code that history executes, the processor never
    waits for a lock, and from wherever it is it gets through this code to a screen
    that shows the boot log and, once the terminal task has started, one prompt. *)
Theorem kernel_screen_under_interrupts (b : BootInfo (M:=M) (MP:=MP) (D:=D) (T:=T) (G:=G)) (counters : Z * Z)
    (alloc_ok : Z -> bool) :
  bootable b ->
  exists registers init (ex : Executor Q KTask) (k : kstate),
    kernel_main (Ev:=Ev) b counters 0 = Return (registers, init, ex, k) /\
    forall ex' k', rtc (kernel_step alloc_ok) (ex, Return k) (ex', Return k') ->
      (exists runs, kernel_runs alloc_ok (ex, k) runs (ex', k')) /\
      forall runs log (d : Devices (P:=P) (C:=C) (K:=K) (Q:=Q) (A:=A) (W:=TaskWaker)) s,
        kernel_runs alloc_ok (ex, k) runs (ex', k') -> console_part log = boot_log (boot_device b) ->
        d_writer d = None -> buffer_ok (d_screen d) ->
        rtc irq_step (power_on (kernel_code init log runs) d) s ->
        never_spins s /\
        exists n (started : bool) w, c_frames (cpu_run n s) = [Frame_mk [] false] /\ c_locks (cpu_run n s) = ∅ /\
          writer_of (c_dev (cpu_run n s)) = Return w /\
          shows w (foldl sb_op (sb_empty white) (tail (boot_log (boot_device b)) ++ (if started then prompt else []))).
Proof.
  intros Hb. destruct (kernel_main_spec (Ev:=Ev) (Q:=Q) (A:=A) (Sock:=Sock) (H:=H) (QH:=QH) (I:=I) (SS:=SS)
    b counters Hb) as (r & init & ex & k & E & Hsv & Hq & Hc & _).
  exists r, init, ex, k. split; [done|]. intros ex' k' Hr. split; [by apply (runs_exist _ _ _ Hr)|].
  intros runs log d s Hk Hlog Hw Hbuf Hs.
  pose proof (kernel_main_init _ _ _ _ _ _ E) as Hinit.
  destruct (output_undisturbed _ _ _ _ _ _ _ _ Hinit Hs) as (Hn & _ & n & H1 & H2 & [H3 _]). split; [done|].
  destruct (boot_history _ _ _ _ _ _ _ Hsv Hq Hc Hr) as (started & _ & Hm).
  destruct (cleared_shows (tail (boot_log (boot_device b)) ++ (if started then prompt else [])) (Writer_new (d_screen d)) Hbuf)
    as (w & Ew & Hsh).
  exists n, started, w. split_and!; [done..| |exact Hsh]. rewrite H3. unfold writer_of. rewrite Hw. cbn [outcome_bind].
  rewrite console_part_app, Hlog, <- Hc. pose proof (runs_console _ _ _ _ Hk) as Hp. unfold run_prints in Hp. simpl in Hp.
  rewrite <- Hp, Hm. exact Ew.
Qed.
End claims.

(** ** Witness: the demonstration machine from power on with a blank screen, through a
    round of the three tasks and a timer interrupt after the first accesses. *)

#[local] Existing Instance Z_Bitflags.
#[local] Instance fixed_KeyboardPort : KeyboardPort Z := {| port_0x60_read := fun k => (k, k) |}.

Definition demo_power : Devices (P:=list Z * list Z) (C:=gset Z) (K:=Z) (Q:=ListQueue) (A:=option TaskWaker) (W:=TaskWaker) :=
  Devices_mk None None (replicate BUFFER_HEIGHT (replicate BUFFER_WIDTH (ScreenChar_mk 0 0))) ∅ 30 keyboard_boot [].

Lemma demo_power_screen : buffer_ok (d_screen demo_power).
Proof. split; [done|]. apply Forall_replicate. done. Qed.

(** A round after boot. *)
Lemma demo_round r init ex k :
  demo_main = Return (r, init, ex, k) ->
  init = init_code /\
  exists ex' k', rtc (kernel_step (SK:=Demo.demo_sockets _) (Ev:=Z) (fun _ => true)) (ex, Return k) (ex', Return k').
Proof.
  unfold demo_main. intros E. pose proof (kernel_main_init demo_boot (100, 1) r init ex k E) as Hi. apply kernel_init_code in Hi as [-> _].
  split; [done|].
  destruct (kernel_main_spec (SK:=Demo.demo_sockets _) (Ev:=Z) (A:=option TaskWaker) (Q:=ListQueue) demo_boot (100, 1) demo_bootable)
    as (r' & init' & ex' & k' & E' & Hs & Hq & _ & Ht). rewrite E in E'. injection E' as <- <- <- <-.
  destruct (rounds_return (SK:=Demo.demo_sockets _) (Ev:=Z) (fun _ => true) _ 1 false k ltac:(intros; by eexists) Hq
    ltac:(rewrite Ht; split; lia)) as (k1 & E1 & _).
  destruct (serve_rounds (SK:=Demo.demo_sockets _) (Ev:=Z) (fun _ => true) 1 ex false k k1 Hs E1) as (ex1 & El).
  exists ex1, k1. by eapply trace_history.
Qed.

Lemma kernel_screen_under_interrupts_witness :
  exists runs n started w,
    let log := ToConsole <$> boot_log (boot_device demo_boot) in
    let s := cpu_deliver IrqTimer (cpu_run 6 (power_on (kernel_code init_code log runs) demo_power)) in
    never_spins s /\ writer_of (c_dev (cpu_run n s)) = Return w /\
    shows w (foldl sb_op (sb_empty white) (tail (boot_log (boot_device demo_boot)) ++ (if started : bool then prompt else []))).
Proof.
  destruct (kernel_screen_under_interrupts (Sock:=SockView) (SK:=Demo.demo_sockets _) (Ev:=Z) (A:=option TaskWaker) (Q:=ListQueue)
    (P:=list Z * list Z) (C:=gset Z) (K:=Z) demo_boot (100, 1) (fun _ => true) demo_bootable) as (r & init & ex & k & E & Hr).
  destruct (demo_round r init ex k E) as (-> & ex' & k' & Hh). destruct (Hr ex' k' Hh) as [[runs Hk] Hs].
  set (log := ToConsole <$> boot_log (boot_device demo_boot)).
  set (s := cpu_deliver IrqTimer (cpu_run 6 (power_on (kernel_code init_code log runs) demo_power))).
  assert (Hst : rtc irq_step (power_on (kernel_code init_code log runs) demo_power) s).
  { eapply rtc_r; [apply (cpu_run_steps 6)|]. apply StepIrq.
    destruct (init_run 6 (outputs_code log ++ (runs ≫= task_run_code)) demo_power (le_n 6)) as (_ & _ & Hif & _). exact Hif. }
  destruct (Hs runs log demo_power s Hk (console_part_console _) eq_refl demo_power_screen Hst)
    as (Hn & n & started & w & _ & _ & H1 & H2).
  exists runs, n, started, w. split_and!; [exact Hn|exact H1|exact H2].
Defined.
