(* ===== verification/HostSpec.v ===== *)
(** * Security of the host interface

    What a process can reach through any sequence of host calls.  The calls
    touch the process's capabilities and the filesystem in few ways:
    [HostStep] lists them as the obligations on a property of the two before a call
    and one after it, and [host_call_holds] shows that a call leads from the one to
    the other.  [HostInvariant] is the case of a property that every call preserves;
    by [proc_run_invariant] it survives every history.  The claims on authority
    instantiate them. *)

From S2P Require Import Prelude Capability Text FileSystem RamFs RamFsSpec Queue Mutex Semaphore Registry Host.
Open Scope Z_scope.

Section invariants.
Context {FS M : Type} {Q : Type -> Type} {W : Type}.
Context `{BF : Bitflags} `{FSI : FileSystem FS} `{MI : WasmMemory M} `{AQ : ArrayQueue Q}.
Abbreviation kernel := (Kernel FS M Q W).
Implicit Types k : kernel.

(** The rights a derived capability may have. *)
Definition derived_rights (parent : Z) (is_dir : bool) : Z :=
  rights_and parent
    (if is_dir then rights_or (rights_or (rights_or RIGHT_READ RIGHT_WRITE) RIGHT_EXECUTE) RIGHT_GRANT
     else rights_or RIGHT_READ RIGHT_WRITE).

Class HostStep (J J' : gmap CapId Capability -> FS -> Prop) : Prop := {
  hi_refl : forall caps fs, J caps fs -> J' caps fs;
  hi_open : forall caps fs id cap h path r fs' i,
    J caps fs -> caps !! id = Some cap -> cap_object cap = CtDirectory h ->
    rights_contains (cap_rights cap) RIGHT_READ = true ->
    fs_open_at fs (as_u32 h) path = (r, fs') ->
    match r with
    | Err _ => J' caps fs'
    | Ok nh =>
        let d := fs_is_dir fs' nh in
        J' (<[CapId_new i 0 := Capability_mk (CapId_new i 0) (derived_rights (cap_rights cap) d)
               (if d then CtDirectory nh else CtFile nh) 0]> caps) fs'
    end;
  hi_mkdir : forall caps fs id cap h path,
    J caps fs -> caps !! id = Some cap -> cap_object cap = CtDirectory h ->
    rights_contains (cap_rights cap) RIGHT_WRITE = true ->
    J' caps (fs_mkdir_at fs (as_u32 h) path).2;
  hi_remove : forall caps fs id, J caps fs -> J' (delete id caps) fs;
  hi_close : forall caps fs id cap h,
    J caps fs -> caps !! id = Some cap -> (cap_object cap = CtFile h \/ cap_object cap = CtDirectory h) ->
    J' (delete id caps) (fs_close fs (as_u32 h));
  hi_sync : forall caps fs i object,
    J caps fs -> (exists h, object = CtMutex h \/ object = CtSemaphore h) ->
    J' (<[CapId_new i 0 := Capability_mk (CapId_new i 0) RIGHT_CALL object 0]> caps) fs;
}.

(** A property that every call preserves. *)
Class HostInvariant (J : gmap CapId Capability -> FS -> Prop) : Prop := hi_step :: HostStep J J.

Lemma get_capability_Some h id cap :
  HostState_get_capability h id = Some cap -> capabilities h !! id = Some cap.
Proof. unfold HostState_get_capability. crush. Qed.

Lemma dir_cap_Ok h right id d rights :
  dir_cap h right id = Ok (d, rights) ->
  exists cap hv, capabilities h !! id = Some cap /\ cap_object cap = CtDirectory hv /\
    rights_contains (cap_rights cap) right = true /\ d = as_u32 hv /\ rights = cap_rights cap.
Proof.
  unfold dir_cap. destruct (HostState_get_capability h id) as [cap|] eqn:E; [|done].
  apply get_capability_Some in E. destruct (cap_object cap) eqn:Eo; try done.
  destruct (rights_contains _ _) eqn:Er; [|done]. intros [= <- <-]. eauto 10.
Qed.

(** [hoare I m k P]: [m] from [k] ends in [I] when it traps or panics and in [P]
    when it returns. *)
Definition hoare (I : kernel -> Prop) {A} (m : Host A) (k : kernel) (P : A -> kernel -> Prop) : Prop :=
  match m k with
  | (HReturn a, k') => P a k'
  | (_, k') => I k'
  end.

Lemma hoare_bind I {A B} (m : Host A) (f : A -> Host B) k P :
  hoare I m k (fun a k' => hoare I (f a) k' P) -> hoare I (m ≫= f) k P.
Proof. unfold hoare, mbind, Host_bind. by destruct (m k) as [[a|t|] k']. Qed.

Lemma hoare_final I {A} (m : Host A) k : hoare I m k (fun _ => I) -> I (m k).2.
Proof. unfold hoare. by destruct (m k) as [[a|t|] k']. Qed.

(** ** Steps that touch neither the capabilities nor the filesystem *)

Section preserve.
Context (J J' : gmap CapId Capability -> FS -> Prop) `{HI : !HostStep J J'}.

Definition before (k : kernel) : Prop := J (capabilities (k_host k)) (k_fs k).
Definition after (k : kernel) : Prop := J' (capabilities (k_host k)) (k_fs k).

Lemma before_after k : before k -> after k.
Proof. apply hi_refl. Qed.
#[local] Hint Resolve before_after : core.

Lemma hoare_fuel cost k P :
  before k ->
  (forall k', capabilities (k_host k') = capabilities (k_host k) -> k_fs k' = k_fs k ->
    k_memory k' = k_memory k -> before k' -> P tt k') ->
  hoare after (check_fuel cost) k P.
Proof.
  intros Hk HP. unfold hoare, check_fuel. simpl.
  destruct (YIELD_THRESHOLD <=? _); [by apply HP|by apply before_after].
Qed.

(** [m] leaves the process's state and the filesystem alone. *)
Definition frames {A} (m : Host A) : Prop :=
  forall k, k_host (m k).2 = k_host k /\ k_fs (m k).2 = k_fs k.

Lemma frames_bind {A B} (m : Host A) (f : A -> Host B) :
  frames m -> (forall a, frames (f a)) -> frames (m ≫= f).
Proof.
  intros Hm Hf k. specialize (Hm k). unfold mbind, Host_bind.
  destruct (m k) as [[a|t|] k1]; simpl in *; [|done..].
  destruct (Hf a k1), Hm. split; congruence.
Qed.

Lemma frames_ret {A} (a : A) : frames (mret a).
Proof. done. Qed.

Lemma vec_zeroed_frame alloc_ok len : frames (vec_zeroed alloc_ok len).
Proof. intros k. unfold vec_zeroed. crush. Qed.

Lemma read_path_frame alloc_ok m p l : frames (read_path alloc_ok m p l).
Proof. apply frames_bind; [apply vec_zeroed_frame|]. intros b. by destruct (mem_read _ _ _). Qed.

Lemma memory_write_frame off bs : frames (memory_write off bs).
Proof. intros k. unfold memory_write. destruct (k_memory k) as [m|]; [|done]. by destruct (mem_write m off bs). Qed.

Lemma write_caps_frame caps off : frames (write_caps caps off).
Proof.
  revert off. induction caps as [|c caps IH]; intros off; [done|]. cbn [write_caps].
  do 3 (apply frames_bind; [apply memory_write_frame|intros []; [|done]]; cbn [negb]). apply IH.
Qed.

Lemma try_lock_frame a : frames (try_lock_is_some a).
Proof. intros k. unfold try_lock_is_some. crush. Qed.

Lemma try_acquire_frame a : frames (try_acquire_at a).
Proof. intros k. unfold try_acquire_at. crush. Qed.

Lemma release_frame a : frames (release_at a).
Proof. intros k. unfold release_at. crush. Qed.

Lemma on_sync_frame {A} (f : SyncRegistry Q W -> A * SyncRegistry Q W) : frames (on_sync f).
Proof. intros k. unfold on_sync. by destruct (f (k_sync k)). Qed.

Lemma hoare_frames {A} (m : Host A) k P :
  frames m -> before k ->
  (forall a k', k_host k' = k_host k -> k_fs k' = k_fs k -> before k' -> P a k') ->
  hoare after m k P.
Proof.
  intros Hm Hk HP. destruct (Hm k) as [Hc Hf].
  assert (Hb : before (m k).2) by (unfold before; by rewrite Hc, Hf).
  unfold hoare. destruct (m k) as [[a|t|] k']; simpl in *; auto.
Qed.

Lemma hoare_ret {A} (a : A) k (P : A -> kernel -> Prop) : P a k -> hoare after (mret a) k P.
Proof. done. Qed.

Lemma hoare_get k (P : kernel -> kernel -> Prop) : P k k -> hoare after host_get k P.
Proof. done. Qed.

Lemma hoare_sync_grant object k :
  before k -> (exists h, object = CtMutex h \/ object = CtSemaphore h) ->
  hoare after (grant_capability object RIGHT_CALL) k (fun _ => after).
Proof. intros Hk Ho. unfold hoare, after. simpl. by apply hi_sync. Qed.

Lemma hoare_bind_ret {A B} (m : Host A) (f : A -> B) k :
  frames m -> before k -> hoare after (a ← m; mret (f a)) k (fun _ => after).
Proof. intros. apply hoare_bind, hoare_frames; auto. intros. by apply before_after. Qed.

(** ** Every host function *)

(** Discharges a hypothesis, or ends at an early return. *)
Ltac leave := solve [done | by apply before_after].

Ltac fuel k' :=
  apply hoare_bind, hoare_fuel; [leave|]; intros k' ?Hc ?Hf ?Hm ?Hk; apply hoare_bind, hoare_get.

Lemma get_capabilities_holds ptr len k :
  before k -> hoare after (sp_get_capabilities ptr len) k (fun _ => after).
Proof.
  intros H. fuel k1. destruct (k_memory k1); [|leave].
  cbv zeta. destruct (_ <? _); [leave|]. apply hoare_bind, hoare_fuel; [leave|]. intros k2 _ _ _ H2.
  apply hoare_bind_ret; [apply write_caps_frame|leave].
Qed.

Lemma fs_open_holds alloc_ok dir p l k :
  before k -> hoare after (sp_fs_open alloc_ok dir p l) k (fun _ => after).
Proof.
  intros H. fuel k1. destruct (k_memory k1) as [m|]; [|leave].
  apply hoare_bind, hoare_frames; [apply read_path_frame|leave|]. intros [path|e] k2 Eh Ef H2; [|leave].
  destruct (dir_cap _ _ _) as [[d rights]|e] eqn:Ed; [|leave].
  apply dir_cap_Ok in Ed as (cap & hv & Hcap & Ho & Hr & -> & ->).
  unfold hoare, mbind, Host_bind, on_fs, before, after in *. simpl.
  destruct (fs_open_at (k_fs k2) (as_u32 hv) path) as [r fs'] eqn:E. rewrite <- Eh in Hcap.
  pose proof (hi_open _ _ _ _ _ _ _ _ (k_next_cap k2) H2 Hcap Ho Hr E) as Hopen.
  destruct r; simpl; exact Hopen.
Qed.

Lemma fs_mkdir_holds alloc_ok dir p l k :
  before k -> hoare after (sp_fs_mkdir alloc_ok dir p l) k (fun _ => after).
Proof.
  intros H. fuel k1. destruct (k_memory k1) as [m|]; [|leave].
  apply hoare_bind, hoare_frames; [apply read_path_frame|leave|]. intros [path|e] k2 Eh Ef H2; [|leave].
  destruct (dir_cap _ _ _) as [[d rights]|e] eqn:Ed; [|leave].
  apply dir_cap_Ok in Ed as (cap & hv & Hcap & Ho & Hr & -> & ->).
  rewrite <- Eh in Hcap. pose proof (hi_mkdir _ _ _ _ _ path H2 Hcap Ho Hr) as Hmk.
  unfold hoare, mbind, Host_bind, on_fs, before, after in *. simpl.
  destruct (fs_mkdir_at (k_fs k2) (as_u32 hv) path) as [[]fs']; exact Hmk.
Qed.

Lemma fs_read_holds alloc_ok file p l off k :
  before k -> hoare after (sp_fs_read alloc_ok file p l off) k (fun _ => after).
Proof.
  intros H. fuel k1. destruct (k_memory k1) as [m|]; [|leave].
  destruct (file_cap _ _); [|leave].
  apply hoare_bind, hoare_frames; [apply vec_zeroed_frame|leave|]. intros buf k2 _ _ H2.
  destruct (fs_read _ _ _ _) as [[[n buf']|e]|]; [|leave..].
  apply hoare_bind, hoare_fuel; [leave|]. intros k3 _ _ _ H3.
  apply hoare_bind_ret; [apply memory_write_frame|leave].
Qed.

Lemma fs_size_holds file k : before k -> hoare after (sp_fs_size file) k (fun _ => after).
Proof.
  intros H. fuel k1. destruct (HostState_get_capability _ _) as [cap|]; [|leave].
  destruct (cap_object cap); try leave; destruct (fs_size _ _); leave.
Qed.

Lemma fs_close_holds file k : before k -> hoare after (sp_fs_close file) k (fun _ => after).
Proof.
  intros H. fuel k1. destruct (capabilities (k_host k1) !! _) as [cap|] eqn:Ec; [|leave].
  unfold hoare, mbind, Host_bind, on_fs, before, after in *. simpl.
  destruct (cap_object cap) eqn:Eo; simpl; try (by apply hi_remove);
    eapply hi_close; eauto.
Qed.

Lemma mutex_create_holds k : before k -> hoare after sp_mutex_create k (fun _ => after).
Proof.
  intros H. apply hoare_bind, hoare_fuel; [leave|]. intros k1 _ _ _ H1.
  apply hoare_bind, hoare_frames; [apply on_sync_frame|leave|]. intros h k2 _ _ H2.
  apply hoare_sync_grant; eauto.
Qed.

Lemma sem_create_holds n k : before k -> hoare after (sp_sem_create n) k (fun _ => after).
Proof.
  intros H. apply hoare_bind, hoare_fuel; [leave|]. intros k1 _ _ _ H1. destruct (n <? 0); [leave|].
  apply hoare_bind, hoare_frames; [apply on_sync_frame|leave|]. intros h k2 _ _ H2.
  apply hoare_sync_grant; eauto.
Qed.

(** The functions that act on an existing object share their shape. *)
Ltac sync_holds :=
  let H := fresh "H" in let k' := fresh "k" in intros H; fuel k';
  match goal with |- context [match ?c with Ok _ => _ | Err _ => _ end] => destruct c end;
  [|leave]; apply hoare_bind, hoare_frames; [apply on_sync_frame|leave|];
  intros [?|] ? _ _ ?; [|leave].

Lemma mutex_lock_holds cap k : before k -> hoare after (sp_mutex_lock cap) k (fun _ => after).
Proof.
  sync_holds. apply hoare_bind, hoare_frames; [apply try_lock_frame|leave|]. intros [] ? _ _ ?; leave.
Qed.

Lemma mutex_try_lock_holds cap k : before k -> hoare after (sp_mutex_try_lock cap) k (fun _ => after).
Proof. sync_holds. apply hoare_bind_ret; [apply try_lock_frame|leave]. Qed.

Lemma mutex_unlock_holds cap k : before k -> hoare after (sp_mutex_unlock cap) k (fun _ => after).
Proof. sync_holds; leave. Qed.

Lemma sem_acquire_holds cap k : before k -> hoare after (sp_sem_acquire cap) k (fun _ => after).
Proof.
  sync_holds. apply hoare_bind, hoare_frames; [apply try_acquire_frame|leave|]. intros [] ? _ _ ?; leave.
Qed.

Lemma sem_try_acquire_holds cap k : before k -> hoare after (sp_sem_try_acquire cap) k (fun _ => after).
Proof. sync_holds. apply hoare_bind_ret; [apply try_acquire_frame|leave]. Qed.

Lemma sem_release_holds cap k : before k -> hoare after (sp_sem_release cap) k (fun _ => after).
Proof. sync_holds. apply hoare_bind_ret; [apply release_frame|leave]. Qed.

Lemma host_call_holds alloc_ok c k : before k -> after (register_functions alloc_ok c k).2.
Proof.
  intros H. apply hoare_final. destruct c; cbn [register_functions];
    try (apply hoare_bind; leave);
    auto using get_capabilities_holds, fs_open_holds, fs_read_holds, fs_size_holds,
      fs_mkdir_holds, mutex_create_holds, mutex_lock_holds, mutex_try_lock_holds,
      mutex_unlock_holds, sem_create_holds, sem_acquire_holds, sem_try_acquire_holds,
      sem_release_holds.
  apply hoare_bind. by apply fs_close_holds.
Qed.

End preserve.

Lemma proc_run_invariant J `{HI : !HostInvariant J} es k : before J k -> before J (proc_run k es).
Proof.
  revert k. induction es as [|e es IH]; intros k Hk; [done|]. apply IH.
  destruct e as [m|alloc_ok c]; simpl; [by destruct (k_memory k)|by apply (host_call_holds J J)].
Qed.

(** ** Authority *)

Definition sub_rights (a b : Z) : Prop := Z.land a b = a.

Lemma sub_rights_trans a b c : sub_rights a b -> sub_rights b c -> sub_rights a c.
Proof. unfold sub_rights. intros H1 H2. rewrite <- H1 at 1. by rewrite <- Z.land_assoc, H2. Qed.

Lemma derived_sub parent d : sub_rights (derived_rights parent d) parent.
Proof.
  unfold sub_rights, derived_rights. rewrite rights_and_bits.
  by rewrite (Z.land_comm parent), <- Z.land_assoc, Z.land_diag.
Qed.

Lemma contains_sub a b r : sub_rights a b -> rights_contains a r = true -> rights_contains b r = true.
Proof.
  unfold sub_rights. rewrite !rights_contains_bits. intros H1 H2.
  rewrite <- H2 at 1. rewrite Z.land_assoc, (Z.land_comm b). by rewrite H1.
Qed.

Definition fs_handle (o : CapabilityType) : option Z :=
  match o with CtFile h | CtDirectory h => Some h | _ => None end.

(** [c] is one of the capabilities the process started with, or derived from a
    readable directory among them with no more rights, or a call capability for
    a synchronization object. *)
Definition authorised (init : gmap CapId Capability) (c : Capability) : Prop :=
  (exists id, init !! id = Some c) \/
  (exists id p h0, init !! id = Some p /\ cap_object p = CtDirectory h0 /\
     rights_contains (cap_rights p) RIGHT_READ = true /\
     is_Some (fs_handle (cap_object c)) /\ sub_rights (cap_rights c) (cap_rights p)) \/
  (cap_rights c = RIGHT_CALL /\ exists h, cap_object c = CtMutex h \/ cap_object c = CtSemaphore h).

Definition all_caps (P : Capability -> Prop) (caps : gmap CapId Capability) : Prop :=
  forall id c, caps !! id = Some c -> P c.

Lemma all_caps_insert P caps id c : all_caps P caps -> P c -> all_caps P (<[id := c]> caps).
Proof. intros H Hc i c'. rewrite lookup_insert_Some. intros [[_ <-]|[_ ?]]; [done|eauto]. Qed.

Lemma all_caps_delete P caps id : all_caps P caps -> all_caps P (delete id caps).
Proof. intros H i c [_ ?]%lookup_delete_Some. eauto. Qed.

(** A directory capability with a right comes from an initial one with it. *)
Lemma authorised_dir init c h r :
  authorised init c -> cap_object c = CtDirectory h -> rights_contains (cap_rights c) r = true ->
  exists id p h0, init !! id = Some p /\ cap_object p = CtDirectory h0 /\
    rights_contains (cap_rights p) r = true /\ sub_rights (cap_rights c) (cap_rights p).
Proof.
  intros [[id Hi]|[(id & p & h0 & Hi & Hp & Hr & _ & Hs)|(_ & h' & [E|E])]] Ho Hc; try congruence.
  - exists id, c, h. split_and!; auto. apply Z.land_diag.
  - exists id, p, h0. split_and!; auto. by eapply contains_sub.
Qed.

Lemma authorised_open init c h nh i d :
  authorised init c -> cap_object c = CtDirectory h -> rights_contains (cap_rights c) RIGHT_READ = true ->
  authorised init (Capability_mk (CapId_new i 0) (derived_rights (cap_rights c) d)
    (if d then CtDirectory nh else CtFile nh) 0).
Proof.
  intros Ha Ho Hr. destruct (authorised_dir _ _ _ _ Ha Ho Hr) as (id & p & h0 & Hi & Hp & Hpr & Hs).
  right; left. exists id, p, h0. split_and!; auto; simpl; [by destruct d; eexists|].
  eapply sub_rights_trans; [apply derived_sub|done].
Qed.

Lemma authorised_sync init i o :
  (exists h, o = CtMutex h \/ o = CtSemaphore h) ->
  authorised init (Capability_mk (CapId_new i 0) RIGHT_CALL o 0).
Proof. intros H. right; right. auto. Qed.

#[export] Instance authorised_inv init :
  HostInvariant (fun caps _ => all_caps (authorised init) caps).
Proof.
  split; intros; eauto using all_caps_delete, all_caps_insert, authorised_sync.
  destruct r; [|done]. apply all_caps_insert; [done|]. eapply authorised_open; eauto.
Qed.

(** Without file or directory capabilities the filesystem is out of reach. *)
#[export] Instance no_fs_inv fs0 :
  HostInvariant (fun caps fs => all_caps (fun c => fs_handle (cap_object c) = None) caps /\ fs = fs0).
Proof.
  split.
  - done.
  - intros caps fs id cap h path r fs' i [H ->] Hc Ho. apply H in Hc. by rewrite Ho in Hc.
  - intros caps fs id cap h path [H ->] Hc Ho. apply H in Hc. by rewrite Ho in Hc.
  - intros caps fs id [H ->]. auto using all_caps_delete.
  - intros caps fs id cap h [H ->] Hc [Ho|Ho]; apply H in Hc; by rewrite Ho in Hc.
  - intros caps fs i o [H ->] (h & [-> | ->]); split; auto; by apply all_caps_insert.
Qed.
End invariants.
