(* ===== verification/HostSecurity.v ===== *)
(** * Capability security of WASM processes

    The claims on the authority of a process, over every history of host calls
    and memory writes: rights only shrink, a process without filesystem
    capabilities never touches the filesystem, one without a writable directory
    never changes it, and every handle a process holds names a node below the
    ones it was given. *)

From S2P Require Import Prelude Capability Text FileSystem RamFs RamFsSpec Queue Mutex Semaphore Registry Host HostSpec.
Open Scope Z_scope.

Section ramfs.
Context {M : Type} {Q : Type -> Type} {W : Type}.
Context `{BF : Bitflags} `{MI : WasmMemory M} `{AQ : ArrayQueue Q}.

(** The initial capabilities give no right to write to a directory. *)
Definition read_only (init : gmap CapId Capability) : Prop :=
  all_caps (fun c => forall h, cap_object c = CtDirectory h ->
    rights_contains (cap_rights c) RIGHT_WRITE = false) init.

#[export] Instance read_only_inv init ns rt :
  read_only init ->
  HostInvariant (fun caps fs =>
    all_caps (authorised init) caps /\ nodes fs = ns /\ root fs = rt).
Proof.
  intros Hro. split.
  - done.
  - intros caps fs id cap h path r fs' i (Ha & Hn & Hr) Hc Ho Hrd. simpl.
    unfold RamFs_open_at. destruct (open_handles fs !! as_u32 h) as [b|]; [|intros [= <- <-]; auto].
    destruct (walk _ _ _) as [n|e]; intros [= <- <-]; [|auto]. split; [|auto].
    apply all_caps_insert; [done|]. eapply authorised_open; eauto.
  - intros caps fs id cap h path (Ha & _) Hc Ho Hw.
    destruct (authorised_dir _ _ _ _ (Ha _ _ Hc) Ho Hw) as (i & p & h0 & Hi & Hp & Hpw & _).
    specialize (Hro _ _ Hi _ Hp). congruence.
  - intros caps fs id (Ha & Hr). auto using all_caps_delete.
  - intros caps fs id cap h (Ha & Hr) _ _. auto using all_caps_delete.
  - intros caps fs i o (Ha & Hr) Ho. split; [|done]. apply all_caps_insert; [done|]. by apply authorised_sync.
Qed.

(** Node [n] is below the node of a filesystem capability of the process. *)
Definition reaches (caps : gmap CapId Capability) (fs : RamFs) (ns : gmap nat Node) (n : nat) : Prop :=
  exists id c h n0 p, caps !! id = Some c /\ fs_handle (cap_object c) = Some h /\
    open_handles fs !! as_u32 h = Some n0 /\ walk ns n0 p = Ok n.

(** Every open handle of the process satisfies [P]. *)
Definition held_nodes (caps : gmap CapId Capability) (fs : RamFs) (P : nat -> Prop) : Prop :=
  all_caps (fun c => forall h n, fs_handle (cap_object c) = Some h ->
    open_handles fs !! as_u32 h = Some n -> P n) caps.

Lemma reaches_app caps fs ns n p c : reaches caps fs ns n -> walk ns n p = Ok c -> reaches caps fs ns c.
Proof.
  intros (id & cp & h & n0 & q & Hi & Hh & Ho & Hw) Hp. exists id, cp, h, n0, (q ++ p).
  split_and!; auto. by rewrite walk_app, Hw.
Qed.

(** The filesystem capabilities hold handles the filesystem has issued. *)
Definition issued_caps (fs : RamFs) (caps : gmap CapId Capability) : Prop :=
  all_caps (fun c => forall h, fs_handle (cap_object c) = Some h -> issued fs (as_u32 h)) caps.

(** The process is confined below its initial capabilities, and the handle counters
    have come no further than [a] and [b]. *)
Record confined (init : gmap CapId Capability) (fs0 : RamFs) (a b : Z)
    (caps : gmap CapId Capability) (fs : RamFs) : Prop := {
  cf_wf : fs_wf fs;
  cf_handles : handles_wf fs;
  cf_next : next_handle fs <= a;
  cf_next_at : next_handle_at fs <= b;
  cf_issued : issued_caps fs caps;
  cf_held : held_nodes caps fs (reaches init fs0 (nodes fs));
}.

(** Any filesystem operation keeps a process confined, whoever calls it: new handles
    are fresh, old nodes stay where they are. *)
Lemma confined_fs_step init fs0 a b caps fs op :
  confined init fs0 a b caps fs -> (forall p c, op <> OpAddFile p c) ->
  a + op_opens op <= 10000 -> b + op_opens_at op < 2 ^ 32 ->
  confined init fs0 (a + op_opens op) (b + op_opens_at op) caps (fs_step fs op).
Proof.
  intros [Hwf Hhw Ha Hb Hi Hn] Hop Hla Hlb.
  assert (Hbud : handle_budget fs [op]) by (split; simpl; lia).
  destruct (fs_step_counters fs op Hwf Hhw Hbud) as (Hhw' & Hle & Hle_at).
  constructor; auto using fs_step_wf; try lia.
  - intros id c Hc h Hh. specialize (Hi _ _ Hc _ Hh). unfold issued in *. lia.
  - intros id c Hc h n Hh Hl. specialize (Hi _ _ Hc _ Hh).
    apply (fs_step_old_handle fs op _ n) in Hl; [|done..].
    destruct (Hn _ _ Hc h n Hh Hl) as (i & c0 & h0 & n0 & p & ? & ? & ? & Hw).
    exists i, c0, h0, n0, p. split_and!; auto. by apply fs_step_walk.
Qed.

(** The capability for a handle that was just opened. *)
Lemma confined_opened init fs0 a b b' caps fs id cap h path nh fs' cid r :
  confined init fs0 a b caps fs -> confined init fs0 a b' caps fs' ->
  caps !! id = Some cap -> cap_object cap = CtDirectory h ->
  RamFs_open_at fs (as_u32 h) path = (Ok nh, fs') ->
  forall d : bool, confined init fs0 a b'
    (<[cid := Capability_mk cid r (if d then CtDirectory nh else CtFile nh) 0]> caps) fs'.
Proof.
  intros [Hwf Hhw _ _ _ Hn] [Hwf' Hhw' Ha' Hb' Hi' Hn'] Hcap Ho E d. unfold RamFs_open_at in E.
  destruct (open_handles fs !! as_u32 h) as [base|] eqn:Eb; [|done].
  destruct (walk _ _ _) as [n|e] eqn:Ew; [|done]. injection E as <- <-.
  assert (Hnew : as_u32 (next_handle_at fs) = next_handle_at fs) by (apply wrap_small, fw_next_handle_at, Hwf).
  assert (Hh : forall h', fs_handle (if d then CtDirectory (next_handle_at fs) else CtFile (next_handle_at fs)) = Some h' ->
    as_u32 h' = next_handle_at fs) by (intros h'; destruct d; by intros [= <-]).
  constructor; auto; (apply all_caps_insert; [done|]); simpl.
  - intros h' Hh'. apply Hh in Hh' as ->. unfold issued. destruct Hhw' as (_ & _ & Hall). eapply Hall. simpl. by rewrite lookup_insert_eq.
  - intros h' n' Hh' Hl. apply Hh in Hh'. rewrite Hh', lookup_insert_eq in Hl. injection Hl as <-.
    eapply reaches_app; [|exact Ew]. eapply (Hn _ _ Hcap h); [by rewrite Ho|done].
Qed.

#[export] Instance confined_step init fs0 a b :
  a <= 10000 -> b + 1 < 2 ^ 32 -> HostStep (confined init fs0 a b) (confined init fs0 a (b + 1)).
Proof.
  intros Hla Hlb. assert (Hw : forall caps fs, confined init fs0 a b caps fs -> confined init fs0 a (b + 1) caps fs).
  { intros caps fs []. constructor; auto. lia. }
  assert (Hd : forall caps fs id, confined init fs0 a b caps fs -> confined init fs0 a (b + 1) (delete id caps) fs).
  { intros caps fs id []. constructor; auto; [lia|by apply all_caps_delete..]. }
  split; auto.
  - intros caps fs id cap h path r fs' i Hc Hcap Ho _ E.
    pose proof (confined_fs_step _ _ _ _ _ _ (OpOpenAt (as_u32 h) path) Hc ltac:(done)) as Hc'.
    cbn [op_opens op_opens_at fs_step] in Hc'. rewrite Z.add_0_r in Hc'. specialize (Hc' Hla Hlb).
    cbn [fs_open_at RamFs_FileSystem] in E. rewrite E in Hc'. destruct r as [nh|e]; [|done].
    eapply confined_opened; [exact Hc|exact Hc'|done..].
  - intros caps fs id cap h path Hc _ _ _.
    pose proof (confined_fs_step _ _ _ _ _ _ (OpMkdirAt (as_u32 h) path) Hc ltac:(done)) as Hc'.
    cbn [op_opens op_opens_at fs_step] in Hc'. rewrite !Z.add_0_r in Hc'. apply Hw, Hc'; lia.
  - intros caps fs id cap h Hc _ _. apply Hd.
    pose proof (confined_fs_step _ _ _ _ _ _ (OpClose (as_u32 h)) Hc ltac:(done)) as Hc'.
    cbn [op_opens op_opens_at fs_step] in Hc'. rewrite !Z.add_0_r in Hc'. apply Hc'; lia.
  - intros caps fs i o [] (h & Ho). constructor; auto; [lia|apply all_caps_insert..]; try done;
      intros h'; simpl; by destruct Ho as [-> | ->].
Qed.

(** ** A shared filesystem

    The filesystem is one for all processes and for the shell, and so are the registry
    and the counter of capability ids.  A history of a process among others consists
    of its own events and of steps of the others: a call of the filesystem trait, with
    whatever else it did to the registry and the counter.  ([add_file] is not in the
    trait; the kernel calls it once at boot, before there are processes.) *)
Inductive SharedEvent : Type :=
| EvOwn (e : ProcEvent (M:=M))
| EvOther (op : FsOp) (sync : SyncRegistry Q W) (next_cap : Z).

Definition shared_step (k : Kernel RamFs M Q W) (e : SharedEvent) : Kernel RamFs M Q W :=
  match e with
  | EvOwn e => proc_step k e
  | EvOther op sync next_cap =>
      set_next_cap (set_sync (set_fs k (fs_step (k_fs k) op)) sync) next_cap
  end.

Definition shared_run (k : Kernel RamFs M Q W) (es : list SharedEvent) : Kernel RamFs M Q W :=
  foldl shared_step k es.

Definition trait_event (e : SharedEvent) : Prop :=
  match e with EvOther (OpAddFile _ _) _ _ => False | _ => True end.

(** How many handles an event can take from each counter. *)
Definition event_opens (e : SharedEvent) : Z :=
  match e with EvOther op _ _ => op_opens op | EvOwn _ => 0 end.
Definition event_opens_at (e : SharedEvent) : Z :=
  match e with EvOther op _ _ => op_opens_at op | EvOwn (EvCall _ _) => 1 | EvOwn (EvMemory _) => 0 end.
Definition total (f : SharedEvent -> Z) (es : list SharedEvent) : Z := foldr (fun e n => f e + n) 0 es.

Lemma total_nonneg es : 0 <= total event_opens es /\ 0 <= total event_opens_at es.
Proof. induction es as [|[[]|[]]]; simpl; lia. Qed.

Lemma shared_step_confined init fs0 a b k e :
  before (confined init fs0 a b) k -> trait_event e ->
  a + event_opens e <= 10000 -> b + event_opens_at e < 2 ^ 32 ->
  before (confined init fs0 (a + event_opens e) (b + event_opens_at e)) (shared_step k e).
Proof.
  intros Hk Ht Ha Hb. destruct e as [[m|alloc_ok c]|op sync nc]; simpl in *.
  - rewrite !Z.add_0_r. by destruct (k_memory k).
  - rewrite Z.add_0_r in *. pose proof (confined_step init fs0 a b Ha Hb).
    by apply (host_call_holds (confined init fs0 a b) (confined init fs0 a (b + 1))).
  - apply confined_fs_step; auto. intros p c ->. done.
Qed.

Lemma shared_run_confined init fs0 a b k es :
  before (confined init fs0 a b) k -> Forall trait_event es ->
  a + total event_opens es <= 10000 -> b + total event_opens_at es < 2 ^ 32 ->
  exists a' b', before (confined init fs0 a' b') (shared_run k es).
Proof.
  revert a b k. induction es as [|e es IH]; intros a b k Hk Ht Ha Hb; [by exists a, b|].
  apply Forall_cons in Ht as [He Ht]. simpl in Ha, Hb. pose proof (total_nonneg es).
  apply (IH (a + event_opens e) (b + event_opens_at e)); try done; [|lia..].
  apply shared_step_confined; auto; lia.
Qed.
End ramfs.

(** ** Properties *)

Section claims.
Context {FS M : Type} {Q : Type -> Type} {W : Type}.
Context `{BF : Bitflags} `{FSI : FileSystem FS} `{MI : WasmMemory M} `{AQ : ArrayQueue Q}.

(** C1: rights degradation: over any history of a process, every capability it
    holds is one it was granted at spawn, or a file or directory capability whose
    rights are among those of a readable directory capability granted at spawn, or
    a call capability for a mutex or semaphore. *)
Theorem host_rights_attenuation (k : Kernel FS M Q W) (es : list (ProcEvent (M:=M))) id c :
  capabilities (k_host (proc_run k es)) !! id = Some c ->
  authorised (capabilities (k_host k)) c.
Proof.
  intros H. refine (proc_run_invariant
    (fun caps _ => all_caps (authorised (capabilities (k_host k))) caps) es k _ id c H).
  intros i c' Hi. left. eauto.
Qed.

(** C4: no ambient authority: a process that starts without a file or directory
    capability never changes anything of the filesystem, its table of open handles
    included, whatever it calls. *)
Theorem host_no_ambient_authority (k : Kernel FS M Q W) (es : list (ProcEvent (M:=M))) :
  all_caps (fun c => fs_handle (cap_object c) = None) (capabilities (k_host k)) ->
  k_fs (proc_run k es) = k_fs k.
Proof.
  intros H. by apply (proc_run_invariant (fun caps fs =>
    all_caps (fun c => fs_handle (cap_object c) = None) caps /\ fs = k_fs k) es k).
Qed.
End claims.

Section ramfs_claims.
Context {M : Type} {Q : Type -> Type} {W : Type}.
Context `{BF : Bitflags} `{MI : WasmMemory M} `{AQ : ArrayQueue Q}.

(** C3: a process none of whose initial directory capabilities has the write right
    leaves the whole tree of files and directories as it was. *)
Theorem host_read_only_process (k : Kernel RamFs M Q W) (es : list (ProcEvent (M:=M))) :
  read_only (capabilities (k_host k)) ->
  nodes (k_fs (proc_run k es)) = nodes (k_fs k) /\ fs_tree (k_fs (proc_run k es)) = fs_tree (k_fs k).
Proof.
  intros H. pose proof (read_only_inv _ (nodes (k_fs k)) (root (k_fs k)) H) as HI.
  destruct (proc_run_invariant _ es k) as (_ & Hn & Hr).
  - split; [|done]. intros id c Hc. left. eauto.
  - unfold fs_tree. by rewrite Hn, Hr.
Qed.

End ramfs_claims.

(** ** Witnesses

    A process with one readable directory, whose memory holds the path "f". *)
#[local] Existing Instance Z_Bitflags.

Definition demo_fs : RamFs :=
  fs_run RamFs_new [OpAddFile "d/f" [x61; x62; x63]; OpAddFile "secret" [x00]; OpOpen "d"].

Definition demo_memory : ByteMemory :=
  ByteMemory_mk [x66; x00; x00; x00; x00; x00; x00; x00; x00; x00; x00; x00; x00; x00; x00; x00;
                 x00; x00; x00; x00; x00; x00; x00; x00; x00; x00; x00; x00; x00; x00; x00; x00;
                 x00; x00; x00; x00; x00; x00; x00; x00; x00; x00; x00; x00; x00; x00; x00; x00] eq_refl.

Definition demo_caps (object : CapabilityType) (rights : Z) : list Capability :=
  [(Capability_new object rights 1).1].

Definition demo_kernel (caps : list Capability) : Kernel RamFs ByteMemory ListQueue nat :=
  Kernel_mk (HostState_mk (capabilities (HostState_with_capabilities caps)) 10000)
    (Some demo_memory) demo_fs registry_boot 2 [] [].

Definition demo_heap : Z -> bool := fun n => n <=? 4096.

Definition demo_reader : Kernel RamFs ByteMemory ListQueue nat :=
  demo_kernel (demo_caps (CtDirectory 1) (Z.lor RIGHT_READ RIGHT_EXECUTE)).

Definition demo_events : list (ProcEvent (M:=ByteMemory)) :=
  [EvCall demo_heap (CallFsOpen 1 0 1); EvCall demo_heap (CallFsMkdir 1 0 1); EvCall demo_heap CallMutexCreate].

Lemma host_rights_attenuation_witness :
  authorised (capabilities (k_host demo_reader))
    (Capability_mk (CapId_mk 2 0) RIGHT_READ (CtFile 10000) 0).
Proof. by apply (host_rights_attenuation demo_reader demo_events (CapId_mk 2 0)). Defined.

Lemma host_no_ambient_authority_witness :
  k_fs (proc_run (demo_kernel (demo_caps (CtMutex 1) RIGHT_CALL)) demo_events) = demo_fs.
Proof.
  apply (host_no_ambient_authority (demo_kernel (demo_caps (CtMutex 1) RIGHT_CALL)) demo_events).
  intros id c H. simpl in H. apply lookup_insert_Some in H as [[_ <-]|[_ H]]; [done|].
  by apply lookup_empty_Some in H.
Defined.

Lemma host_read_only_process_witness :
  read_only (capabilities (k_host demo_reader)) /\
  fs_tree (k_fs (proc_run demo_reader demo_events)) = fs_tree demo_fs.
Proof.
  assert (H : read_only (capabilities (k_host demo_reader))).
  { intros id c H. simpl in H. apply lookup_insert_Some in H as [[_ <-]|[_ H]]; [done|].
    by apply lookup_empty_Some in H. }
  split; [done|]. apply (host_read_only_process demo_reader demo_events H).
Defined.

Lemma demo_fs_wf : fs_wf demo_fs.
Proof. apply fs_run_preserves_wf, fs_new_wf. Qed.

(** The reader among others: the shell opens a file, another process makes a
    directory and closes a handle. *)
Definition demo_shared : list (SharedEvent (M:=ByteMemory) (Q:=ListQueue) (W:=nat)) :=
  [EvOther (OpOpen "secret") registry_boot 5; EvOwn (EvCall demo_heap (CallFsOpen 1 0 1));
   EvOther (OpMkdirAt 1 "e") registry_boot 9; EvOther (OpClose 2) registry_boot 9;
   EvOther (OpOpen "secret") registry_boot 9].

