(* ===== verification/HostBehaviour.v ===== *)
(** * Behaviour of the host functions

    Fuel accounting, the allocation of caller-sized buffers, what the mutex
    functions really do, the encoding of [sp_get_capabilities], and
    [sp_fs_read] from the capability check to the bytes in linear memory. *)

From S2P Require Import Prelude Memory Capability Text FileSystem RamFs RamFsSpec Queue Mutex Semaphore Registry Host HostSpec HostSecurity.
Open Scope Z_scope.

Section behaviour.
Context {FS M : Type} {Q : Type -> Type} {W : Type}.
Context `{BF : Bitflags} `{FSI : FileSystem FS} `{MI : WasmMemory M} `{AQ : ArrayQueue Q}.
Abbreviation kernel := (Kernel FS M Q W).
Implicit Types k : kernel.

(** ** Fuel *)

Abbreviation fuel k := (fuel_remaining (k_host k)).

(** From a state above the threshold, [m] yields or stays above it without
    gaining fuel. *)
Definition fuel_safe {A} (m : Host A) : Prop := forall k, YIELD_THRESHOLD <= fuel k ->
  match m k with
  | (HTrap TrapYield, _) => True
  | (_, k') => YIELD_THRESHOLD <= fuel k' <= fuel k
  end.

Lemma fuel_safe_bind {A B} (m : Host A) (f : A -> Host B) :
  fuel_safe m -> (forall a, fuel_safe (f a)) -> fuel_safe (m ≫= f).
Proof.
  intros Hm Hf k Hk. specialize (Hm k Hk). unfold mbind, Host_bind.
  destruct (m k) as [[a|[]|] k1]; auto. specialize (Hf a k1 ltac:(lia)).
  destruct (f a k1) as [[b|[]|] k2]; auto; lia.
Qed.

Lemma fuel_safe_same {A} (m : Host A) : (forall k, fuel (m k).2 = fuel k) -> fuel_safe m.
Proof. intros H k Hk. specialize (H k). destruct (m k) as [[a|[]|] k']; simpl in H; auto; lia. Qed.

Lemma fuel_safe_frames {A} (m : Host A) : frames m -> fuel_safe m.
Proof. intros H. apply fuel_safe_same. intros k. by rewrite (proj1 (H k)). Qed.

Lemma check_fuel_spend cost k :
  0 <= cost ->
  match check_fuel cost k with
  | (HReturn _, k') => YIELD_THRESHOLD <= fuel k' /\ fuel k' = fuel k - cost
  | (HTrap TrapYield, _) => True
  | _ => False
  end.
Proof.
  intros Hc. unfold check_fuel, HostState_consume_fuel, saturating_sub, YIELD_THRESHOLD. simpl.
  destruct (_ <=? _) eqn:E; simpl; lia.
Qed.

Lemma check_fuel_safe cost : 0 <= cost -> fuel_safe (check_fuel cost).
Proof.
  intros Hc k Hk. pose proof (check_fuel_spend cost k Hc).
  destruct (check_fuel cost k) as [[a|[]|] k']; auto; lia.
Qed.

(** A call that does not yield costs at least the price of its first check. *)
Definition spends (price : Z) {A} (m : Host A) : Prop := forall k,
  match m k with
  | (HTrap TrapYield, _) => True
  | (_, k') => YIELD_THRESHOLD <= fuel k' <= fuel k - price
  end.

Lemma spends_bind cost {A} (f : unit -> Host A) :
  0 <= cost -> (forall u, fuel_safe (f u)) -> spends cost (check_fuel cost ≫= f).
Proof.
  intros Hc Hf k. pose proof (check_fuel_spend cost k Hc) as Hs. unfold mbind, Host_bind.
  destruct (check_fuel cost k) as [[a|[]|] k1]; try done. specialize (Hf a k1 ltac:(lia)).
  destruct (f a k1) as [[b|[]|] k2]; auto; lia.
Qed.

Lemma on_fs_safe {A} (f : FS -> A * FS) : fuel_safe (on_fs f).
Proof. apply fuel_safe_same. intros k. unfold on_fs. by destruct (f (k_fs k)). Qed.

Lemma grant_safe o r : fuel_safe (grant_capability o r).
Proof. by apply fuel_safe_same. Qed.

Lemma wrap_nonneg w z : 0 <= w -> 0 <= wrap w z.
Proof. intros H. apply wrap_range with (z := z) in H. apply H. Qed.

Ltac safe := repeat first
  [ done
  | apply fuel_safe_frames; first
      [ apply frames_ret | apply read_path_frame | apply vec_zeroed_frame | apply memory_write_frame
      | apply write_caps_frame | apply try_lock_frame | apply try_acquire_frame | apply release_frame
      | apply on_sync_frame ]
  | apply on_fs_safe | apply grant_safe
  | apply check_fuel_safe; (done || apply wrap_nonneg; done)
  | apply fuel_safe_bind; [|intros ?]
  | apply fuel_safe_same; done
  | progress cbv zeta
  | case_match ].

Lemma spends_then price {A B} (m : Host A) (f : A -> Host B) :
  spends price m -> (forall a, fuel_safe (f a)) -> spends price (m ≫= f).
Proof.
  intros Hm Hf k. specialize (Hm k). unfold mbind, Host_bind.
  destruct (m k) as [[a|[]|] k1]; auto. specialize (Hf a k1 ltac:(lia)).
  destruct (f a k1) as [[b|[]|] k2]; auto; lia.
Qed.

Lemma spends_at_least cost {A} (f : unit -> Host A) :
  CAP_LOOKUP <= cost -> (forall u, fuel_safe (f u)) -> spends CAP_LOOKUP (check_fuel cost ≫= f).
Proof.
  intros Hc Hf k. pose proof (spends_bind cost f ltac:(unfold CAP_LOOKUP in *; lia) Hf k).
  destruct ((check_fuel cost ≫= f) k) as [[a|[]|] k']; auto; lia.
Qed.

Lemma host_call_spends alloc_ok c :
  c <> CallPrint -> spends CAP_LOOKUP (register_functions alloc_ok c).
Proof.
  intros Hp. destruct c; try done; cbn [register_functions];
    try (apply spends_at_least; [done|]; intros u; safe).
  apply spends_then; [|intros u; safe].
  apply spends_at_least; [done|]; intros u; safe.
Qed.

(** The calls a process makes one after the other; [None] once one yields. *)
Fixpoint run_slice (k : kernel) (cs : list ((Z -> bool) * HostCall)) : option kernel :=
  match cs with
  | [] => Some k
  | (alloc_ok, c) :: cs =>
      match register_functions alloc_ok c k with
      | (HTrap TrapYield, _) => None
      | (_, k') => run_slice k' cs
      end
  end.

Lemma run_slice_fuel cs k k' :
  Forall (fun c => c.2 <> CallPrint) cs -> run_slice k cs = Some k' -> YIELD_THRESHOLD <= fuel k ->
  YIELD_THRESHOLD <= fuel k' <= fuel k - CAP_LOOKUP * Z.of_nat (length cs).
Proof.
  intros Hall. revert k. induction Hall as [|[alloc_ok c] cs Hc Hcs IH]; intros k; simpl.
  { intros [= ->] ?. lia. }
  pose proof (host_call_spends alloc_ok c Hc k) as Hs.
  destruct (register_functions alloc_ok c k) as [[a|[]|] k1]; try done;
    intros H _; specialize (IH _ H); unfold CAP_LOOKUP in *; lia.
Qed.

(** ** The mutex functions *)

(** No registered mutex is locked. *)
Definition unlocked (k : kernel) : Prop :=
  forall a m, mutex_arcs (k_sync k) !! a = Some m -> mx_locked m = false.

Definition keeps {A} (I : kernel -> Prop) (m : Host A) : Prop := forall k, I k -> I (m k).2.

Lemma keeps_bind I {A B} (m : Host A) (f : A -> Host B) :
  keeps I m -> (forall a, keeps I (f a)) -> keeps I (m ≫= f).
Proof.
  intros Hm Hf k Hk. specialize (Hm k Hk). unfold mbind, Host_bind.
  destruct (m k) as [[a|t|] k1]; auto. by apply Hf.
Qed.

Lemma keeps_sync {A} (m : Host A) : (forall k, k_sync (m k).2 = k_sync k) -> keeps unlocked m.
Proof. intros H k Hk. unfold unlocked. by rewrite H. Qed.

Definition same_sync {A} (m : Host A) : Prop := forall k, k_sync (m k).2 = k_sync k.

Lemma same_sync_bind {A B} (m : Host A) (f : A -> Host B) :
  same_sync m -> (forall a, same_sync (f a)) -> same_sync (m ≫= f).
Proof.
  intros Hm Hf k. specialize (Hm k). unfold mbind, Host_bind.
  destruct (m k) as [[a|t|] k1]; auto. simpl in Hm. by rewrite Hf.
Qed.

Lemma memory_write_sync off bs : same_sync (memory_write off bs).
Proof. intros k. unfold memory_write. destruct (k_memory k); [|done]. by destruct (mem_write _ _ _). Qed.

Lemma write_caps_sync caps off : same_sync (write_caps caps off).
Proof.
  revert off. induction caps as [|c caps IH]; intros off; [done|]. cbn [write_caps].
  do 3 (apply same_sync_bind; [apply memory_write_sync|intros []; [|done]]; cbn [negb]). apply IH.
Qed.

Lemma vec_zeroed_sync alloc_ok n : same_sync (vec_zeroed alloc_ok n).
Proof. intros k. unfold vec_zeroed. crush. Qed.

Lemma read_path_sync alloc_ok m p l : same_sync (read_path alloc_ok m p l).
Proof. apply same_sync_bind; [apply vec_zeroed_sync|]. intros b. by destruct (mem_read _ _ _). Qed.

Lemma on_fs_sync {A} (f : FS -> A * FS) : same_sync (on_fs f).
Proof. intros k. unfold on_fs. by destruct (f (k_fs k)). Qed.

Lemma try_lock_unlocked a : keeps unlocked (try_lock_is_some a).
Proof.
  intros k Hk. unfold try_lock_is_some. destruct (mutex_arcs (k_sync k) !! a) as [m|] eqn:E; [|done].
  unfold AsyncMutex_try_lock. rewrite (Hk _ _ E). unfold AsyncMutexGuard_drop, AsyncMutex_wake_next. simpl.
  destruct (q_pop (mx_waiters m)) as [w ws]. simpl. intros b m'. simpl. rewrite lookup_insert_Some.
  intros [[_ <-]|[_ H]]; [done|by eapply Hk].
Qed.

Lemma create_mutex_unlocked : keeps unlocked (on_sync create_mutex).
Proof.
  intros k Hk b m. simpl. rewrite lookup_insert_Some.
  intros [[_ <-]|[_ H]]; [done|by eapply Hk].
Qed.

Lemma get_mutex_unlocked h : keeps unlocked (on_sync (fun r => get_mutex r h)).
Proof. by intros k Hk. Qed.

Lemma create_semaphore_unlocked n : keeps unlocked (on_sync (fun r => create_semaphore r n)).
Proof. by intros k Hk. Qed.

Lemma get_semaphore_unlocked h : keeps unlocked (on_sync (fun r => get_semaphore r h)).
Proof. by intros k Hk. Qed.

Lemma try_acquire_unlocked a : keeps unlocked (try_acquire_at a).
Proof.
  intros k Hk. unfold try_acquire_at. destruct (sem_arcs _ !! a); [|done].
  by destruct (Semaphore_try_acquire _ _).
Qed.

Lemma release_unlocked a : keeps unlocked (release_at a).
Proof.
  intros k Hk. unfold release_at. destruct (sem_arcs _ !! a); [|done].
  by destruct (Semaphore_release _ _).
Qed.

Ltac keep := repeat first
  [ done
  | apply keeps_sync; first
      [ apply read_path_sync | apply vec_zeroed_sync | apply memory_write_sync | apply write_caps_sync
      | apply on_fs_sync | done ]
  | apply try_lock_unlocked | apply create_mutex_unlocked | apply get_mutex_unlocked
  | apply create_semaphore_unlocked | apply get_semaphore_unlocked | apply try_acquire_unlocked
  | apply release_unlocked
  | apply keeps_bind; [|intros ?]
  | progress cbv zeta
  | case_match ].

Lemma host_call_unlocked alloc_ok c : keeps unlocked (register_functions alloc_ok c).
Proof. destruct c; cbn [register_functions]; unfold sp_fs_close; keep. Qed.

Lemma proc_run_unlocked es k : unlocked k -> unlocked (proc_run k es).
Proof.
  revert k. induction es as [|e es IH]; intros k Hk; [done|]. apply IH.
  destruct e as [m|alloc_ok c]; simpl; [by destruct (k_memory k)|by apply host_call_unlocked].
Qed.

(** With every mutex free, the lock functions succeed for every caller. *)
Lemma try_lock_is_some_free a k m :
  unlocked k -> mutex_arcs (k_sync k) !! a = Some m -> (try_lock_is_some a k).1 = HReturn true.
Proof.
  intros Hk E. unfold try_lock_is_some. rewrite E. unfold AsyncMutex_try_lock. rewrite (Hk _ _ E).
  by destruct (AsyncMutexGuard_drop _).
Qed.

Lemma check_fuel_ok cost k :
  0 <= cost -> YIELD_THRESHOLD + cost <= fuel k ->
  check_fuel cost k = (HReturn tt, set_host k (HostState_mk (capabilities (k_host k)) (fuel k - cost))).
Proof.
  intros Hc Hk. unfold check_fuel, HostState_consume_fuel, saturating_sub, YIELD_THRESHOLD in *.
  rewrite Z.max_r by lia. simpl. by rewrite (proj2 (Z.leb_le _ _)) by lia.
Qed.

(** ** Writing to linear memory *)

Lemma splice_app l off a b :
  (off + length a + length b <= length l)%nat ->
  splice (splice l off a) (off + length a) b = splice l off (a ++ b).
Proof.
  intros H. unfold splice. rewrite length_app.
  rewrite (take_app_add' (take off l) (a ++ _) off (length a)) by (rewrite length_take; lia).
  rewrite take_app_length. rewrite <- !app_assoc. do 3 f_equal.
  rewrite <- !Nat.add_assoc, drop_app_add' by (rewrite length_take; lia).
  rewrite drop_app_add', drop_drop by done. f_equal. lia.
Qed.

Lemma length_splice l off bs : (off + length bs <= length l)%nat -> length (splice l off bs) = length l.
Proof. intros. unfold splice. rewrite !length_app, length_take, length_drop. lia. Qed.

Lemma drop_splice l off bs :
  (off + length bs <= length l)%nat -> drop off (splice l off bs) = bs ++ drop (off + length bs) l.
Proof. intros. unfold splice. by rewrite drop_app_length' by (rewrite length_take; lia). Qed.

Lemma memory_write_ok off bs k m :
  k_memory k = Some m -> 0 <= off ->
  off + Z.of_nat (length bs) <= Z.of_nat (length (mem_bytes m)) ->
  exists m', memory_write off bs k = (HReturn true, set_memory k m') /\
    mem_bytes m' = splice (mem_bytes m) (Z.to_nat off) bs.
Proof.
  intros Hm Ho Hl. unfold memory_write. rewrite Hm. pose proof (mem_write_spec m off bs Ho) as Hw.
  rewrite decide_True in Hw by done. destruct (mem_write m off bs) as [m'|]; [|done].
  exists m'. simpl in Hw. by injection Hw.
Qed.

(** ** The encoding of capabilities *)

Definition encode_cap (c : Capability) : list byte :=
  le_bytes 8 (CapId_as_u64 (cap_id c)) ++ le_bytes 4 (type_val (cap_object c)) ++
  le_bytes 4 (cap_rights c).

(** What the module reads back: the id, the type tag and the rights. *)
Fixpoint decode_caps (n : nat) (bs : list byte) : list (Z * Z * Z) :=
  match n with
  | O => []
  | S n => (le_value (take 8 bs), le_value (take 4 (drop 8 bs)), le_value (take 4 (drop 12 bs)))
             :: decode_caps n (drop 16 bs)
  end.

Definition describe (c : Capability) : Z * Z * Z :=
  (CapId_as_u64 (cap_id c), type_val (cap_object c), cap_rights c).

Definition cap_wf (c : Capability) : Prop := CapId_wf (cap_id c) /\ fits 32 (cap_rights c).

Lemma length_encode c : length (encode_cap c) = 16%nat.
Proof. done. Qed.

Lemma length_encode_all caps : length (concat (encode_cap <$> caps)) = (16 * length caps)%nat.
Proof.
  induction caps as [|c caps IH]; [done|]. cbn [fmap list_fmap concat].
  rewrite length_app, length_encode, IH. simpl. lia.
Qed.

Lemma as_u64_fits c : CapId_wf (cap_id c) -> fits 64 (CapId_as_u64 (cap_id c)).
Proof.
  intros [Hi Hg]. unfold CapId_as_u64. rewrite Z.shiftl_mul_pow2, wrap_small by (unfold fits in *; lia).
  rewrite lor_add by (try done; lia). unfold fits in *. lia.
Qed.

Lemma decode_encode caps rest :
  Forall cap_wf caps ->
  decode_caps (length caps) (concat (encode_cap <$> caps) ++ rest) = describe <$> caps.
Proof.
  induction 1 as [|c caps [Hid Hr] Hc IH]; [done|]. cbn [fmap list_fmap concat length decode_caps].
  rewrite <- app_assoc. rewrite (drop_app_length' (encode_cap c) _ 16) by (by rewrite length_encode). rewrite IH. f_equal.
  assert (Ht : fits (8 * Z.of_nat 4) (type_val (cap_object c))) by (destruct (cap_object c); done).
  pose proof (le_value_bytes 8 _ (as_u64_fits c Hid)) as E1.
  pose proof (le_value_bytes 4 _ Ht) as E2. pose proof (le_value_bytes 4 _ Hr) as E3.
  unfold describe. rewrite <- E1 at 1. rewrite <- E2 at 1. rewrite <- E3 at 1. done.
Qed.

(** The next write of a sequence that has written [a] at [off] so far. *)
Lemma memory_write_next k m l off a b o :
  mem_bytes m = splice l off a -> (off + length a + length b <= length l)%nat ->
  o = Z.of_nat (off + length a) ->
  exists m', memory_write o b (set_memory k m) = (HReturn true, set_memory k m') /\
    mem_bytes m' = splice l off (a ++ b).
Proof.
  intros Hm Hl ->. destruct (memory_write_ok (Z.of_nat (off + length a)) b (set_memory k m) m)
    as (m' & -> & E); [done|lia|rewrite Hm, length_splice by lia; lia|].
  exists m'. split; [done|]. by rewrite E, Nat2Z.id, Hm, splice_app.
Qed.

Lemma write_caps_next caps k m l off a o :
  mem_bytes m = splice l off a -> (off + length a + 16 * length caps <= length l)%nat ->
  Z.of_nat (length l) <= 2 ^ 32 -> o = Z.of_nat (off + length a) ->
  exists m', write_caps caps o (set_memory k m) = (HReturn true, set_memory k m') /\
    mem_bytes m' = splice l off (a ++ concat (encode_cap <$> caps)).
Proof.
  revert m a o. induction caps as [|c caps IH]; intros m a o Hm Hl Hsz Ho.
  { exists m. by rewrite app_nil_r. }
  cbn [write_caps length] in *. unfold mbind, Host_bind.
  destruct (memory_write_next k m l off a (le_bytes 8 (CapId_as_u64 (cap_id c))) o)
    as (m1 & -> & E1); [done|rewrite length_le_bytes; lia|done|]. cbn [negb].
  rewrite (wrap_small 64 (o + 8)) by (unfold fits; lia).
  destruct (memory_write_next k m1 l off _ (le_bytes 4 (type_val (cap_object c))) (o + 8) E1)
    as (m2 & -> & E2); [rewrite length_app, !length_le_bytes; lia..|]. cbn [negb].
  rewrite (wrap_small 64 (o + 8 + 4)) by (unfold fits; lia).
  destruct (memory_write_next k m2 l off _ (le_bytes 4 (cap_rights c)) (o + 8 + 4) E2)
    as (m3 & -> & E3); [rewrite !length_app, !length_le_bytes; lia..|]. cbn [negb].
  rewrite (wrap_small 64 (o + 8 + 4 + 4)) by (unfold fits; lia).
  destruct (IH m3 _ (o + 8 + 4 + 4) E3) as (m' & -> & E');
    [rewrite !length_app, !length_le_bytes; lia|done|rewrite !length_app, !length_le_bytes; lia|].
  exists m'. split; [done|]. rewrite E'. cbn [fmap list_fmap concat]. unfold encode_cap at 2.
  by rewrite <- !app_assoc.
Qed.

Lemma write_caps_ok caps off k m :
  k_memory k = Some m -> 0 <= off ->
  off + 16 * Z.of_nat (length caps) <= Z.of_nat (length (mem_bytes m)) ->
  exists m', write_caps caps off k = (HReturn true, set_memory k m') /\
    mem_bytes m' = splice (mem_bytes m) (Z.to_nat off) (concat (encode_cap <$> caps)).
Proof.
  intros Hm Ho Hl. assert (Hk : k = set_memory k m) by (destruct k; simpl in Hm; by subst).
  destruct (write_caps_next caps k m (mem_bytes m) (Z.to_nat off) [] off) as (m' & E & Hm').
  - unfold splice. simpl. by rewrite Nat.add_0_r, take_drop.
  - simpl. lia.
  - apply mem_size.
  - simpl. lia.
  - exists m'. by rewrite <- Hk in E.
Qed.

Lemma get_capabilities_eq k m ptr len :
  let caps := btree_values (capabilities (k_host k)) in
  let count := Z.of_nat (length caps) in
  k_memory k = Some m -> 0 <= ptr < 2 ^ 31 -> 16 * count <= len < 2 ^ 31 ->
  ptr + 16 * count <= Z.of_nat (length (mem_bytes m)) ->
  YIELD_THRESHOLD + CAP_LOOKUP + MEMORY_IO * count <= fuel k ->
  exists k' m', sp_get_capabilities ptr len k = (HReturn count, k') /\ k_memory k' = Some m' /\
    mem_bytes m' = splice (mem_bytes m) (Z.to_nat ptr) (concat (encode_cap <$> caps)).
Proof.
  intros caps count Hm Hptr Hlen Hroom Hf. unfold sp_get_capabilities, YIELD_THRESHOLD, CAP_LOOKUP, MEMORY_IO in *.
  unfold mbind at 1, Host_bind at 1. rewrite check_fuel_ok by (unfold YIELD_THRESHOLD; lia).
  unfold mbind at 1, Host_bind at 1, host_get. cbn [k_memory k_host capabilities set_host]. rewrite Hm.
  fold caps. fold count. cbv zeta.
  rewrite !wrap_small by (unfold fits; lia). rewrite (proj2 (Z.ltb_ge _ _)) by lia.
  unfold mbind at 1, Host_bind at 1. rewrite check_fuel_ok by (cbn; unfold YIELD_THRESHOLD; lia).
  unfold mbind, Host_bind.
  match goal with |- context [write_caps caps ptr ?k] => destruct (write_caps_ok caps ptr k m)
    as (m' & -> & E); [done|lia|lia|] end.
  eexists _, m'. split; [unfold mret, Host_ret; by rewrite swrap_small by lia|done].
Qed.

Lemma vec_zeroed_ok alloc_ok n k :
  0 <= n <= isize_max -> (n = 0 \/ alloc_ok n = true) ->
  vec_zeroed alloc_ok n k = (HReturn (replicate (Z.to_nat n) x00), k).
Proof.
  intros Hn Ha. unfold vec_zeroed. case_decide as Hz; [by rewrite Hz|]. destruct Ha as [|Ha]; [done|].
  rewrite Ha. by rewrite (proj2 (Z.ltb_ge _ _)) by lia.
Qed.
End behaviour.

(** [sp_fs_read] through a readable file capability, with the state it leaves. *)
Lemma fs_read_ok {M Q W} `{BF : Bitflags} `{MI : WasmMemory M} `{AQ : ArrayQueue Q}
    (k : Kernel RamFs M Q W) (alloc_ok : Z -> bool) (m : M) (file buf_ptr buf_len offset h : Z)
    (content : list byte) :
  let n := Z.max 0 (Z.min buf_len (Z.of_nat (length content) - offset)) in
  k_memory k = Some m -> file_cap (k_host k) (CapId_from_u64 (as_u64 file)) = Ok h ->
  handle_view (k_fs k) h = Some (VFile content) -> Z.of_nat (length content) <= isize_max ->
  0 <= buf_len < 2 ^ 31 -> 0 <= offset < 2 ^ 31 -> 0 <= buf_ptr < 2 ^ 31 ->
  (buf_len = 0 \/ alloc_ok buf_len = true) -> buf_ptr + n <= Z.of_nat (length (mem_bytes m)) ->
  YIELD_THRESHOLD + FS_OPERATION + MEMORY_IO <= fuel_remaining (k_host k) ->
  exists m', mem_bytes m' = splice (mem_bytes m) (Z.to_nat buf_ptr) (take (Z.to_nat n) (drop (Z.to_nat offset) content)) /\
    sp_fs_read alloc_ok file buf_ptr buf_len offset k =
      (HReturn n, set_memory (set_host k (HostState_mk (capabilities (k_host k))
                    (fuel_remaining (k_host k) - FS_OPERATION - MEMORY_IO))) m').
Proof.
  intros n Hm Hcap Hv Hc Hbl Ho Hbp Ha Hroom Hf.
  unfold YIELD_THRESHOLD, FS_OPERATION, MEMORY_IO in *.
  unfold sp_fs_read. unfold mbind at 1, Host_bind at 1. rewrite check_fuel_ok by (unfold YIELD_THRESHOLD, FS_OPERATION; lia).
  unfold mbind at 1, Host_bind at 1, host_get. cbn [k_memory k_host set_host]. rewrite Hm.
  change (file_cap _ (CapId_from_u64 (as_u64 file))) with (file_cap (k_host k) (CapId_from_u64 (as_u64 file))).
  rewrite Hcap. rewrite !wrap_small by (unfold fits; lia).
  unfold mbind at 1, Host_bind at 1. rewrite vec_zeroed_ok by (unfold isize_max; auto; lia). cbn [k_fs].
  change (fs_read ?fs ?x ?y ?z) with (RamFs_read fs x y z).
  rewrite (read_file _ _ content) by (rewrite ?length_replicate; try done; unfold isize_max in *; lia).
  unfold read_count. rewrite length_replicate, Z2Nat.id by lia. fold n.
  unfold mbind at 1, Host_bind at 1. rewrite check_fuel_ok by (cbn; unfold YIELD_THRESHOLD, FS_OPERATION, MEMORY_IO; lia).
  assert (Hlen : length (take (Z.to_nat n) (drop (Z.to_nat offset) content)) = Z.to_nat n).
  { rewrite length_take, length_drop. lia. }
  rewrite (take_app_length' _ _ (Z.to_nat n)) by done.
  unfold mbind, Host_bind. match goal with |- context [memory_write buf_ptr ?bs ?k] =>
    destruct (memory_write_ok buf_ptr bs k m) as (m' & -> & E); [done|lia|rewrite Hlen; lia|] end.
  exists m'. split; [done|]. unfold mret, Host_ret. by rewrite swrap_small by lia.
Qed.

(** ** Properties *)

Section claims.
Context {FS M : Type} {Q : Type -> Type} {W : Type}.
Context `{BF : Bitflags} `{FSI : FileSystem FS} `{MI : WasmMemory M} `{AQ : ArrayQueue Q}.
Implicit Types k : Kernel FS M Q W.

(** C33: proactive yielding: a process that starts a slice with [F] units of host
    fuel makes at most [(F - 500) / 10] host calls (other than [print]) before one
    of them yields, and the fuel never falls below the threshold in between. *)
Theorem host_slice_bounded k k' (cs : list ((Z -> bool) * HostCall)) :
  Forall (fun c => c.2 <> CallPrint) cs -> YIELD_THRESHOLD <= fuel_remaining (k_host k) ->
  run_slice k cs = Some k' ->
  Z.of_nat (length cs) <= (fuel_remaining (k_host k) - YIELD_THRESHOLD) / CAP_LOOKUP /\
  YIELD_THRESHOLD <= fuel_remaining (k_host k').
Proof.
  intros Hc Hf Hr. pose proof (run_slice_fuel _ _ _ Hc Hr Hf) as H. split; [|lia].
  apply Z.div_le_lower_bound; unfold CAP_LOOKUP in *; lia.
Qed.

(** Without host fuel no host function works: below the threshold every call
    but [print] is a yield trap; this is the state [HostState::new] creates and in
    which [WasmProcess::call] runs the module. *)
Theorem host_without_fuel_yields k (alloc_ok : Z -> bool) (c : HostCall) :
  c <> CallPrint -> fuel_remaining (k_host k) < YIELD_THRESHOLD + CAP_LOOKUP ->
  (register_functions alloc_ok c k).1 = HTrap TrapYield.
Proof.
  intros Hc Hf. pose proof (host_call_spends alloc_ok c Hc k) as H.
  destruct (register_functions alloc_ok c k) as [[a|[]|] k']; simpl; try done; lia.
Qed.

(** C34: the mutex host functions exclude nobody: after any history of host calls
    (locks included) every registered mutex is free, and [sp_mutex_lock] by any
    process that holds a call capability for one returns success at once, whoever
    locked it before. *)
Theorem host_mutex_never_held k (es : list (ProcEvent (M:=M))) (hs : HostState) (cap h : Z) (a : nat) :
  unlocked k -> let k' := set_host (proc_run k es) hs in
  mutex_cap hs (CapId_from_u64 (as_u64 cap)) = Ok h ->
  default ∅ (MUTEX_REGISTRY (k_sync k')) !! h = Some a -> is_Some (mutex_arcs (k_sync k') !! a) ->
  YIELD_THRESHOLD + SYNC_OPERATION <= fuel_remaining hs ->
  (sp_mutex_lock cap k').1 = HReturn 0 /\ unlocked (sp_mutex_lock cap k').2.
Proof.
  intros Hu k' Hcap Hr [m Hm] Hf.
  assert (Hk' : unlocked k') by (unfold unlocked; simpl; by apply proc_run_unlocked).
  split; [|exact (host_call_unlocked (fun _ => true) (CallMutexLock cap) k' Hk')].
  unfold sp_mutex_lock. unfold mbind at 1, Host_bind at 1. rewrite check_fuel_ok by done.
  unfold mbind, Host_bind, host_get. cbn [k_host set_host].
  change (mutex_cap _ (CapId_from_u64 (as_u64 cap))) with (mutex_cap hs (CapId_from_u64 (as_u64 cap))).
  rewrite Hcap. unfold on_sync, get_mutex, mutex_registry.
  unfold k' in Hr. simpl in Hr |- *. rewrite Hr.
  match goal with |- context [try_lock_is_some a ?k] => set (k1 := k) end.
  pose proof (try_lock_is_some_free a k1 m Hk' Hm) as Ht.
  destruct (try_lock_is_some a k1) as [r k2]. simpl in Ht. by subst r.
Qed.

(** C35: a caller-sized buffer can take the kernel down: a process without any
    capability panics the kernel by calling [sp_fs_open] with a negative path
    length, or with one larger than the kernel heap. *)
Theorem host_path_length_panics k (alloc_ok : Z -> bool) (m : M) (dir path_ptr path_len : Z) :
  (forall n, alloc_ok n = true -> n <= HEAP_SIZE) -> k_memory k = Some m ->
  YIELD_THRESHOLD + FS_OPERATION <= fuel_remaining (k_host k) ->
  (- 2 ^ 31 <= path_len < 0 \/ HEAP_SIZE < path_len < 2 ^ 31) ->
  (sp_fs_open alloc_ok dir path_ptr path_len k).1 = HPanic.
Proof.
  intros Ha Hm Hf Hl. unfold sp_fs_open. unfold mbind at 1, Host_bind at 1. rewrite check_fuel_ok by done.
  unfold mbind at 1, Host_bind at 1, host_get. cbn [k_memory set_host]. rewrite Hm.
  assert (Hlen : HEAP_SIZE < as_usize path_len).
  { unfold HEAP_SIZE, wrap in *. destruct Hl as [Hl|Hl].
    - rewrite <- (Z_mod_plus_full _ 1), Z.mod_small; lia.
    - rewrite Z.mod_small; lia. }
  unfold read_path, mbind, Host_bind, vec_zeroed. rewrite decide_False by (unfold HEAP_SIZE in *; lia).
  destruct (alloc_ok (as_usize path_len)) eqn:E; [apply Ha in E; lia|].
  by rewrite orb_true_r.
Qed.

(** [sp_get_capabilities] round trip: with enough fuel and room it returns the
    number of capabilities, and decoding the buffer gives the id, type and rights
    of each, in the order of the ids; the memory around the buffer is unchanged. *)
Theorem host_get_capabilities_roundtrip k (m : M) (ptr len : Z) :
  let caps := btree_values (capabilities (k_host k)) in
  let count := Z.of_nat (length caps) in
  k_memory k = Some m -> Forall cap_wf caps -> 0 <= ptr < 2 ^ 31 -> 16 * count <= len < 2 ^ 31 ->
  ptr + 16 * count <= Z.of_nat (length (mem_bytes m)) ->
  YIELD_THRESHOLD + CAP_LOOKUP + MEMORY_IO * count <= fuel_remaining (k_host k) ->
  exists m', (sp_get_capabilities ptr len k).1 = HReturn count /\
    k_memory (sp_get_capabilities ptr len k).2 = Some m' /\
    decode_caps (length caps) (drop (Z.to_nat ptr) (mem_bytes m')) = describe <$> caps /\
    take (Z.to_nat ptr) (mem_bytes m') = take (Z.to_nat ptr) (mem_bytes m) /\
    drop (Z.to_nat (ptr + 16 * count)) (mem_bytes m') = drop (Z.to_nat (ptr + 16 * count)) (mem_bytes m).
Proof.
  intros caps count Hm Hwf Hptr Hlen Hroom Hf.
  destruct (get_capabilities_eq k m ptr len Hm Hptr Hlen Hroom Hf) as (k' & m' & -> & Hm' & E).
  fold caps in E. pose proof (length_encode_all caps) as Hle. exists m'. rewrite E. split_and!; try done.
  - rewrite drop_splice by lia. by apply decode_encode.
  - unfold splice. by rewrite take_app_length' by (rewrite length_take; lia).
  - replace (Z.to_nat (ptr + 16 * count)) with (Z.to_nat ptr + length (concat (encode_cap <$> caps)))%nat by lia.
    rewrite <- drop_drop, drop_splice by lia. by rewrite drop_app_length.
Qed.
End claims.

(** [sp_fs_read] end to end: through a readable file capability it returns
    [min(buf_len, size - offset)] (0 at or past the end) and places exactly these
    bytes of the file at [buf_ptr], leaving the rest of the memory alone. *)
Theorem host_fs_read_correct {M Q W} `{BF : Bitflags} `{MI : WasmMemory M} `{AQ : ArrayQueue Q}
    (k : Kernel RamFs M Q W) (alloc_ok : Z -> bool) (m : M) (file buf_ptr buf_len offset h : Z)
    (content : list byte) :
  let n := Z.max 0 (Z.min buf_len (Z.of_nat (length content) - offset)) in
  k_memory k = Some m -> file_cap (k_host k) (CapId_from_u64 (as_u64 file)) = Ok h ->
  handle_view (k_fs k) h = Some (VFile content) -> Z.of_nat (length content) <= isize_max ->
  0 <= buf_len < 2 ^ 31 -> 0 <= offset < 2 ^ 31 -> 0 <= buf_ptr < 2 ^ 31 ->
  (buf_len = 0 \/ alloc_ok buf_len = true) -> buf_ptr + n <= Z.of_nat (length (mem_bytes m)) ->
  YIELD_THRESHOLD + FS_OPERATION + MEMORY_IO <= fuel_remaining (k_host k) ->
  exists m', (sp_fs_read alloc_ok file buf_ptr buf_len offset k).1 = HReturn n /\
    k_memory (sp_fs_read alloc_ok file buf_ptr buf_len offset k).2 = Some m' /\
    mem_bytes m' = splice (mem_bytes m) (Z.to_nat buf_ptr)
      (take (Z.to_nat n) (drop (Z.to_nat offset) content)).
Proof.
  intros n Hm Hcap Hv Hc Hbl Ho Hbp Ha Hroom Hf.
  destruct (fs_read_ok k alloc_ok m file buf_ptr buf_len offset h content) as (m' & E & ->); [done..|].
  exists m'. done.
Qed.

(** ** Witnesses *)
#[local] Existing Instance Z_Bitflags.

Lemma demo_heap_bound n : demo_heap n = true -> n <= HEAP_SIZE.
Proof. unfold demo_heap, HEAP_SIZE. lia. Qed.

Lemma host_slice_bounded_witness :
  exists k', run_slice demo_reader [(demo_heap, CallFsSize 1); (demo_heap, CallMutexCreate)] = Some k' /\
    2 <= (10000 - YIELD_THRESHOLD) / CAP_LOOKUP.
Proof.
  eexists. split; [reflexivity|]. refine (proj1 (host_slice_bounded demo_reader _
    [(demo_heap, CallFsSize 1); (demo_heap, CallMutexCreate)] _ _ eq_refl)).
  - by repeat constructor.
  - done.
Defined.

Lemma host_without_fuel_yields_witness :
  (register_functions demo_heap CallMutexCreate
     (set_host demo_reader (HostState_with_capabilities []))).1 = HTrap TrapYield.
Proof. by apply (host_without_fuel_yields (set_host demo_reader (HostState_with_capabilities []))). Defined.

(** The second process locks the mutex the first one has locked. *)
Definition demo_second : HostState :=
  HostState_mk {[ CapId_mk 9 0 := Capability_mk (CapId_mk 9 0) RIGHT_CALL (CtMutex 1) 0 ]} 10000.

Lemma host_mutex_never_held_witness :
  let es := [EvCall demo_heap CallMutexCreate; EvCall demo_heap (CallMutexLock 2)] in
  (sp_mutex_lock 9 (set_host (proc_run demo_reader es) demo_second)).1 = HReturn 0.
Proof.
  refine (proj1 (host_mutex_never_held demo_reader
    [EvCall demo_heap CallMutexCreate; EvCall demo_heap (CallMutexLock 2)] demo_second 9 1 0 _ _ _ _ _));
    [by intros a m|reflexivity|reflexivity|by eexists|done].
Defined.

Lemma host_path_length_panics_witness :
  (sp_fs_open demo_heap 7 0 (-1) (demo_kernel [])).1 = HPanic.
Proof.
  apply (host_path_length_panics (demo_kernel []) demo_heap demo_memory 7 0 (-1));
    [apply demo_heap_bound|reflexivity|done|lia].
Defined.

Lemma host_get_capabilities_roundtrip_witness :
  exists m', (sp_get_capabilities 16 32 demo_reader).1 = HReturn 1 /\
    decode_caps 1 (drop 16 (bm_bytes m')) = [(1, 1, Z.lor RIGHT_READ RIGHT_EXECUTE)].
Proof.
  destruct (host_get_capabilities_roundtrip demo_reader demo_memory 16 32) as (m' & H1 & _ & H2 & _);
    [reflexivity|by_compute|lia|vm_compute; split; congruence|vm_compute; congruence|vm_compute; congruence|].
  exists m'. split; [exact H1|exact H2].
Defined.

Lemma host_fs_read_correct_witness :
  let k := proc_run demo_reader [EvCall demo_heap (CallFsOpen 1 0 1)] in
  exists m', (sp_fs_read demo_heap 2 8 16 1 k).1 = HReturn 2 /\
    bm_bytes m' = splice (bm_bytes demo_memory) 8 [x62; x63].
Proof.
  destruct (host_fs_read_correct (proc_run demo_reader [EvCall demo_heap (CallFsOpen 1 0 1)])
    demo_heap demo_memory 2 8 16 1 10000 [x61; x62; x63]) as (m' & H1 & _ & H2);
    [reflexivity|reflexivity|reflexivity|vm_compute; congruence|lia|lia|lia|by right
    |vm_compute; congruence|vm_compute; congruence|].
  exists m'. split; [exact H1|exact H2].
Defined.
