(* ===== verification/SdkSpec.v ===== *)
(** * Applications on top of the SDK

    Shows that the SDK's imports have the types the host registers (all but
    [print], which keeps the example application from being loaded), and that the
    file wrappers of the SDK compose through host functions, capabilities and the RAM
    filesystem: opening, reading and closing a file gives its bytes and leaves
    nothing behind. *)

From S2P Require Import Prelude Capability Text Vga FileSystem RamFs RamFsSpec Queue Mutex Semaphore Registry Executor Host.
From S2P Require Import Wasm Sdk HostSpec HostSecurity HostBehaviour.
Open Scope Z_scope.

(** ** A client of the SDK *)

Section client.
Context {M : Type} {Q : Type -> Type} {W : Type}.
Context `{BF : Bitflags} `{MI : WasmMemory M} `{AQ : ArrayQueue Q}.
Abbreviation kernel := (Kernel RamFs M Q W).
Abbreviation call A := (Host (FS:=RamFs) (M:=M) (Q:=Q) (W:=W) A).
Implicit Types k : kernel.

(** Opens a file below [dir], reads from it, closes it. *)
Definition load_file (alloc_ok : Z -> bool) (dir path_ptr path_len buf_ptr buf_len offset : Z) : call Z :=
  fd ← sdk_open alloc_ok dir path_ptr path_len;
  if fd <? 0 then mret fd else
  n ← sdk_read alloc_ok fd buf_ptr buf_len offset;
  _ ← sdk_close fd;
  mret n.

(** [sp_fs_open] of a file through a readable directory. *)
Lemma fs_open_ok k alloc_ok m dir path_ptr path_len path dh rights base node content :
  k_memory k = Some m -> 0 <= path_ptr < 2 ^ 31 -> 0 <= path_len < 2 ^ 31 -> (path_len = 0 \/ alloc_ok path_len = true) ->
  path_ptr + path_len <= Z.of_nat (length (mem_bytes m)) ->
  from_utf8 (take (Z.to_nat path_len) (drop (Z.to_nat path_ptr) (mem_bytes m))) = Some path ->
  dir_cap (k_host k) RIGHT_READ (CapId_from_u64 (as_u64 dir)) = Ok (dh, rights) ->
  open_handles (k_fs k) !! dh = Some base -> walk (nodes (k_fs k)) base (path_parts path) = Ok node ->
  nodes (k_fs k) !! node = Some (File content) ->
  fits 32 (k_next_cap k) -> YIELD_THRESHOLD + FS_OPERATION <= fuel_remaining (k_host k) ->
  let h := next_handle_at (k_fs k) in
  let id := CapId_mk (k_next_cap k) 0 in
  let cap := Capability_mk id (rights_and rights (rights_or RIGHT_READ RIGHT_WRITE)) (CtFile h) 0 in
  sp_fs_open alloc_ok dir path_ptr path_len k =
    (HReturn (k_next_cap k),
     Kernel_mk (HostState_mk (<[id := cap]> (capabilities (k_host k))) (fuel_remaining (k_host k) - FS_OPERATION))
       (Some m) (insert_handle (k_fs k) h node (next_handle (k_fs k)) (as_u32 (h + 1))) (k_sync k)
       (as_u32 (k_next_cap k + 1)) (k_woken k) (k_console k)).
Proof.
  intros Hm Hpp Hpl Ha Hroom Hutf Hdir Hb Hw Hn Hc Hf h id cap. unfold sp_fs_open.
  unfold mbind at 1, Host_bind at 1. rewrite check_fuel_ok by (unfold FS_OPERATION in *; lia).
  unfold mbind at 1, Host_bind at 1, host_get. cbn [k_memory k_host set_host]. rewrite Hm.
  unfold mbind at 1, Host_bind at 1, read_path. unfold mbind at 1, Host_bind at 1.
  rewrite !wrap_small by (unfold fits; lia). rewrite vec_zeroed_ok by (unfold isize_max; auto; lia).
  rewrite length_replicate, Z2Nat.id, mem_read_spec, decide_True, Hutf by lia. cbn [ok_or mret Host_ret].
  change (dir_cap _ RIGHT_READ _) with (dir_cap (k_host k) RIGHT_READ (CapId_from_u64 (as_u64 dir))). rewrite Hdir.
  unfold mbind at 1, Host_bind at 1, on_fs.
  change (fs_open_at _ dh path) with (RamFs_open_at (k_fs k) dh path). unfold RamFs_open_at. rewrite Hb, Hw.
  unfold fetch_add, mbind, Host_bind. cbn [k_fs set_fs].
  assert (Hd : forall h', fs_is_dir (insert_handle (k_fs k) h' node (next_handle (k_fs k)) (as_u32 (h' + 1))) h' = false).
  { intros h'. simpl. unfold RamFs_is_dir. simpl. by rewrite lookup_insert_eq, Hn. }
  rewrite Hd.
  unfold grant_capability, Capability_new. cbn. pose proof (CapId_as_i64_gen0 (k_next_cap k) Hc) as ->. rewrite <- Hm. done.
Qed.

(** [sp_fs_close] of a capability for a file. *)
Lemma fs_close_ok k file id cap h :
  CapId_from_u64 (as_u64 file) = id -> capabilities (k_host k) !! id = Some cap -> cap_object cap = CtFile h ->
  fits 32 h -> YIELD_THRESHOLD + CAP_LOOKUP <= fuel_remaining (k_host k) ->
  sp_fs_close file k =
    (HReturn tt, set_fs (set_host k (HostState_mk (delete id (capabilities (k_host k))) (fuel_remaining (k_host k) - CAP_LOOKUP)))
                   (RamFs_close (k_fs k) h)).
Proof.
  intros Hid Hc Ho Hh Hf. unfold sp_fs_close. unfold mbind at 1, Host_bind at 1.
  rewrite check_fuel_ok by (unfold CAP_LOOKUP in *; lia). unfold mbind at 1, Host_bind at 1, host_get.
  cbn [k_host set_host capabilities]. rewrite Hid, Hc. unfold mbind, Host_bind. rewrite Ho.
  unfold on_fs. by rewrite wrap_small.
Qed.

Lemma capid_of_index n : fits 32 n -> CapId_from_u64 (as_u64 n) = CapId_mk n 0.
Proof.
  intros Hn. rewrite wrap_small by (by eapply fits_mono; [|exact Hn]). rewrite CapId_from_u64_value.
  unfold fits in Hn. rewrite Z.mod_small, (Z.div_small n) by lia. done.
Qed.

Lemma dir_cap_readable (hs : HostState) id h rights :
  dir_cap hs RIGHT_READ id = Ok (h, rights) ->
  rights_contains (rights_and rights (rights_or RIGHT_READ RIGHT_WRITE)) RIGHT_READ = true.
Proof.
  unfold dir_cap. intros Hd. repeat case_match; simplify_eq/=.
  rewrite rights_contains_bits, rights_and_bits, rights_or_bits in *.
  match goal with H : Z.land ?r RIGHT_READ = _ |- _ => revert H; generalize r; intros r0 Hr end.
  rewrite <- Z.land_assoc. exact Hr.
Qed.
End client.

(** ** Properties *)

(** C11: Reading a file through the SDK.  A process with a readable directory
    capability that opens a file by a path in its memory, reads from it and closes it
    gets exactly the requested part of the file in its buffer; capabilities, open
    handles and the tree of files are afterwards what they were. *)
Theorem sdk_load_file {M Q W} `{BF : Bitflags} `{MI : WasmMemory M} `{AQ : ArrayQueue Q}
    (k : Kernel RamFs M Q W) (alloc_ok : Z -> bool) (m : M) (dir path_ptr path_len buf_ptr buf_len offset : Z)
    (path : string) (dh rights : Z) (base node : nat) (content : list byte) :
  let n := Z.max 0 (Z.min buf_len (Z.of_nat (length content) - offset)) in
  k_memory k = Some m ->
  0 <= path_ptr < 2 ^ 31 -> 0 <= path_len < 2 ^ 31 -> 0 <= buf_ptr < 2 ^ 31 -> 0 <= buf_len < 2 ^ 31 -> 0 <= offset < 2 ^ 31 ->
  (path_len = 0 \/ alloc_ok path_len = true) -> (buf_len = 0 \/ alloc_ok buf_len = true) ->
  path_ptr + path_len <= Z.of_nat (length (mem_bytes m)) -> buf_ptr + n <= Z.of_nat (length (mem_bytes m)) ->
  from_utf8 (take (Z.to_nat path_len) (drop (Z.to_nat path_ptr) (mem_bytes m))) = Some path ->
  dir_cap (k_host k) RIGHT_READ (CapId_from_u64 (as_u64 dir)) = Ok (dh, rights) ->
  open_handles (k_fs k) !! dh = Some base -> walk (nodes (k_fs k)) base (path_parts path) = Ok node ->
  nodes (k_fs k) !! node = Some (File content) -> Z.of_nat (length content) <= isize_max ->
  fits 32 (k_next_cap k) -> capabilities (k_host k) !! CapId_mk (k_next_cap k) 0 = None ->
  fits 32 (next_handle_at (k_fs k)) -> open_handles (k_fs k) !! next_handle_at (k_fs k) = None ->
  YIELD_THRESHOLD + 2 * FS_OPERATION + MEMORY_IO + CAP_LOOKUP <= fuel_remaining (k_host k) ->
  exists k' m', load_file alloc_ok dir path_ptr path_len buf_ptr buf_len offset k = (HReturn n, k') /\
    k_memory k' = Some m' /\
    mem_bytes m' = splice (mem_bytes m) (Z.to_nat buf_ptr) (take (Z.to_nat n) (drop (Z.to_nat offset) content)) /\
    capabilities (k_host k') = capabilities (k_host k) /\
    open_handles (k_fs k') = open_handles (k_fs k) /\ nodes (k_fs k') = nodes (k_fs k).
Proof.
  intros n Hm Hpp Hpl Hbp Hbl Ho Ha1 Ha2 Hr1 Hr2 Hutf Hdir Hb Hw Hn Hc Hcap Hfresh Hh Hhf Hf.
  unfold YIELD_THRESHOLD, FS_OPERATION, MEMORY_IO, CAP_LOOKUP in Hf.
  unfold load_file, sdk_open, sdk_read, sdk_close. rewrite !swrap_small by lia. unfold mbind, Host_bind.
  rewrite (fs_open_ok k alloc_ok m dir path_ptr path_len path dh rights base node content)
    by (try done; unfold YIELD_THRESHOLD, FS_OPERATION; lia).
  rewrite (proj2 (Z.ltb_ge _ _)) by apply Hcap.
  set (id := CapId_mk (k_next_cap k) 0). set (h := next_handle_at (k_fs k)) in *. set (k1 := Kernel_mk _ _ _ _ _ _ _).
  destruct (fs_read_ok k1 alloc_ok m (k_next_cap k) buf_ptr buf_len offset h content) as (m' & E & Hread);
    try done; try (simpl; unfold YIELD_THRESHOLD, FS_OPERATION, MEMORY_IO; lia).
  - rewrite capid_of_index by done. unfold file_cap, HostState_get_capability. simpl. rewrite lookup_insert_eq. simpl.
    rewrite (dir_cap_readable _ _ _ _ Hdir). by rewrite wrap_small.
  - unfold handle_view. simpl. by rewrite lookup_insert_eq; simpl; rewrite Hn.
  - rewrite Hread. erewrite fs_close_ok; [|by apply capid_of_index|simpl; apply lookup_insert_eq|done|exact Hh|];
      [|simpl; unfold YIELD_THRESHOLD, CAP_LOOKUP, FS_OPERATION, MEMORY_IO; lia].
    eexists _, m'. split; [done|]. simpl. rewrite !delete_insert_id by done. done.
Qed.

(** C38: The SDK's imports have the types the host registers, all but one: the
    SDK passes a pointer and a length to [print], the host's takes nothing.  A module
    that imports what the example application calls is therefore never loaded,
    whatever capabilities it is given. *)
Theorem sdk_imports_typed {Store Instance Func Inv Error : Type} `{WI : Wasmi Store Instance Func Inv Error}
    (bytes : list byte) (caps : list Capability) (dir_cap : Z) :
  (forall name ft, (name, ft) ∈ sdk_imports -> host_signature name = Some ft \/ name = "print"%string) /\
  host_signature "print" <> Some ([TI32; TI32], []) /\
  ((forall c, c ∈ hello_start -> app_import c ∈ wasm_imports bytes) \/
   (forall c, c ∈ hello_run_with_cap dir_cap -> app_import c ∈ wasm_imports bytes) ->
   exists e, spawn_process_with_caps bytes caps = ([], Err e)).
Proof.
  assert (Hp : host_signature "print" <> Some ([TI32; TI32], [])) by (vm_compute; congruence).
  split_and!; [|done|].
  - intros name ft Hin. assert (Hall : Forall (fun i => host_signature i.1 = Some i.2 \/ i.1 = "print"%string) sdk_imports).
    { repeat (apply Forall_cons; split; [vm_compute; auto|]). constructor. }
    rewrite list.Forall_forall in Hall. apply (Hall _ Hin).
  - intros Himp. assert (Hin : ("print"%string, ([TI32; TI32], [])) ∈ wasm_imports bytes).
    { destruct Himp as [Hi|Hi]; [apply (Hi (PrintStr ("Hello from WASM!" ++ NL)))|apply (Hi (PrintStr ("Running with granted capability!" ++ NL)))];
        by left. }
    destruct (wasm_link bytes (HostState_with_capabilities caps) _ _ Hin Hp) as [e He].
    exists e. unfold spawn_process_with_caps. by rewrite He.
Qed.

(** ** Witnesses *)

(** An interpreter for which every module but the empty one imports what [hello] does. *)
#[local] Instance link_Wasmi : Wasmi HostState unit unit unit unit.
Proof.
  refine {| wasm_instantiate := fun bytes h => match bytes with [] => (Ok (h, tt), 0%nat) | _ => (Err tt, 0%nat) end;
            wasm_imports := fun bytes => match bytes with [] => [] | _ => app_import <$> hello_start end;
            wasm_add_fuel := fun s _ => (Ok tt, s);
            wasm_data := fun s => s; wasm_set_data := fun _ h => h;
            wasm_get_func := fun _ _ _ => None;
            wasm_call := fun _ s _ rs => (Err tt, s, 0%nat);
            wasm_func_results := fun _ => 0%nat; wasm_error_debug := fun _ => "InvalidTypeForImport"%string;
            wasm_call_resumable := fun _ s _ rs => (Err tt, s, 0%nat); wasm_resume := fun _ s vs _ => (Err tt, s, 0%nat);
            wasm_unreachable := tt; wasm_results := fun _ => 0%nat |}; [done|by eexists _, _..| |by eexists _, _].
  intros bytes h name ft Hin _. destruct bytes; [by apply elem_of_nil in Hin|by exists tt].
Defined.

Lemma sdk_imports_typed_witness : exists e, spawn_process_with_caps (WI:=link_Wasmi) [x00] [] = ([], Err e).
Proof.
  apply (proj2 (proj2 (sdk_imports_typed (WI:=link_Wasmi) [x00] [] 0))). left. intros c Hc. by apply list_elem_of_fmap_2.
Defined.

#[local] Existing Instance Z_Bitflags.

Lemma sdk_load_file_witness :
  exists k' m', load_file demo_heap 1 0 1 8 16 1 demo_reader = (HReturn 2, k') /\
    bm_bytes m' = splice (bm_bytes demo_memory) 8 [x62; x63] /\
    open_handles (k_fs k') = open_handles (k_fs demo_reader).
Proof.
  destruct (sdk_load_file demo_reader demo_heap demo_memory 1 0 1 8 16 1 "f" 1 (Z.lor RIGHT_READ RIGHT_EXECUTE) 1 2
    [x61; x62; x63]) as (k' & m' & H1 & _ & H2 & _ & H3 & _);
    [reflexivity|lia|lia|lia|lia|lia|by right|by right|vm_compute; congruence|vm_compute; congruence|reflexivity|reflexivity
    |reflexivity|reflexivity|reflexivity|vm_compute; congruence|vm_compute; split; congruence|reflexivity
    |vm_compute; split; congruence|reflexivity|vm_compute; congruence|].
  exists k', m'. split_and!; [exact H1|exact H2|exact H3].
Defined.
